(* ===== verification/_CoqProject ===== *)
-Q . S2P
Prelude.v
Threads.v
Js.v
Schema.v
Errors.v
Prisma.v
Retry.v
PrismaService.v
Interfaces.v
Auth.v
Session.v
WalletSession.v
Double.v
Vault.v
WebhookDispatch.v
Invoices.v
SettlementEvents.v
Settlement.v
SettlementSync.v
SettlementListeners.v
Webhooks.v
DeliveryInstances.v
Schedules.v
Amount.v
Documents.v
Compliance.v
ExportJobs.v
RateLimit.v
LoadTest.v
CircuitBreaker.v
Idempotency.v
IdempotentRequests.v
Oracle.v
OraclePolls.v
OracleLoadTest.v
Soroban.v
Trustline.v
PriceFeed.v
Financing.v
FundingRequests.v
Monitoring.v
Horizon.v
Reminders.v
Startup.v
Endpoints.v
OfflineQueue.v
IndexedDb.v
Connectivity.v
Simulation.v
Wizard.v
Portfolio.v
Live.v
Finance.v
