(* ===== verification/Prelude.v ===== *)
(** * InvoiceFi-Stellar: verification of the backend and the web client

    InvoiceFi finances invoices on the Stellar network: an invoice is mirrored in PostgreSQL,
    funded through a Soroban contract, and marked repaid when the contract's settlement event
    is observed; partners are told by webhooks, and regulators get signed exports.  Users sign
    in with a wallet, create and fund invoices in a web client, and follow them live.  This
    library models the TypeScript of the backend ([src/backend/src], to which the paths below
    are relative unless they say otherwise), of the trustline service of [src/apps/api], and of
    the parts of the web client ([src/frontend]) that have a state of their own, and proves what
    makes them correct.

    ** How the program is modelled

    An [async] method is a function from a world [W] to an outcome and the next world
    ([M] below): a value or a thrown exception ([Errors.exn]), with [try_catch], [for_of] and
    [promise_all] for the control flow.  [W] is abstract.  What the program calls but does not
    contain enters through type classes over [W], with the documented behaviour relied on as
    law classes: the Prisma client and PostgreSQL ([Prisma.Prisma]: statements that may fail,
    atomic [transaction]s), the clock and the timers, Node's crypto, Redis commands, HTTP, JSON
    and Base64, the Stellar SDK, the Soroban RPC, Horizon, Vault, the browser's storage and the
    wallet extensions.  Every theorem is proved for all instances; concrete instances
    ([Prisma.mem] and small ones in the [...Examples] modules) show that the laws can hold and
    execute the witnesses.  Specifications are written with [wp], the weakest precondition of a
    computation, and the [wp_...] lemmas of each operation.

    Code whose calls overlap is a machine: a configuration, one transition per stretch of code
    that runs without waiting, and [run] below, which closes a step relation over the events
    that are allowed where they happen.  An [await] ends a transition; what follows it is a task
    of the configuration, and its completion is an event like the user's actions.  Theorems
    about such a machine hold under every interleaving that their [allowed] admits.

    Methods of the backend that run next to each other, in one process or in several, are
    threads (Threads.v): the method cut at its awaits, with a proof ([cuts]) that its pieces in a
    row are the method.  A pool of threads advances piece by piece; processes may crash between
    any two pieces.  An invariant of a pool speaks of the world and of an auxiliary state per
    thread; [safe] is what a thread has to keep, and [pool_sound] that every interleaving then
    keeps the invariant.

    Integers of the language are [Z] where the program uses them as integers (see Js.v), and
    IEEE doubles (Double.v) where it computes with fractions or with unchecked input; Double.v
    proves that on integers below [2^53] the two agree.  Machine limits are written out where the
    code has them, [bigint]s are [Z], dates are milliseconds, [Map]s are [gmap]s, or association
    lists where their order is observed, and tables are lists of records in insertion order.
    [this.prisma] is modelled as the list of the members it really has
    ([PrismaService.handle]): a member that the injected class lacks is a [TypeError], and
    theorems say which members they need.

    ** Parts, in the order of the files

    - Prelude.v (this file): the monad, [wp] and its tactics, [run], lemmas on lists and sums.
    - Threads.v: threads, pools of threads, and the rule for their invariants.
    - Js.v: the strings, numerals, numbers, values and dates of JavaScript that are used.
    - Schema.v: [prisma/schema.prisma], one record per table ([Table] is the class of tables).
    - Errors.v: exceptions, [common/contract-error.ts].
    - Prisma.v: the interface of the database client, its laws, and the instance [mem].
    - Retry.v: [common/retry.ts], [webhooks/retry-schedule.ts].
    - PrismaService.v: [prisma/prisma.service.ts], the injected handle and the retry on
      rotated credentials.
    - Interfaces.v: [Crypto], [Hrtime], and [InvoiceEventSink], which is what the webhook
      dispatcher promises to settlement.
    - Auth.v: [compliance/jwt.ts], [principal.ts], [compliance-access.guard.ts],
      [webhooks/webhook-access.guard.ts].
    - Session.v: [auth/], and [middleware.ts] of the web client.
    - WalletSession.v: the wallet context, the adapters, the API client, the sign-in page and
      the session guard of the web client.
    - Double.v: numbers as IEEE doubles, their arithmetic and their text.
    - Vault.v: [config/vault/] and the life cycle of the database client.
    - WebhookDispatch.v: [webhooks/webhook-dispatch.service.ts]; discharges
      [InvoiceEventSink].
    - Invoices.v: [invoices/invoice-event.service.ts], [invoices/invoices.service.ts].
    - SettlementEvents.v, Settlement.v, SettlementSync.v: the directory [settlement/]: decoding of
      events, the settlement of one invoice, the ledger cursor, and the poll cycle.
    - SettlementListeners.v: poll cycles and back-fills of several instances as threads.
    - Webhooks.v: the rest of [webhooks/]: URL screening, subscriptions, the delivery worker,
      the delivery log, signing, the controller.
    - DeliveryInstances.v: delivery workers of several instances as threads.
    - Schedules.v: the guarded timers of both services, and the settings of the listener.
    - Amount.v, Documents.v, Compliance.v: [compliance/]: amounts and CSV, FATF records and the
      investor report, export jobs and access to them.
    - ExportJobs.v: the export jobs of all instances as threads.
    - RateLimit.v, CircuitBreaker.v, Idempotency.v: [common/].
    - LoadTest.v: [load-tests/rate-limiting.k6.js] against the middleware of RateLimit.v.
    - IdempotentRequests.v: concurrent requests with idempotency keys as threads.
    - Oracle.v: [oracle-monitor/].
    - OraclePolls.v: polls of one oracle monitor that overlap, as threads.
    - OracleLoadTest.v: [load-tests/oracle-monitor.k6.js] against Oracle.v and RateLimit.v.
    - Soroban.v, Financing.v: [soroban/soroban.service.ts], [financing-pool/].
    - FundingRequests.v: concurrent requests to fund invoices as threads, next to settlements.
    - Trustline.v: the trustline service of [src/apps/api].
    - PriceFeed.v: [oracle-price-feed/].
    - Monitoring.v, Horizon.v: [monitoring/]: the alert dispatcher, and the anomaly detector on
      the Horizon stream.
    - Reminders.v: [invoice-reminder/] with the services that it calls.
    - Startup.v: what services do when the modules start: the mail transport, the signing key,
      the Redis connection, the queues of the reminders.
    - Endpoints.v: the exception filters of [common/] and the controllers.
    - OfflineQueue.v, IndexedDb.v: [hooks/useOfflineQueue.ts] of the web client, and its store.
    - Connectivity.v: network status, optimistic updates and the user's actions (web client).
    - Simulation.v, Wizard.v: the simulation of a transaction with its preview, and the wizard
      that creates an invoice (web client).
    - Portfolio.v: the investor's portfolio table (web client).
    - Live.v: the notification gateway and service, the pool statistics, the farmer's dashboard,
      the offline indicator and the service worker.
    - Finance.v: [common/financial-calculations.ts].

    Settlement calls the audit log (Invoices.v) and the [InvoiceEventSink]; SettlementSync calls
    Settlement, the cursor and the RPC under [withRetry]; the delivery worker consumes the rows
    that WebhookDispatch enqueued; Compliance takes its principals from Auth.v and its documents
    from Documents.v; Financing calls Oracle, Soroban and the audit log; PriceFeed calls Soroban;
    Reminders and Horizon call the alert dispatcher; Vault gives PrismaService the connection that
    its retry renews; Endpoints composes the filters with the session guard of WalletSession;
    SettlementListeners, DeliveryInstances, IdempotentRequests, FundingRequests, ExportJobs and OraclePolls
    run the methods of the files that they are named after; Schedules puts the cycles of both services behind their flags;
    IndexedDb discharges the interface that OfflineQueue is proved against;
    Connectivity instantiates the callbacks of OfflineQueue; Wizard uses the hook of Simulation;
    Live composes the gateway with the dashboards that listen to it.

    ** What the theorems show

    - Settlement: a settlement commits the row, its audit event and its webhooks together or not
      at all, on every branch ([settleInvoice_atomic], [settleInvoice_result]), and twice is once
      ([settle_twice]); the cursor never covers an event that was not applied, whichever listeners
      and back-fills run next to each other and wherever they crash, as long as each ledger has
      one event ([listeners_cover_applied]; within one cycle also [batch_cursor_covers_applied]
      and [syncOnce_monotone]); cycles of one instance never overlap, and none blocks the later
      ones ([ticks_exclusive]).
    - Funding: all or nothing in the database and only after a successful contract call
      ([fund_all_or_nothing]); under every interleaving of requests, settlements and crashes an
      invoice is funded and audited at most once and never taken back, provided that the contract
      funds it once ([funding_interleaved]; both what a crash strands and what happens without the
      contract's guarantee are shown in [FundingRequestExamples]); a contract call submits at most one transaction, after its own
      simulation, and fails with typed errors ([invoke_submits_once], [numeric_code_decides]);
      the verdict of a trustline check on every answer of the network ([validate_verdict]).
    - Idempotency: of any number of concurrent requests with a key at most one runs the handler at
      a time, and stored responses stay ([requests_exclusive], [claim_once]); the stored response
      is what later requests get ([replay_after_persist]).
    - Transactions in the client: the wizard says "submitted" only after a valid form was
      confirmed and a simulation succeeded ([submitted_after_simulation]); as long as the user
      neither confirms nor cancels while an answer is awaited, only what has passed its own
      simulation is signed ([calm_signing_safe]); the fee that is shown is exact ([fee_exact]).
    - Webhooks: one delivery per interested subscription, also on re-dispatch
      ([dispatch_exactly_once], [sink_laws]); workers of any number of instances attempt a
      delivery one at a time ([instances_exclusive]), keep the queue well-formed
      ([poll_keeps_queue]) and conclude each attempt as the schedule says ([attempt_verdict]).
    - Access: tokens, principals and exports ([verify_sound], [resolvePrincipal_sound],
      [export_scope]); the dashboards of the client ([dashboards_guarded]); which errors of the
      backend end a session, and what ending it leaves ([session_errors_reach_client],
      [external_sign_out]).
    - Secrets: the backend starts with all its secrets or not at all
      ([bootstrap_all_or_nothing]), and a database call survives rotations of the credentials
      ([rotation_recovers]).
    - Documents: exports are verifiable, reports add up, and amounts and CSV round-trip
      ([exports_verifiable], [report_adds_up], [amount_roundtrip], [csv_roundtrip]); an export job
      always ends ([processJob_settles]), and any number of them follow the life of a job under
      every interleaving ([jobs_follow_their_life]; a restart strands them, [restart_strands]).
    - Protection: the Redis script is the sliding window of its reference definition
      ([checkLimit_sliding_window]); a circuit is consistent under every interleaving of calls
      ([breaker_consistent]); the detector's windows are the recent events of its history, its
      alerts those of the reference rules ([detector_exact], [events_well_typed]); polls of the
      oracle monitor that overlap leave its feeds well-formed and its readings in order
      ([polls_interleaved]; alone a poll is the sequential one, [oracle_poll_alone]).
    - Queues: reminders are scheduled once per invoice and window ([schedule_idempotent]), and
      replaying the offline queue loses no mutation and ends in a verdict
      ([replay_loses_nothing], [replay_verdict]), on the store that the helpers make of IndexedDB
      ([offline_laws]).
    - Views with a state: the rows of the portfolio's pages are the filtered invoices in order,
      and the page stays in bounds ([table_rows], [page_in_bounds]).
    - Lemmas that these use, or that say more of a component, stand beside them in each file;
      where the code does not do what it means to, the behaviour it has is proved
      ([settle_unbound_txHash], [monitor_never_stale], [shared_ledger_event_lost],
      [fund_never_succeeds], [endpoint_throws], [sponsor_lost], [host_check_gaps],
      [reminder_never_sent], [interrupted_is_stranded], [issued_sessions_refused],
      [unknown_role_loops], [start_fails], [price_never_published], [discount_never_raised],
      [never_notified], [continue_is_a_dead_end], [late_attempt_requeues], [cursor_moves_back],
      [truncated_answer_lost], [slow_handler_runs_twice], [load_test_verdict],
      [load_is_throttled], [checks_always_pass], [crash_strands], [late_request_takes_back],
      [reminder_ends_in_dlq], [nothing_settled], [older_price_wins],
      [fallback_alert_repeats], ...).

    ** Fuel and bounds

    Loops over lists are structural ([for_of]).  [withRetry] recurses on the attempts that are
    left, which the code bounds itself.  The [while (true)] loop of the credential rotation has
    one unit of fuel per retry that the code allows, and [rotation_loop_outcome] shows that it
    ends before the fuel does; [Js.print_digits] has one unit per binary digit, more than a
    number has decimal ones ([Js.nat_digits_spec]).  [Session.Middleware.visit] counts the
    pages that a browser asks for: [dashboards_guarded] shows that two are enough for every role
    that the middleware knows, and that for another no number is.
    [Double.shortest] tries 1 to 17 significant digits, of which 17 always suffice for a double.

    ** What is not modelled

    The NestJS modules and the entry point, request types without logic, pages, markup and
    styling, migrations, scripts, the printed summaries of the load tests and the tests themselves
    have no logic of the program; the Rust contracts are another program in another language.  The transports (sockets,
    SMTP, HTTP servers, IndexedDB) are parameters.  Delivery workers, settlement listeners,
    requests with idempotency keys, funding requests, export jobs, oracle polls, timers and the circuit
    breaker are proved under every interleaving; the other services of the backend are modelled one call after the other, with
    their database statements stated for any world.  In a pool the pieces of one settlement
    transaction are one step, as the database's isolation has it.  Logging is dropped
    throughout. *)
From stdpp Require Export base tactics option list list_numbers strings gmap sorting.
From Stdlib Require Export ZArith Lia.

(** ** Outcomes and the state-and-exception monad

    An [async] method of the backend is modelled as a function from the world it runs
    in to an outcome and the world it leaves behind: a resolved promise is [Ret], a
    rejected one (a thrown exception) is [Throw]. *)

Inductive outcome (E A : Type) : Type :=
| Ret (a : A)
| Throw (e : E).

Arguments Ret {E A} a.
Arguments Throw {E A} e.

Definition M (E W A : Type) : Type := W → outcome E A * W.

#[export] Instance M_ret {E W : Type} : MRet (M E W) := λ A a w, (Ret a, w).

#[export] Instance M_bind {E W : Type} : MBind (M E W) := λ A B f m w,
  match m w with
  | (Ret a, w') => f a w'
  | (Throw e, w') => (Throw e, w')
  end.

Definition throw {E W A : Type} (e : E) : M E W A := λ w, (Throw e, w).

(** [try { m } catch (e) { h e }] *)
Definition try_catch {E W A : Type} (m : M E W A) (h : E → M E W A) : M E W A := λ w,
  match m w with
  | (Ret a, w') => (Ret a, w')
  | (Throw e, w') => h e w'
  end.

(** The monad laws hold pointwise. *)
Lemma bind_assoc {E W A B C : Type} (m : M E W A) (f : A → M E W B) (g : B → M E W C) (w : W) :
  ((m ≫= f) ≫= g) w = (m ≫= λ a, f a ≫= g) w.
Proof. unfold mbind, M_bind. by destruct (m w) as [[a|e] w']. Qed.

Lemma bind_ext {E W A B : Type} (m : M E W A) (f g : A → M E W B) (w : W) :
  (∀ a w', f a w' = g a w') → (m ≫= f) w = (m ≫= g) w.
Proof. intros H. unfold mbind, M_bind. by destruct (m w) as [[a|e] w']. Qed.

(** [for (const a of l) { s = body(s, a) }], where the body may leave the enclosing
    function early by returning [inr r]. *)
Fixpoint for_of {E W A S R : Type} (l : list A) (s : S) (body : S → A → M E W (S + R))
    : M E W (S + R) :=
  match l with
  | [] => mret (inl s)
  | a :: l' =>
      r ← body s a;
      match r with
      | inl s' => for_of l' s' body
      | inr x => mret (inr x)
      end
  end.

(** [await Promise.all(tasks)]: every task is started and none is cancelled when another one
    rejects; the result is the first rejection.  The tasks are run one after the other, which
    is one of their interleavings. *)
Fixpoint promise_all {E W : Type} (tasks : list (M E W unit)) : M E W unit :=
  match tasks with
  | [] => mret tt
  | m :: tasks' => λ w,
      match m w with
      | (Ret _, w') => promise_all tasks' w'
      | (Throw e, w') => (Throw e, (promise_all tasks' w').2)
      end
  end.

(** [const [a, b, ...] = await Promise.all(tasks)] *)
Fixpoint promise_all_values {E W A : Type} (tasks : list (M E W A)) : M E W (list A) :=
  match tasks with
  | [] => mret []
  | m :: tasks' => λ w,
      match m w with
      | (Ret a, w') =>
          match promise_all_values tasks' w' with
          | (Ret l, w'') => (Ret (a :: l), w'')
          | (Throw e, w'') => (Throw e, w'')
          end
      | (Throw e, w') => (Throw e, (promise_all_values tasks' w').2)
      end
  end.

(** Running in the world alone a computation of a service that also has a state [S] of its own. *)
Definition on_world {E S W A : Type} (m : M E W A) : M E (S * W) A := λ '(s, w),
  let '(r, w') := m w in (r, (s, w')).

(** ** Weakest preconditions

    [wp m Φ w]: running [m] in the world [w] ends in an outcome and a world that satisfy
    the postcondition [Φ].  A postcondition speaks of returned values and of thrown
    exceptions alike, so error paths are specified like the others. *)
Definition wp {E W A : Type} (m : M E W A) (Φ : outcome E A → W → Prop) (w : W) : Prop :=
  Φ (m w).1 (m w).2.

Arguments wp : simpl never.

(** ** Lists as the code uses them *)

Definition count_if {A : Type} (p : A → bool) (l : list A) : Z :=
  Z.of_nat (length (List.filter p l)).

Definition sum_Z {A : Type} (f : A → Z) (l : list A) : Z :=
  foldr (λ a acc, f a + acc)%Z 0%Z l.

(** Conditional update of every row of a table. *)
Definition map_if {A : Type} (p : A → bool) (f : A → A) (l : list A) : list A :=
  map (λ a, if p a then f a else a) l.

(** ** Rules of the weakest-precondition calculus *)
Section wp_rules.
Context {E W A B : Type}.
Implicit Types (m : M E W A) (w : W).

Lemma wp_ret (a : A) (Φ : outcome E A → W → Prop) w : Φ (Ret a) w → wp (mret a) Φ w.
Proof. done. Qed.

Lemma wp_throw (e : E) (Φ : outcome E A → W → Prop) w : Φ (Throw e) w → wp (throw e) Φ w.
Proof. done. Qed.

Lemma wp_bind m (f : A → M E W B) (Φ : outcome E B → W → Prop) w :
  wp m (λ r w', match r with Ret a => wp (f a) Φ w' | Throw e => Φ (Throw e) w' end) w →
  wp (m ≫= f) Φ w.
Proof. unfold wp, mbind, M_bind. by destruct (m w) as [[] ?]. Qed.

Lemma wp_try m (h : E → M E W A) (Φ : outcome E A → W → Prop) w :
  wp m (λ r w', match r with Ret a => Φ (Ret a) w' | Throw e => wp (h e) Φ w' end) w →
  wp (try_catch m h) Φ w.
Proof. unfold wp, try_catch. by destruct (m w) as [[] ?]. Qed.

Lemma wp_on_world {S : Type} m (Φ : outcome E A → S * W → Prop) (s : S) w :
  wp m (λ r w', Φ r (s, w')) w → wp (on_world m) Φ (s, w).
Proof. unfold wp, on_world. by destruct (m w). Qed.

Lemma wp_mono m (Φ Ψ : outcome E A → W → Prop) w :
  wp m Φ w → (∀ r w', Φ r w' → Ψ r w') → wp m Ψ w.
Proof. unfold wp. auto. Qed.

Lemma wp_and m (Φ Ψ : outcome E A → W → Prop) w :
  wp m Φ w → wp m Ψ w → wp m (λ r w', Φ r w' ∧ Ψ r w') w.
Proof. unfold wp. auto. Qed.

(** Reading a weakest precondition as a statement about a run. *)
Lemma wp_run m (Φ : outcome E A → W → Prop) w r w' :
  wp m Φ w → m w = (r, w') → Φ r w'.
Proof. unfold wp. intros H Hm. by rewrite Hm in H. Qed.

Lemma run_wp m (Φ : outcome E A → W → Prop) w :
  (∀ r w', m w = (r, w') → Φ r w') → wp m Φ w.
Proof. unfold wp. intros H. by apply H, surjective_pairing. Qed.
End wp_rules.

(** The loop rule: an invariant over the processed prefix, the loop state and the
    world, and postconditions for the early exit and for exceptions. *)
Lemma wp_for_of {E W A S R : Type} (I : list A → S → W → Prop)
    (Φ : outcome E (S + R) → W → Prop) (body : S → A → M E W (S + R)) (l : list A) :
  (∀ done a todo s w, l = done ++ a :: todo → I done s w →
     wp (body s a) (λ r w', match r with
                            | Ret (inl s') => I (done ++ [a]) s' w'
                            | Ret (inr x) => Φ (Ret (inr x)) w'
                            | Throw e => Φ (Throw e) w' end) w) →
  (∀ s w, I l s w → Φ (Ret (inl s)) w) →
  ∀ s w, I [] s w → wp (for_of l s body) Φ w.
Proof.
  intros Hbody Hend.
  assert (∀ todo done s w, l = done ++ todo → I done s w → wp (for_of todo s body) Φ w)
    as Hgen; [|intros s w; by apply Hgen].
  induction todo as [|a todo IH]; intros done s w Hl HI; cbn [for_of].
  - apply wp_ret, Hend. by rewrite Hl, app_nil_r.
  - apply wp_bind. eapply wp_mono; [by eapply Hbody|].
    intros [[s'|x]|e] w' H; [|by apply wp_ret|done].
    apply (IH (done ++ [a])); [|done]. by rewrite Hl, <- app_assoc.
Qed.

(** An invariant of every task is an invariant of [promise_all]. *)
Lemma wp_promise_all {E W A : Type} (I : W → Prop) (task : A → M E W unit) (l : list A) (w : W) :
  (∀ a w, a ∈ l → I w → wp (task a) (λ _ w', I w') w) →
  I w → wp (promise_all (map task l)) (λ _ w', I w') w.
Proof.
  revert w. induction l as [|a l IH]; intros w Htask HI; [done|].
  pose proof (Htask a w) as Ha. unfold wp in *. cbn.
  destruct (task a w) as [[[]|e] w1]; cbn in *.
  - apply IH; [|apply Ha; set_solver]. intros b w2 ?. apply Htask. set_solver.
  - apply IH; [|apply Ha; set_solver]. intros b w2 ?. apply Htask. set_solver.
Qed.

(** ** Runs of a machine with labelled steps

    [run step allowed c c']: events that are [allowed] where they happen lead from [c] to [c']. *)
Inductive run {E C : Type} (step : E → C → C → Prop) (allowed : E → C → Prop) : C → C → Prop :=
| run_none c : run step allowed c c
| run_more e c c1 c2 : run step allowed c c1 → allowed e c1 → step e c1 c2 → run step allowed c c2.

Lemma run_first {E C : Type} (step : E → C → C → Prop) (allowed : E → C → Prop) (e : E) (c c1 c2 : C) :
  allowed e c → step e c c1 → run step allowed c1 c2 → run step allowed c c2.
Proof.
  intros Ha Hs Hrun. revert Ha Hs. induction Hrun as [c1|e' c1 c2 c3 _ IH Ha' Hs']; intros Ha Hs.
  - by eapply run_more; [apply run_none|..].
  - eapply run_more; [by apply IH|done|done].
Qed.

Lemma run_invariant {E C : Type} (step : E → C → C → Prop) (allowed : E → C → Prop) (I : C → Prop) (c c' : C) :
  (∀ e c1 c2, I c1 → allowed e c1 → step e c1 c2 → I c2) → run step allowed c c' → I c → I c'.
Proof. intros Hstep Hrun Hc. induction Hrun as [|e c c1 c2 _ IH Ha Hs]; [done|]. eauto. Qed.

(** ** Generic list lemmas *)

Lemma Forall2_elem_l {A B : Type} (R : A → B → Prop) (l : list A) (k : list B) (x : A) :
  Forall2 R l k → x ∈ l → ∃ y, y ∈ k ∧ R x y.
Proof. induction 1 as [|a b l k Hab _ IH]; [by intros ?%elem_of_nil|]. intros [->|Hx]%elem_of_cons; set_solver. Qed.

Lemma Forall2_elem_r {A B : Type} (R : A → B → Prop) (l : list A) (k : list B) (y : B) :
  Forall2 R l k → y ∈ k → ∃ x, x ∈ l ∧ R x y.
Proof. intros H Hy. apply Forall2_flip in H. by eapply Forall2_elem_l in H as (x & ? & ?); [eexists|]. Qed.

Lemma map_if_none {A : Type} (p : A → bool) (f : A → A) (l : list A) :
  (∀ a, a ∈ l → p a = false) → map_if p f l = l.
Proof.
  intros H. unfold map_if. induction l as [|a l IH]; [done|]; cbn.
  rewrite H by set_solver. f_equal. apply IH. set_solver.
Qed.

(** Rows with a key of their own *)
Lemma fmap_unique {A B : Type} (f : A → B) (l : list A) (x y : A) : NoDup (f <$> l) → x ∈ l → y ∈ l → f x = f y → x = y.
Proof.
  intros Hn [i Hi]%list_elem_of_lookup [j Hj]%list_elem_of_lookup He. assert (i = j) as ->; [|congruence].
  eapply NoDup_lookup; [exact Hn|..]; rewrite list_lookup_fmap; [by rewrite Hi|rewrite Hj; cbn; by f_equal].
Qed.

Lemma map_if_ext {A : Type} (p : A → bool) (f g : A → A) (l : list A) :
  (∀ a, a ∈ l → p a = true → f a = g a) → map_if p f l = map_if p g l.
Proof. intros H. apply list_fmap_ext. intros i a Ha%list_elem_of_lookup_2. destruct (p a) eqn:E; auto. Qed.

Lemma map_if_compose {A : Type} (p : A → bool) (f g : A → A) (l : list A) :
  (∀ a, p (f a) = p a) → map_if p g (map_if p f l) = map_if p (λ a, g (f a)) l.
Proof.
  intros H. unfold map_if. rewrite map_map. apply map_ext. intros a. destruct (p a) eqn:E; [by rewrite H, E|by rewrite E].
Qed.

Lemma map_if_key {A B : Type} (key : A → B) (p : A → bool) (f : A → A) (l : list A) :
  (∀ a, key (f a) = key a) → key <$> map_if p f l = key <$> l.
Proof.
  intros Hf. unfold map_if. induction l as [|a l IH]; [done|]. rewrite !fmap_cons. cbn. rewrite <- IH. by destruct (p a); rewrite ?Hf.
Qed.

Lemma map_if_length {A : Type} (p : A → bool) (f : A → A) (l : list A) :
  length (map_if p f l) = length l.
Proof. apply length_map. Qed.

Lemma elem_of_map_if {A : Type} (p : A → bool) (f : A → A) (l : list A) (b : A) :
  b ∈ map_if p f l ↔ ∃ a, a ∈ l ∧ b = (if p a then f a else a).
Proof.
  unfold map_if. rewrite list_elem_of_In, in_map_iff. setoid_rewrite list_elem_of_In.
  split; intros (a & ? & ?); eauto.
Qed.

Lemma count_if_zero {A : Type} (p : A → bool) (l : list A) :
  (count_if p l = 0)%Z ↔ ∀ a, a ∈ l → p a = false.
Proof.
  unfold count_if. induction l as [|a l IH]; cbn; [by split; [set_solver|]|].
  destruct (p a) eqn:Hp; cbn.
  - split; [lia|]. intros H. rewrite H in Hp by set_solver. done.
  - rewrite IH. split; [|set_solver]. intros H b [->|?]%elem_of_cons; auto.
Qed.

Lemma count_if_pos {A : Type} (p : A → bool) (l : list A) :
  (0 < count_if p l)%Z ↔ ∃ a, a ∈ l ∧ p a = true.
Proof.
  unfold count_if. induction l as [|a l IH]; cbn.
  { split; [lia|]. intros (? & []%elem_of_nil & _). }
  destruct (p a) eqn:Hp; cbn.
  - split; [intros _; exists a; split; [by left|done]|lia].
  - rewrite IH. split.
    + intros (b & Hb & ?). exists b. split; [by right|done].
    + intros (b & [->|Hb]%elem_of_cons & ?); [congruence|by exists b].
Qed.

Lemma count_if_app {A : Type} (p : A → bool) (l k : list A) :
  (count_if p (l ++ k) = count_if p l + count_if p k)%Z.
Proof. unfold count_if. rewrite List.filter_app, length_app. lia. Qed.

Lemma count_if_nonneg {A : Type} (p : A → bool) (l : list A) : (0 <= count_if p l)%Z.
Proof. unfold count_if. lia. Qed.

Lemma count_if_ext {A : Type} (p q : A → bool) (l : list A) :
  (∀ a, a ∈ l → p a = q a) → count_if p l = count_if q l.
Proof.
  intros H. unfold count_if. do 2 f_equal. apply List.filter_ext_in.
  intros a ?. by apply H, list_elem_of_In.
Qed.

Lemma sum_Z_app {A : Type} (f : A → Z) (l k : list A) :
  (sum_Z f (l ++ k) = sum_Z f l + sum_Z f k)%Z.
Proof. unfold sum_Z. induction l; cbn; lia. Qed.

Lemma sum_Z_nonneg {A : Type} (f : A → Z) (l : list A) :
  (∀ a, a ∈ l → 0 <= f a)%Z → (0 <= sum_Z f l)%Z.
Proof.
  unfold sum_Z. induction l as [|a l IH]; cbn; [lia|]. intros H.
  assert (0 <= f a)%Z by (apply H; set_solver).
  assert (0 <= foldr (λ a acc, f a + acc) 0 l)%Z by (apply IH; set_solver). lia.
Qed.

Lemma existsb_false_forall {A : Type} (p : A → bool) (l : list A) :
  existsb p l = false ↔ ∀ a, a ∈ l → p a = false.
Proof.
  induction l as [|a l IH]; cbn; [set_solver|].
  rewrite orb_false_iff, IH. split; [|set_solver].
  intros [? ?] b [->|?]%elem_of_cons; auto.
Qed.

#[export] Instance List_filter_Permutation {A : Type} (p : A → bool) :
  Proper (Permutation ==> Permutation) (List.filter p).
Proof.
  intros l k H. induction H as [|a l k _ IH|a b l|l k m _ IH1 _ IH2]; cbn; [done|..].
  - destruct (p a); [by apply perm_skip|done].
  - destruct (p a), (p b); try done. apply perm_swap.
  - by rewrite IH1.
Qed.

#[export] Instance count_if_Permutation {A : Type} (p : A → bool) :
  Proper (Permutation ==> eq) (count_if p).
Proof. intros l k H. unfold count_if. by rewrite H. Qed.

#[export] Instance sum_Z_Permutation {A : Type} (f : A → Z) :
  Proper (Permutation ==> eq) (sum_Z f).
Proof. intros l k H. unfold sum_Z. induction H; cbn; lia. Qed.

Lemma Sorted_take {A : Type} (R : relation A) (n : nat) (l : list A) : Sorted R l → Sorted R (take n l).
Proof.
  intros H. revert n. induction H as [|a l Hs IH Hhd]; intros [|n]; cbn; try constructor; [apply IH|].
  destruct Hhd as [|b l Hab]; destruct n; constructor. done.
Qed.

Lemma elem_of_filter_b {A : Type} (p : A → bool) (l : list A) (a : A) :
  a ∈ List.filter p l ↔ a ∈ l ∧ p a = true.
Proof. by rewrite !list_elem_of_In, filter_In. Qed.

(** A filter that is implied by a later one can be dropped. *)
Lemma filter_filter_imp {A : Type} (p q : A → bool) (l : list A) :
  (∀ a, q a = true → p a = true) → List.filter q (List.filter p l) = List.filter q l.
Proof.
  intros H. induction l as [|a l IH]; cbn; [done|]. destruct (p a) eqn:Hp; cbn.
  - by rewrite IH.
  - destruct (q a) eqn:Hq; [|done]. specialize (H a Hq). congruence.
Qed.

(** ** Automation *)

(** Turn boolean tests into the propositions they decide. *)
Ltac bool_to_prop :=
  repeat match goal with
  | H : (_ && _)%bool = true |- _ => apply andb_true_iff in H; destruct H
  | H : (_ && _)%bool = false |- _ => apply andb_false_iff in H
  | H : (_ || _)%bool = false |- _ => apply orb_false_iff in H; destruct H
  | H : (_ || _)%bool = true |- _ => apply orb_true_iff in H
  | H : negb _ = true |- _ => apply negb_true_iff in H
  | H : negb _ = false |- _ => apply negb_false_iff in H
  | H : (_ <? _)%Z = true |- _ => apply Z.ltb_lt in H
  | H : (_ <? _)%Z = false |- _ => apply Z.ltb_ge in H
  | H : (_ <=? _)%Z = true |- _ => apply Z.leb_le in H
  | H : (_ <=? _)%Z = false |- _ => apply Z.leb_gt in H
  | H : (_ =? _)%Z = true |- _ => apply Z.eqb_eq in H
  | H : (_ =? _)%Z = false |- _ => apply Z.eqb_neq in H
  | H : String.eqb _ _ = true |- _ => apply String.eqb_eq in H
  | H : String.eqb _ _ = false |- _ => apply String.eqb_neq in H
  | H : bool_decide _ = true |- _ => apply bool_decide_eq_true in H
  | H : bool_decide _ = false |- _ => apply bool_decide_eq_false in H
  end.

(** One step of symbolic execution; [wp_op] is extended by the files that add
    operations to the world. *)
Ltac wp_op := fail.

Ltac wp_step :=
  lazymatch goal with
  | |- wp (mbind _ _) _ _ => apply wp_bind
  | |- wp (mret _) _ _ => apply wp_ret
  | |- wp (throw _) _ _ => apply wp_throw
  | |- wp (try_catch _ _) _ _ => apply wp_try
  | |- wp (if ?b then _ else _) _ _ => destruct b eqn:?
  | |- wp (match ?x with _ => _ end) _ _ => destruct x eqn:?
  | |- wp (let _ := _ in _) _ _ => cbv zeta
  | |- _ => wp_op
  end.

Ltac wp_steps := repeat (wp_step; simpl).

(** A database of facts that close the arithmetic and bookkeeping side conditions. *)
Create HintDb invoicefi discriminated.
#[export] Hint Resolve count_if_nonneg : invoicefi.
#[export] Hint Rewrite @count_if_app @sum_Z_app @map_if_length : invoicefi.
