(* ===== verification/Threads.v ===== *)
(** * Threads: methods cut at their awaits

    A [thread] is an [async] method cut into the pieces that run without waiting: a stopped
    thread has its outcome, another one its next piece and what follows.  [run_alone] puts the
    pieces together again, and [cuts t m] says that the thread [t] is the method [m].  A pool
    interleaves the pieces of any number of threads; [safe] is the proof obligation of one
    thread, with an auxiliary state of its own, under which every interleaving keeps an
    invariant of the world and of the auxiliary states of all threads ([pool_sound]). *)
From S2P Require Import Prelude.

Inductive thread (E W A : Type) : Type :=
| Stop (r : outcome E A)
| Atom (X : Type) (place : string) (m : M E W X) (k : outcome E X → thread E W A).

Arguments Stop {E W A} r.
Arguments Atom {E W A} X place m k.

(** The continuation of a thread, which sees how it ended. *)
Fixpoint then_ {E W A B : Type} (t : thread E W A) (f : outcome E A → thread E W B) : thread E W B :=
  match t with
  | Stop r => f r
  | Atom X place m k => Atom X place m (λ x, then_ (k x) f)
  end.

#[export] Instance thread_ret {E W : Type} : MRet (thread E W) := λ A a, Stop (Ret a).

#[export] Instance thread_bind {E W : Type} : MBind (thread E W) := λ A B f t,
  then_ t (λ r, match r with Ret a => f a | Throw e => Stop (Throw e) end).

Definition throw_ {E W A : Type} (e : E) : thread E W A := Stop (Throw e).

(** [try { t } catch (e) { h e }] *)
Definition try_ {E W A : Type} (t : thread E W A) (h : E → thread E W A) : thread E W A :=
  then_ t (λ r, match r with Ret a => Stop (Ret a) | Throw e => h e end).

(** One piece: [await m], at a place of the code that specifications speak of by its name *)
Definition await_at {E W A : Type} (place : string) (m : M E W A) : thread E W A := Atom A place m Stop.

Definition await {E W A : Type} (m : M E W A) : thread E W A := await_at "" m.

(** [for (const a of l) { s = body(s, a) }], as [for_of] *)
Fixpoint each {E W A S R : Type} (l : list A) (s : S) (body : S → A → thread E W (S + R)) : thread E W (S + R) :=
  match l with
  | [] => mret (inl s)
  | a :: l' =>
      r ← body s a;
      match r with
      | inl s' => each l' s' body
      | inr x => mret (inr x)
      end
  end.

(** ** A thread that runs alone *)

Fixpoint run_alone {E W A : Type} (t : thread E W A) : M E W A :=
  match t with
  | Stop r => λ w, (r, w)
  | Atom X place m k => λ w, let '(x, w') := m w in run_alone (k x) w'
  end.

Definition cuts {E W A : Type} (t : thread E W A) (m : M E W A) : Prop := ∀ w, run_alone t w = m w.

Lemma run_alone_then {E W A B : Type} (t : thread E W A) (f : outcome E A → thread E W B) (w : W) :
  run_alone (then_ t f) w = let '(r, w') := run_alone t w in run_alone (f r) w'.
Proof.
  revert w. induction t as [r|X place m k IH]; intros w; [done|]. cbn. destruct (m w) as [x w']. apply IH.
Qed.

Section cuts.
Context {E W A B : Type}.

Lemma cuts_ret (a : A) : cuts (W:=W) (E:=E) (mret a) (mret a).
Proof. done. Qed.

Lemma cuts_throw (e : E) : cuts (A:=A) (W:=W) (throw_ e) (throw e).
Proof. done. Qed.

Lemma cuts_await_at (place : string) (m : M E W A) : cuts (await_at place m) m.
Proof. intros w. cbn. by destruct (m w). Qed.

Lemma cuts_await (m : M E W A) : cuts (await m) m.
Proof. intros w. cbn. by destruct (m w). Qed.

Lemma cuts_ext (t : thread E W A) (m m' : M E W A) : cuts t m → (∀ w, m w = m' w) → cuts t m'.
Proof. intros Ht Hm w. by rewrite Ht. Qed.

Lemma cuts_bind (t : thread E W A) (m : M E W A) (f : A → thread E W B) (g : A → M E W B) :
  cuts t m → (∀ a, cuts (f a) (g a)) → cuts (t ≫= f) (m ≫= g).
Proof.
  intros Ht Hf w. etransitivity; [apply run_alone_then|]. rewrite Ht. unfold mbind, M_bind.
  destruct (m w) as [[a|e] w']; [apply Hf|done].
Qed.

Lemma cuts_try (t : thread E W A) (m : M E W A) (h : E → thread E W A) (h' : E → M E W A) :
  cuts t m → (∀ e, cuts (h e) (h' e)) → cuts (try_ t h) (try_catch m h').
Proof.
  intros Ht Hh w. etransitivity; [apply run_alone_then|]. rewrite Ht. unfold try_catch.
  destruct (m w) as [[a|e] w']; [done|apply Hh].
Qed.
End cuts.

Lemma cuts_each {E W A S R : Type} (l : list A) (s : S) (body : S → A → thread E W (S + R)) (body' : S → A → M E W (S + R)) :
  (∀ s a, cuts (body s a) (body' s a)) → cuts (each l s body) (for_of l s body').
Proof.
  intros Hb. revert s. induction l as [|a l IH]; intros s; [apply cuts_ret|]. cbn.
  apply cuts_bind; [apply Hb|]. intros [s'|x]; [apply IH|apply cuts_ret].
Qed.

Create HintDb cuts discriminated.
#[export] Hint Resolve cuts_ret cuts_throw cuts_await cuts_await_at cuts_bind cuts_try cuts_each : cuts.

(** The rules of the calculus for a thread that runs alone *)
Section alone_rules.
Context {E W A B : Type}.

Lemma wp_alone_await (place : string) (m : M E W A) (Φ : outcome E A → W → Prop) (w : W) :
  wp m Φ w → wp (run_alone (await_at place m)) Φ w.
Proof. unfold wp. cbn. by destruct (m w). Qed.

Lemma wp_alone_then (t : thread E W A) (f : outcome E A → thread E W B) (Φ : outcome E B → W → Prop) (w : W) :
  wp (run_alone t) (λ r w', wp (run_alone (f r)) Φ w') w → wp (run_alone (then_ t f)) Φ w.
Proof. unfold wp. rewrite run_alone_then. by destruct (run_alone t w). Qed.

Lemma wp_alone_bind (t : thread E W A) (f : A → thread E W B) (Φ : outcome E B → W → Prop) (w : W) :
  wp (run_alone t) (λ r w', match r with Ret a => wp (run_alone (f a)) Φ w' | Throw e => Φ (Throw e) w' end) w →
  wp (run_alone (t ≫= f)) Φ w.
Proof. intros H. apply wp_alone_then. eapply wp_mono; [exact H|]. by intros [a|e] w'. Qed.

End alone_rules.

Lemma wp_alone_try {E W A : Type} (t : thread E W A) (h : E → thread E W A) (Φ : outcome E A → W → Prop) (w : W) :
  wp (run_alone t) (λ r w', match r with Ret a => Φ (Ret a) w' | Throw e => wp (run_alone (h e)) Φ w' end) w →
  wp (run_alone (try_ t h)) Φ w.
Proof. intros H. unfold try_. apply wp_alone_then. eapply wp_mono; [exact H|]. by intros [a|e] w'. Qed.
Lemma wp_alone_each {E W A S R : Type} (J : list A → S → W → Prop) (Φ : outcome E (S + R) → W → Prop)
    (body : S → A → thread E W (S + R)) (l : list A) :
  (∀ done a todo s w, l = done ++ a :: todo → J done s w →
     wp (run_alone (body s a)) (λ r w', match r with
                                        | Ret (inl s') => J (done ++ [a]) s' w'
                                        | Ret (inr x) => Φ (Ret (inr x)) w'
                                        | Throw e => Φ (Throw e) w' end) w) →
  (∀ s w, J l s w → Φ (Ret (inl s)) w) →
  ∀ s w, J [] s w → wp (run_alone (each l s body)) Φ w.
Proof.
  intros Hbody Hend s w HJ. unfold wp. rewrite (cuts_each l s body (λ s a, run_alone (body s a))) by done.
  by eapply (wp_for_of J).
Qed.

(** A thread that has not stopped *)
Definition running {E W A : Type} (t : thread E W A) : Prop := ∀ r, t ≠ Stop r.

Definition is_running {E W A : Type} (t : thread E W A) : bool := match t with Stop _ => false | Atom _ _ _ _ => true end.

Lemma is_running_spec {E W A : Type} (t : thread E W A) : is_running t = true → running t.
Proof. by destruct t. Qed.

(** Where a thread is *)
Definition place_of {E W A : Type} (t : thread E W A) : option string :=
  match t with Stop _ => None | Atom _ place _ _ => Some place end.

Lemma running_place {E W A : Type} (t : thread E W A) : running t → ∃ place, place_of t = Some place.
Proof. intros H. destruct t as [r|X place m k]; [by destruct (H r)|by exists place]. Qed.

(** Every piece of the thread, whatever its awaits answer *)
Fixpoint all_pieces {E W A : Type} (Pr : ∀ X : Type, string → M E W X → Prop) (t : thread E W A) : Prop :=
  match t with
  | Stop _ => True
  | Atom X place m k => Pr X place m ∧ ∀ x, all_pieces Pr (k x)
  end.

(** ** Pools

    The threads carry labels of a type [B]; [enter e w new w'] says that the event [e] from outside
    changes the world and starts threads.  A thread may advance by one piece, or be lost with the
    process that it runs in. *)
Section pool.
Context {E W A B Entry : Type}.
Variable enter : Entry → W → list (B * thread E W A) → W → Prop.

Definition pool : Type := list (B * thread E W A) * W.

Inductive pool_event := Enter (e : Entry) | Advance (i : nat) | Crash (i : nat).

Inductive pool_step : pool_event → pool → pool → Prop :=
| step_enter e ts w new w' : enter e w new w' → pool_step (Enter e) (ts, w) (ts ++ new, w')
| step_advance ts1 b X place m k ts2 w x w' :
    m w = (x, w') → pool_step (Advance (length ts1)) (ts1 ++ (b, Atom X place m k) :: ts2, w) (ts1 ++ (b, k x) :: ts2, w')
| step_crash ts1 bt ts2 w : pool_step (Crash (length ts1)) (ts1 ++ bt :: ts2, w) (ts1 ++ ts2, w).

(** In a pool of its own a thread does what the method does. *)
Lemma alone (b : B) (t : thread E W A) (w : W) :
  run pool_step (λ _ _, True) ([(b, t)], w) ([(b, Stop (run_alone t w).1)], (run_alone t w).2).
Proof.
  revert w. induction t as [r|X place m k IH]; intros w; [apply run_none|]. cbn. destruct (m w) as [x w'] eqn:Hm.
  eapply run_first; [done|by apply (step_advance [] b X place m k [])|apply IH].
Qed.

(** *** The obligation of a thread

    The invariant [I] relates the world to the labels and auxiliary states of all threads; [G]
    is what every piece guarantees of its effect on the world; [alive place] are the auxiliary
    states in which a thread may be at that place. *)
Context {P : Type}.
Variable I : W → list (B * P) → Prop.
Variable G : W → W → Prop.
Variable alive : string → P → Prop.

Fixpoint safe {C : Type} (Q : outcome E C → P → Prop) (b : B) (t : thread E W C) (p : P) : Prop :=
  match t with
  | Stop r => Q r p
  | Atom X place m k => alive place p ∧ ∀ w ls1 ls2, I w (ls1 ++ (b, p) :: ls2) →
      wp m (λ x w', G w w' ∧ ∃ p', I w' (ls1 ++ (b, p') :: ls2) ∧ safe Q b (k x) p') w
  end.

Lemma safe_mono {C : Type} (Q Q' : outcome E C → P → Prop) (b : B) (t : thread E W C) (p : P) :
  safe Q b t p → (∀ r p, Q r p → Q' r p) → safe Q' b t p.
Proof.
  intros H HQ. revert p H. induction t as [r|X place m k IH]; intros p H; [by apply HQ|]. cbn in *. destruct H as [Hp H].
  split; [done|]. intros w ls1 ls2 HI.
  eapply wp_mono; [by eapply H|]. intros x w' [HG (p' & HI' & Hs)]. split; [done|]. exists p'. auto.
Qed.

Lemma safe_then {C D : Type} (Q : outcome E D → P → Prop) (b : B) (t : thread E W C) (f : outcome E C → thread E W D) (p : P) :
  safe (λ r p', safe Q b (f r) p') b t p → safe Q b (then_ t f) p.
Proof.
  revert p. induction t as [r|X place m k IH]; intros p H; [done|]. cbn in *. destruct H as [Hp H].
  split; [done|]. intros w ls1 ls2 HI.
  eapply wp_mono; [by eapply H|]. intros x w' [HG (p' & HI' & Hs)]. split; [done|]. exists p'. auto.
Qed.

Lemma safe_bind {C D : Type} (Q : outcome E D → P → Prop) (b : B) (t : thread E W C) (f : C → thread E W D) (p : P) :
  safe (λ r p', match r with Ret a => safe Q b (f a) p' | Throw e => Q (Throw e) p' end) b t p →
  safe Q b (t ≫= f) p.
Proof. intros H. apply safe_then. eapply safe_mono; [exact H|]. by intros [a|e] p' Hp. Qed.

Lemma safe_try {C : Type} (Q : outcome E C → P → Prop) (b : B) (t : thread E W C) (h : E → thread E W C) (p : P) :
  safe (λ r p', match r with Ret a => Q (Ret a) p' | Throw e => safe Q b (h e) p' end) b t p →
  safe Q b (try_ t h) p.
Proof. intros H. apply safe_then. eapply safe_mono; [exact H|]. by intros [a|e] p' Hp. Qed.

Lemma safe_await_at {C : Type} (Q : outcome E C → P → Prop) (b : B) (place : string) (m : M E W C) (p : P) :
  alive place p →
  (∀ w ls1 ls2, I w (ls1 ++ (b, p) :: ls2) →
     wp m (λ x w', G w w' ∧ ∃ p', I w' (ls1 ++ (b, p') :: ls2) ∧ Q x p') w) →
  safe Q b (await_at place m) p.
Proof. done. Qed.

Lemma safe_await {C : Type} (Q : outcome E C → P → Prop) (b : B) (m : M E W C) (p : P) :
  alive "" p →
  (∀ w ls1 ls2, I w (ls1 ++ (b, p) :: ls2) →
     wp m (λ x w', G w w' ∧ ∃ p', I w' (ls1 ++ (b, p') :: ls2) ∧ Q x p') w) →
  safe Q b (await m) p.
Proof. done. Qed.

Lemma safe_each {C S R : Type} (J : list C → S → P → Prop) (Q : outcome E (S + R) → P → Prop) (b : B)
    (body : S → C → thread E W (S + R)) (l : list C) :
  (∀ done a todo s p, l = done ++ a :: todo → J done s p →
     safe (λ r p', match r with
                   | Ret (inl s') => J (done ++ [a]) s' p'
                   | Ret (inr x) => Q (Ret (inr x)) p'
                   | Throw e => Q (Throw e) p' end) b (body s a) p) →
  (∀ s p, J l s p → Q (Ret (inl s)) p) →
  ∀ s p, J [] s p → safe Q b (each l s body) p.
Proof.
  intros Hbody Hend.
  assert (∀ todo done s p, l = done ++ todo → J done s p → safe Q b (each todo s body) p) as Hgen;
    [|intros s p; by apply Hgen].
  induction todo as [|a todo IH]; intros done s p Hl HJ.
  - apply Hend. by rewrite Hl, app_nil_r.
  - cbn [each]. apply safe_bind. eapply safe_mono; [by eapply Hbody|].
    intros [[s'|x]|e] p' H; [|exact H|exact H]. apply (IH (done ++ [a])); [|done]. by rewrite Hl, <- app_assoc.
Qed.

(** *** Every interleaving keeps the invariant *)

Variable Q : outcome E A → P → Prop.

(** A thread of the pool and its auxiliary state *)
Definition minds (bt : B * thread E W A) (bp : B * P) : Prop := bp.1 = bt.1 ∧ safe Q bt.1 bt.2 bp.2.

Definition pool_inv (c : pool) : Prop := ∃ ls, I c.2 ls ∧ Forall2 minds c.1 ls.

Variable allowed : pool_event → pool → Prop.

(** The events from outside keep the invariant, and losing a thread does. *)
Definition entries_ok : Prop :=
  ∀ e ts w new w' ls, Forall2 minds ts ls → I w ls → allowed (Enter e) (ts, w) → enter e w new w' →
    G w w' ∧ ∃ news, I w' (ls ++ news) ∧ Forall2 minds new news.

Definition crashes_ok : Prop :=
  ∀ i c, allowed (Crash i) c → ∀ w ls1 bp ls2, I w (ls1 ++ bp :: ls2) → I w (ls1 ++ ls2).

Lemma crashes_any : (∀ w ls1 bp ls2, I w (ls1 ++ bp :: ls2) → I w (ls1 ++ ls2)) → crashes_ok.
Proof. by intros H i c _. Qed.

Lemma pool_step_sound `{!PreOrder G} (e : pool_event) (c c' : pool) :
  entries_ok → crashes_ok → pool_inv c → allowed e c → pool_step e c c' → pool_inv c' ∧ G c.2 c'.2.
Proof.
  intros Hent Hcrash (ls & HI & Hm) Ha Hs. destruct Hs as [e ts w new w' He|ts1 b X place m k ts2 w x w' Hx|ts1 bt ts2 w]; cbn in *.
  - edestruct Hent as (HG & news & HI' & Hn); [exact Hm|exact HI|exact Ha|exact He|]. split; [|done].
    exists (ls ++ news). split; [done|]. by apply Forall2_app.
  - apply Forall2_app_inv_l in Hm as (ls1 & ls' & Hm1 & Hm2 & ->). inversion Hm2 as [|? [b' p] ? ls2 [Hb Hsafe] Hm3]; subst.
    cbn in Hb, Hsafe. subst b'. destruct Hsafe as [_ Hsafe]. specialize (Hsafe w ls1 ls2 HI). eapply wp_run in Hsafe; [|exact Hx].
    destruct Hsafe as (HG & p' & HI' & Hk). split; [|done]. exists (ls1 ++ (b, p') :: ls2). split; [done|].
    apply Forall2_app; [done|]. by constructor.
  - apply Forall2_app_inv_l in Hm as (ls1 & ls' & Hm1 & Hm2 & ->). inversion Hm2 as [|? bp ? ls2 _ Hm3]; subst.
    split; [|done]. exists (ls1 ++ ls2). split; [by eapply Hcrash|by apply Forall2_app].
Qed.

Lemma pool_sound `{!PreOrder G} (c c' : pool) :
  entries_ok → crashes_ok → run pool_step allowed c c' → pool_inv c → pool_inv c' ∧ G c.2 c'.2.
Proof.
  intros Hent Hcrash Hrun Hc. induction Hrun as [c|e c c1 c2 _ IH Ha Hs]; [done|]. destruct (IH Hc) as [H1 HG].
  destruct (pool_step_sound e c1 c2) as [H2 HG']; [done..|]. split; [done|]. by etransitivity.
Qed.

Lemma minds_alive (b : B) (t : thread E W A) (bp : B * P) (place : string) :
  minds (b, t) bp → place_of t = Some place → alive place bp.2.
Proof. intros [_ Hs] Ht. destruct t as [r|X place' m k]; [done|]. injection Ht as ->. by destruct Hs. Qed.

Lemma minds_labels ts (ls : list (B * P)) : Forall2 minds ts ls → ts.*1 = ls.*1.
Proof. induction 1 as [|[b t] bp ts ls [Hb _] _ IH]; [done|]. cbn in *. by rewrite Hb, IH. Qed.

Lemma pool_inv_empty (w : W) : I w [] → pool_inv ([], w).
Proof. intros H. exists []. by split. Qed.
End pool.

Arguments Enter {Entry} e.
Arguments Advance {Entry} i.
Arguments Crash {Entry} i.

(** ** Running a pool *)

Lemma run_trans {E C : Type} (step : E → C → C → Prop) (allowed : E → C → Prop) (c1 c2 c3 : C) :
  run step allowed c1 c2 → run step allowed c2 c3 → run step allowed c1 c3.
Proof. intros H12 H23. induction H23 as [|e c c1' c2' _ IH Ha Hs]; [done|]. eapply run_more; [by apply IH|done..]. Qed.

Section advance.
Context {E W A B Entry : Type}.

(** The next piece of thread [i] *)
Definition advance (i : nat) (c : pool (E:=E) (W:=W) (A:=A) (B:=B)) : pool :=
  match c.1 !! i with
  | Some (b, Atom X place m k) => let '(x, w') := m c.2 in (<[i := (b, k x)]> c.1, w')
  | _ => c
  end.

Lemma advance_run (enter : Entry → W → list (B * thread E W A) → W → Prop) allowed (i : nat) (c : pool) :
  (∀ c, allowed (Advance i) c) → run (pool_step enter) allowed c (advance i c).
Proof.
  intros Ha. destruct c as [ts w]. unfold advance. cbn. destruct (ts !! i) as [[b [r|X place m k]]|] eqn:Hi; [apply run_none| |apply run_none].
  destruct (m w) as [x w'] eqn:Hm. pose proof (take_drop_middle ts i _ Hi) as Hts.
  pose proof (lookup_lt_Some _ _ _ Hi) as Hlen. rewrite insert_take_drop by done. rewrite <- Hts at 1.
  eapply run_more; [apply run_none| |].
  - apply Ha.
  - replace i with (length (take i ts)) at 1 by (rewrite length_take; lia). by apply step_advance.
Qed.

Lemma advances_run (enter : Entry → W → list (B * thread E W A) → W → Prop) allowed (n i : nat) (c : pool) :
  (∀ c, allowed (Advance i) c) → run (pool_step enter) allowed c (Nat.iter n (advance i) c).
Proof.
  intros Ha. induction n as [|n IH]; [apply run_none|]. eapply run_trans; [exact IH|]. by apply advance_run.
Qed.
End advance.
