(* ===== verification/Js.v ===== *)
(** * The parts of the JavaScript language and standard library the program uses

    Strings are Rocq [string]s whose characters stand for UTF-16 code units below 256;
    [number]s that the program only uses as integers (identifiers, counters, ledger
    sequences, millisecond timestamps) are [Z], all far below 2^53 where IEEE doubles are
    exact; [bigint]s are [Z]; a [Date] is its [getTime()] in milliseconds; [undefined] and
    [null] are [None]. *)
From S2P Require Import Prelude.
From Stdlib Require Export Ascii.
Open Scope Z_scope.

(** ** Characters *)

Definition code (c : ascii) : Z := Z.of_N (N_of_ascii c).

Definition is_digit (c : ascii) : bool := (48 <=? code c) && (code c <=? 57).

Definition digit_val (c : ascii) : Z := code c - 48.

Definition digit_char (d : Z) : ascii := ascii_of_N (Z.to_N (d + 48)).

(** Simple case mapping on code units below 256 ([A-Z] and the Latin-1 letters). *)
Definition lower_char (c : ascii) : ascii :=
  let n := code c in
  if ((65 <=? n) && (n <=? 90)) || ((192 <=? n) && (n <=? 222) && negb (n =? 215))
  then ascii_of_N (Z.to_N (n + 32)) else c.

Definition upper_char (c : ascii) : ascii :=
  let n := code c in
  if (97 <=? n) && (n <=? 122) then ascii_of_N (Z.to_N (n - 32)) else c.

(** [WhiteSpace] and [LineTerminator] code units below 256. *)
Definition is_space (c : ascii) : bool :=
  let n := code c in ((9 <=? n) && (n <=? 13)) || (n =? 32) || (n =? 160).

Definition quote : ascii := ascii_of_N 34.
Definition CR : ascii := ascii_of_N 13.
Definition LF : ascii := ascii_of_N 10.
Definition str1 (c : ascii) : string := String c EmptyString.

(** ** Strings *)

Fixpoint to_list (s : string) : list ascii :=
  match s with EmptyString => [] | String c s' => c :: to_list s' end.

Fixpoint of_list (l : list ascii) : string :=
  match l with [] => EmptyString | c :: l' => String c (of_list l') end.

Definition str_map (f : ascii → ascii) (s : string) : string := of_list (map f (to_list s)).

(** [s.length] *)
Definition str_length (s : string) : nat := length (to_list s).

Definition toLowerCase : string → string := str_map lower_char.

(** [s.startsWith(p)] *)
Definition startsWith (s p : string) : bool := String.prefix p s.

(** [s.includes(sub)] *)
Fixpoint includes (s sub : string) : bool :=
  String.prefix sub s ||
  match s with EmptyString => false | String _ s' => includes s' sub end.

(** [s.slice(n)] for [0 <= n] *)
Definition slice_from (n : nat) (s : string) : string := of_list (drop n (to_list s)).

(** [s.slice(0, n)] for [0 <= n] *)
Definition slice_to (n : nat) (s : string) : string := of_list (take n (to_list s)).

(** [s.endsWith(suf)] *)
Definition endsWith (s suf : string) : bool :=
  (str_length suf <=? str_length s)%nat &&
  String.eqb (slice_from (str_length s - str_length suf) s) suf.

Fixpoint split_list (c : ascii) (l : list ascii) : list (list ascii) :=
  match l with
  | [] => [[]]
  | a :: l' =>
      if Ascii.eqb a c then [] :: split_list c l'
      else match split_list c l' with
           | [] => [[a]]
           | w :: ws => (a :: w) :: ws
           end
  end.

(** [s.split(c)] for a one-character separator *)
Definition split (c : ascii) (s : string) : list string := map of_list (split_list c (to_list s)).

Fixpoint drop_while {A : Type} (p : A → bool) (l : list A) : list A :=
  match l with
  | [] => []
  | a :: l' => if p a then drop_while p l' else l
  end.

Definition trim_list (l : list ascii) : list ascii :=
  reverse (drop_while is_space (reverse (drop_while is_space l))).

(** [s.trim()] *)
Definition trim (s : string) : string := of_list (trim_list (to_list s)).

(** [arr.join(sep)] *)
Definition join (sep : string) (l : list string) : string := String.concat sep l.

(** [s.padStart(n, '0')] and [s.padEnd(n, '0')] on character lists *)
Definition padStart0 (n : nat) (l : list ascii) : list ascii :=
  replicate (n - length l) (digit_char 0) ++ l.

Definition padEnd0 (n : nat) (l : list ascii) : list ascii :=
  l ++ replicate (n - length l) (digit_char 0).

(** Truthiness of a string that may be [undefined] or [null]. *)
Definition truthy (s : string) : bool := negb (String.eqb s "").

Definition truthy_opt (s : option string) : bool :=
  match s with Some s => truthy s | None => false end.

(** ** Decimal numerals *)

Fixpoint print_digits (fuel : nat) (n : Z) (acc : list ascii) : list ascii :=
  match fuel with
  | O => acc
  | S fuel' =>
      if n <? 10 then digit_char n :: acc
      else print_digits fuel' (n / 10) (digit_char (n mod 10) :: acc)
  end.

(** The digits of a non-negative integer: one step per decimal digit, and an integer has
    no more decimal digits than binary ones. *)
Definition nat_digits (n : Z) : list ascii := print_digits (Z.to_nat (Z.log2 n + 1)) n [].

(** [String(n)] of an integer, [n.toString()] of a [bigint] *)
Definition Z_to_string (n : Z) : string :=
  if n <? 0 then String (ascii_of_N 45) (of_list (nat_digits (- n))) else of_list (nat_digits n).

(** The value of a digit sequence, as [BigInt] and [Number] read it. *)
Definition digits_val (l : list ascii) : Z :=
  fold_left (λ acc c, 10 * acc + digit_val c) l 0.

(** [/^[0-9]+$/.test(s)] *)
Definition all_digits (l : list ascii) : bool :=
  match l with [] => false | _ => forallb is_digit l end.

(** [BigInt(s)] of a string ([StringToBigInt]): surrounding white space is ignored, the empty
    string is [0n], decimal literals may have a sign, and [0x], [0o], [0b] literals may not;
    [None] is a [SyntaxError]. *)
Definition radix_digit (c : ascii) : Z :=
  let n := code c in
  if (48 <=? n) && (n <=? 57) then n - 48
  else if (97 <=? n) && (n <=? 102) then n - 87
  else if (65 <=? n) && (n <=? 70) then n - 55
  else 99.

Definition radix_val (base : Z) (l : list ascii) : option Z :=
  match l with
  | [] => None
  | _ => if forallb (λ c, radix_digit c <? base) l
         then Some (fold_left (λ acc c, base * acc + radix_digit c) l 0) else None
  end.

Definition decimal_val (l : list ascii) : option Z :=
  if all_digits l then Some (digits_val l) else None.

Definition BigInt_of_string (s : string) : option Z :=
  match trim_list (to_list s) with
  | [] => Some 0
  | c :: l =>
      if code c =? 45 then Z.opp <$> decimal_val l
      else if code c =? 43 then decimal_val l
      else match l with
           | x :: l' =>
               if (code c =? 48) && existsb (Z.eqb (code x)) [120; 88] then radix_val 16 l'
               else if (code c =? 48) && existsb (Z.eqb (code x)) [111; 79] then radix_val 8 l'
               else if (code c =? 48) && existsb (Z.eqb (code x)) [98; 66] then radix_val 2 l'
               else decimal_val (c :: l)
           | [] => decimal_val (c :: l)
           end
  end.

Fixpoint take_while {A : Type} (p : A → bool) (l : list A) : list A :=
  match l with [] => [] | a :: l' => if p a then a :: take_while p l' else [] end.

(** [parseInt(s, 10)]: the digits after white space and a sign; [None] is [NaN]. *)
Definition parseInt (s : string) : option Z :=
  let digits (l : list ascii) := match take_while is_digit l with [] => None | ds => Some (digits_val ds) end in
  match drop_while is_space (to_list s) with
  | [] => None
  | c :: l => if code c =? 45 then Z.opp <$> digits l else if code c =? 43 then digits l else digits (c :: l)
  end.

Example parseInt_ex : map parseInt ["5"; " 12px"; "-3"; "x"; ""]%string = [Some 5; Some 12; Some (-3); None; None].
Proof. reflexivity. Qed.

(** ** JavaScript values

    A finite number is the rational [num / den]; [JsObject] has the named properties that
    the program can look up, in their order; [JsArray] is an array. *)
Inductive JsNumber := Finite (num : Z) (den : positive) | Infinity (negative : bool) | NaN.

Inductive JsValue :=
| JsUndefined
| JsNull
| JsBoolean (b : bool)
| JsString (s : string)
| JsBigInt (n : Z)
| JsNum (n : JsNumber)
| JsArray (elements : list JsValue)
| JsObject (fields : list (string * JsValue)).

(** [o[key]] *)
Fixpoint property (fields : list (string * JsValue)) (key : string) : JsValue :=
  match fields with
  | [] => JsUndefined
  | (k, v) :: fields' => if String.eqb k key then v else property fields' key
  end.

(** [x ?? y], [x || y] and the truth of a value *)
Definition nullish (v : JsValue) : bool := match v with JsUndefined | JsNull => true | _ => false end.
Definition coalesce (x y : JsValue) : JsValue := if nullish x then y else x.

Definition js_truthy (v : JsValue) : bool :=
  match v with
  | JsUndefined | JsNull => false
  | JsBoolean b => b
  | JsString s => truthy s
  | JsBigInt n => negb (n =? 0)
  | JsNum (Finite num _) => negb (num =? 0)
  | JsNum NaN => false
  | JsNum (Infinity _) | JsArray _ | JsObject _ => true
  end.

Definition js_or (x y : JsValue) : JsValue := if js_truthy x then x else y.

(** ** [Number(s)] of a string ([StringToNumber]), before the rounding to a double *)

(** The part before the first character of [p], and the part after it if there is one. *)
Fixpoint cut (p : ascii → bool) (l : list ascii) : list ascii * option (list ascii) :=
  match l with
  | [] => ([], None)
  | c :: l' => if p c then ([], Some l') else let '(a, b) := cut p l' in (c :: a, b)
  end.

(** [digits], [digits.digits], [digits.] or [.digits]: the digits and how many are fractional *)
Definition mantissa (l : list ascii) : option (Z * nat) :=
  let '(a, b) := cut (λ c, code c =? 46) l in
  let f := default [] b in
  if all_digits (a ++ f) then Some (digits_val (a ++ f), length f) else None.

Definition signed (l : list ascii) : option Z :=
  match l with
  | c :: l' => if code c =? 45 then Z.opp <$> decimal_val l' else if code c =? 43 then decimal_val l' else decimal_val l
  | [] => None
  end.

Definition unsigned_decimal (l : list ascii) : JsNumber :=
  if String.eqb (of_list l) "Infinity" then Infinity false
  else
    let '(m, e) := cut (λ c, (code c =? 101) || (code c =? 69)) l in
    match mantissa m, match e with None => Some 0 | Some e => signed e end with
    | Some (n, k), Some e =>
        let e := e - Z.of_nat k in
        if 0 <=? e then Finite (n * 10 ^ e) 1 else Finite n (Z.to_pos (10 ^ (- e)))
    | _, _ => NaN
    end.

Definition negate (n : JsNumber) : JsNumber :=
  match n with Finite num den => Finite (- num) den | Infinity b => Infinity (negb b) | NaN => NaN end.

Definition radix_number (n : option Z) : JsNumber := match n with Some n => Finite n 1 | None => NaN end.

Definition Number_of_string (s : string) : JsNumber :=
  match trim_list (to_list s) with
  | [] => Finite 0 1
  | c :: l =>
      if code c =? 45 then negate (unsigned_decimal l)
      else if code c =? 43 then unsigned_decimal l
      else match l with
           | x :: l' =>
               if (code c =? 48) && existsb (Z.eqb (code x)) [120; 88] then radix_number (radix_val 16 l')
               else if (code c =? 48) && existsb (Z.eqb (code x)) [111; 79] then radix_number (radix_val 8 l')
               else if (code c =? 48) && existsb (Z.eqb (code x)) [98; 66] then radix_number (radix_val 2 l')
               else unsigned_decimal (c :: l)
           | [] => unsigned_decimal (c :: l)
           end
  end.

Example Number_of_string_ex :
  map Number_of_string ["12"; " 1.50 "; "-2e3"; "5e-1"; "0x1F"; "."; ""; "12a"; "123e4567-e89b"]%string
  = [Finite 12 1; Finite 150 100; Finite (-2000) 1; Finite 5 10; Finite 31 1; NaN; Finite 0 1; NaN; NaN].
Proof. vm_compute. reflexivity. Qed.

(** [Math.trunc] of a finite number. *)
Definition trunc (num : Z) (den : positive) : Z := Z.quot num (Z.pos den).

(** [x.toString()] of an integral number: from 10^21 on JavaScript uses the exponent notation
    [d.ddde+nn]; its digits are not computed here, only its leading digit and form. *)
Definition integral_to_string (n : Z) : string :=
  if Z.abs n <? 10 ^ 21 then Z_to_string n
  else (slice_to 1 (Z_to_string n) +:+ "e+" +:+ Z_to_string (Z.of_nat (str_length (Z_to_string (Z.abs n))) - 1))%string.

(** ** Integer arithmetic *)

(** [Math.ceil(a / b)] for a positive [b] *)
Definition ceil_div (a b : Z) : Z := - ((- a) / b).

(** [Math.round(a / b)] for a positive [b]: nearest, halves towards plus infinity *)
Definition round_div (a b : Z) : Z := (2 * a + b) / (2 * b).

(** ** Dates: [new Date(ms).toISOString()] *)

Definition pad (n : nat) (k : Z) : string := of_list (padStart0 n (nat_digits k)).

(** Civil date of a day number counted from 1970-01-01 (proleptic Gregorian calendar). *)
Definition civil_of_days (days : Z) : Z * Z * Z :=
  let z := days + 719468 in
  let era := z / 146097 in
  let doe := z mod 146097 in
  let yoe := (doe - doe / 1460 + doe / 36524 - doe / 146096) / 365 in
  let doy := doe - (365 * yoe + yoe / 4 - yoe / 100) in
  let mp := (5 * doy + 2) / 153 in
  let d := doy - (153 * mp + 2) / 5 + 1 in
  let m := if mp <? 10 then mp + 3 else mp - 9 in
  let y := yoe + era * 400 + (if m <=? 2 then 1 else 0) in
  (y, m, d).

Definition toISOString (ms : Z) : string :=
  let '(y, m, d) := civil_of_days (ms / 86400000) in
  let t := ms mod 86400000 in
  let year := if (0 <=? y) && (y <=? 9999) then pad 4 y
              else if y <? 0 then ("-" +:+ pad 6 (- y))%string
              else ("+" +:+ pad 6 y)%string in
  (year +:+ "-" +:+ pad 2 m +:+ "-" +:+ pad 2 d +:+ "T" +:+
   pad 2 (t / 3600000) +:+ ":" +:+ pad 2 (t / 60000 mod 60) +:+ ":" +:+
   pad 2 (t / 1000 mod 60) +:+ "." +:+ pad 3 (t mod 1000) +:+ "Z")%string.

Arguments code : simpl never.
Arguments is_digit : simpl never.
Arguments digit_val : simpl never.
Arguments digit_char : simpl never.
Arguments is_space : simpl never.
Arguments nat_digits : simpl never.

(** ** Lemmas *)

Lemma to_of_list (l : list ascii) : to_list (of_list l) = l.
Proof. induction l; cbn; congruence. Qed.

Lemma of_to_list (s : string) : of_list (to_list s) = s.
Proof. induction s as [|c s IH]; cbn; congruence. Qed.

Lemma to_list_app (s t : string) : to_list (s +:+ t) = (to_list s ++ to_list t)%list.
Proof. induction s as [|c s IH]; [done|]. change (c :: to_list (s +:+ t) = c :: (to_list s ++ to_list t)). by f_equal. Qed.

Lemma of_list_inj (l k : list ascii) : of_list l = of_list k → l = k.
Proof. intros H. by rewrite <- (to_of_list l), <- (to_of_list k), H. Qed.

Lemma to_list_inj (s t : string) : to_list s = to_list t → s = t.
Proof. intros H. by rewrite <- (of_to_list s), <- (of_to_list t), H. Qed.

Lemma string_app_inj_r (s t u : string) : (s +:+ u)%string = (t +:+ u)%string → s = t.
Proof.
  intros H. apply (f_equal to_list) in H. rewrite !to_list_app in H. by apply app_inv_tail, to_list_inj in H.
Qed.

Lemma code_bounds (c : ascii) : 0 <= code c < 256.
Proof. unfold code. pose proof (N_ascii_bounded c). lia. Qed.

Lemma code_digit_char (d : Z) : 0 <= d < 10 → code (digit_char d) = d + 48.
Proof. intros H. unfold code, digit_char. rewrite N_ascii_embedding; lia. Qed.

Lemma is_digit_char (d : Z) : 0 <= d < 10 → is_digit (digit_char d) = true.
Proof. intros H. unfold is_digit. rewrite code_digit_char by done. apply andb_true_iff. lia. Qed.

Lemma digit_val_char (d : Z) : 0 <= d < 10 → digit_val (digit_char d) = d.
Proof. intros H. unfold digit_val. rewrite code_digit_char; lia. Qed.

Lemma is_digit_not_space (c : ascii) : is_digit c = true → is_space c = false.
Proof. unfold is_digit, is_space. intros H. bool_to_prop. repeat rewrite orb_false_iff.
  rewrite andb_false_iff, !Z.eqb_neq, !Z.leb_gt. lia. Qed.

Lemma digits_val_app (l k : list ascii) :
  digits_val (l ++ k) = digits_val l * 10 ^ Z.of_nat (length k) + digits_val k.
Proof.
  unfold digits_val. rewrite fold_left_app. generalize (fold_left (λ acc c, 10 * acc + digit_val c) l 0).
  induction k as [|c k IH] using rev_ind; intros z; cbn; [lia|].
  rewrite !fold_left_app, length_app; cbn. rewrite (IH z).
  replace (Z.of_nat (length k + 1)) with (Z.of_nat (length k) + 1) by lia.
  rewrite Z.pow_add_r by lia. lia.
Qed.

Lemma digits_val_zeros (n : nat) : digits_val (replicate n (digit_char 0)) = 0.
Proof. unfold digits_val. induction n as [|n IH]; [done|]. exact IH. Qed.

Lemma print_digits_spec (fuel : nat) (n : Z) (acc : list ascii) :
  0 <= n < 2 ^ Z.of_nat fuel → (0 < fuel)%nat →
  ∃ l, print_digits fuel n acc = (l ++ acc)%list ∧ digits_val l = n ∧
       forallb is_digit l = true ∧ l ≠ [].
Proof.
  revert n acc. induction fuel as [|fuel IH]; intros n acc Hn Hf; [lia|]. cbn [print_digits].
  destruct (Z.ltb_spec n 10) as [Hlt|Hge].
  - exists [digit_char n]. split; [done|]. split; [|split; [|done]].
    + unfold digits_val; cbn. rewrite digit_val_char; lia.
    + cbn. by rewrite is_digit_char by lia.
  - assert (Z.of_nat (S fuel) = Z.of_nat fuel + 1) as HS by lia.
    rewrite HS, Z.pow_add_r in Hn by lia.
    assert (0 <= n / 10 < 2 ^ Z.of_nat fuel) as Hq.
    { split; [apply Z.div_pos; lia|]. apply Z.div_lt_upper_bound; lia. }
    assert (0 < fuel)%nat.
    { destruct fuel; [|lia]. cbn in Hq. assert (1 <= n / 10) by (apply Z.div_le_lower_bound; lia). lia. }
    destruct (IH (n / 10) (digit_char (n mod 10) :: acc)) as (l & -> & Hv & Hd & Hne); [done..|].
    pose proof (Z.mod_pos_bound n 10).
    exists (l ++ [digit_char (n mod 10)])%list. rewrite <- app_assoc. split; [done|].
    rewrite digits_val_app, forallb_app, Hv, Hd. cbn. rewrite is_digit_char by lia.
    split; [|split; [done|by destruct l]].
    unfold digits_val; cbn. rewrite digit_val_char by lia.
    pose proof (Z.div_mod n 10). lia.
Qed.

Lemma nat_digits_spec (n : Z) :
  0 <= n → digits_val (nat_digits n) = n ∧ forallb is_digit (nat_digits n) = true ∧ nat_digits n ≠ [].
Proof.
  intros Hn. unfold nat_digits. pose proof (Z.log2_nonneg n).
  destruct (print_digits_spec (Z.to_nat (Z.log2 n + 1)) n []) as (l & -> & ?); [|lia|by rewrite app_nil_r].
  rewrite Z2Nat.id by lia. split; [done|].
  destruct (decide (n = 0)) as [->|]; [cbn; lia|]. apply Z.log2_spec; lia.
Qed.

Lemma nat_digits_inj (n m : Z) : 0 <= n → 0 <= m → nat_digits n = nat_digits m → n = m.
Proof.
  intros Hn Hm H. destruct (nat_digits_spec n Hn) as [<- _], (nat_digits_spec m Hm) as [<- _].
  by rewrite H.
Qed.

Lemma digits_val_nonneg (l : list ascii) : forallb is_digit l = true → 0 <= digits_val l.
Proof.
  induction l as [|c l IH] using rev_ind; intros H; [done|].
  rewrite forallb_app in H. apply andb_true_iff in H as [H1 H2]. cbn in H2.
  rewrite digits_val_app. unfold digits_val at 2; cbn. specialize (IH H1).
  assert (0 <= digit_val c) by (unfold is_digit, digit_val in *; bool_to_prop; lia). lia.
Qed.

Lemma drop_while_none {A : Type} (p : A → bool) (l : list A) :
  (∀ a, a ∈ l → p a = false) → drop_while p l = l.
Proof. destruct l as [|a l]; intros H; cbn; [done|]. by rewrite H by set_solver. Qed.

(** No white space at either end: trimming changes nothing. *)
Lemma trim_list_digits (l : list ascii) : forallb is_digit l = true → trim_list l = l.
Proof.
  intros H. rewrite forallb_forall in H. unfold trim_list.
  assert (∀ c, c ∈ l → is_space c = false) as Hs.
  { intros c Hc. apply is_digit_not_space, H. by apply list_elem_of_In. }
  rewrite (drop_while_none _ l) by done. rewrite drop_while_none; [by rewrite reverse_involutive|].
  intros c Hc. apply Hs. by rewrite elem_of_reverse in Hc.
Qed.

(** A decimal numeral is read back as its value. *)
Lemma BigInt_of_digits (l : list ascii) :
  all_digits l = true → BigInt_of_string (of_list l) = Some (digits_val l).
Proof.
  intros H. unfold BigInt_of_string. rewrite to_of_list.
  assert (forallb is_digit l = true) as Hd by (destruct l; done).
  rewrite trim_list_digits by done. destruct l as [|c l]; [done|].
  assert (decimal_val (c :: l) = Some (digits_val (c :: l))) as Hdec.
  { unfold decimal_val. by rewrite H. }
  cbn in Hd. apply andb_true_iff in Hd as [Hc Hl]. unfold is_digit in Hc. bool_to_prop.
  rewrite (proj2 (Z.eqb_neq (code c) 45)), (proj2 (Z.eqb_neq (code c) 43)) by lia.
  destruct l as [|x l]; [done|]. cbn in Hl. apply andb_true_iff in Hl as [Hx _].
  assert (∀ a b, a >= 58 → b >= 58 → existsb (Z.eqb (code x)) [a; b] = false) as Hno.
  { intros a b ? ?. unfold is_digit in Hx. bool_to_prop. cbn.
    rewrite (proj2 (Z.eqb_neq (code x) a)), (proj2 (Z.eqb_neq (code x) b)) by lia. done. }
  rewrite !Hno by lia. by rewrite !andb_false_r.
Qed.

Lemma split_list_no (c : ascii) (l : list ascii) : c ∉ l → split_list c l = [l].
Proof.
  induction l as [|a l IH]; cbn; [done|]. intros H. rewrite IH by set_solver.
  destruct (Ascii.eqb_spec a c) as [->|_]; [set_solver|done].
Qed.

Lemma split_list_app (c : ascii) (l k : list ascii) :
  c ∉ l → split_list c (l ++ c :: k) = l :: split_list c k.
Proof.
  induction l as [|a l IH]; cbn; intros H; [by rewrite Ascii.eqb_refl|].
  destruct (Ascii.eqb_spec a c) as [->|_]; [set_solver|]. by rewrite IH by set_solver.
Qed.

Lemma Z_to_string_nonneg (n : Z) : 0 <= n → to_list (Z_to_string n) = nat_digits n.
Proof. intros H. unfold Z_to_string. rewrite (proj2 (Z.ltb_ge n 0)) by lia. apply to_of_list. Qed.

Lemma nat_digits_head (n : Z) : 0 <= n → head (nat_digits n) ≠ Some "-"%char.
Proof.
  intros H. destruct (nat_digits_spec n H) as (_ & Hd & _). destruct (nat_digits n) as [|c l]; [done|].
  cbn in *. intros [= ->]. done.
Qed.

Lemma Z_to_string_inj (n m : Z) : Z_to_string n = Z_to_string m → n = m.
Proof.
  intros H. destruct (Z.ltb_spec n 0) as [Hn|Hn], (Z.ltb_spec m 0) as [Hm|Hm].
  - unfold Z_to_string in H. rewrite (proj2 (Z.ltb_lt n 0)), (proj2 (Z.ltb_lt m 0)) in H by lia.
    injection H as H%of_list_inj%nat_digits_inj; lia.
  - exfalso. apply (nat_digits_head m Hm). rewrite <- Z_to_string_nonneg, <- H by done.
    unfold Z_to_string. by rewrite (proj2 (Z.ltb_lt n 0)) by lia.
  - exfalso. apply (nat_digits_head n Hn). rewrite <- Z_to_string_nonneg, H by done.
    unfold Z_to_string. by rewrite (proj2 (Z.ltb_lt m 0)) by lia.
  - apply (f_equal to_list) in H. rewrite !Z_to_string_nonneg in H by done. by apply nat_digits_inj.
Qed.

(** The characters of a numeral. *)
Lemma Z_to_string_chars (n : Z) (c : ascii) :
  c ∈ to_list (Z_to_string n) → is_digit c = true ∨ c = "-"%char.
Proof.
  assert (∀ m, 0 <= m → c ∈ nat_digits m → is_digit c = true) as Hd.
  { intros m (_ & Hd & _)%nat_digits_spec. rewrite forallb_forall in Hd. rewrite list_elem_of_In. auto. }
  unfold Z_to_string. destruct (Z.ltb_spec n 0); cbn; rewrite to_of_list; [|eauto].
  intros [->|Hc]%elem_of_cons; [by right|]. left. eapply Hd; [|done]. lia.
Qed.

#[export] Hint Rewrite to_of_list of_to_list to_list_app : invoicefi.

(** ** Prefixes *)

Lemma startsWith_trans (a b s : string) : startsWith s b = true → startsWith b a = true → startsWith s a = true.
Proof.
  unfold startsWith. revert b s. induction a as [|x a IH]; intros b s; [by destruct s|].
  destruct b as [|y b]; [done|]. destruct s as [|z s]; cbn; [done|].
  destruct (ascii_dec y z) as [->|]; [|done]. destruct (ascii_dec x z) as [->|]; [|done]. eauto.
Qed.

(** Two prefixes of one string are comparable. *)
Lemma startsWith_total (a b s : string) :
  startsWith s a = true → startsWith s b = true → startsWith a b || startsWith b a = true.
Proof.
  unfold startsWith. revert b s. induction a as [|x a IH]; intros b s; [by destruct b|].
  destruct b as [|y b]; [done|]. destruct s as [|z s]; cbn; [done|].
  destruct (ascii_dec x z) as [->|]; [|done]. destruct (ascii_dec y z) as [->|]; [|done].
  destruct (ascii_dec z z); [|done]. eauto.
Qed.
