(* ===== verification/Schema.v ===== *)
(** * The data model of [backend/prisma/schema.prisma]

    One [Record] per model with the columns of the schema ([DateTime] as milliseconds,
    nullable columns as [option]s), the enums as inductive types with decidable equality,
    and the database as the record of its tables. *)
From S2P Require Import Prelude Js.
Open Scope Z_scope.

Inductive InvoiceStatus := PENDING | FUNDED | REPAID | DEFAULTED.
#[export] Instance InvoiceStatus_eq : EqDecision InvoiceStatus.
Proof. solve_decision. Defined.

Definition InvoiceStatus_name (s : InvoiceStatus) : string :=
  match s with
  | PENDING => "PENDING" | FUNDED => "FUNDED" | REPAID => "REPAID" | DEFAULTED => "DEFAULTED"
  end.

Record Invoice := mkInvoice {
  inv_id : Z;
  inv_onchainId : Z;
  inv_status : InvoiceStatus;
  inv_faceValue : Z;
  inv_farmer : string;
  inv_investor : option string;
  inv_funder : option string;
  inv_discountPercentage : option Z;
  inv_settledLedger : option Z;
  inv_settledAt : option Z;
  inv_fundedAmount : option Z;
  inv_repaidAmount : option Z;
  inv_assetCode : option string;
  inv_createdAt : Z;
  inv_updatedAt : Z }.

Record InvoiceEventRow := mkInvoiceEventRow {
  ev_id : string;
  ev_invoiceOnchainId : Z;
  ev_previousStatus : option InvoiceStatus;
  ev_newStatus : InvoiceStatus;
  ev_actorId : string;
  ev_txHash : option string;
  ev_occurredAtNanos : Z;
  ev_sequence : Z;
  ev_createdAt : Z }.

Record SyncCursor := mkSyncCursor { cur_id : Z; cur_lastLedger : Z }.

Inductive WebhookDeliveryStatus := D_PENDING | D_PROCESSING | D_DELIVERED | D_ABANDONED.
#[export] Instance WebhookDeliveryStatus_eq : EqDecision WebhookDeliveryStatus.
Proof. solve_decision. Defined.

Definition WebhookDeliveryStatus_name (s : WebhookDeliveryStatus) : string :=
  match s with
  | D_PENDING => "PENDING" | D_PROCESSING => "PROCESSING"
  | D_DELIVERED => "DELIVERED" | D_ABANDONED => "ABANDONED"
  end.

Record WebhookSubscription := mkWebhookSubscription {
  sub_id : string;
  sub_ownerId : string;
  sub_url : string;
  sub_secret : string;
  sub_eventTypes : list string;
  sub_active : bool;
  sub_createdAt : Z;
  sub_updatedAt : Z }.

(** The payload of a delivery is the [InvoiceEvent] of webhook-event.types.ts; its
    [data] object is kept as the list of its integer fields. *)
Record InvoiceEvent := mkInvoiceEvent {
  ie_invoiceId : string;
  ie_event : string;
  ie_actor : option string;
  ie_timestamp : string;
  ie_data : list (string * Z) }.

Record WebhookDelivery := mkWebhookDelivery {
  del_id : string;
  del_subscriptionId : string;
  del_eventType : string;
  del_idempotencyKey : string;
  del_payload : InvoiceEvent;
  del_status : WebhookDeliveryStatus;
  del_attemptCount : Z;
  del_nextAttemptAt : Z;
  del_lockedAt : option Z;
  del_lastAttemptAt : option Z;
  del_lastStatusCode : option Z;
  del_lastError : option string;
  del_createdAt : Z;
  del_updatedAt : Z }.

Record WebhookDeliveryAttempt := mkWebhookDeliveryAttempt {
  att_id : string;
  att_deliveryId : string;
  att_attemptNumber : Z;
  att_attemptedAt : Z;
  att_success : bool;
  att_statusCode : option Z;
  att_error : option string;
  att_durationMs : option Z }.

Inductive ExportType := TRANSACTIONS | INVESTOR_REPORT.
#[export] Instance ExportType_eq : EqDecision ExportType.
Proof. solve_decision. Defined.

Inductive ExportFormat := JSON | CSV.
#[export] Instance ExportFormat_eq : EqDecision ExportFormat.
Proof. solve_decision. Defined.

Inductive ExportJobStatus := J_PENDING | J_PROCESSING | J_COMPLETED | J_FAILED.
#[export] Instance ExportJobStatus_eq : EqDecision ExportJobStatus.
Proof. solve_decision. Defined.

Definition ExportJobStatus_name (s : ExportJobStatus) : string :=
  match s with
  | J_PENDING => "PENDING" | J_PROCESSING => "PROCESSING"
  | J_COMPLETED => "COMPLETED" | J_FAILED => "FAILED"
  end.

Record ExportJob := mkExportJob {
  job_id : string;
  job_type : ExportType;
  job_format : ExportFormat;
  job_status : ExportJobStatus;
  job_requestedBy : string;
  job_requesterRole : string;
  job_subject : option string;
  job_thresholdMinorUnits : option string;
  job_rangeStart : option Z;
  job_rangeEnd : option Z;
  job_recordCount : option Z;
  job_byteLength : option Z;
  job_sha256 : option string;
  job_signature : option string;
  job_signerPublicKey : option string;
  job_content : option string;
  job_contentType : option string;
  job_error : option string;
  job_createdAt : Z;
  job_startedAt : option Z;
  job_completedAt : option Z }.

Record InvoiceReminderFailure := mkInvoiceReminderFailure {
  rf_id : string;
  rf_invoiceId : string;
  rf_errorMessage : string;
  rf_attemptCount : Z;
  rf_jobId : option string;
  rf_failedAt : Z }.

(** [responseBody] is a JSON value, kept as its serialized text. *)
Record IdempotencyKey := mkIdempotencyKey {
  ik_id : string;
  ik_key : string;
  ik_userId : string;
  ik_bodyHash : string;
  ik_statusCode : Z;
  ik_responseBody : string;
  ik_requestPath : string;
  ik_lockedAt : option Z;
  ik_lockOwner : option string;
  ik_expiresAt : Z;
  ik_createdAt : Z;
  ik_updatedAt : Z }.

Record db := mkDb {
  t_invoice : list Invoice;
  t_invoiceEvent : list InvoiceEventRow;
  t_syncCursor : list SyncCursor;
  t_subscription : list WebhookSubscription;
  t_delivery : list WebhookDelivery;
  t_attempt : list WebhookDeliveryAttempt;
  t_exportJob : list ExportJob;
  t_reminderFailure : list InvoiceReminderFailure;
  t_idempotencyKey : list IdempotencyKey }.

Definition empty_db : db := mkDb [] [] [] [] [] [] [] [] [].

(** A table of the database: a lens into [db]; [conflict a b] when two distinct rows [a]
    and [b] would violate a uniqueness constraint ([@id], [@unique], [@@unique]);
    [same_keys a b] when they agree on every unique column. *)
Class Table (R : Type) := {
  rows : db → list R;
  set_rows : list R → db → db;
  conflict : R → R → bool;
  same_keys : R → R → bool;
  rows_set_rows : ∀ l d, rows (set_rows l d) = l;
  set_rows_rows : ∀ d, set_rows (rows d) d = d;
  set_rows_set_rows : ∀ l k d, set_rows l (set_rows k d) = set_rows l d }.

Ltac table_laws := by intros; repeat match goal with d : db |- _ => destruct d end.

#[export] Program Instance Invoice_table : Table Invoice := {|
  rows := t_invoice;
  set_rows := λ l d, mkDb l (t_invoiceEvent d) (t_syncCursor d) (t_subscription d)
    (t_delivery d) (t_attempt d) (t_exportJob d) (t_reminderFailure d) (t_idempotencyKey d);
  conflict := λ a b, (inv_id a =? inv_id b) || (inv_onchainId a =? inv_onchainId b);
  same_keys := λ a b, (inv_id a =? inv_id b) && (inv_onchainId a =? inv_onchainId b) |}.
Solve Obligations with table_laws.

#[export] Program Instance InvoiceEvent_table : Table InvoiceEventRow := {|
  rows := t_invoiceEvent;
  set_rows := λ l d, mkDb (t_invoice d) l (t_syncCursor d) (t_subscription d)
    (t_delivery d) (t_attempt d) (t_exportJob d) (t_reminderFailure d) (t_idempotencyKey d);
  conflict := λ a b, String.eqb (ev_id a) (ev_id b);
  same_keys := λ a b, String.eqb (ev_id a) (ev_id b) |}.
Solve Obligations with table_laws.

#[export] Program Instance SyncCursor_table : Table SyncCursor := {|
  rows := t_syncCursor;
  set_rows := λ l d, mkDb (t_invoice d) (t_invoiceEvent d) l (t_subscription d)
    (t_delivery d) (t_attempt d) (t_exportJob d) (t_reminderFailure d) (t_idempotencyKey d);
  conflict := λ a b, cur_id a =? cur_id b;
  same_keys := λ a b, cur_id a =? cur_id b |}.
Solve Obligations with table_laws.

#[export] Program Instance Subscription_table : Table WebhookSubscription := {|
  rows := t_subscription;
  set_rows := λ l d, mkDb (t_invoice d) (t_invoiceEvent d) (t_syncCursor d) l
    (t_delivery d) (t_attempt d) (t_exportJob d) (t_reminderFailure d) (t_idempotencyKey d);
  conflict := λ a b, String.eqb (sub_id a) (sub_id b);
  same_keys := λ a b, String.eqb (sub_id a) (sub_id b) |}.
Solve Obligations with table_laws.

#[export] Program Instance Delivery_table : Table WebhookDelivery := {|
  rows := t_delivery;
  set_rows := λ l d, mkDb (t_invoice d) (t_invoiceEvent d) (t_syncCursor d) (t_subscription d)
    l (t_attempt d) (t_exportJob d) (t_reminderFailure d) (t_idempotencyKey d);
  conflict := λ a b, String.eqb (del_id a) (del_id b)
    || (String.eqb (del_subscriptionId a) (del_subscriptionId b)
        && String.eqb (del_idempotencyKey a) (del_idempotencyKey b));
  same_keys := λ a b, String.eqb (del_id a) (del_id b)
    && (String.eqb (del_subscriptionId a) (del_subscriptionId b)
        && String.eqb (del_idempotencyKey a) (del_idempotencyKey b)) |}.
Solve Obligations with table_laws.

#[export] Program Instance Attempt_table : Table WebhookDeliveryAttempt := {|
  rows := t_attempt;
  set_rows := λ l d, mkDb (t_invoice d) (t_invoiceEvent d) (t_syncCursor d) (t_subscription d)
    (t_delivery d) l (t_exportJob d) (t_reminderFailure d) (t_idempotencyKey d);
  conflict := λ a b, String.eqb (att_id a) (att_id b);
  same_keys := λ a b, String.eqb (att_id a) (att_id b) |}.
Solve Obligations with table_laws.

#[export] Program Instance ExportJob_table : Table ExportJob := {|
  rows := t_exportJob;
  set_rows := λ l d, mkDb (t_invoice d) (t_invoiceEvent d) (t_syncCursor d) (t_subscription d)
    (t_delivery d) (t_attempt d) l (t_reminderFailure d) (t_idempotencyKey d);
  conflict := λ a b, String.eqb (job_id a) (job_id b);
  same_keys := λ a b, String.eqb (job_id a) (job_id b) |}.
Solve Obligations with table_laws.

#[export] Program Instance ReminderFailure_table : Table InvoiceReminderFailure := {|
  rows := t_reminderFailure;
  set_rows := λ l d, mkDb (t_invoice d) (t_invoiceEvent d) (t_syncCursor d) (t_subscription d)
    (t_delivery d) (t_attempt d) (t_exportJob d) l (t_idempotencyKey d);
  conflict := λ a b, String.eqb (rf_id a) (rf_id b);
  same_keys := λ a b, String.eqb (rf_id a) (rf_id b) |}.
Solve Obligations with table_laws.

#[export] Program Instance IdempotencyKey_table : Table IdempotencyKey := {|
  rows := t_idempotencyKey;
  set_rows := λ l d, mkDb (t_invoice d) (t_invoiceEvent d) (t_syncCursor d) (t_subscription d)
    (t_delivery d) (t_attempt d) (t_exportJob d) (t_reminderFailure d) l;
  conflict := λ a b, String.eqb (ik_id a) (ik_id b)
    || (String.eqb (ik_key a) (ik_key b) && String.eqb (ik_userId a) (ik_userId b));
  same_keys := λ a b, String.eqb (ik_id a) (ik_id b)
    && (String.eqb (ik_key a) (ik_key b) && String.eqb (ik_userId a) (ik_userId b)) |}.
Solve Obligations with table_laws.

#[export] Hint Rewrite @rows_set_rows @set_rows_rows @set_rows_set_rows : invoicefi.

(** The generated string identifiers in use. *)
Definition ids (d : db) : list string :=
  (map ev_id (t_invoiceEvent d) ++ map sub_id (t_subscription d) ++ map del_id (t_delivery d)
   ++ map att_id (t_attempt d) ++ map job_id (t_exportJob d) ++ map rf_id (t_reminderFailure d)
   ++ map ik_id (t_idempotencyKey d))%list.

Arguments rows : simpl never.
Arguments set_rows : simpl never.
