(* ===== verification/Errors.v ===== *)
(** * Exceptions and the contract error tables ([backend/src/common/contract-error.ts]) *)
From S2P Require Import Prelude Js Schema.
Open Scope Z_scope.

Inductive ContractErrorCode :=
| InsufficientFunds | InvoiceExpired | DuplicateFunding
| Unauthorized | InvalidState | WalletSessionExpired.

#[export] Instance ContractErrorCode_eq : EqDecision ContractErrorCode.
Proof. solve_decision. Defined.

(** Which on-chain contract a Soroban call targeted. *)
Inductive SorobanContractKind := financing_pool | settlement.

#[export] Instance SorobanContractKind_eq : EqDecision SorobanContractKind.
Proof. solve_decision. Defined.

Definition FINANCING_POOL_ERROR_CODES (n : Z) : option ContractErrorCode :=
  match n with
  | 1 => Some InvalidState
  | 2 => Some InvalidState
  | 3 => Some InvalidState
  | 4 => Some InvalidState
  | 5 => Some InsufficientFunds
  | 6 => Some InsufficientFunds
  | 7 => Some DuplicateFunding
  | 8 => Some InvalidState
  | 9 => Some InvalidState
  | 10 => Some Unauthorized
  | 11 => Some Unauthorized
  | 12 => Some InvalidState
  | 13 => Some InvalidState
  | 14 => Some InvalidState
  | 15 => Some InvalidState
  | 16 => Some InvalidState
  | 17 => Some InvalidState
  | 18 => Some InvalidState
  | 19 => Some InvalidState
  | 20 => Some InvalidState
  | 21 => Some InvalidState
  | 22 => Some Unauthorized
  | 23 => Some InvalidState
  | _ => None
  end.

Definition SETTLEMENT_ERROR_CODES (n : Z) : option ContractErrorCode :=
  match n with
  | 1 => Some Unauthorized
  | 2 => Some InvalidState
  | 3 => Some InvalidState
  | 4 => Some InvalidState
  | 5 => Some InvalidState
  | 6 => Some Unauthorized
  | 7 => Some InvalidState
  | 8 => Some InvalidState
  | 9 => Some InvalidState
  | 10 => Some InsufficientFunds
  | 11 => Some InvalidState
  | 12 => Some InvalidState
  | 13 => Some InvalidState
  | 14 => Some InvalidState
  | 15 => Some InvalidState
  | 16 => Some Unauthorized
  | 17 => Some InvalidState
  | 18 => Some InvalidState
  | 19 => Some InvalidState
  | 20 => Some InvalidState
  | 21 => Some InvalidState
  | 22 => Some InvalidState
  | 23 => Some InvalidState
  | 24 => Some InvalidState
  | 25 => Some InvalidState
  | 26 => Some InvalidState
  | 27 => Some Unauthorized
  | 28 => Some InvalidState
  | 29 => Some InvalidState
  | 30 => Some InvalidState
  | 31 => Some InvalidState
  | _ => None
  end.

(** ** Thrown values

    The Nest [HttpException]s are one constructor with their status; [PrismaError] is a
    [PrismaClientKnownRequestError] with its code ("P2002" for a unique-constraint
    violation, "P2025" for a missing row, "P1001" for an unreachable server). *)
Inductive exn :=
| HttpException (status : Z) (msg : string)
| ContractError (code : ContractErrorCode) (msg : string)
| SorobanRpcError (msg : string)
| InvoiceNotFoundError (invoiceId : string)
| UnexpectedInvoiceStatusError (invoiceId : string) (status : InvoiceStatus)
| PrismaError (code msg : string)
| PrismaValidationError (msg : string)
| ReferenceError (name : string)
| TypeError (msg : string)
| SyntaxError (msg : string)
| JsError (msg : string)
| NonError (string_of : string).

Definition BadRequestException := HttpException 400.
Definition UnauthorizedException := HttpException 401.
Definition ForbiddenException := HttpException 403.
Definition NotFoundException := HttpException 404.
Definition ConflictException := HttpException 409.
Definition ServiceUnavailableException := HttpException 503.

(** [err.message] *)
Definition message (e : exn) : string :=
  match e with
  | HttpException _ msg | ContractError _ msg | SorobanRpcError msg | PrismaError _ msg
  | PrismaValidationError msg | TypeError msg | SyntaxError msg | JsError msg => msg
  | InvoiceNotFoundError id => ("Invoice " +:+ id +:+ " not found in database")%string
  | UnexpectedInvoiceStatusError id s =>
      ("Invoice " +:+ id +:+ " is " +:+ InvoiceStatus_name s +:+ ", expected FUNDED")%string
  | ReferenceError name => (name +:+ " is not defined")%string
  | NonError s => s
  end.

(** [err instanceof Error ? err.message : String(err)], which is [message] for the thrown
    values above. *)
Definition is_http (e : exn) : bool :=
  match e with HttpException _ _ => true | _ => false end.

(** [err?.code === 'P2002'] *)
Definition is_unique_violation (e : exn) : bool :=
  match e with PrismaError c _ => String.eqb c "P2002" | _ => false end.

(** Every code of either table is mapped to one of the six [ContractErrorCode]s, and the
    tables have no entry outside the contracts' error enums. *)
Lemma FINANCING_POOL_ERROR_CODES_domain (n : Z) :
  is_Some (FINANCING_POOL_ERROR_CODES n) ↔ 1 <= n <= 23.
Proof.
  split.
  - intros [c H]. unfold FINANCING_POOL_ERROR_CODES in H.
    repeat (destruct n as [|n|n]; try done; try lia).
    all: repeat (destruct n as [n|n|]; try done; try lia).
  - intros H. unfold is_Some.
    assert (n ∈ seqZ 1 23) as Hin by (apply elem_of_seqZ; lia).
    repeat (apply elem_of_cons in Hin as [->|Hin]; [cbn; eauto|]). by apply elem_of_nil in Hin.
Qed.
