(* ===== verification/Prisma.v ===== *)
(** * The interface to the database client

    The generated Prisma client, PostgreSQL and the system clock are not code of the
    repository.  The services are written against the classes below: [Prisma] has one
    operation per client method the services call, [PrismaLaws] states the documented
    behaviour they rely on, and [Clock] is [Date.now()].  Every theorem about a service is
    proved for all instances; the instance [mem] at the end of the file (an in-memory
    database with injected faults) shows that the laws can hold and runs the witnesses. *)
From S2P Require Import Prelude Js Schema Errors.
Open Scope Z_scope.

(** Rows in the order of an integer key. *)
Definition key_le {R : Type} (key : R → Z) (a b : R) : Prop := key a <= key b.

#[export] Instance key_le_dec {R : Type} (key : R → Z) : RelDecision (key_le key).
Proof. intros a b. unfold key_le. apply _. Defined.

#[export] Instance key_le_total {R : Type} (key : R → Z) : Total (key_le key).
Proof. intros a b. unfold key_le. lia. Qed.

#[export] Instance key_le_trans {R : Type} (key : R → Z) : Transitive (key_le key).
Proof. intros a b c. unfold key_le. lia. Qed.

(** What the database and the client generate: a fresh [uuid()], the next
    [autoincrement()] value and [now()]. *)
Record gen := mkGen { g_id : string; g_seq : Z; g_now : Z }.

(** The rows at the positions marked [true]. *)
Fixpoint picked_rows {R : Type} (picked : list bool) (l : list R) : list R :=
  match picked, l with
  | b :: picked', r :: l' => if b then r :: picked_rows picked' l' else picked_rows picked' l'
  | _, _ => []
  end.

Class Prisma (W : Type) := {
  (** the committed contents of the database *)
  tables : W → db;
  (** the server is reachable and stays so for the statements that follow *)
  up : W → Prop;
  (** [findMany({ where, orderBy })], the order given by an integer key *)
  find_many : ∀ {R : Type} `{!Table R}, (R → bool) → (R → Z) → M exn W (list R);
  (** [findUnique({ where })] *)
  find_unique : ∀ {R : Type} `{!Table R}, (R → bool) → M exn W (option R);
  (** [count({ where })] *)
  count_rows : ∀ {R : Type} `{!Table R}, (R → bool) → M exn W Z;
  (** [create({ data })] *)
  create : ∀ {R : Type} `{!Table R}, (gen → R) → M exn W R;
  (** [updateMany({ where, data })] *)
  update_many : ∀ {R : Type} `{!Table R}, (R → bool) → (gen → R → R) → M exn W Z;
  (** [update({ where, data })] *)
  update : ∀ {R : Type} `{!Table R}, (R → bool) → (gen → R → R) → M exn W R;
  (** [upsert({ where, create, update })] *)
  upsert : ∀ {R : Type} `{!Table R}, (R → bool) → (gen → R) → (gen → R → R) → M exn W R;
  (** [deleteMany({ where })] *)
  delete_many : ∀ {R : Type} `{!Table R}, (R → bool) → M exn W Z;
  (** [UPDATE ... SET f WHERE id IN (SELECT id ... WHERE p ORDER BY key LIMIT n FOR UPDATE SKIP
      LOCKED) RETURNING ...]; [p] and [f] see the statement's [now()] *)
  update_skip_locked : ∀ {R : Type} `{!Table R},
    (gen → R → bool) → (R → Z) → Z → (gen → R → R) → M exn W (list R);
  (** [$transaction(async (tx) => body)], every statement of the body issued on [tx] *)
  transaction : ∀ {A : Type}, M exn W A → M exn W A;
  (** [$transaction(async (tx) => body)] whose body issues no statement on [tx] *)
  transaction_idle : ∀ {A : Type}, M exn W A → M exn W A }.

Class Clock (W : Type) := { clock : W → Z * W }.

(** [Date.now()] *)
Definition date_now {W : Type} `{!Clock W} : M exn W Z := λ w, (Ret (clock w).1, (clock w).2).

(** [setTimeout]: waiting changes the world only as the passing of time does. *)
Class Timer (W : Type) := { sleep : Z → W → W }.

Definition await_sleep {W : Type} `{!Timer W} (ms : Z) : M exn W unit := λ w, (Ret tt, sleep ms w).

(** A successful statement: the tables become [d], and the server stays up. *)
Definition commits {W : Type} `{!Prisma W} (w w' : W) (d : db) : Prop :=
  tables w' = d ∧ (up w → up w').

(** A failed statement leaves the tables unchanged; when the server is up it only fails
    for the reason [P]. *)
Definition refuses {W : Type} `{!Prisma W} (w w' : W) (P : Prop) : Prop :=
  tables w' = tables w ∧ (up w → P ∧ up w').

Class PrismaLaws (W : Type) `{!Prisma W} := {
  find_many_law : ∀ {R : Type} `{!Table R} (p : R → bool) (key : R → Z) (w : W),
    match find_many p key w with
    | (Ret l, w') => commits w w' (tables w) ∧ l ≡ₚ List.filter p (rows (tables w))
                     ∧ Sorted (key_le key) l
    | (Throw _, w') => refuses w w' False
    end;
  find_unique_law : ∀ {R : Type} `{!Table R} (p : R → bool) (w : W),
    match find_unique p w with
    | (Ret (Some r), w') => commits w w' (tables w) ∧ r ∈ rows (tables w) ∧ p r = true
    | (Ret None, w') => commits w w' (tables w) ∧ existsb p (rows (tables w)) = false
    | (Throw _, w') => refuses w w' False
    end;
  count_rows_law : ∀ {R : Type} `{!Table R} (p : R → bool) (w : W),
    match count_rows p w with
    | (Ret n, w') => commits w w' (tables w) ∧ n = count_if p (rows (tables w))
    | (Throw _, w') => refuses w w' False
    end;
  create_law : ∀ {R : Type} `{!Table R} (mk : gen → R) (w : W),
    match create mk w with
    | (Ret r, w') => commits w w' (set_rows (rows (tables w) ++ [r]) (tables w))
                     ∧ existsb (conflict r) (rows (tables w)) = false
                     ∧ ∃ g, r = mk g ∧ g_id g ∉ ids (tables w)
    | (Throw e, w') => refuses w w' (is_unique_violation e = true
                     ∧ ∃ g, g_id g ∉ ids (tables w) ∧ existsb (conflict (mk g)) (rows (tables w)) = true)
    end;
  update_many_law : ∀ {R : Type} `{!Table R} (p : R → bool) (f : gen → R → R) (w : W),
    match update_many p f w with
    | (Ret n, w') => n = count_if p (rows (tables w)) ∧ ∃ g,
                     commits w w' (set_rows (map_if p (f g) (rows (tables w))) (tables w))
    | (Throw _, w') => refuses w w' (∃ g r, p r = true ∧ same_keys r (f g r) = false)
    end;
  update_law : ∀ {R : Type} `{!Table R} (p : R → bool) (f : gen → R → R) (w : W),
    match update p f w with
    | (Ret r, w') => ∃ g r0, r0 ∈ rows (tables w) ∧ p r0 = true ∧ r = f g r0 ∧
                     commits w w' (set_rows (map_if p (f g) (rows (tables w))) (tables w))
    | (Throw _, w') => refuses w w' (existsb p (rows (tables w)) = false
                     ∨ ∃ g r, p r = true ∧ same_keys r (f g r) = false)
    end;
  upsert_law : ∀ {R : Type} `{!Table R} (p : R → bool) (mk : gen → R) (f : gen → R → R) (w : W),
    match upsert p mk f w with
    | (Ret _, w') => ∃ g, commits w w'
        (set_rows (if existsb p (rows (tables w)) then map_if p (f g) (rows (tables w))
                   else rows (tables w) ++ [mk g]) (tables w))
    | (Throw _, w') => refuses w w'
        ((∃ g r, p r = true ∧ same_keys r (f g r) = false)
         ∨ (existsb p (rows (tables w)) = false
            ∧ ∃ g, existsb (conflict (mk g)) (rows (tables w)) = true))
    end;
  delete_many_law : ∀ {R : Type} `{!Table R} (p : R → bool) (w : W),
    match delete_many p w with
    | (Ret n, w') => n = count_if p (rows (tables w)) ∧
        commits w w' (set_rows (List.filter (λ r, negb (p r)) (rows (tables w))) (tables w))
    | (Throw _, w') => refuses w w' False
    end;
  (** a subset of at most [n] eligible rows is updated, and the updated rows are returned *)
  update_skip_locked_law : ∀ {R : Type} `{!Table R} (p : gen → R → bool) (key : R → Z) (n : Z)
      (f : gen → R → R) (w : W),
    match update_skip_locked p key n f w with
    | (Ret l, w') => ∃ g picked, length picked = length (rows (tables w)) ∧
        Forall2 (λ (b : bool) r, b = true → p g r = true) picked (rows (tables w)) ∧
        l ≡ₚ picked_rows picked (map (f g) (rows (tables w))) ∧ Z.of_nat (length l) <= Z.max 0 n ∧
        commits w w' (set_rows (zip_with (λ b r, if (b : bool) then f g r else r) picked (rows (tables w))) (tables w))
    | (Throw _, w') => refuses w w' (∃ g r, p g r = true ∧ same_keys r (f g r) = false)
    end;
  (** the body runs between BEGIN and COMMIT; if it throws, or COMMIT fails, its writes are
      rolled back *)
  transaction_law : ∀ {A : Type} (m : M exn W A) (w : W),
    (∃ e w', transaction m w = (Throw e, w') ∧ refuses w w' False) ∨
    ∃ w0, commits w w0 (tables w) ∧
      match m w0 with
      | (Ret a, w1) =>
          (∃ w', transaction m w = (Ret a, w') ∧ commits w1 w' (tables w1)) ∨
          (∃ e w', transaction m w = (Throw e, w') ∧ tables w' = tables w ∧ ¬ up w1)
      | (Throw e, w1) =>
          ∃ w', transaction m w = (Throw e, w') ∧ tables w' = tables w ∧ (up w1 → up w')
      end;
  transaction_idle_law : ∀ {A : Type} (m : M exn W A) (w : W),
    (∃ e w', transaction_idle m w = (Throw e, w') ∧ refuses w w' False) ∨
    ∃ w0, commits w w0 (tables w) ∧
      match m w0 with
      | (Ret a, w1) =>
          (∃ w', transaction_idle m w = (Ret a, w') ∧ commits w1 w' (tables w1)) ∨
          (∃ e w', transaction_idle m w = (Throw e, w') ∧ tables w' = tables w1 ∧ ¬ up w1)
      | (Throw e, w1) =>
          ∃ w', transaction_idle m w = (Throw e, w') ∧ tables w' = tables w1 ∧ (up w1 → up w')
      end }.

Class ClockLaws (W : Type) `{!Prisma W} `{!Clock W} := {
  clock_law : ∀ w, commits w (clock w).2 (tables w) }.

Class TimerLaws (W : Type) `{!Prisma W} `{!Timer W} := {
  sleep_law : ∀ ms w, commits w (sleep ms w) (tables w) }.

(** ** An in-memory instance

    [m_faults] injects failures: the head decides whether the next statement fails; a
    statement on an empty list succeeds.  Identifiers are chosen fresh,
    sequence numbers come from a counter, and the clock advances by one at every reading. *)
Record mem := mkMem { m_db : db; m_now : Z; m_next : Z; m_faults : list bool }.

Definition mem_up (w : mem) : Prop := existsb id (m_faults w) = false.

(** An identifier longer than all those in use. *)
Definition fresh_id (d : db) : string :=
  of_list (replicate (S (foldr (λ s n, Nat.max (str_length s) n) 0%nat (ids d))) "u"%char).

Lemma fresh_id_not_in (d : db) : fresh_id d ∉ ids d.
Proof.
  assert (∀ l s, s ∈ l → (str_length s <= foldr (λ s n, Nat.max (str_length s) n) 0%nat l)%nat) as H.
  { induction l as [|a l IH]; intros s Hs; [by apply elem_of_nil in Hs|].
    apply elem_of_cons in Hs as [->|Hs]; cbn; [lia|]. specialize (IH s Hs). lia. }
  intros Hin. apply H in Hin. unfold fresh_id at 1, str_length at 1 in Hin.
  rewrite to_of_list, length_replicate in Hin. lia.
Qed.

(** Run one statement: fail when the next fault says so, else apply [f]. *)
Definition mem_stmt {A : Type} (f : gen → db → outcome exn A * db) : M exn mem A := λ w,
  let g := mkGen (fresh_id (m_db w)) (m_next w) (m_now w) in
  match m_faults w with
  | true :: fs => (Throw (PrismaError "P1001" "database unreachable"),
                   mkMem (m_db w) (m_now w) (m_next w) fs)
  | fs => let '(r, d) := f g (m_db w) in
          (r, mkMem d (m_now w) (m_next w + 1) (tail fs))
  end.

Definition mem_sort {R : Type} (key : R → Z) (l : list R) : list R :=
  merge_sort (key_le key) l.

Definition mem_find_many {R : Type} `{!Table R} (p : R → bool) (key : R → Z) : M exn mem (list R) :=
  mem_stmt (λ _ d, (Ret (mem_sort key (List.filter p (rows d))), d)).

Definition mem_find_unique {R : Type} `{!Table R} (p : R → bool) : M exn mem (option R) :=
  mem_stmt (λ _ d, (Ret (List.find p (rows d)), d)).

Definition mem_count {R : Type} `{!Table R} (p : R → bool) : M exn mem Z :=
  mem_stmt (λ _ d, (Ret (count_if p (rows d)), d)).

Definition mem_insert {R : Type} `{!Table R} (r : R) (d : db) : outcome exn R * db :=
  if existsb (conflict r) (rows d)
  then (Throw (PrismaError "P2002" "Unique constraint failed"), d)
  else (Ret r, set_rows (rows d ++ [r]) d).

Definition mem_create {R : Type} `{!Table R} (mk : gen → R) : M exn mem R :=
  mem_stmt (λ g d, mem_insert (mk g) d).

Definition mem_update_many {R : Type} `{!Table R} (p : R → bool) (f : gen → R → R) : M exn mem Z :=
  mem_stmt (λ g d, (Ret (count_if p (rows d)), set_rows (map_if p (f g) (rows d)) d)).

Definition mem_update {R : Type} `{!Table R} (p : R → bool) (f : gen → R → R) : M exn mem R :=
  mem_stmt (λ g d, match List.find p (rows d) with
                   | Some r => (Ret (f g r), set_rows (map_if p (f g) (rows d)) d)
                   | None => (Throw (PrismaError "P2025" "Record to update not found."), d)
                   end).

Definition mem_upsert {R : Type} `{!Table R} (p : R → bool) (mk : gen → R) (f : gen → R → R) : M exn mem R :=
  mem_stmt (λ g d, match List.find p (rows d) with
                   | Some r => (Ret (f g r), set_rows (map_if p (f g) (rows d)) d)
                   | None => mem_insert (mk g) d
                   end).

Definition mem_delete_many {R : Type} `{!Table R} (p : R → bool) : M exn mem Z :=
  mem_stmt (λ _ d, (Ret (count_if p (rows d)),
                    set_rows (List.filter (λ r, negb (p r)) (rows d)) d)).

(** The first [n] eligible rows, in the order of the table (any choice satisfies the law: rows
    that other sessions have locked are skipped). *)
Fixpoint mem_pick {R : Type} (p : R → bool) (n : nat) (l : list R) : list bool :=
  match l with
  | [] => []
  | r :: l' => match n with
               | S n' => if p r then true :: mem_pick p n' l' else false :: mem_pick p n l'
               | O => false :: mem_pick p O l'
               end
  end.

Definition mem_update_skip_locked {R : Type} `{!Table R} (p : gen → R → bool) (key : R → Z) (n : Z)
    (f : gen → R → R) : M exn mem (list R) :=
  mem_stmt (λ g d,
    let picked := mem_pick (p g) (Z.to_nat n) (rows d) in
    (Ret (picked_rows picked (map (f g) (rows d))),
     set_rows (zip_with (λ b r, if (b : bool) then f g r else r) picked (rows d)) d)).

Definition mem_rollback (d : db) (w : mem) : mem := mkMem d (m_now w) (m_next w) (m_faults w).

Definition mem_transaction {A : Type} (m : M exn mem A) : M exn mem A := λ w,
  match m w with
  | (Ret a, w') => (Ret a, w')
  | (Throw e, w') => (Throw e, mem_rollback (m_db w) w')
  end.

#[export] Instance mem_prisma : Prisma mem := {|
  tables := m_db;
  up := mem_up;
  find_many := @mem_find_many;
  find_unique := @mem_find_unique;
  count_rows := @mem_count;
  create := @mem_create;
  update_many := @mem_update_many;
  update := @mem_update;
  upsert := @mem_upsert;
  delete_many := @mem_delete_many;
  update_skip_locked := @mem_update_skip_locked;
  transaction := @mem_transaction;
  transaction_idle := λ A m, m |}.

#[export] Instance mem_clock : Clock mem := {|
  clock := λ w, (m_now w, mkMem (m_db w) (m_now w + 1) (m_next w) (m_faults w)) |}.

#[export] Instance mem_timer : Timer mem := {|
  sleep := λ ms w, mkMem (m_db w) (m_now w + ms) (m_next w) (m_faults w) |}.

(** ** Weakest-precondition rules of the operations *)
Section rules.
Context {W : Type} `{!Prisma W} `{!PrismaLaws W} `{!Clock W} `{!ClockLaws W}.

Lemma wp_date_now (Φ : outcome exn Z → W → Prop) (w : W) :
  (∀ t w', commits w w' (tables w) → Φ (Ret t) w') → wp date_now Φ w.
Proof. intros H. apply H, clock_law. Qed.

Lemma wp_transaction {A : Type} (m : M exn W A) (Φ : outcome exn A → W → Prop) (w : W) :
  (∀ e w', refuses w w' False → Φ (Throw e) w') →
  (∀ w0, commits w w0 (tables w) →
     wp m (λ r w1, match r with
       | Ret a => (∀ w', commits w1 w' (tables w1) → Φ (Ret a) w')
                  ∧ (∀ e w', tables w' = tables w → ¬ up w1 → Φ (Throw e) w')
       | Throw e => ∀ w', tables w' = tables w → (up w1 → up w') → Φ (Throw e) w' end) w0) →
  wp (transaction m) Φ w.
Proof.
  intros Hbegin Hbody. unfold wp at 1.
  destruct (transaction_law m w) as [(e & w' & -> & ?)|(w0 & H0 & H)]; [by apply Hbegin|].
  specialize (Hbody w0 H0). unfold wp in Hbody.
  destruct (m w0) as [[a|e] w1]; cbn in Hbody.
  - destruct H as [(w' & -> & ?)|(e & w' & -> & ? & ?)]; by apply Hbody.
  - destruct H as (w' & -> & ? & ?). by apply Hbody.
Qed.

Lemma wp_transaction_idle {A : Type} (m : M exn W A) (Φ : outcome exn A → W → Prop) (w : W) :
  (∀ e w', refuses w w' False → Φ (Throw e) w') →
  (∀ w0, commits w w0 (tables w) →
     wp m (λ r w1, match r with
       | Ret a => (∀ w', commits w1 w' (tables w1) → Φ (Ret a) w')
                  ∧ (∀ e w', tables w' = tables w1 → ¬ up w1 → Φ (Throw e) w')
       | Throw e => ∀ w', tables w' = tables w1 → (up w1 → up w') → Φ (Throw e) w' end) w0) →
  wp (transaction_idle m) Φ w.
Proof.
  intros Hbegin Hbody. unfold wp at 1.
  destruct (transaction_idle_law m w) as [(e & w' & -> & ?)|(w0 & H0 & H)]; [by apply Hbegin|].
  specialize (Hbody w0 H0). unfold wp in Hbody.
  destruct (m w0) as [[a|e] w1]; cbn in Hbody.
  - destruct H as [(w' & -> & ?)|(e & w' & -> & ? & ?)]; by apply Hbody.
  - destruct H as (w' & -> & ? & ?). by apply Hbody.
Qed.

Section table_rules.
Context {R : Type} `{!Table R}.
Implicit Types (p : R → bool) (w : W).

Lemma wp_find_many p (key : R → Z) (Φ : outcome exn (list R) → W → Prop) w :
  (∀ l w', commits w w' (tables w) → l ≡ₚ List.filter p (rows (tables w)) →
     Sorted (key_le key) l → Φ (Ret l) w') →
  (∀ e w', refuses w w' False → Φ (Throw e) w') → wp (find_many p key) Φ w.
Proof.
  intros H1 H2. unfold wp. pose proof (find_many_law p key w) as H.
  destruct (find_many p key w) as [[l|e] w']; cbn; [|by apply H2].
  destruct H as (? & ? & ?). by apply H1.
Qed.

Lemma wp_find_unique p (Φ : outcome exn (option R) → W → Prop) w :
  (∀ r w', commits w w' (tables w) → r ∈ rows (tables w) → p r = true → Φ (Ret (Some r)) w') →
  (∀ w', commits w w' (tables w) → existsb p (rows (tables w)) = false → Φ (Ret None) w') →
  (∀ e w', refuses w w' False → Φ (Throw e) w') → wp (find_unique p) Φ w.
Proof.
  intros H1 H2 H3. unfold wp. pose proof (find_unique_law p w) as H.
  destruct (find_unique p w) as [[[r|]|e] w']; cbn; [|destruct H; by apply H2|by apply H3].
  destruct H as (? & ? & ?). by apply H1.
Qed.

Lemma wp_count_rows p (Φ : outcome exn Z → W → Prop) w :
  (∀ w', commits w w' (tables w) → Φ (Ret (count_if p (rows (tables w)))) w') →
  (∀ e w', refuses w w' False → Φ (Throw e) w') → wp (count_rows p) Φ w.
Proof.
  intros H1 H2. unfold wp. pose proof (count_rows_law p w) as H.
  destruct (count_rows p w) as [[n|e] w']; cbn; [|by apply H2].
  destruct H as (? & ->). by apply H1.
Qed.

Lemma wp_create (mk : gen → R) (Φ : outcome exn R → W → Prop) w :
  (∀ g w', commits w w' (set_rows (rows (tables w) ++ [mk g]) (tables w)) →
     existsb (conflict (mk g)) (rows (tables w)) = false → g_id g ∉ ids (tables w) →
     Φ (Ret (mk g)) w') →
  (∀ e w', refuses w w' (is_unique_violation e = true
     ∧ ∃ g, g_id g ∉ ids (tables w) ∧ existsb (conflict (mk g)) (rows (tables w)) = true) → Φ (Throw e) w') →
  wp (create mk) Φ w.
Proof.
  intros H1 H2. unfold wp. pose proof (create_law mk w) as H.
  destruct (create mk w) as [[r|e] w']; cbn; [|by apply H2].
  destruct H as (? & ? & g & -> & ?). by apply H1.
Qed.

Lemma wp_update_many p (f : gen → R → R) (Φ : outcome exn Z → W → Prop) w :
  (∀ g w', commits w w' (set_rows (map_if p (f g) (rows (tables w))) (tables w)) →
     Φ (Ret (count_if p (rows (tables w)))) w') →
  (∀ e w', refuses w w' (∃ g r, p r = true ∧ same_keys r (f g r) = false) → Φ (Throw e) w') →
  wp (update_many p f) Φ w.
Proof.
  intros H1 H2. unfold wp. pose proof (update_many_law p f w) as H.
  destruct (update_many p f w) as [[n|e] w']; cbn; [|by apply H2].
  destruct H as (-> & g & ?). by eapply H1.
Qed.

Lemma wp_update p (f : gen → R → R) (Φ : outcome exn R → W → Prop) w :
  (∀ g r w', r ∈ rows (tables w) → p r = true →
     commits w w' (set_rows (map_if p (f g) (rows (tables w))) (tables w)) →
     Φ (Ret (f g r)) w') →
  (∀ e w', refuses w w' (existsb p (rows (tables w)) = false
     ∨ ∃ g r, p r = true ∧ same_keys r (f g r) = false) → Φ (Throw e) w') →
  wp (update p f) Φ w.
Proof.
  intros H1 H2. unfold wp. pose proof (update_law p f w) as H.
  destruct (update p f w) as [[n|e] w']; cbn; [|by apply H2].
  destruct H as (g & r & ? & ? & -> & ?). by eapply H1.
Qed.

Lemma wp_upsert p (mk : gen → R) (f : gen → R → R) (Φ : outcome exn R → W → Prop) w :
  (∀ g r w', commits w w'
        (set_rows (if existsb p (rows (tables w)) then map_if p (f g) (rows (tables w))
                   else rows (tables w) ++ [mk g]) (tables w)) → Φ (Ret r) w') →
  (∀ e w', refuses w w'
        ((∃ g r, p r = true ∧ same_keys r (f g r) = false)
         ∨ (existsb p (rows (tables w)) = false
            ∧ ∃ g, existsb (conflict (mk g)) (rows (tables w)) = true)) → Φ (Throw e) w') →
  wp (upsert p mk f) Φ w.
Proof.
  intros H1 H2. unfold wp. pose proof (upsert_law p mk f w) as H.
  destruct (upsert p mk f w) as [[r|e] w']; cbn; [|by apply H2].
  destruct H as (g & ?). by eapply H1.
Qed.

Lemma wp_delete_many p (Φ : outcome exn Z → W → Prop) w :
  (∀ w', commits w w' (set_rows (List.filter (λ r, negb (p r)) (rows (tables w))) (tables w)) →
     Φ (Ret (count_if p (rows (tables w)))) w') →
  (∀ e w', refuses w w' False → Φ (Throw e) w') → wp (delete_many p) Φ w.
Proof.
  intros H1 H2. unfold wp. pose proof (delete_many_law p w) as H.
  destruct (delete_many p w) as [[n|e] w']; cbn; [|by apply H2].
  destruct H as (-> & ?). by apply H1.
Qed.

Lemma wp_update_skip_locked (p : gen → R → bool) (key : R → Z) (n : Z) (f : gen → R → R)
    (Φ : outcome exn (list R) → W → Prop) w :
  (∀ g picked l w', length picked = length (rows (tables w)) →
     Forall2 (λ (b : bool) r, b = true → p g r = true) picked (rows (tables w)) →
     l ≡ₚ picked_rows picked (map (f g) (rows (tables w))) → Z.of_nat (length l) <= Z.max 0 n →
     commits w w' (set_rows (zip_with (λ b r, if (b : bool) then f g r else r) picked (rows (tables w))) (tables w)) →
     Φ (Ret l) w') →
  (∀ e w', refuses w w' (∃ g r, p g r = true ∧ same_keys r (f g r) = false) → Φ (Throw e) w') →
  wp (update_skip_locked p key n f) Φ w.
Proof.
  intros H1 H2. unfold wp. pose proof (update_skip_locked_law p key n f w) as H.
  destruct (update_skip_locked p key n f w) as [[l|e] w']; cbn; [|by apply H2].
  destruct H as (g & picked & ? & ? & ? & ? & ?). by eapply H1.
Qed.
End table_rules.
End rules.

(** ** The in-memory instance satisfies the laws *)

Lemma mem_stmt_cases {A : Type} (f : gen → db → outcome exn A * db) (w : mem) :
  (∃ w', mem_stmt f w = (Throw (PrismaError "P1001" "database unreachable"), w')
         ∧ m_db w' = m_db w ∧ ¬ mem_up w) ∨
  (∃ g w', g_id g ∉ ids (m_db w) ∧ mem_stmt f w = ((f g (m_db w)).1, w') ∧ m_db w' = (f g (m_db w)).2
         ∧ (mem_up w → mem_up w')).
Proof.
  unfold mem_stmt, mem_up. destruct w as [d t n [|[] fs]]; cbn.
  - right. exists (mkGen (fresh_id d) n t). pose proof (fresh_id_not_in d).
    destruct (f _ d) as [r d']. by eexists.
  - left. eexists. split; [done|]. split; [done|]. by intros ?.
  - right. exists (mkGen (fresh_id d) n t). pose proof (fresh_id_not_in d).
    destruct (f _ d) as [r d']. by eexists.
Qed.

Ltac mem_law :=
  lazymatch goal with
  | |- context [mem_stmt ?f ?w] =>
      destruct (mem_stmt_cases f w) as [(w' & -> & ? & ?)|(g & w' & ? & -> & ? & ?)];
      [split; [done|intros ?; contradiction]|cbn]
  end.

Lemma find_existsb {R : Type} (p : R → bool) (l : list R) :
  match List.find p l with
  | Some r => r ∈ l ∧ p r = true
  | None => existsb p l = false
  end.
Proof.
  induction l as [|a l IH]; cbn; [done|]. destruct (p a) eqn:Hp; cbn; [set_solver|].
  destruct (List.find p l); [|done]. destruct IH. set_solver.
Qed.

Lemma mem_insert_cases {R : Type} `{!Table R} (r : R) (d : db) :
  (mem_insert r d = (Ret r, set_rows (rows d ++ [r]) d) ∧ existsb (conflict r) (rows d) = false)
  ∨ (mem_insert r d = (Throw (PrismaError "P2002" "Unique constraint failed"), d)
     ∧ existsb (conflict r) (rows d) = true).
Proof. unfold mem_insert. destruct (existsb _ _); auto. Qed.

Lemma mem_pick_spec {R Q : Type} (p : R → bool) (f : R → Q) (n : nat) (l : list R) :
  length (mem_pick p n l) = length l ∧
  Forall2 (λ (b : bool) r, b = true → p r = true) (mem_pick p n l) l ∧
  (length (picked_rows (mem_pick p n l) (map f l)) <= n)%nat.
Proof.
  revert n. induction l as [|r l IH]; intros n; cbn; [repeat split; [constructor|lia]|].
  destruct n as [|n]; [|destruct (p r) eqn:Hp]; cbn.
  - destruct (IH 0%nat) as (? & ? & ?). split; [lia|]. split; [by constructor|lia].
  - destruct (IH n) as (? & ? & ?). split; [lia|]. split; [by constructor|lia].
  - destruct (IH (S n)) as (? & ? & ?). split; [lia|]. split; [by constructor|lia].
Qed.

#[export] Instance mem_laws : PrismaLaws mem.
Proof.
  split; cbn; unfold commits, refuses; cbn.
  - intros R T p key w. unfold mem_find_many. mem_law.
    split; [done|]. split; [apply merge_sort_Permutation|apply Sorted_merge_sort, _].
  - intros R T p w. unfold mem_find_unique. mem_law.
    pose proof (find_existsb p (rows (m_db w))). by destruct (List.find p (rows (m_db w))).
  - intros R T p w. unfold mem_count. by mem_law.
  - intros R T mk w. unfold mem_create. mem_law.
    destruct (mem_insert_cases (mk g) (m_db w)) as [[E ?]|[E ?]]; rewrite E in *; cbn in *.
    + split; [done|]. split; [done|by exists g].
    + split; [done|]. intros ?. split; [split; [done|by exists g]|by auto].
  - intros R T p f w. unfold mem_update_many. mem_law. split; [done|by exists g].
  - intros R T p f w. unfold mem_update. mem_law.
    pose proof (find_existsb p (rows (m_db w))) as Hf.
    destruct (List.find p (rows (m_db w))) as [r|]; cbn in *; [|by eauto].
    exists g, r. destruct Hf. eauto.
  - intros R T p mk f w. unfold mem_upsert. mem_law.
    pose proof (find_existsb p (rows (m_db w))) as Hf.
    destruct (List.find p (rows (m_db w))) as [r|]; cbn in *.
    + exists g. assert (existsb p (rows (m_db w)) = true) as ->; [|done].
      apply existsb_exists. exists r. by rewrite <- list_elem_of_In.
    + destruct (mem_insert_cases (mk g) (m_db w)) as [[E ?]|[E ?]]; rewrite E in *; cbn in *.
      * exists g. by rewrite Hf.
      * eauto 10.
  - intros R T p w. unfold mem_delete_many. by mem_law.
  - intros R T p key n f w. unfold mem_update_skip_locked. mem_law.
    destruct (mem_pick_spec (p g) (f g) (Z.to_nat n) (rows (m_db w))) as (? & ? & ?).
    exists g, (mem_pick (p g) (Z.to_nat n) (rows (m_db w))). repeat split; try done. lia.
  - intros A m w. right. exists w. split; [done|]. unfold mem_transaction.
    destruct (m w) as [[a|e] w1]; [left|]; eauto 10.
  - intros A m w. right. exists w. split; [done|].
    destruct (m w) as [[a|e] w1]; [left|]; eauto 10.
Qed.

#[export] Instance mem_clock_laws : ClockLaws mem.
Proof. split. by intros []. Qed.

#[export] Instance mem_timer_laws : TimerLaws mem.
Proof. split. by intros ? []. Qed.

(** ** Frames

    [keeps f m]: no run of [m], however it ends, changes [f] of the database. *)
Definition keeps {W A X : Type} `{!Prisma W} (f : db → X) (m : M exn W A) : Prop :=
  ∀ w, f (tables (m w).2) = f (tables w).

Section frames.
Context {W X : Type} `{!Prisma W} `{!PrismaLaws W} `{!Clock W} `{!ClockLaws W} `{!Timer W} `{!TimerLaws W}.
Variable f : db → X.
Implicit Types w : W.

Lemma keeps_wp {A : Type} (m : M exn W A) w :
  keeps f m → wp m (λ _ w', f (tables w') = f (tables w)) w.
Proof. intros H. apply H. Qed.

Lemma wp_keeps {A : Type} (m : M exn W A) :
  (∀ w, wp m (λ _ w', f (tables w') = f (tables w)) w) → keeps f m.
Proof. intros H w. apply H. Qed.

Lemma keeps_ret {A : Type} (a : A) : keeps f (mret a : M exn W A).
Proof. done. Qed.

Lemma keeps_throw {A : Type} (e : exn) : keeps f (throw e : M exn W A).
Proof. done. Qed.

Lemma keeps_bind {A B : Type} (m : M exn W A) (k : A → M exn W B) :
  keeps f m → (∀ a, keeps f (k a)) → keeps f (m ≫= k).
Proof.
  intros Hm Hk w. specialize (Hm w). unfold mbind, M_bind. destruct (m w) as [[a|e] w']; cbn in *; [|done].
  by rewrite Hk.
Qed.

Lemma keeps_try {A : Type} (m : M exn W A) (k : exn → M exn W A) :
  keeps f m → (∀ e, keeps f (k e)) → keeps f (try_catch m k).
Proof.
  intros Hm Hk w. specialize (Hm w). unfold try_catch. destruct (m w) as [[a|e] w']; cbn in *; [done|].
  by rewrite Hk.
Qed.

Lemma keeps_for_of {A S R : Type} (l : list A) (s : S) (body : S → A → M exn W (S + R)) :
  (∀ s a, keeps f (body s a)) → keeps f (for_of l s body).
Proof.
  intros Hb. revert s. induction l as [|a l IH]; intros s; [done|].
  apply keeps_bind; [done|]. intros [s'|r]; [apply IH|done].
Qed.

Lemma keeps_transaction {A : Type} (m : M exn W A) : keeps f m → keeps f (transaction m).
Proof.
  intros Hm. apply wp_keeps. intros w. apply wp_transaction.
  - intros e w' [-> _]. done.
  - intros w0 [H0 _]. eapply wp_mono; [by apply keeps_wp|]. intros [a|e] w1 H1; rewrite H0 in H1.
    + split; [intros w' [-> _]; done|]. intros e w' -> _. done.
    + intros w' -> _. done.
Qed.

Lemma keeps_transaction_idle {A : Type} (m : M exn W A) : keeps f m → keeps f (transaction_idle m).
Proof.
  intros Hm. apply wp_keeps. intros w. apply wp_transaction_idle.
  - intros e w' [-> _]. done.
  - intros w0 [H0 _]. eapply wp_mono; [by apply keeps_wp|]. intros [a|e] w1 H1; rewrite H0 in H1.
    + split; [intros w' [-> _]; done|]. intros e w' -> _. done.
    + intros w' -> _. done.
Qed.

Lemma keeps_date_now : keeps f (date_now : M exn W Z).
Proof. apply wp_keeps. intros w. apply wp_date_now. by intros t w' [-> _]. Qed.

Lemma keeps_await_sleep (ms : Z) : keeps f (await_sleep ms : M exn W unit).
Proof. intros w. cbn. by destruct (sleep_law ms w) as [-> _]. Qed.

Section table.
Context {R : Type} `{!Table R}.

Lemma keeps_find_many (p : R → bool) (key : R → Z) : keeps f (find_many p key : M exn W _).
Proof. apply wp_keeps. intros w. apply wp_find_many; unfold commits, refuses; intros; destruct_and?; by f_equal. Qed.

Lemma keeps_find_unique (p : R → bool) : keeps f (find_unique p : M exn W _).
Proof. apply wp_keeps. intros w. apply wp_find_unique; unfold commits, refuses; intros; destruct_and?; by f_equal. Qed.

Lemma keeps_count_rows (p : R → bool) : keeps f (count_rows p : M exn W _).
Proof. apply wp_keeps. intros w. apply wp_count_rows; unfold commits, refuses; intros; destruct_and?; by f_equal. Qed.

Hypothesis Hf : ∀ l d, f (set_rows (R:=R) l d) = f d.

Lemma keeps_create (mk : gen → R) : keeps f (create mk : M exn W _).
Proof.
  apply wp_keeps. intros w. apply wp_create; unfold commits, refuses; intros; destruct_and?;
    match goal with H : tables _ = _ |- _ => rewrite H end; by rewrite ?Hf.
Qed.

Lemma keeps_update_many (p : R → bool) (k : gen → R → R) : keeps f (update_many p k : M exn W _).
Proof.
  apply wp_keeps. intros w. apply wp_update_many; unfold commits, refuses; intros; destruct_and?;
    match goal with H : tables _ = _ |- _ => rewrite H end; by rewrite ?Hf.
Qed.

Lemma keeps_update (p : R → bool) (k : gen → R → R) : keeps f (update p k : M exn W _).
Proof.
  apply wp_keeps. intros w. apply wp_update; unfold commits, refuses; intros; destruct_and?;
    match goal with H : tables _ = _ |- _ => rewrite H end; by rewrite ?Hf.
Qed.

Lemma keeps_upsert (p : R → bool) (mk : gen → R) (k : gen → R → R) : keeps f (upsert p mk k : M exn W _).
Proof.
  apply wp_keeps. intros w. apply wp_upsert; unfold commits, refuses; intros; destruct_and?;
    match goal with H : tables _ = _ |- _ => rewrite H end; by rewrite ?Hf.
Qed.

Lemma keeps_update_skip_locked (p : gen → R → bool) (key : R → Z) (n : Z) (k : gen → R → R) :
  keeps f (update_skip_locked p key n k : M exn W _).
Proof.
  apply wp_keeps. intros w. apply wp_update_skip_locked; unfold commits, refuses; intros; destruct_and?;
    match goal with H : tables _ = _ |- _ => rewrite H end; by rewrite ?Hf.
Qed.

Lemma keeps_delete_many (p : R → bool) : keeps f (delete_many p : M exn W _).
Proof.
  apply wp_keeps. intros w. apply wp_delete_many; unfold commits, refuses; intros; destruct_and?;
    match goal with H : tables _ = _ |- _ => rewrite H end; by rewrite ?Hf.
Qed.
End table.
End frames.

Create HintDb keeps discriminated.
#[export] Hint Resolve keeps_ret keeps_throw keeps_date_now keeps_await_sleep keeps_find_many
  keeps_find_unique keeps_count_rows keeps_create keeps_update_many keeps_update keeps_upsert
  keeps_delete_many keeps_update_skip_locked : keeps.

(** Close a [keeps] goal by following the structure of the program; the tables that are
    written must be independent of [f] by computation. *)
Ltac keeps_step :=
  lazymatch goal with
  | |- keeps _ (mbind _ _) => apply keeps_bind; [|intros ?]
  | |- keeps _ (try_catch _ _) => apply keeps_try; [|intros ?]
  | |- keeps _ (for_of _ _ _) => apply keeps_for_of; intros ? ?
  | |- keeps _ (transaction _) => apply keeps_transaction
  | |- keeps _ (transaction_idle _) => apply keeps_transaction_idle
  | |- keeps _ (if ?b then _ else _) => destruct b
  | |- keeps _ (match ?x with _ => _ end) => destruct x
  | |- keeps _ (let _ := _ in _) => cbv zeta
  | |- keeps _ _ => solve [auto with keeps | eauto with keeps]
  end.
Ltac solve_keeps := repeat keeps_step.

(** ** Symbolic execution of the operations *)
Ltac wp_op ::=
  lazymatch goal with
  | |- wp date_now _ _ => apply wp_date_now
  | |- wp (find_many _ _) _ _ => apply wp_find_many
  | |- wp (find_unique _) _ _ => apply wp_find_unique
  | |- wp (count_rows _) _ _ => apply wp_count_rows
  | |- wp (create _) _ _ => apply wp_create
  | |- wp (update_many _ _) _ _ => apply wp_update_many
  | |- wp (update _ _) _ _ => apply wp_update
  | |- wp (upsert _ _ _) _ _ => apply wp_upsert
  | |- wp (delete_many _) _ _ => apply wp_delete_many
  | |- wp (update_skip_locked _ _ _ _) _ _ => apply wp_update_skip_locked
  | |- wp (transaction _) _ _ => apply wp_transaction
  | |- wp (transaction_idle _) _ _ => apply wp_transaction_idle
  end; intros.

(** Use the equations on the tables that statements leave behind. *)
Ltac wp_tables :=
  repeat match goal with
  | H : commits _ _ _ |- _ => destruct H
  | H : refuses _ _ _ |- _ => destruct H
  end;
  repeat match goal with
  | H : tables ?w' = _ |- _ => is_var w'; rewrite H in *; revert H
  end; intros.
