(* ===== verification/Retry.v ===== *)
(** * Retrying ([common/retry.ts], [webhooks/retry-schedule.ts], and the credential-rotation
    retry of [prisma/prisma.service.ts])

    The in-memory backoff loop [withRetry], the fixed schedule of webhook redeliveries and
    [PrismaService.withRetry], each with a specification of the attempts it makes. *)
From S2P Require Import Prelude Js Schema Errors Prisma.
Open Scope Z_scope.

Module Retry.

(** [RetryOptions]: [None] for a key that is absent from the object. *)
Record RetryOptions (W : Type) := mkRetryOptions {
  maxAttempts : option Z;
  baseDelayMs : option Z;
  maxDelayMs : option Z;
  onRetry : option (Z → exn → Z → M exn W unit) }.
Arguments mkRetryOptions {W}.
Arguments maxAttempts {W}.
Arguments baseDelayMs {W}.
Arguments maxDelayMs {W}.
Arguments onRetry {W}.

Definition DEFAULT_maxAttempts : Z := 3.
Definition DEFAULT_baseDelayMs : Z := 500.
Definition DEFAULT_maxDelayMs : Z := 10000.

(** The backoff before retrying the failed attempt number [attempt]. *)
Definition backoff (base cap attempt : Z) : Z := Z.min (base * 2 ^ (attempt - 1)) cap.

Section with_retry.
Context {W : Type} `{!Timer W} {A : Type}.
Variable fn : M exn W A.

(** The [for] loop from the attempt number [attempt] on; [n] attempts are left, and
    [lastError] is what the previous attempt threw. *)
Fixpoint retry_loop (max base cap : Z) (notify : option (Z → exn → Z → M exn W unit))
    (n : nat) (attempt : Z) (lastError : option exn) : M exn W A :=
  match n with
  | O => throw (default (NonError "undefined") lastError)
  | S n' => λ w,
      match fn w with
      | (Ret a, w') => (Ret a, w')
      | (Throw error, w') =>
          if max <=? attempt then (Throw error, w')
          else
            let delayMs := backoff base cap attempt in
            (match notify with Some f => f attempt error delayMs | None => mret tt end ≫= λ _,
             await_sleep delayMs ≫= λ _,
             retry_loop max base cap notify n' (attempt + 1) (Some error)) w'
      end
  end.

Definition withRetry (options : RetryOptions W) : M exn W A :=
  let max := default DEFAULT_maxAttempts (maxAttempts options) in
  retry_loop max
    (default DEFAULT_baseDelayMs (baseDelayMs options))
    (default DEFAULT_maxDelayMs (maxDelayMs options))
    (onRetry options) (Z.to_nat max) 1 None.

(** Specification: [failing base cap attempt n w w'] when the attempts numbered [attempt]
    to [attempt + n - 1] all fail from [w], each followed by its backoff, and leave [w']. *)
Inductive failing (base cap : Z) : Z → nat → W → W → Prop :=
| failing_none attempt w : failing base cap attempt 0 w w
| failing_one attempt n e w w1 w2 :
    fn w = (Throw e, w1) →
    failing base cap (attempt + 1) n (sleep (backoff base cap attempt) w1) w2 →
    failing base cap attempt (S n) w w2.

Lemma retry_loop_spec (max base cap attempt : Z) (n : nat) (err : option exn)
    (w : W) (r : outcome exn A) (w' : W) :
  Z.of_nat n = max - attempt + 1 → (0 < n)%nat →
  retry_loop max base cap None n attempt err w = (r, w') →
  ∃ k w1, (k < n)%nat ∧ failing base cap attempt k w w1 ∧ fn w1 = (r, w') ∧
    match r with Ret _ => True | Throw _ => S k = n end.
Proof.
  revert attempt err w. induction n as [|n IH]; intros attempt err w Hn Hpos H; [lia|].
  cbn in H. destruct (fn w) as [[a|e] w1] eqn:Hf.
  - simplify_eq. exists 0%nat, w. repeat split; [lia|constructor|done].
  - destruct (Z.leb_spec max attempt).
    + simplify_eq. exists 0%nat, w. repeat split; [lia|constructor|done|lia].
    + apply IH in H as (k & w2 & Hk & Hfail & Hr & Hlast); [|lia..].
      exists (S k), w2. split; [lia|]. split; [by econstructor|]. split; [done|].
      destruct r; [done|lia].
Qed.

(** [fn] is called at most [maxAttempts] times: the result is that of the first attempt that
    succeeds, and an error is thrown only after exactly [maxAttempts] failing attempts, in
    which case it is the error of the last one. *)
Lemma withRetry_outcome (options : RetryOptions W) (w : W) (r : outcome exn A) (w' : W) :
  let max := default DEFAULT_maxAttempts (maxAttempts options) in
  onRetry options = None → 1 <= max → withRetry options w = (r, w') →
  ∃ k w1, Z.of_nat k < max ∧
    failing (default DEFAULT_baseDelayMs (baseDelayMs options))
            (default DEFAULT_maxDelayMs (maxDelayMs options)) 1 k w w1 ∧
    fn w1 = (r, w') ∧ match r with Ret _ => True | Throw _ => Z.of_nat k = max - 1 end.
Proof.
  intros max Hno Hmax H. unfold withRetry in H. rewrite Hno in H.
  apply retry_loop_spec in H as (k & w1 & ? & ? & ? & Hk); [|unfold max in *; lia..].
  exists k, w1. split; [lia|]. split; [done|]. split; [done|]. destruct r; [done|unfold max in *; lia].
Qed.

(** An invariant of [fn] and of waiting is an invariant of the whole loop. *)
Lemma wp_withRetry (options : RetryOptions W) (I : W → Prop) (Φ : outcome exn A → W → Prop) (w : W) :
  onRetry options = None →
  (∀ w, I w → wp fn (λ r w', match r with
                      | Ret a => Φ (Ret a) w'
                      | Throw e => Φ (Throw e) w' ∧ ∀ ms, I (sleep ms w') end) w) →
  (∀ e, default DEFAULT_maxAttempts (maxAttempts options) < 1 → Φ (Throw e) w) →
  I w → wp (withRetry options) Φ w.
Proof.
  intros Hno Hfn Hnone HI. unfold withRetry. rewrite Hno.
  set (max := default DEFAULT_maxAttempts _) in *.
  set (base := default DEFAULT_baseDelayMs _). set (cap := default DEFAULT_maxDelayMs _).
  destruct (decide (max < 1)) as [?|Hmax].
  { rewrite Z2Nat.nonpos by lia. by apply wp_throw, Hnone. }
  assert (∀ n attempt err w, Z.of_nat n = max - attempt + 1 → (0 < n)%nat → I w →
    wp (retry_loop max base cap None n attempt err) Φ w) as Hloop; [|apply Hloop; [lia..|done]].
  clear w HI Hnone. induction n as [|n IH]; intros attempt err w Hn Hpos HI; [lia|].
  specialize (Hfn w HI). unfold wp in Hfn |- *. cbn.
  destruct (fn w) as [[a|e] w1]; cbn in *; [done|]. destruct Hfn as [HΦ HI'].
  destruct (Z.leb_spec max attempt); [done|]. apply IH; [lia..|apply HI'].
Qed.
End with_retry.

Lemma keeps_withRetry {W A X : Type} `{!Timer W} `{!Prisma W} `{!TimerLaws W} (f : db → X)
    (fn : M exn W A) (options : RetryOptions W) :
  onRetry options = None → keeps f fn → keeps f (withRetry fn options).
Proof.
  intros Hno Hfn. unfold withRetry. rewrite Hno. generalize 1 as attempt, (None : option exn) as err.
  induction (Z.to_nat _) as [|n IH]; intros attempt err w; [done|]. specialize (Hfn w). cbn.
  destruct (fn w) as [[a|e] w1]; cbn in Hfn |- *; [done|]. destruct (_ <=? _); [done|].
  etransitivity; [apply IH|]. destruct (sleep_law (backoff (default DEFAULT_baseDelayMs (baseDelayMs options))
    (default DEFAULT_maxDelayMs (maxDelayMs options)) attempt) w1) as [-> _]. done.
Qed.

(** Every backoff lies between the base delay and the cap. *)
Lemma backoff_bounds (base cap attempt : Z) :
  0 <= base <= cap → 1 <= attempt → base <= backoff base cap attempt <= cap.
Proof.
  intros ? ?. unfold backoff. assert (1 <= 2 ^ (attempt - 1)) by (apply (Z.pow_le_mono_r 2 0); lia).
  assert (base * 1 <= base * 2 ^ (attempt - 1)) by (apply Z.mul_le_mono_nonneg_l; lia). lia.
Qed.

(** ** [webhooks/retry-schedule.ts] *)

Definition RETRY_SCHEDULE_MS : list Z :=
  [60000; 5 * 60000; 30 * 60000; 2 * 60 * 60000; 12 * 60 * 60000; 24 * 60 * 60000].

Definition MAX_DELIVERY_ATTEMPTS : Z := Z.of_nat (length RETRY_SCHEDULE_MS) + 1.

(** The argument is an integer in every call, so [Number.isInteger] holds. *)
Definition nextRetryDelayMs (attemptNumber : Z) : outcome exn (option Z) :=
  if attemptNumber <? 1
  then Throw (JsError ("attemptNumber must be a positive integer, got " +:+ Z_to_string attemptNumber)%string)
  else let index := attemptNumber - 1 in
       if index <? Z.of_nat (length RETRY_SCHEDULE_MS)
       then Ret (RETRY_SCHEDULE_MS !! Z.to_nat index) else Ret None.

(** The schedule is exhausted exactly after [MAX_DELIVERY_ATTEMPTS] attempts, the delays
    before are those of the schedule, and they grow. *)
Lemma nextRetryDelayMs_abandons (n : Z) :
  1 <= n → (nextRetryDelayMs n = Ret None ↔ MAX_DELIVERY_ATTEMPTS <= n).
Proof.
  intros Hn. unfold nextRetryDelayMs, MAX_DELIVERY_ATTEMPTS.
  destruct (Z.ltb_spec n 1); [lia|]. destruct (Z.ltb_spec (n - 1) (Z.of_nat (length RETRY_SCHEDULE_MS))).
  - split; [|lia]. intros [=Heq]. apply lookup_ge_None in Heq. lia.
  - split; [lia|done].
Qed.

Lemma nextRetryDelayMs_cases (n : Z) :
  1 <= n → ∃ r, nextRetryDelayMs n = Ret r ∧
    match r with
    | Some d => n < MAX_DELIVERY_ATTEMPTS ∧ 60000 <= d <= 24 * 60 * 60000
    | None => MAX_DELIVERY_ATTEMPTS <= n
    end.
Proof.
  intros Hn. pose proof (nextRetryDelayMs_abandons n Hn) as Hab.
  destruct (nextRetryDelayMs n) as [[d|]|e] eqn:E.
  - exists (Some d). split; [done|]. split.
    + apply Z.nle_gt. intros H. apply Hab in H. done.
    + unfold nextRetryDelayMs in E. destruct (n <? 1); [done|].
      destruct (n - 1 <? _); [|done]. injection E as E.
      apply list_elem_of_lookup_2 in E.
      repeat (apply elem_of_cons in E as [->|E]; [lia|]). by apply elem_of_nil in E.
  - exists None. split; [done|]. by apply Hab.
  - unfold nextRetryDelayMs in E. destruct (Z.ltb_spec n 1); [lia|]. by destruct (n - 1 <? _).
Qed.
End Retry.

#[export] Hint Resolve Retry.keeps_withRetry : keeps.
