(* ===== verification/PrismaService.v ===== *)
(** * The injected database handle ([prisma/prisma.service.ts])

    What [this.prisma] exposes to the services (a member that the class does not define is
    [undefined] at run time), and the credential-rotation loop [withRetry]. *)
From S2P Require Import Prelude Js Schema Errors Prisma Retry.
Open Scope Z_scope.

Module PrismaService.

(** ** The public surface

    The properties of [this.prisma] that the services of the backend use. *)
Inductive member :=
| m_db | m_invoice | m_syncCursor | m_webhookSubscription | m_webhookDelivery
| m_webhookDeliveryAttempt | m_idempotencyKey | m_withRetry
| m_transaction | m_exportJob | m_invoiceReminderFailure | m_user.

#[global] Instance member_eq : EqDecision member.
Proof. solve_decision. Defined.

Definition member_name (m : member) : string :=
  match m with
  | m_db => "db" | m_invoice => "invoice" | m_syncCursor => "syncCursor"
  | m_webhookSubscription => "webhookSubscription" | m_webhookDelivery => "webhookDelivery"
  | m_webhookDeliveryAttempt => "webhookDeliveryAttempt"
  | m_idempotencyKey => "idempotencyKey" | m_withRetry => "withRetry"
  | m_transaction => "$transaction" | m_exportJob => "exportJob"
  | m_invoiceReminderFailure => "invoiceReminderFailure"
  | m_user => "user"
  end.

(** The handle a service is constructed with: the list of the members it has. *)
Definition handle := list member.

(** The getters and methods of the class [PrismaService]. *)
Definition surface : handle :=
  [m_db; m_invoice; m_syncCursor; m_webhookSubscription; m_webhookDelivery;
   m_webhookDeliveryAttempt; m_idempotencyKey; m_withRetry].

(** A handle that also has the members of [PrismaClient] itself, as when the class extended
    it (the comment above the getters) and as the unit tests' mocks do. *)
Definition full_surface : handle :=
  surface ++ [m_transaction; m_exportJob; m_invoiceReminderFailure].

(** [this.prisma.<m>] followed by a use [op] of its value: reading a property of, or calling,
    [undefined] is a [TypeError]. *)
Definition via {W A : Type} (h : handle) (m : member) (op : M exn W A) : M exn W A :=
  if bool_decide (m ∈ h) then op
  else throw (TypeError ("this.prisma." +:+ member_name m +:+ " is undefined")%string).

(** [buildClient]'s URL *)
Record DatabaseSecrets := mkDatabaseSecrets {
  username : string; password : string; host : string; port : string; database : string }.

Definition hex_digit (n : Z) : ascii :=
  ascii_of_N (Z.to_N (if n <? 10 then n + 48 else n + 55)).

Definition pct (byte : Z) : list ascii :=
  [ascii_of_N 37; hex_digit (byte / 16); hex_digit (byte mod 16)].

(** [A-Z a-z 0-9 - _ . ! ~ * ' ( )] *)
Definition uri_unreserved (c : ascii) : bool :=
  let n := code c in
  ((65 <=? n) && (n <=? 90)) || ((97 <=? n) && (n <=? 122)) || is_digit c
  || existsb (Z.eqb n) [45; 95; 46; 33; 126; 42; 39; 40; 41].

(** [encodeURIComponent]: the percent-encoded UTF-8 bytes of every other character. *)
Definition encode_char (c : ascii) : list ascii :=
  let n := code c in
  if uri_unreserved c then [c]
  else if n <? 128 then pct n
  else pct (192 + n / 64) ++ pct (128 + n mod 64).

Definition encodeURIComponent (s : string) : string :=
  of_list (flat_map encode_char (to_list s)).

Definition client_url (s : DatabaseSecrets) : string :=
  ("postgresql://" +:+ username s +:+ ":" +:+ encodeURIComponent (password s) +:+
   "@" +:+ host s +:+ ":" +:+ port s +:+ "/" +:+ database s)%string.

(** ** Credential rotation *)

Definition isAuthError (err : exn) : bool :=
  match err with
  | NonError _ => false
  | _ =>
      let msg := toLowerCase (message err) in
      includes msg "28p01" || includes msg "password authentication failed"
      || includes msg "authentication failed" || includes msg "p1000"
  end.

Definition MAX_ROTATION_RETRIES : Z := 3.
Definition ROTATION_RETRY_BASE_MS : Z := 500.

(** The state of the service ([this.client]) and what it calls: the Vault service and the
    client library. *)
Class Connection (W : Type) := {
  Client : Type;
  client : W → Client;
  set_client : Client → W → W;
  new_client : string → Client;
  connect : Client → M exn W unit;
  disconnect : Client → M exn W unit;
  vault_database : W → outcome exn DatabaseSecrets;
  refreshDatabaseSecrets : M exn W unit }.

Section with_retry.
Context {W : Type} `{!Connection W} `{!Timer W} {A : Type}.

Definition buildClient : M exn W Client := λ w,
  match vault_database w with
  | Ret s => (Ret (new_client (client_url s)), w)
  | Throw e => (Throw e, w)
  end.

Definition reconnectWithNewCredentials : M exn W unit :=
  (λ w, try_catch (disconnect (client w)) (λ _, mret tt) w) ≫= λ _,
  refreshDatabaseSecrets ≫= λ _,
  c ← buildClient;
  (λ w, (Ret tt, set_client c w)) ≫= λ _,
  connect c.

Variable operation : Client → M exn W A.

(** The [while (true)] loop; [fuel] bounds its iterations (see [withRetry]). *)
Fixpoint rotation_loop (fuel : nat) (attempt : Z) : M exn W A :=
  try_catch (λ w, operation (client w) w) (λ err,
    if negb (isAuthError err) || (MAX_ROTATION_RETRIES <=? attempt) then throw err
    else match fuel with
         | O => throw (NonError "fuel")
         | S fuel' =>
             let attempt' := attempt + 1 in
             let delay := ROTATION_RETRY_BASE_MS * 2 ^ (attempt' - 1) in
             await_sleep delay ≫= λ _,
             reconnectWithNewCredentials ≫= λ _,
             rotation_loop fuel' attempt'
         end).

(** At most [MAX_ROTATION_RETRIES] iterations end in another one, so this fuel is never
    used up ([rotation_loop_outcome]). *)
Definition withRetry : M exn W A := rotation_loop (Z.to_nat MAX_ROTATION_RETRIES) 0.

(** [rotated attempt n w w']: [n] times in a row the operation fails with an authentication
    error and the service waits and reconnects with fresh credentials. *)
Inductive rotated : Z → nat → W → W → Prop :=
| rotated_none attempt w : rotated attempt 0 w w
| rotated_one attempt n err w w1 w2 w3 :
    operation (client w) w = (Throw err, w1) → isAuthError err = true →
    reconnectWithNewCredentials (sleep (ROTATION_RETRY_BASE_MS * 2 ^ attempt) w1) = (Ret tt, w2) →
    rotated (attempt + 1) n w2 w3 →
    rotated attempt (S n) w w3.

Lemma rotation_loop_outcome (fuel : nat) (attempt : Z) (w : W) (r : outcome exn A) (w' : W) :
  Z.of_nat fuel = MAX_ROTATION_RETRIES - attempt → rotation_loop fuel attempt w = (r, w') →
  ∃ k w1, (k <= fuel)%nat ∧ rotated attempt k w w1 ∧
    ((operation (client w1) w1 = (r, w') ∧
      match r with Ret _ => True | Throw err => isAuthError err = false ∨ k = fuel end)
     ∨ (∃ err err' w2, (k < fuel)%nat ∧ operation (client w1) w1 = (Throw err, w2) ∧
          isAuthError err = true ∧ r = Throw err' ∧
          reconnectWithNewCredentials
            (sleep (ROTATION_RETRY_BASE_MS * 2 ^ (attempt + Z.of_nat k)) w2) = (Throw err', w'))).
Proof.
  revert attempt w. induction fuel as [|fuel IH]; intros attempt w Hfuel H; cbn in H;
    unfold try_catch in H; destruct (operation (client w) w) as [[a|err] w1] eqn:Hop.
  1, 3: simplify_eq; exists 0%nat, w; split; [lia|]; split; [constructor|]; by left.
  - rewrite (proj2 (Z.leb_le _ _)) in H by lia. rewrite orb_true_r in H. injection H as <- <-.
    exists 0%nat, w. split; [lia|]. split; [constructor|]. left. split; [done|by right].
  - destruct (isAuthError err) eqn:Hauth; cbn in H.
    2: { injection H as <- <-. exists 0%nat, w. split; [lia|]. split; [constructor|]. left. auto. }
    rewrite (proj2 (Z.leb_gt _ _)) in H by lia. cbn in H.
    unfold mbind, M_bind at 1, await_sleep in H. cbn in H.
    replace (attempt + 1 - 1) with attempt in H by lia.
    unfold M_bind at 1 in H.
    destruct (reconnectWithNewCredentials _) as [[[]|e] w2] eqn:Hrec.
    + apply IH in H as (k & w3 & Hk & Hrot & H); [|lia].
      exists (S k), w3. split; [lia|]. split; [by econstructor|].
      destruct H as [[? Hr]|(e & e' & w4 & ? & ? & ? & ? & Hrec')]; [left|right].
      * split; [done|]. destruct r; [done|]. destruct Hr; [by left|right; lia].
      * exists e, e', w4. split; [lia|]. split; [done|]. split; [done|]. split; [done|].
        rewrite <- Hrec'. by replace (attempt + Z.of_nat (S k)) with (attempt + 1 + Z.of_nat k) by lia.
    + injection H as <- <-. exists 0%nat, w. split; [lia|]. split; [constructor|]. right.
      exists err, e, w1. rewrite Z.add_0_r. repeat split; [lia|done..].
Qed.

(** After [k] rotations that did not help, an operation that succeeds ends the loop. *)
Lemma rotation_loop_succeeds (k fuel : nat) (attempt : Z) (w w1 w' : W) (a : A) :
  (k <= fuel)%nat → Z.of_nat fuel = MAX_ROTATION_RETRIES - attempt →
  rotated attempt k w w1 → operation (client w1) w1 = (Ret a, w') →
  rotation_loop fuel attempt w = (Ret a, w').
Proof.
  revert fuel attempt w. induction k as [|k IH]; intros fuel attempt w Hk Hfuel Hrot Hop; inversion Hrot as [|? ? err ? wa wb ? Hfail Hauth Hrec Hrest]; subst.
  - destruct fuel; cbn; unfold try_catch; by rewrite Hop.
  - destruct fuel as [|fuel]; [lia|]. cbn. unfold try_catch. rewrite Hfail, Hauth.
    rewrite (proj2 (Z.leb_gt _ _)) by lia. cbn. unfold mbind, M_bind at 1, await_sleep. cbn.
    replace (attempt + 1 - 1) with attempt by lia. unfold M_bind at 1. rewrite Hrec. apply IH; [lia..|done|done].
Qed.

(** One more rotation *)
Lemma rotated_snoc (k : nat) (attempt : Z) (w w1 w2 w3 : W) (err : exn) :
  rotated attempt k w w1 → operation (client w1) w1 = (Throw err, w2) → isAuthError err = true →
  reconnectWithNewCredentials (sleep (ROTATION_RETRY_BASE_MS * 2 ^ (attempt + Z.of_nat k)) w2) = (Ret tt, w3) →
  rotated attempt (S k) w w3.
Proof.
  intros H. revert w2 w3 err. induction H as [attempt w|attempt n e w wa wb wc Hop Ha Hrec _ IH]; intros w2 w3 err Hop' Ha' Hrec'.
  - econstructor; [done..| |constructor]. by rewrite Z.add_0_r in Hrec'.
  - econstructor; [done..|]. eapply IH; [done..|].
    by replace (attempt + 1 + Z.of_nat n) with (attempt + Z.of_nat (S n)) by lia.
Qed.
End with_retry.

(** A member of the handle is used as it is; a missing one is a [TypeError] that leaves the
    world unchanged. *)
Lemma via_in {W A : Type} (h : handle) (m : member) (op : M exn W A) :
  m ∈ h → via h m op = op.
Proof. intros H. unfold via. by rewrite bool_decide_true. Qed.

Lemma keeps_via {W A X : Type} `{!Prisma W} (f : db → X) (h : handle) (m : member) (op : M exn W A) :
  keeps f op → keeps f (via h m op).
Proof. intros H. unfold via. by destruct (bool_decide _). Qed.

Lemma via_out {W A : Type} (h : handle) (m : member) (op : M exn W A) (w : W) :
  m ∉ h → ∃ msg, via h m op w = (Throw (TypeError msg), w).
Proof. intros H. unfold via. rewrite bool_decide_false by done. by eexists. Qed.
End PrismaService.

#[export] Hint Resolve PrismaService.keeps_via : keeps.
