(* ===== verification/Interfaces.v ===== *)
(** * Interfaces between components, and to the platform

    [Crypto] and [Hrtime] are Node's [crypto] and [process.hrtime].  [InvoiceEventSink] is
    what the webhook system promises to the code that settles invoices: settlement is proved
    against it, and WebhookDispatch.v discharges it. *)
From S2P Require Import Prelude Js Schema Errors Prisma.
Open Scope Z_scope.

(** [createHash('sha256').update(s).digest('hex')] and
    [createHmac('sha256', key).update(s).digest('hex')] *)
Class Crypto := {
  sha256_hex : string → string;
  hmac_sha256_hex : string → string → string }.

(** A concrete [Crypto] for the witnesses (the digests are the identity on their input). *)
Definition toy_crypto : Crypto := {|
  sha256_hex := λ s, s;
  hmac_sha256_hex := λ k s, (k +:+ "|" +:+ s)%string |}.

(** [process.hrtime()]: seconds and nanoseconds of a monotonic clock. *)
Class Hrtime (W : Type) := { hrtime : W → (Z * Z) * W }.

Class HrtimeLaws (W : Type) `{!Prisma W} `{!Hrtime W} := {
  hrtime_law : ∀ w, commits w (hrtime w).2 (tables w) ∧ 0 <= (hrtime w).1.2 < 1000000000 }.

Definition process_hrtime {W : Type} `{!Hrtime W} : M exn W (Z * Z) :=
  λ w, (Ret (hrtime w).1, (hrtime w).2).

Lemma wp_process_hrtime {W : Type} `{!Prisma W} `{!Hrtime W} `{!HrtimeLaws W}
    (Φ : outcome exn (Z * Z) → W → Prop) (w : W) :
  (∀ s n w', commits w w' (tables w) → 0 <= n < 1000000000 → Φ (Ret (s, n)) w') →
  wp process_hrtime Φ w.
Proof.
  intros H. unfold wp, process_hrtime. cbn. destruct (hrtime_law w).
  destruct (hrtime w) as [[s n] w']. by apply H.
Qed.

#[export] Instance mem_hrtime : Hrtime mem := {| hrtime := λ w, ((m_now w / 1000, 7), w) |}.

#[export] Instance mem_hrtime_laws : HrtimeLaws mem.
Proof. split. intros w. by split. Qed.

(** [BigInt(s)] where a [SyntaxError] is thrown for a string that is not an integer. *)
Definition BigInt {W : Type} (s : string) : M exn W Z :=
  match BigInt_of_string s with
  | Some n => mret n
  | None => throw (SyntaxError ("Cannot convert " +:+ s +:+ " to a BigInt")%string)
  end.

(** Two databases that differ at most in the webhook deliveries. *)
Definition same_but_deliveries (d d' : db) : Prop :=
  d' = set_rows (R:=WebhookDelivery) (rows d') d.

Class InvoiceEventSink (W : Type) := { dispatchInvoiceEvent : InvoiceEvent → M exn W Z }.

Class InvoiceEventSinkLaws (W : Type) `{!Prisma W} `{!InvoiceEventSink W} := {
  (** enqueueing touches the queue only, and cannot fail while the database is up *)
  dispatch_law : ∀ event w,
    match dispatchInvoiceEvent event w with
    | (Ret _, w') => same_but_deliveries (tables w) (tables w') ∧ (up w → up w')
    | (Throw _, w') => tables w' = tables w ∧ ¬ up w
    end }.

Lemma wp_dispatchInvoiceEvent {W : Type} `{!Prisma W} `{!InvoiceEventSink W}
    `{!InvoiceEventSinkLaws W} (event : InvoiceEvent) (Φ : outcome exn Z → W → Prop) (w : W) :
  (∀ n w', same_but_deliveries (tables w) (tables w') → (up w → up w') → Φ (Ret n) w') →
  (∀ e w', tables w' = tables w → ¬ up w → Φ (Throw e) w') →
  wp (dispatchInvoiceEvent event) Φ w.
Proof.
  intros H1 H2. unfold wp. pose proof (dispatch_law event w) as H.
  destruct (dispatchInvoiceEvent event w) as [[n|e] w']; cbn; destruct H; auto.
Qed.

Lemma same_but_deliveries_refl (d : db) : same_but_deliveries d d.
Proof. unfold same_but_deliveries. by rewrite set_rows_rows. Qed.

Lemma same_but_deliveries_set (d : db) (l : list WebhookDelivery) :
  same_but_deliveries d (set_rows l d).
Proof. unfold same_but_deliveries. by rewrite rows_set_rows. Qed.

Lemma same_but_deliveries_trans (d1 d2 d3 : db) :
  same_but_deliveries d1 d2 → same_but_deliveries d2 d3 → same_but_deliveries d1 d3.
Proof. unfold same_but_deliveries. intros H1 H2. rewrite H2, H1. by rewrite !rows_set_rows, set_rows_set_rows. Qed.

Lemma keeps_process_hrtime {W X : Type} `{!Prisma W} `{!Hrtime W} `{!HrtimeLaws W} (f : db → X) :
  keeps f (process_hrtime : M exn W _).
Proof. intros w. cbn. by destruct (hrtime_law w) as [[-> _] _]. Qed.

Lemma keeps_dispatch {W X : Type} `{!Prisma W} `{!InvoiceEventSink W} `{!InvoiceEventSinkLaws W}
    (f : db → X) (event : InvoiceEvent) :
  (∀ (l : list WebhookDelivery) d, f (set_rows l d) = f d) → keeps f (dispatchInvoiceEvent event : M exn W _).
Proof.
  intros Hf w. pose proof (dispatch_law event w) as H.
  destruct (dispatchInvoiceEvent event w) as [[n|e] w']; destruct H as [H _]; cbn.
  - by rewrite H, Hf.
  - by rewrite H.
Qed.

Lemma keeps_BigInt {W X : Type} `{!Prisma W} (f : db → X) (s : string) : keeps f (BigInt s : M exn W Z).
Proof. intros w. unfold BigInt. by destruct (BigInt_of_string s). Qed.

#[export] Hint Resolve keeps_process_hrtime keeps_dispatch keeps_BigInt : keeps.
#[export] Hint Resolve same_but_deliveries_refl same_but_deliveries_set : invoicefi.

Ltac wp_op ::=
  lazymatch goal with
  | |- wp date_now _ _ => apply wp_date_now
  | |- wp process_hrtime _ _ => apply wp_process_hrtime
  | |- wp (dispatchInvoiceEvent _) _ _ => apply wp_dispatchInvoiceEvent
  | |- wp (find_many _ _) _ _ => apply wp_find_many
  | |- wp (find_unique _) _ _ => apply wp_find_unique
  | |- wp (count_rows _) _ _ => apply wp_count_rows
  | |- wp (create _) _ _ => apply wp_create
  | |- wp (update_many _ _) _ _ => apply wp_update_many
  | |- wp (update _ _) _ _ => apply wp_update
  | |- wp (upsert _ _ _) _ _ => apply wp_upsert
  | |- wp (delete_many _) _ _ => apply wp_delete_many
  | |- wp (update_skip_locked _ _ _ _) _ _ => apply wp_update_skip_locked
  | |- wp (transaction _) _ _ => apply wp_transaction
  | |- wp (transaction_idle _) _ _ => apply wp_transaction_idle
  end; intros.
