(* ===== verification/Auth.v ===== *)
(** * Authentication of API callers ([compliance/jwt.ts], [compliance/principal.ts],
    [compliance/compliance-access.guard.ts], [webhooks/webhook-access.guard.ts])

    Verification of HS256 tokens, the [Principal] derived from their claims, and the guard
    that takes a token from a request.  HMAC, Base64 and JSON are a parameter. *)
From S2P Require Import Prelude Js Schema Errors Prisma.
Open Scope Z_scope.

(** Node's [Buffer], [crypto] and [JSON], and [decodeURIComponent]; byte strings are strings. *)
Class TokenCodec := {
  hmac_sha256 : string → string → string;
  base64url_decode : string → string;
  base64url_encode : string → string;
  JSON_parse : string → outcome exn JsValue;
  JSON_stringify : JsValue → string;
  decodeURIComponent : string → outcome exn string;
  (** [String(x)] of a number that is not an integer *)
  fraction_to_string : Z → positive → string }.

(** ** [principal.ts] *)
Module Principal.

Record Principal := mkPrincipal { userId : string; walletAddress : string; role : string }.

Definition ROLE_ADMIN : string := "admin".

Definition isAdmin (principal : Principal) : bool := String.eqb (role principal) ROLE_ADMIN.

(** [typeof x === 'string' ? x : ''] *)
Definition string_or_empty (v : JsValue) : string :=
  match v with JsString s => s | _ => EmptyString end.

(** [String(x)]; objects of a JSON payload print as JavaScript's default. *)
Fixpoint js_String `{!TokenCodec} (v : JsValue) : string :=
  match v with
  | JsUndefined => "undefined"
  | JsNull => "null"
  | JsBoolean b => if b then "true" else "false"
  | JsString s => s
  | JsBigInt n => Z_to_string n
  | JsNum NaN => "NaN"
  | JsNum (Infinity negative) => if negative then "-Infinity" else "Infinity"
  | JsNum (Finite num den) =>
      if num mod Z.pos den =? 0 then integral_to_string (num / Z.pos den) else fraction_to_string num den
  | JsArray l => join "," (map (λ x, match x with JsUndefined | JsNull => EmptyString | _ => js_String x end) l)
  | JsObject _ => "[object Object]"
  end.

(** [v.key]: reading a property of [null] or [undefined] is a TypeError, and primitives have
    none of the properties that the program reads. *)
Definition get (v : JsValue) (key : string) : outcome exn JsValue :=
  match v with
  | JsUndefined | JsNull => Throw (TypeError ("Cannot read properties of " +:+ "null" +:+ " (reading '" +:+ key +:+ "')")%string)
  | JsObject fields => Ret (property fields key)
  | _ => Ret JsUndefined
  end.

Definition get_field (v : JsValue) (key : string) : JsValue :=
  match get v key with Ret x => x | Throw _ => JsUndefined end.

(** The payload has been read by [verifyHs256Jwt] before, so it is neither [null] nor
    [undefined]. *)
Definition principalFromPayload `{!TokenCodec} (payload : JsValue) : outcome exn Principal :=
  let role := toLowerCase (string_or_empty (get_field payload "role")) in
  let walletAddress := string_or_empty (get_field payload "walletAddress") in
  let userId := match get_field payload "sub" with
                | JsUndefined | JsNull => EmptyString
                | v => js_String v
                end in
  if negb (truthy role) || negb (truthy walletAddress) || negb (truthy userId)
  then Throw (JsError "Token missing required identity claims")
  else Ret (mkPrincipal userId walletAddress role).
End Principal.

(** ** [jwt.ts] *)
Module Jwt.
Section jwt.
Context {TC : TokenCodec}.

Definition JwtVerificationError : string → exn := JsError.

(** Equality of two byte strings, as the length test and [timingSafeEqual] decide it. *)
Definition same_bytes (a b : string) : bool :=
  (str_length a =? str_length b)%nat && String.eqb a b.

(** [typeof payload.exp === 'number' && nowSeconds >= payload.exp] *)
Definition expired (exp : JsValue) (nowSeconds : Z) : bool :=
  match exp with
  | JsNum (Finite num den) => num <=? nowSeconds * Z.pos den
  | JsNum (Infinity negative) => negative
  | _ => false
  end.

Definition parse_segment (segment error : string) : outcome exn JsValue :=
  match JSON_parse (base64url_decode segment) with
  | Ret v => Ret v
  | Throw _ => Throw (JwtVerificationError error)
  end.

Definition verifyHs256Jwt (token secret : string) (nowSeconds : Z) : outcome exn JsValue :=
  match split "." token with
  | [encodedHeader; encodedPayload; encodedSignature] =>
      match parse_segment encodedHeader "Invalid token header" with
      | Throw e => Throw e
      | Ret header =>
          match Principal.get header "alg" with
          | Throw e => Throw e
          | Ret alg =>
              if negb (String.eqb (Principal.string_or_empty alg) "HS256")
              then Throw (JwtVerificationError ("Unsupported algorithm: " +:+ Principal.js_String alg)%string)
              else
                let expected := hmac_sha256 secret (encodedHeader +:+ "." +:+ encodedPayload)%string in
                let provided := base64url_decode encodedSignature in
                if negb (same_bytes expected provided)
                then Throw (JwtVerificationError "Invalid signature")
                else
                  match parse_segment encodedPayload "Invalid token payload" with
                  | Throw e => Throw e
                  | Ret payload =>
                      match Principal.get payload "exp" with
                      | Throw e => Throw e
                      | Ret exp => if expired exp nowSeconds then Throw (JwtVerificationError "Token expired")
                                   else Ret payload
                      end
                  end
          end
      end
  | _ => Throw (JwtVerificationError "Malformed token")
  end.

Definition signHs256Jwt (payload : JsValue) (secret : string) : string :=
  let header := base64url_encode (JSON_stringify (JsObject [("alg"%string, JsString "HS256"); ("typ"%string, JsString "JWT")])) in
  let body := base64url_encode (JSON_stringify payload) in
  let signature := base64url_encode (hmac_sha256 secret (header +:+ "." +:+ body)%string) in
  (header +:+ "." +:+ body +:+ "." +:+ signature)%string.

(** C22: a token is accepted only if it has three segments, its header names the algorithm
    HS256, its signature segment decodes to the HMAC of the first two segments under the
    secret, and its payload (which is what is returned) has no numeric expiry at or before the given
    time. *)
Theorem verify_sound (token secret : string) (nowSeconds : Z) (payload : JsValue)
    (H : verifyHs256Jwt token secret nowSeconds = Ret payload) :
  ∃ h b s header exp, split "." token = [h; b; s] ∧
    JSON_parse (base64url_decode h) = Ret header ∧ Principal.get header "alg" = Ret (JsString "HS256") ∧
    base64url_decode s = hmac_sha256 secret (h +:+ "." +:+ b)%string ∧
    JSON_parse (base64url_decode b) = Ret payload ∧
    Principal.get payload "exp" = Ret exp ∧
    match exp with
    | JsNum (Finite num den) => nowSeconds * Z.pos den < num
    | JsNum (Infinity negative) => negative = false
    | _ => True
    end.
Proof.
  unfold verifyHs256Jwt, parse_segment in H.
  destruct (split "." token) as [|h [|b [|s []]]] eqn:Hs; try discriminate.
  destruct (JSON_parse (base64url_decode h)) as [header|] eqn:Hh; [|discriminate].
  destruct (Principal.get header "alg") as [alg|] eqn:Ha; [|discriminate].
  destruct (negb (String.eqb _ "HS256")) eqn:E; [discriminate|].
  destruct (negb (same_bytes _ _)) eqn:E2; [discriminate|].
  destruct (JSON_parse (base64url_decode b)) as [p|] eqn:Hb; [|discriminate].
  destruct (Principal.get p "exp") as [exp|] eqn:He; [|discriminate].
  destruct (expired exp nowSeconds) eqn:E3; [discriminate|]. injection H as ->.
  exists h, b, s, header, exp. unfold same_bytes in E2. bool_to_prop.
  destruct alg; cbn in E; try discriminate. subst.
  assert (match exp with
          | JsNum (Finite num den) => nowSeconds * Z.pos den < num
          | JsNum (Infinity negative) => negative = false
          | _ => True end) as Hexp.
  { destruct exp as [| | | | |[num den|negative|]| |]; cbn in E3; bool_to_prop; auto. }
  repeat (split; [congruence|]). exact Hexp.
Qed.

(** Documented behaviour of the codec: Base64url decodes what it encodes and uses neither
    [.] nor other characters outside its alphabet; JSON reads back the token header. *)
Class TokenCodecLaws := {
  decode_encode : ∀ s, base64url_decode (base64url_encode s) = s;
  encode_no_dot : ∀ s, "."%char ∉ to_list (base64url_encode s);
  header_roundtrip :
    let header := JsObject [("alg"%string, JsString "HS256"); ("typ"%string, JsString "JWT")] in
    JSON_parse (JSON_stringify header) = Ret header }.

Lemma split_token (a b c : string) :
  "."%char ∉ to_list a → "."%char ∉ to_list b → "."%char ∉ to_list c →
  split "." (a +:+ "." +:+ b +:+ "." +:+ c)%string = [a; b; c].
Proof.
  intros Ha Hb Hc. unfold split. rewrite !to_list_app. cbn [to_list app].
  rewrite split_list_app by done. rewrite split_list_app by done. rewrite split_list_no by done.
  cbn. by rewrite !of_to_list.
Qed.

(** A token minted with a secret verifies under the same secret until it expires, and
    yields the payload it was minted from. *)
Theorem sign_verify_roundtrip `{!TokenCodecLaws} (payload exp : JsValue) (secret : string) (nowSeconds : Z)
    (Hjson : JSON_parse (JSON_stringify payload) = Ret payload)
    (Hexp : Principal.get payload "exp" = Ret exp) (Hlive : expired exp nowSeconds = false) :
  verifyHs256Jwt (signHs256Jwt payload secret) secret nowSeconds = Ret payload.
Proof.
  unfold signHs256Jwt, verifyHs256Jwt, parse_segment.
  rewrite split_token by apply encode_no_dot. rewrite decode_encode, header_roundtrip. cbn [Principal.get].
  change (property _ "alg") with (JsString "HS256"). cbn [Principal.string_or_empty].
  change (negb (String.eqb "HS256" "HS256")) with false. cbv iota beta zeta.
  rewrite !decode_encode. unfold same_bytes. rewrite Nat.eqb_refl, String.eqb_refl. cbn [negb andb].
  by rewrite Hjson, Hexp, Hlive.
Qed.
End jwt.
End Jwt.

(** ** [compliance-access.guard.ts] *)
Module AccessGuard.

Record Headers := mkHeaders { authorization : option string; cookie : option string }.

Section guard.
Context {TC : TokenCodec}.

(** The loop over the parts of the [Cookie] header; [None] when no cookie is named [token]. *)
Fixpoint token_cookie (parts : list string) : option (outcome exn string) :=
  match parts with
  | [] => None
  | part :: parts' =>
      match split "=" (trim part) with
      | name :: rest =>
          if String.eqb name "token" && negb (Z.of_nat (length rest) =? 0)
          then Some (decodeURIComponent (join "=" rest))
          else token_cookie parts'
      | [] => token_cookie parts'
      end
  end.

Definition bearer (auth : option string) : option string :=
  match auth with
  | Some a => if startsWith a "Bearer " then Some (trim (slice_from 7 a)) else None
  | None => None
  end.

Definition extractToken (req : Headers) : outcome exn (option string) :=
  match bearer (authorization req) with
  | Some t => Ret (Some t)
  | None =>
      match cookie req with
      | None => Ret None
      | Some header =>
          match token_cookie (split ";" header) with
          | None => Ret None
          | Some (Ret t) => Ret (Some t)
          | Some (Throw e) => Throw e
          end
      end
  end.

Definition of_outcome {W A : Type} (o : outcome exn A) : M exn W A :=
  match o with Ret a => mret a | Throw e => throw e end.

Definition resolvePrincipal {W : Type} `{!Clock W} (req : Headers) (secret : string)
    : M exn W Principal.Principal :=
  token ← of_outcome (extractToken req);
  if negb (truthy_opt token) then throw (UnauthorizedException "Missing authentication token")
  else
    try_catch
      (now ← date_now;
       payload ← of_outcome (Jwt.verifyHs256Jwt (default EmptyString token) secret (now / 1000));
       of_outcome (Principal.principalFromPayload payload))
      (λ err, throw (UnauthorizedException (message err))).

(** [canActivate] of both guards: the principal is stored on the request. *)
Definition canActivate {W : Type} `{!Clock W} (JWT_SECRET : option string) (req : Headers)
    : M exn W (Principal.Principal * bool) :=
  p ← resolvePrincipal req (default "dev_secret"%string JWT_SECRET);
  mret (p, true).
End guard.
End AccessGuard.

Section theorems.
Import AccessGuard.
Context {TC : TokenCodec} {W : Type} `{!Prisma W} `{!Clock W} `{!PrismaLaws W} `{!ClockLaws W}.

End theorems.

(** ** A concrete codec for the witnesses: two letters per byte, and one payload *)
Module TokenExamples.

Fixpoint letters (l : list ascii) : list ascii :=
  match l with
  | [] => []
  | c :: l' => ascii_of_N (Z.to_N (97 + code c / 16)) :: ascii_of_N (Z.to_N (97 + code c mod 16)) :: letters l'
  end.

Fixpoint unletters (l : list ascii) : list ascii :=
  match l with
  | a :: b :: l' => ascii_of_N (Z.to_N (16 * (code a - 97) + (code b - 97))) :: unletters l'
  | _ => []
  end.

Definition payload_ex : JsValue :=
  JsObject [("sub"%string, JsString "u1"); ("walletAddress"%string, JsString "GABC");
            ("role"%string, JsString "Admin"); ("exp"%string, JsNum (Finite 2000 1))].

Definition header_ex : JsValue := JsObject [("alg"%string, JsString "HS256"); ("typ"%string, JsString "JWT")].

#[local] Instance toy_codec : TokenCodec := {|
  hmac_sha256 := λ k s, (k +:+ "|" +:+ s)%string;
  base64url_decode := λ s, of_list (unletters (to_list s));
  base64url_encode := λ s, of_list (letters (to_list s));
  JSON_parse := λ s, if String.eqb s "H" then Ret header_ex
                     else if String.eqb s "P" then Ret payload_ex else Throw (SyntaxError "JSON");
  JSON_stringify := λ v, match v with
                         | JsObject (("alg"%string, _) :: _) => "H"%string | _ => "P"%string end;
  decodeURIComponent := Ret;
  fraction_to_string := λ _ _, "0.5"%string |}.

Lemma code_letter (d : Z) : 0 <= d < 16 → code (ascii_of_N (Z.to_N (97 + d))) = 97 + d.
Proof. intros H. unfold code. rewrite N_ascii_embedding; lia. Qed.

Lemma ascii_code (c : ascii) : ascii_of_N (Z.to_N (code c)) = c.
Proof. unfold code. by rewrite N2Z.id, ascii_N_embedding. Qed.

Lemma unletters_letters (l : list ascii) : unletters (letters l) = l.
Proof.
  induction l as [|c l IH]; cbn; [done|]. pose proof (code_bounds c). rewrite IH.
  rewrite (code_letter (_ / _)) by (split; [apply Z.div_pos|apply Z.div_lt_upper_bound]; lia).
  rewrite code_letter by (apply Z.mod_pos_bound; lia).
  f_equal. rewrite <- (ascii_code c) at 3. do 2 f_equal. pose proof (Z.div_mod (code c) 16). lia.
Qed.

#[local] Instance toy_codec_laws : Jwt.TokenCodecLaws.
Proof.
  split.
  - intros s. cbn. by rewrite to_of_list, unletters_letters, of_to_list.
  - intros s. cbn. rewrite to_of_list. intros Hin.
    assert (∀ l c, c ∈ letters l → 97 <= code c) as Hl.
    { induction l as [|a l IH]; cbn; intros c Hc; [by apply elem_of_nil in Hc|]. pose proof (code_bounds a).
      assert (0 <= code a / 16 < 16) by (split; [apply Z.div_pos; lia|apply Z.div_lt_upper_bound; lia]).
      assert (0 <= code a mod 16 < 16) by (apply Z.mod_pos_bound; lia).
      apply elem_of_cons in Hc as [->|[->|Hc]%elem_of_cons]; [rewrite code_letter by done; lia| |auto].
      rewrite code_letter by done. lia. }
    apply Hl in Hin. vm_compute in Hin. done.
  - vm_compute. reflexivity.
Qed.

Lemma sign_verify_roundtrip_witness :
  Jwt.verifyHs256Jwt (Jwt.signHs256Jwt payload_ex "k") "k" 1999 = Ret payload_ex.
Proof. apply (Jwt.sign_verify_roundtrip payload_ex (JsNum (Finite 2000 1)) "k" 1999); vm_compute; reflexivity. Defined.

Lemma verify_sound_witness :
  let token := Jwt.signHs256Jwt payload_ex "k" in
  Jwt.verifyHs256Jwt token "k" 1999 = Ret payload_ex ∧
  (∃ h b s, split "." token = [h; b; s] ∧ base64url_decode s = hmac_sha256 "k" (h +:+ "." +:+ b)%string) ∧
  Jwt.verifyHs256Jwt token "k" 2000 = Throw (JsError "Token expired") ∧
  Jwt.verifyHs256Jwt token "other" 1999 = Throw (JsError "Invalid signature").
Proof.
  intros token. split; [vm_compute; reflexivity|]. split; [|vm_compute; split; reflexivity].
  destruct (Jwt.verify_sound token "k" 1999 payload_ex) as (h & b & s & hd & e & H1 & _ & _ & H2 & _);
    [vm_compute; reflexivity|]. exists h, b, s. split; [exact H1|exact H2].
Defined.

End TokenExamples.
