(* ===== verification/Session.v ===== *)
(** * Sessions: signing in with a wallet and the route guards ([auth/auth.service.ts],
    [auth/auth.controller.ts], [auth/jwt.strategy.ts], [auth/roles.guard.ts],
    [settlement/settlement-sync-admin.controller.ts]; web client: [middleware.ts])

    The role of a session travels from the user's row through the token to three readers: the
    passport strategy, the role guard of the administrators' endpoints, and the middleware that
    decides which dashboard the browser may open.  Signing and verification of the token
    ([@nestjs/jwt], [passport-jwt]), its decoding in the browser ([jwt-decode]) and the table
    of users (which the schema does not have) are parameters. *)
From S2P Require Import Prelude Js Schema Errors Prisma PrismaService Auth.
Open Scope Z_scope.

(** [payload.role.toLowerCase()] *)
Definition to_lower (v : JsValue) : outcome exn string :=
  match v with
  | JsString s => Ret (toLowerCase s)
  | JsUndefined | JsNull => Throw (TypeError "Cannot read properties of undefined (reading 'toLowerCase')")
  | _ => Throw (TypeError "payload.role.toLowerCase is not a function")
  end.

(** [payload?.key] *)
Definition optional_get (v : JsValue) (key : string) : JsValue :=
  if nullish v then JsUndefined else Principal.get_field v key.

(** ** [jwt.strategy.ts] *)
Module JwtStrategy.

Record AuthenticatedUser := mkUser { userId : JsValue; walletAddress : JsValue; role : JsValue }.

Definition ROLES : list string := ["farmer"; "investor"; "admin"].

Definition validate (payload : JsValue) : outcome exn AuthenticatedUser :=
  let role := optional_get payload "role" in
  if negb (js_truthy role) then Throw (UnauthorizedException "Invalid or missing role in token")
  else match to_lower role with
       | Throw e => Throw e
       | Ret r =>
           if negb (existsb (String.eqb r) ROLES) then Throw (UnauthorizedException "Invalid or missing role in token")
           else
             let sub := Principal.get_field payload "sub" in
             let walletAddress := Principal.get_field payload "walletAddress" in
             if negb (js_truthy sub) || negb (js_truthy walletAddress)
             then Throw (UnauthorizedException "Invalid token: missing user information")
             else Ret (mkUser sub walletAddress role)
       end.

(** A user is only made of a payload that names one of the three roles, in any case, and a user. *)
Lemma validate_sound (payload : JsValue) (u : AuthenticatedUser) :
  validate payload = Ret u →
  (∃ r, role u = JsString r ∧ toLowerCase r ∈ ROLES) ∧
  js_truthy (userId u) = true ∧ js_truthy (walletAddress u) = true ∧
  role u = Principal.get_field payload "role".
Proof.
  unfold validate, optional_get. destruct (nullish payload) eqn:Hn; [done|]. cbn zeta.
  destruct (negb (js_truthy _)) eqn:E; [done|].
  destruct (to_lower _) as [r|] eqn:Hr; [|done]. destruct (negb (existsb _ _)) eqn:E2; [done|].
  destruct (negb (js_truthy (Principal.get_field payload "sub")) || _) eqn:E3; [done|].
  intros [= <-]. cbn. bool_to_prop. unfold to_lower in Hr.
  destruct (Principal.get_field payload "role") as [| | |s| | | |]; try done. injection Hr as <-.
  split; [|done]. exists s. split; [done|]. apply existsb_exists in E2 as (x & Hx & Hs).
  apply String.eqb_eq in Hs as ->. by apply list_elem_of_In.
Qed.
End JwtStrategy.

(** ** [roles.guard.ts] *)
Module RolesGuard.
Import JwtStrategy.

(** [user?.role === role], of a user that may be missing *)
Definition has_role (user : option AuthenticatedUser) (required : string) : bool :=
  match user with
  | Some u => match role u with JsString r => String.eqb r required | _ => false end
  | None => false
  end.

(** [requiredRoles] is the metadata of the handler, or else of its class. *)
Definition canActivate (requiredRoles : option (list string)) (user : option AuthenticatedUser) : bool :=
  match requiredRoles with
  | None => true
  | Some roles => existsb (has_role user) roles
  end.
End RolesGuard.

(** ** [auth.service.ts] and [auth.controller.ts] *)
Module AuthService.

(** A row of [this.prisma.user]. *)
Record User := mkUserRow { id : string; walletAddress : string; role : string }.

Record AuthResponse := mkAuthResponse { accessToken : string; ar_walletAddress : string; ar_role : string }.

(** [res.cookie('token', ...)] *)
Record Cookie := mkCookie { value : string; httpOnly : bool; secure : bool; sameSite : string; maxAge : Z }.

(** The dates the library adds to what it signs are not part of what the service gives it. *)
Definition payload_of (user : User) : JsValue :=
  JsObject [("sub"%string, JsString (id user)); ("walletAddress"%string, JsString (walletAddress user));
            ("role"%string, JsString (role user))].

Section service.
Context {W : Type} (findUnique : JsValue → M exn W (option User)) (create : JsValue → JsValue → M exn W User)
  (sign : JsValue → string) (handle : PrismaService.handle).

(** [dto.key], of a body that may not have been parsed *)
Definition read (dto : JsValue) (key : string) : M exn W JsValue := AccessGuard.of_outcome (Principal.get dto key).

Definition connectWallet (dto : JsValue) : M exn W AuthResponse :=
  found ← PrismaService.via handle PrismaService.m_user (read dto "walletAddress" ≫= findUnique);
  user ← match found with
         | Some u => mret u
         | None =>
             PrismaService.via handle PrismaService.m_user
               (walletAddress ← read dto "walletAddress"; role ← read dto "role";
                create walletAddress (coalesce role (JsString "FARMER")))
         end;
  mret (mkAuthResponse (sign (payload_of user)) (walletAddress user) (role user)).

(** [POST auth/connect-wallet]: the body is passed on as it came. *)
Definition connect_wallet (NODE_ENV : option string) (body : JsValue) : M exn W (Cookie * AuthResponse) :=
  result ← connectWallet body;
  mret (mkCookie (accessToken result) true (bool_decide (NODE_ENV = Some "production"%string)) "strict" (7 * 24 * 60 * 60 * 1000), result).
End service.

(** [GET auth/profile] *)
Definition getProfile (user : JwtStrategy.AuthenticatedUser) : JsValue :=
  JsObject [("userId"%string, JwtStrategy.userId user); ("username"%string, JsUndefined);
            ("role"%string, JwtStrategy.role user)].

(** [POST auth/logout]: the cookie named [token] is cleared; [None] is the cookie jar's entry. *)
Definition logout (jar : option Cookie) : option Cookie * JsValue :=
  (None, JsObject [("message"%string, JsString "Logout successful")]).

(** With the handle that the class [PrismaService] provides, no wallet can be connected. *)
Lemma connectWallet_never {W : Type} (findUnique : JsValue → M exn W (option User)) create (sign : JsValue → string)
    (dto : JsValue) (w : W) :
  ∃ msg, connectWallet findUnique create sign PrismaService.surface dto w = (Throw (TypeError msg), w).
Proof.
  unfold connectWallet, mbind, M_bind.
  destruct (PrismaService.via_out PrismaService.surface PrismaService.m_user (read dto "walletAddress" ≫= findUnique) w) as [msg Hm].
  { by apply (bool_decide_eq_false (PrismaService.m_user ∈ PrismaService.surface)). }
  exists msg. unfold mbind, M_bind in Hm. by rewrite Hm.
Qed.

(** What a session of a user gives: the payload's claims. *)
Lemma payload_role (u : User) : Principal.get_field (payload_of u) "role" = JsString (role u).
Proof. done. Qed.
End AuthService.

(** ** [middleware.ts] *)
Module Middleware.

Inductive NextResponse := next | redirect (path : string) (error : option string).

Section middleware.
(** [jwtDecode]: it throws on text that is not a token with a JSON payload. *)
Variable jwtDecode : string → outcome exn JsValue.

Definition FARMER : string := "/dashboard/farmer".
Definition INVESTOR : string := "/dashboard/investor".

(** [config.matcher]: the paths the middleware runs on *)
Definition matched (pathname : string) : bool :=
  String.eqb pathname "/dashboard" || startsWith pathname "/dashboard/".

Definition unauthorized (path : string) : NextResponse := redirect path (Some "unauthorized_role"%string).

(** [decoded.role !== r] *)
Definition role_is (userRole : JsValue) (r : string) : bool :=
  match userRole with JsString s => String.eqb s r | _ => false end.

Definition middleware (pathname : string) (token : option string) : NextResponse :=
  if startsWith pathname "/dashboard" then
    if negb (truthy_opt token) then redirect "/login" None
    else match (match jwtDecode (default EmptyString token) with
                | Ret decoded => Principal.get decoded "role"
                | Throw e => Throw e
                end) with
         | Throw _ => redirect "/login" None
         | Ret userRole =>
             if startsWith pathname INVESTOR && negb (role_is userRole "investor") then unauthorized FARMER
             else if startsWith pathname FARMER && negb (role_is userRole "farmer") then unauthorized INVESTOR
             else next
         end
  else next.

(** What the browser shows after following at most [fuel] redirects. *)
Fixpoint visit (fuel : nat) (pathname : string) (token : option string) : option string :=
  match fuel with
  | O => None
  | S fuel' =>
      if negb (matched pathname) then Some pathname
      else match middleware pathname token with
           | next => Some pathname
           | redirect path _ => visit fuel' path token
           end
  end.

(** The role that the middleware reads out of a token; [None] when it sends the browser away. *)
Definition session_role (token : option string) : option JsValue :=
  if truthy_opt token
  then match jwtDecode (default EmptyString token) with
       | Ret decoded => match Principal.get decoded "role" with Ret r => Some r | Throw _ => None end
       | Throw _ => None
       end
  else None.

Definition known (userRole : JsValue) : bool := role_is userRole "farmer" || role_is userRole "investor".

Lemma matched_dashboard (pathname : string) : matched pathname = true → startsWith pathname "/dashboard" = true.
Proof.
  unfold matched. intros [->%String.eqb_eq|H]%orb_true_iff; [done|]. by eapply startsWith_trans.
Qed.

Lemma one_dashboard (pathname : string) : startsWith pathname INVESTOR = true → startsWith pathname FARMER = false.
Proof. intros H. destruct (startsWith pathname FARMER) eqn:E; [|done]. by pose proof (startsWith_total _ _ _ H E). Qed.

Lemma middleware_no_session (pathname : string) (token : option string) :
  matched pathname = true → session_role token = None → middleware pathname token = redirect "/login" None.
Proof.
  intros Hm. unfold session_role, middleware. rewrite matched_dashboard by done. destruct (truthy_opt token); [|done].
  cbn. destruct (jwtDecode _) as [d|]; [|done]. by destruct (Principal.get d "role").
Qed.

Lemma middleware_session (pathname : string) (token : option string) (r : JsValue) :
  matched pathname = true → session_role token = Some r →
  middleware pathname token =
    if startsWith pathname INVESTOR && negb (role_is r "investor") then unauthorized FARMER
    else if startsWith pathname FARMER && negb (role_is r "farmer") then unauthorized INVESTOR
    else next.
Proof.
  intros Hm. unfold session_role, middleware. rewrite matched_dashboard by done. destruct (truthy_opt token); [|done].
  cbn. destruct (jwtDecode _) as [d|]; [|done]. destruct (Principal.get d "role"); [|done]. by intros [= ->].
Qed.

Lemma role_is_spec (r : JsValue) (s : string) : role_is r s = true → r = JsString s.
Proof. destruct r; try done. cbn. by intros ->%String.eqb_eq. Qed.

Definition dashboard_of (userRole : JsValue) : string := if role_is userRole "farmer" then FARMER else INVESTOR.

Lemma visit_matched (fuel : nat) (pathname : string) (token : option string) :
  matched pathname = true →
  visit (S fuel) pathname token =
    match middleware pathname token with next => Some pathname | redirect path _ => visit fuel path token end.
Proof. intros H. cbn [visit]. by rewrite H. Qed.

(** The dashboard of the session's own role is shown. *)
Lemma visit_own (fuel : nat) (token : option string) (r : JsValue) :
  session_role token = Some r → known r = true → visit (S fuel) (dashboard_of r) token = Some (dashboard_of r).
Proof.
  intros Hr Hk. unfold dashboard_of, known in *. apply orb_true_iff in Hk as [->%role_is_spec| ->%role_is_spec]; cbn [role_is];
    rewrite visit_matched by done; by rewrite (middleware_session _ token _) by done.
Qed.

(** A role that is neither "farmer" nor "investor" is sent from one dashboard to the other. *)
Lemma unknown_role_loops (fuel : nat) (token : option string) (r : JsValue) :
  session_role token = Some r → known r = false →
  visit fuel FARMER token = None ∧ visit fuel INVESTOR token = None.
Proof.
  intros Hr [Hf Hi]%orb_false_iff. induction fuel as [|fuel [IHf IHi]]; [done|].
  split; cbn [visit].
  - change (negb (matched FARMER)) with false. cbv iota.
    rewrite (middleware_session FARMER token r) by done. rewrite Hf. exact IHi.
  - change (negb (matched INVESTOR)) with false. cbv iota.
    rewrite (middleware_session INVESTOR token r) by done. rewrite Hi. exact IHf.
Qed.

Definition dashboard (pathname : string) : bool := startsWith pathname FARMER || startsWith pathname INVESTOR.

(** What the guard makes of a navigation, by the session the token stands for. *)
Definition guarded (pathname : string) (token : option string) : Prop :=
  match session_role token with
  | None => visit 2 pathname token = Some "/login"%string
  | Some r =>
      if known r then
        ∃ p, visit 2 pathname token = Some p ∧
             (if dashboard pathname then startsWith p (dashboard_of r) = true ∧ (p = pathname ∨ p = dashboard_of r)
              else p = pathname)
      else if dashboard pathname then ∀ fuel, visit fuel pathname token = None
      else visit 1 pathname token = Some pathname
  end.

(** C15: on every path the middleware runs on, a browser without a decodable
    token ends at the login page after one redirect; with the role "farmer" or "investor"
    every navigation settles after at most one redirect, and a dashboard that is shown is the
    one of the role; with any other role a navigation to either dashboard never settles. *)
Theorem dashboards_guarded (pathname : string) (token : option string) (H : matched pathname = true) :
  guarded pathname token.
Proof.
  unfold guarded, dashboard. destruct (session_role token) as [r|] eqn:Hr.
  2: { cbn [visit]. rewrite H. cbn. by rewrite middleware_no_session. }
  pose proof (middleware_session pathname token r H Hr) as Hmid. destruct (known r) eqn:Hk.
  - rewrite visit_matched, Hmid by done. pose proof (visit_own 0 token r Hr Hk) as Hown.
    unfold known in Hk. apply orb_true_iff in Hk as [->%role_is_spec| ->%role_is_spec];
      cbn [role_is negb] in *; rewrite ?andb_true_r, ?andb_false_r;
      destruct (startsWith pathname INVESTOR) eqn:Ei; destruct (startsWith pathname FARMER) eqn:Ef;
      try (by rewrite one_dashboard in Ef); cbn [orb negb andb]; eauto 10.
  - pose proof Hk as [Hf Hi]%orb_false_iff.
    destruct (startsWith pathname FARMER) eqn:Ef; cbn.
    + intros [|fuel]; [done|]. rewrite visit_matched, Hmid, Hf by done. cbn [negb andb].
      destruct (unknown_role_loops fuel token r Hr Hk). by destruct (startsWith pathname INVESTOR && _).
    + destruct (startsWith pathname INVESTOR) eqn:Ei; cbn.
      * intros [|fuel]; [done|]. rewrite visit_matched, Hmid, Hi by done. by destruct (unknown_role_loops fuel token r Hr Hk).
      * by rewrite H, Hmid.
Qed.
End middleware.
End Middleware.

(** ** What an issued session can do *)

(** [@Roles('admin')] of [SettlementSyncAdminController] *)
Definition ADMIN_ROLES : list string := ["admin"].

(** The guards [JwtAuthGuard] and [RolesGuard] in front of an administrators' endpoint: the
    payload of the verified token decides. *)
Definition admin_access (payload : JsValue) : outcome exn bool :=
  match JwtStrategy.validate payload with
  | Throw e => Throw e
  | Ret user => Ret (RolesGuard.canActivate (Some ADMIN_ROLES) (Some user))
  end.

(** The roles that [ConnectWalletDto] documents, one of which is the default. *)
Definition DTO_ROLES : list string := ["FARMER"; "INVESTOR"; "ADMIN"].

Section issued.
Context (sign : JsValue → string) (jwtDecode : string → outcome exn JsValue).

(** The libraries: decoding gives the payload back, with dates added. *)
Definition decodes (user : AuthService.User) (payload : JsValue) : Prop :=
  jwtDecode (sign (AuthService.payload_of user)) = Ret payload ∧
  sign (AuthService.payload_of user) ≠ EmptyString ∧
  ∀ key, key ∈ (["sub"; "walletAddress"; "role"] : list string) →
    Principal.get payload key = Principal.get (AuthService.payload_of user) key.

Lemma decoded_role (user : AuthService.User) (payload : JsValue) :
  decodes user payload →
  Middleware.session_role jwtDecode (Some (sign (AuthService.payload_of user))) = Some (JsString (AuthService.role user)).
Proof.
  intros (Hd & Hne & Hk). unfold Middleware.session_role, truthy_opt, truthy.
  apply String.eqb_neq in Hne as ->. cbn. rewrite Hd, Hk by set_solver. done.
Qed.

Lemma validated (user : AuthService.User) (payload : JsValue) :
  decodes user payload → truthy (AuthService.id user) = true → truthy (AuthService.walletAddress user) = true →
  toLowerCase (AuthService.role user) ∈ JwtStrategy.ROLES →
  JwtStrategy.validate payload =
    Ret (JwtStrategy.mkUser (JsString (AuthService.id user)) (JsString (AuthService.walletAddress user)) (JsString (AuthService.role user))).
Proof.
  intros (_ & _ & Hk) Hid Hw Hr.
  assert (∀ key, key ∈ (["sub"; "walletAddress"; "role"] : list string) →
    Principal.get_field payload key = Principal.get_field (AuthService.payload_of user) key) as Hf.
  { intros key H. unfold Principal.get_field. by rewrite Hk. }
  assert (nullish payload = false) as Hn.
  { destruct payload; try done; by specialize (Hk "sub"%string ltac:(set_solver)). }
  assert (truthy (AuthService.role user) = true) as Hrole.
  { destruct (AuthService.role user) as [|c s]; [|done]. cbn in Hr. set_solver. }
  assert (existsb (String.eqb (toLowerCase (AuthService.role user))) JwtStrategy.ROLES = true) as Hin.
  { apply existsb_exists. eexists. split; [by apply list_elem_of_In|apply String.eqb_refl]. }
  unfold JwtStrategy.validate, optional_get. rewrite Hn, !Hf by set_solver.
  cbn -[existsb JwtStrategy.ROLES]. unfold truthy in *. by rewrite Hid, Hw, Hrole, Hin.
Qed.

(** A session that the sign-in issues for any of the roles its
    interface documents is accepted by the token strategy, and is then of no use: the
    administrators' endpoint refuses it whatever the role (its guard compares case-sensitively
    with "admin"), and the middleware sends a navigation to a dashboard round in circles. *)
Theorem issued_sessions_refused (user : AuthService.User) (payload : JsValue) (pathname : string)
    (Hdec : decodes user payload) (Hid : truthy (AuthService.id user) = true)
    (Hw : truthy (AuthService.walletAddress user) = true) (Hr : AuthService.role user ∈ DTO_ROLES)
    (Hm : Middleware.matched pathname = true) (Hd : Middleware.dashboard pathname = true) :
  admin_access payload = Ret false ∧
  (∀ fuel, Middleware.visit jwtDecode fuel pathname (Some (sign (AuthService.payload_of user))) = None) ∧
  ∃ u, JwtStrategy.validate payload = Ret u ∧ JwtStrategy.role u = JsString (AuthService.role user).
Proof.
  pose proof (decoded_role user payload Hdec) as Hs.
  assert (toLowerCase (AuthService.role user) ∈ JwtStrategy.ROLES ∧
          Middleware.known (JsString (AuthService.role user)) = false ∧
          String.eqb (AuthService.role user) "admin" = false) as (Hl & Hk & Ha).
  { unfold DTO_ROLES, JwtStrategy.ROLES in *. rewrite !elem_of_cons in *.
    destruct Hr as [->|[->|[->|[]%elem_of_nil]]]; (split; [|split]); auto. }
  unfold admin_access. rewrite (validated user payload) by done. cbn. rewrite Ha.
  split; [done|]. split; [|by eexists].
  pose proof (Middleware.unknown_role_loops jwtDecode) as Hloop.
  intros [|fuel]; [done|]. rewrite Middleware.visit_matched by done.
  rewrite (Middleware.middleware_session jwtDecode pathname _ _ Hm Hs).
  destruct (Hloop fuel _ _ Hs Hk) as [Hf Hi]. pose proof Hk as [Hnf Hni]%orb_false_iff.
  unfold Middleware.dashboard in Hd. rewrite Hnf, Hni. cbn [negb]. rewrite !andb_true_r.
  destruct (startsWith pathname Middleware.INVESTOR) eqn:Ei; [done|].
  rewrite orb_false_r in Hd. by rewrite Hd.
Qed.
End issued.

Module SessionExamples.

(** A codec that reads back the three claims of the example. *)
Definition user_ex : AuthService.User := AuthService.mkUserRow "u1" "GABC" "FARMER".

Definition payload_ex (role : string) : JsValue :=
  JsObject [("sub"%string, JsString "u1"); ("walletAddress"%string, JsString "GABC");
            ("role"%string, JsString role); ("iat"%string, JsNum (Finite 1000 1))].

Definition sign_ex (payload : JsValue) : string := Principal.string_or_empty (Principal.get_field payload "role").

Definition decode_ex (token : string) : outcome exn JsValue :=
  if String.eqb token "garbage" then Throw (JsError "Invalid token specified") else Ret (payload_ex token).

Lemma decodes_ex : decodes sign_ex decode_ex user_ex (payload_ex "FARMER").
Proof.
  split; [done|]. split; [done|]. intros key H. rewrite !elem_of_cons in H.
  by destruct H as [->|[->|[->|[]%elem_of_nil]]].
Qed.

Lemma issued_sessions_refused_witness :
  admin_access (payload_ex "FARMER") = Ret false ∧
  Middleware.visit decode_ex 20 "/dashboard/farmer" (Some "FARMER"%string) = None.
Proof.
  destruct (issued_sessions_refused sign_ex decode_ex user_ex (payload_ex "FARMER") "/dashboard/farmer"
    decodes_ex eq_refl eq_refl ltac:(unfold DTO_ROLES; set_solver) eq_refl eq_refl) as (H1 & H2 & _).
  split; [exact H1|apply H2].
Defined.

(** The four cases of the guard, evaluated. *)
Lemma dashboards_guarded_witness :
  Middleware.guarded decode_ex "/dashboard/investor/pool" (Some "farmer"%string) ∧
  Middleware.visit decode_ex 2 "/dashboard/investor/pool" (Some "farmer"%string) = Some Middleware.FARMER ∧
  Middleware.visit decode_ex 2 "/dashboard/farmer" (Some "garbage"%string) = Some "/login"%string ∧
  Middleware.visit decode_ex 2 "/dashboard/investor/pool" (Some "investor"%string) = Some "/dashboard/investor/pool"%string ∧
  Middleware.visit decode_ex 30 "/dashboard/investor" (Some "INVESTOR"%string) = None.
Proof. split; [apply (Middleware.dashboards_guarded decode_ex); reflexivity|]. repeat split. Defined.

(** The one row that reaches the administrators' endpoint *)
Example admin_row : admin_access (payload_ex "admin") = Ret true ∧ admin_access (payload_ex "ADMIN") = Ret false.
Proof. done. Qed.
End SessionExamples.
