(* ===== verification/WalletSession.v ===== *)
(** * The wallet session of the web client ([src/frontend/context/WalletContext.tsx],
    [components/WalletSessionGuard.tsx], [hooks/useFreighterListener.ts], [lib/apiClient.ts],
    [lib/wallets/*], [app/connect-wallet/page.tsx])

    The wallet context and the browser storage it writes, the wallet adapters behind one
    interface, the calls to the API, signing in, and the guard that signs out.  The extensions
    in the page, [fetch] and the cookies of the server are parameters. *)
From S2P Require Import Prelude Js Schema Errors Prisma Auth.
Open Scope Z_scope.

(** ** The page *)

(** The adapters of [WALLET_ADAPTERS], in display order *)
Inductive AdapterName := Freighter | LOBSTR | xBull.

#[export] Instance AdapterName_eq : EqDecision AdapterName.
Proof. solve_decision. Defined.

Definition adapter_name (a : AdapterName) : string :=
  match a with Freighter => "Freighter" | LOBSTR => "LOBSTR" | xBull => "xBull" end.

Definition WALLET_ADAPTERS : list AdapterName := [Freighter; LOBSTR; xBull].

(** The address and the role come from the API, unchecked. *)
Record WalletState := mkWalletState {
  walletAddress : JsValue;
  role : JsValue;
  isConnected : bool;
  isLoading : bool;
  activeAdapter : option AdapterName }.

Definition signed_out : WalletState := mkWalletState JsNull JsNull false false None.

(** A tab: the context, the two storages, the pages that were navigated to, the message of the
    connect page, and the key that the xBull adapter keeps. *)
Record Page := mkPage {
  wallet : WalletState;
  sessionStorage : gmap string string;
  localStorage : gmap string string;
  pushed : list string;
  error : option JsValue;
  publicKey_ : option string }.

Definition set_wallet (f : WalletState → WalletState) (p : Page) : Page :=
  mkPage (f (wallet p)) (sessionStorage p) (localStorage p) (pushed p) (error p) (publicKey_ p).
Definition set_storage (f g : gmap string string → gmap string string) (p : Page) : Page :=
  mkPage (wallet p) (f (sessionStorage p)) (g (localStorage p)) (pushed p) (error p) (publicKey_ p).
Definition push (path : string) (p : Page) : Page :=
  mkPage (wallet p) (sessionStorage p) (localStorage p) (pushed p ++ [path]) (error p) (publicKey_ p).
Definition set_error (e : option JsValue) (p : Page) : Page :=
  mkPage (wallet p) (sessionStorage p) (localStorage p) (pushed p) e (publicKey_ p).
Definition set_publicKey (k : option string) (p : Page) : Page :=
  mkPage (wallet p) (sessionStorage p) (localStorage p) (pushed p) (error p) k.

(** [storage.removeItem] of several keys *)
Definition remove_items (keys : list string) (s : gmap string string) : gmap string string := foldr delete s keys.

(** ** [WalletContext.tsx] *)
Module WalletContext.
Section context.
Context {TC : TokenCodec}.

(** Setting an item converts the value to a string. *)
Definition connect (address r : JsValue) (adapter : option AdapterName) (p : Page) : Page :=
  set_storage
    (λ s, let s1 := <["walletRole" := Principal.js_String r]> (<["walletAddress" := Principal.js_String address]> s) in
          match adapter with Some a => <["walletAdapterName" := adapter_name a]> s1 | None => s1 end)
    (λ l, l)
    (set_wallet (λ _, mkWalletState address (js_or r (JsString "FARMER")) true false adapter) p).

Definition disconnect (p : Page) : Page :=
  set_storage (remove_items ["walletAddress"; "walletRole"; "walletAdapterName"]) (remove_items ["lastConnectedWallet"])
    (set_wallet (λ _, signed_out) p).

Definition setLoading (loading : bool) (p : Page) : Page :=
  set_wallet (λ w, mkWalletState (walletAddress w) (role w) (isConnected w) loading (activeAdapter w)) p.
End context.
End WalletContext.

(** ** The network *)

(** What is read of a response *)
Record Response := mkResponse { status : Z; ok : bool; content_type : option string; json : outcome exn JsValue }.

Record RequestInit := mkRequest { method : string; headers : gmap string string; body : option JsValue }.

(** The browser around the page, [N]: [fetch], the cookies that [next/headers] reads, and the
    APIs that the wallet extensions put on [window] (absent when not installed). *)
Class Browser (N : Type) := {
  fetch : string → RequestInit → M exn N Response;
  token_cookie : M exn N (option string);
  FreighterApi : option (M exn N (option string) * (string → string → M exn N string));
  lobstrVault : option (M exn N string * (string → M exn N string));
  xBullSDK : option (M exn N (option string) * (string → string → string → M exn N string)) }.

(** An operation of the page. *)
Definition update {N : Type} (f : Page → Page) : M exn (Page * N) unit := λ '(p, n), (Ret tt, (f p, n)).

(** ** [lib/wallets]: the adapters, behind the interface [WalletAdapter] *)
Record WalletAdapter (W : Type) := mkAdapter {
  name : string;
  isAvailable : bool;
  getPublicKey : M exn W (option string);
  connect : M exn W (option string);
  disconnect : M exn W unit;
  signTransaction : string → string → M exn W string;
  (** whether [watchAccountChange] subscribes its callback to anything *)
  watches : bool }.
Arguments name {W} _.
Arguments isAvailable {W} _.
Arguments getPublicKey {W} _.
Arguments connect {W} _.
Arguments disconnect {W} _.
Arguments signTransaction {W} _.
Arguments watches {W} _.

Section adapters.
Context {N : Type} {BR : Browser N}.

Definition FreighterAdapter : WalletAdapter (Page * N) :=
  let key := match FreighterApi with None => mret None | Some (getKey, _) => on_world getKey end in
  mkAdapter _ "Freighter" (if FreighterApi then true else false) key key (mret tt)
    (λ xdr network, match FreighterApi with
                    | None => throw (JsError "Freighter extension not available")
                    | Some (_, sign) => on_world (sign xdr network)
                    end)
    (if FreighterApi then true else false).

Definition LobstrAdapter : WalletAdapter (Page * N) :=
  let key := match lobstrVault with
             | None => mret None
             | Some (getKey, _) => k ← on_world getKey; mret (Some k)
             end in
  mkAdapter _ "LOBSTR" (if lobstrVault then true else false) key key (mret tt)
    (λ xdr _, match lobstrVault with
              | None => throw (JsError "LOBSTR Vault extension not available")
              | Some (_, sign) => on_world (sign xdr)
              end)
    false.

Definition XBullAdapter : WalletAdapter (Page * N) :=
  mkAdapter _ "xBull" (if xBullSDK then true else false)
    (λ '(p, n), (Ret (publicKey_ p), (p, n)))
    (match xBullSDK with
     | None => mret None
     | Some (api_connect, _) => k ← on_world api_connect; update (set_publicKey k) ≫= λ _, mret k
     end)
    (update (set_publicKey None))
    (λ xdr network, match xBullSDK with
                    | None => throw (JsError "xBull extension not available")
                    | Some (_, sign) => λ '(p, n),
                        if negb (truthy_opt (publicKey_ p)) then (Throw (JsError "xBull wallet not connected"), (p, n))
                        else on_world (sign xdr (default EmptyString (publicKey_ p)) network) (p, n)
                    end)
    false.

Definition adapter (a : AdapterName) : WalletAdapter (Page * N) :=
  match a with Freighter => FreighterAdapter | LOBSTR => LobstrAdapter | xBull => XBullAdapter end.

(** Asking for the key touches nothing of the page but the key of the xBull adapter. *)
Definition same_but_key (p p' : Page) : Prop := p' = set_publicKey (publicKey_ p') p.

Lemma adapter_connect_page (a : AdapterName) (p : Page) (n : N) :
  wp (connect (adapter a)) (λ _ '(p', _), same_but_key p p') (p, n).
Proof.
  assert (same_but_key p p) as Hp by (by destruct p). destruct a; cbn.
  - destruct FreighterApi as [[getKey sign]|]; [|done]. apply wp_on_world. by unfold wp.
  - destruct lobstrVault as [[getKey sign]|]; [|done]. apply wp_bind, wp_on_world. unfold wp. by destruct (getKey n) as [[] ?].
  - destruct xBullSDK as [[api_connect sign]|]; [|done]. apply wp_bind, wp_on_world. unfold wp.
    by destruct (api_connect n) as [[] ?].
Qed.
End adapters.

(** ** [apiClient.ts] *)
Module ApiClient.
Section client.
Context {N : Type} {BR : Browser N} (API_BASE_URL : string) (window : bool).

Record ApiResult := mkResult { data : JsValue; api_error : JsValue; result_status : Z }.

Definition NETWORK_ERROR : ApiResult :=
  mkResult JsUndefined
    (JsObject [("statusCode"%string, JsNum (Finite 500 1)); ("error"%string, JsString "NETWORK_ERROR");
               ("message"%string, JsString "Failed to make API request")]) 500.

Definition request_headers (options : RequestInit) (token : option string) : gmap string string :=
  let base := headers options ∪ {["Content-Type"%string := "application/json"%string]} in
  if truthy_opt token then <["Authorization"%string := ("Bearer " +:+ default EmptyString token)%string]> base else base.

(** The keys that a 401 and a logout remove *)
Definition clear_session : M exn (Page * N) unit :=
  if window then update (set_storage (remove_items ["walletAddress"; "walletRole"]) (remove_items ["lastConnectedWallet"]))
  else mret tt.

Definition apiCall (endpoint : string) (options : RequestInit) : M exn (Page * N) ApiResult :=
  try_catch
    (token ← on_world token_cookie;
     response ← on_world (fetch (API_BASE_URL +:+ endpoint)%string
       (mkRequest (method options) (request_headers options token) (body options)));
     payload ← AccessGuard.of_outcome (json response);
     if status response =? 401 then clear_session ≫= λ _, mret (mkResult JsUndefined payload 401)
     else if negb (ok response) then mret (mkResult JsUndefined payload (status response))
     else mret (mkResult payload JsUndefined (status response)))
    (λ _, mret NETWORK_ERROR).

Definition logout : M exn (Page * N) unit :=
  try_catch
    (apiCall "/auth/logout" (mkRequest "POST" ∅ None) ≫= λ _, clear_session)
    (λ _, mret tt).

(** A call never throws; it leaves the wallet, the page and the message alone; and what it
    returns with the status 200 is what the server sent with that status. *)
Definition answered (p : Page) (res : ApiResult) (p' : Page) : Prop :=
  wallet p' = wallet p ∧ pushed p' = pushed p ∧ error p' = error p ∧
  (result_status res = 200 → js_truthy (data res) = true →
   ∃ url options n1 n2 response, fetch url options n1 = (Ret response, n2) ∧
     status response = 200 ∧ json response = Ret (data res)).

Lemma apiCall_total (endpoint : string) (options : RequestInit) (p : Page) (n : N) :
  wp (apiCall endpoint options) (λ r '(p', _), ∃ res, r = Ret res ∧ answered p res p') (p, n).
Proof.
  assert (∃ res, @Ret exn _ NETWORK_ERROR = Ret res ∧ answered p res p) as Herr by (by exists NETWORK_ERROR).
  unfold apiCall. apply wp_try, wp_bind, wp_on_world, run_wp. intros [token|e] n1 _; [|by apply wp_ret].
  apply wp_bind, wp_on_world, run_wp. intros [response|e] n2 Hf; [|by apply wp_ret].
  apply wp_bind. destruct (json response) as [payload|e] eqn:Hj; cbn [AccessGuard.of_outcome];
    [apply wp_ret|by apply wp_throw, wp_ret].
  destruct (status response =? 401) eqn:E; [|destruct (ok response)]; cbn [negb].
  - apply wp_bind. unfold clear_session. destruct window; unfold wp; cbn; by eexists.
  - apply wp_ret. eexists. split; [done|]. repeat split. cbn. intros Hs _. by exists (API_BASE_URL +:+ endpoint)%string, (mkRequest (method options) (request_headers options token) (body options)), n1, n2, response.
  - apply wp_ret. eexists. split; [done|]. repeat split. by cbn.
Qed.
End client.
End ApiClient.

(** ** [app/connect-wallet/page.tsx] *)
Module ConnectWalletPage.
Section page.
Context {N : Type} {BR : Browser N} {TC : TokenCodec} (API_BASE_URL : string).

Inductive Role := FARMER | INVESTOR.

Definition role_name (r : Role) : string := match r with FARMER => "FARMER" | INVESTOR => "INVESTOR" end.

(** The end of every attempt that fails *)
Definition fail_with (e : JsValue) : M exn (Page * N) unit :=
  update (set_error (Some e)) ≫= λ _, update (WalletContext.setLoading false).

Definition caught (err : exn) : JsValue :=
  match err with NonError _ => JsString "An unexpected error occurred" | _ => JsString (message err) end.

(** [apiError?.message] *)
Definition optional_message (apiError : JsValue) : JsValue :=
  if nullish apiError then JsUndefined else Principal.get_field apiError "message".

Definition sign_in (a : AdapterName) (publicKey : string) (selected : Role) : M exn (Page * N) unit :=
  result ← ApiClient.apiCall API_BASE_URL true "/auth/connect-wallet"
    (mkRequest "POST" ∅ (Some (JsObject [("walletAddress"%string, JsString publicKey); ("role"%string, JsString (role_name selected))])));
  if negb (ApiClient.result_status result =? 200) || negb (js_truthy (ApiClient.data result))
  then fail_with (coalesce (optional_message (ApiClient.api_error result)) (JsString "Failed to connect wallet"))
  else
    update (WalletContext.connect (Principal.get_field (ApiClient.data result) "walletAddress")
              (Principal.get_field (ApiClient.data result) "role") (Some a)) ≫= λ _,
    update (push ("/dashboard/" +:+ toLowerCase (role_name selected))%string).

Definition handleConnectWallet (a : AdapterName) (selected : Role) : M exn (Page * N) unit :=
  update (set_error None) ≫= λ _,
  update (WalletContext.setLoading true) ≫= λ _,
  try_catch
    (if negb (isAvailable (adapter a))
     then fail_with (JsString (name (adapter a) +:+ " wallet extension not detected. Please install it and try again.")%string)
     else
       publicKey ← connect (adapter a);
       if negb (truthy_opt publicKey)
       then fail_with (JsString ("Failed to get wallet address from " +:+ name (adapter a) +:+ ".")%string)
       else sign_in a (default EmptyString publicKey) selected)
    (λ err, fail_with (caught err)).

(** The two ways an attempt ends. *)
Definition connected (a : AdapterName) (selected : Role) (p p' : Page) : Prop :=
  error p' = None ∧ pushed p' = pushed p ++ ["/dashboard/" +:+ toLowerCase (role_name selected)]%string ∧
  ∃ url options n1 n2 response data, fetch url options n1 = (Ret response, n2) ∧ status response = 200 ∧
    json response = Ret data ∧
    wallet p' = mkWalletState (Principal.get_field data "walletAddress")
                  (js_or (Principal.get_field data "role") (JsString "FARMER")) true false (Some a).

Definition refused (p p' : Page) : Prop :=
  error p' ≠ None ∧ pushed p' = pushed p ∧ wallet p' = wallet (WalletContext.setLoading false p).

Definition verdict (a : AdapterName) (selected : Role) (p : Page) : outcome exn unit → Page * N → Prop :=
  λ r '(p', _), r = Ret tt ∧ (connected a selected p p' ∨ refused p p').

(** The page after the first two statements of an attempt, and after anything that leaves the
    wallet, the message and the navigation alone. *)
Definition attempting (p p1 : Page) : Prop :=
  pushed p1 = pushed p ∧ error p1 = None ∧ wallet p1 = wallet (WalletContext.setLoading true p).

Lemma fail_with_verdict (a : AdapterName) (selected : Role) (e : JsValue) (p p1 : Page) (n : N) :
  attempting p p1 → wp (fail_with e) (verdict a selected p) (p1, n).
Proof.
  intros (Hp & He & Hw). unfold wp. cbn. split; [done|]. right. split; [done|]. split; [done|]. cbn. by rewrite Hw.
Qed.

Lemma sign_in_verdict (a : AdapterName) (key : string) (selected : Role) (p p1 : Page) (n : N) :
  attempting p p1 → wp (sign_in a key selected) (verdict a selected p) (p1, n).
Proof.
  intros (Hp & He & Hw). unfold sign_in. apply wp_bind. eapply wp_mono; [apply ApiClient.apiCall_total|].
  intros r [p2 n2] (res & -> & Hw2 & Hp2 & He2 & Hres). cbn beta iota.
  destruct (negb _ || negb _) eqn:E.
  - apply fail_with_verdict. unfold attempting. by rewrite Hp2, He2, Hw2.
  - bool_to_prop. destruct Hres as (url & options & n1 & n3 & response & Hf & Hs & Hj); [done..|].
    unfold wp. cbn. split; [done|]. left. split; [exact (eq_trans He2 He)|].
    split; [exact (f_equal (λ l, l ++ _) (eq_trans Hp2 Hp))|].
    by exists url, options, n1, n3, response, (ApiClient.data res).
Qed.

(** An attempt to connect a wallet never throws, whatever the extension and
    the network do, and leaves the "connecting" state.  Either the API answered with the status 200, the
    context holds the address and role of its answer (the role defaulting to FARMER) and the
    browser goes to the dashboard of the role that was selected; or a message is shown, and the
    wallet and the page stay. *)
Theorem connect_verdict (a : AdapterName) (selected : Role) (p : Page) (n : N) :
  wp (handleConnectWallet a selected)
     (λ r '(p', n'), verdict a selected p r (p', n') ∧ isLoading (wallet p') = false) (p, n).
Proof.
  eapply wp_mono with (Φ := verdict a selected p).
  2: { intros r [p' n'] [Hr H]. split; [by split|].
       destruct H as [(_ & _ & ? & ? & ? & ? & ? & ? & _ & _ & _ & ->)|(_ & _ & ->)]; done. }
  unfold handleConnectWallet. apply wp_bind. unfold wp at 1. cbn beta iota. cbn [update fst snd].
  apply wp_bind. unfold wp at 1. cbn [update fst snd].
  set (p1 := WalletContext.setLoading true (set_error None p)).
  assert (attempting p p1) as H1 by done. clearbody p1.
  apply wp_try. destruct (isAvailable (adapter a)); cbn [negb].
  2: { eapply wp_mono; [by apply (fail_with_verdict a selected)|]. by intros [] [p' n']; [|intros [? _]]. }
  apply wp_bind. eapply wp_mono; [apply adapter_connect_page|]. intros r [p2 n2] Hsame.
  assert (attempting p p2) as H2 by (by rewrite Hsame).
  destruct r as [key|e]; [|by apply fail_with_verdict].
  destruct (negb _); (eapply wp_mono; [by (apply fail_with_verdict || apply sign_in_verdict)|]);
    by intros [] [p' n']; [|intros [? _]].
Qed.
End page.
End ConnectWalletPage.

(** ** [WalletSessionGuard.tsx] *)
Module WalletSessionGuard.
Section guard.
Context {N : Type} {BR : Browser N} {TC : TokenCodec}.

Definition CONNECT : string := "/connect-wallet".

(** Dropping the session: the context's [disconnect], and the navigation *)
Definition sign_out (p : Page) : Page := push CONNECT (WalletContext.disconnect p).

(** [data.error === 'WALLET_SESSION_EXPIRED'] *)
Definition session_expired (data : JsValue) : outcome exn bool :=
  match Principal.get data "error" with
  | Throw e => Throw e
  | Ret (JsString s) => Ret (String.eqb s "WALLET_SESSION_EXPIRED")
  | Ret _ => Ret false
  end.

(** [window.fetch] while the guard is mounted: the response is passed on unchanged. *)
Definition guarded_fetch (url : string) (options : RequestInit) : M exn (Page * N) Response :=
  response ← on_world (fetch url options);
  (if (status response =? 401)
      && match content_type response with Some t => includes t "application/json" | None => false end
   then try_catch
          (data ← AccessGuard.of_outcome (json response);
           expired ← AccessGuard.of_outcome (session_expired data);
           if (expired : bool) then update sign_out else mret tt)
          (λ _, mret tt)
   else mret tt) ≫= λ _,
  mret response.

Definition logout_request : RequestInit := mkRequest "POST" ∅ None.

(** The items that an external sign-out removes, of the two storages *)
Definition SESSION_KEYS : list string := ["walletAddress"; "walletRole"; "walletAdapterName"].
Definition LOCAL_KEYS : list string := ["lastConnectedWallet"; "walletHistory"].

(** The callback given to [watchAccountChange] *)
Definition on_account_change (publicKey : option string) : M exn (Page * N) unit :=
  match publicKey with
  | Some _ => mret tt
  | None =>
      update (set_storage (remove_items SESSION_KEYS) (remove_items LOCAL_KEYS)) ≫= λ _,
      try_catch (guarded_fetch "/api/auth/logout" logout_request ≫= λ _, mret tt) (λ _, mret tt) ≫= λ _,
      update WalletContext.disconnect ≫= λ _,
      update (push CONNECT)
  end.

(** The adapters the guard watches: the active one, or all of them *)
Definition adaptersToWatch (w : WalletState) : list AdapterName :=
  match activeAdapter w with Some a => [a] | None => WALLET_ADAPTERS end.

(** An extension reports its account: only a watched adapter that subscribes calls back. *)
Definition account_event (a : AdapterName) (publicKey : option string) : M exn (Page * N) unit := λ '(p, n),
  if bool_decide (a ∈ adaptersToWatch (wallet p)) && watches (adapter a)
  then on_account_change publicKey (p, n)
  else (Ret tt, (p, n)).

(** The effect on [walletAddress] *)
Definition verify (p : Page) : Page := if js_truthy (walletAddress (wallet p)) then p else push CONNECT p.

(** ** [useFreighterListener.ts]: [window_fetch] is the [fetch] at the time of the event. *)
Definition handleAccountChange (window_fetch : string → RequestInit → M exn (Page * N) Response) (publicKey : option string)
    : M exn (Page * N) unit :=
  match publicKey with
  | Some _ => mret tt
  | None =>
      update (set_storage (remove_items SESSION_KEYS) (remove_items LOCAL_KEYS)) ≫= λ _,
      try_catch (window_fetch "/api/auth/logout"%string logout_request ≫= λ _, mret tt) (λ _, mret tt) ≫= λ _,
      update (push CONNECT)
  end.

Definition listener_subscribes : bool := isAvailable (adapter Freighter) && watches (adapter Freighter).

(** ** What is left after signing out *)
Lemma lookup_remove_items (keys : list string) (s : gmap string string) (k : string) :
  remove_items keys s !! k = if bool_decide (k ∈ keys) then None else s !! k.
Proof.
  induction keys as [|x keys IH]; [done|]. change (remove_items (x :: keys) s) with (delete x (remove_items keys s)).
  destruct (decide (x = k)) as [->|Hne].
  - rewrite lookup_delete_eq. rewrite bool_decide_true by set_solver. done.
  - rewrite lookup_delete_ne by done. rewrite IH. apply (f_equal (λ b : bool, if b then None else s !! k)).
    apply bool_decide_ext. set_solver.
Qed.

Lemma remove_items_twice (keys keys' : list string) (s : gmap string string) :
  keys' ⊆ keys → remove_items keys' (remove_items keys s) = remove_items keys s.
Proof.
  intros H. apply map_eq. intros k. rewrite !lookup_remove_items. case_bool_decide; [|done]. case_bool_decide; [done|set_solver].
Qed.

(** No trace of the session is left in the page. *)
Definition gone (p p' : Page) : Prop :=
  wallet p' = signed_out ∧
  sessionStorage p' = remove_items SESSION_KEYS (sessionStorage p) ∧
  localStorage p' = remove_items LOCAL_KEYS (localStorage p).

(** What the interceptor makes of the page: nothing, or a sign-out. *)
Lemma guarded_fetch_page (url : string) (options : RequestInit) (p : Page) (n : N) :
  wp (guarded_fetch url options)
     (λ r '(p', n'), (fetch url options n).1 = r ∧ (p' = p ∨
        p' = sign_out p ∧ ∃ response data, r = Ret response ∧ status response = 401 ∧ json response = Ret data ∧
          Principal.get data "error" = Ret (JsString "WALLET_SESSION_EXPIRED"))) (p, n).
Proof.
  unfold guarded_fetch. apply wp_bind, wp_on_world, run_wp. intros [response|e] n1 Hf; [|rewrite Hf; by auto].
  rewrite Hf. cbn [fst]. apply wp_bind. destruct (_ && _) eqn:E; [|apply wp_ret, wp_ret; by auto].
  apply wp_try, wp_bind. destruct (json response) as [data|] eqn:Hj; [apply wp_ret|apply wp_throw, wp_ret, wp_ret; by auto].
  apply wp_bind. unfold session_expired.
  destruct (Principal.get data "error") as [v|] eqn:Hd; [|apply wp_throw, wp_ret, wp_ret; by auto].
  destruct v; apply wp_ret; try (apply wp_ret, wp_ret; by auto).
  destruct (String.eqb _ _) eqn:Es; [|apply wp_ret, wp_ret; by auto]. bool_to_prop. subst.
  unfold wp at 1. cbn. apply wp_ret. split; [done|]. right. split; [done|]. eauto 10.
Qed.

(** C17: when a watched wallet reports that no account is connected any more,
    whatever the server answers to the logout, or if it does not, the callback completes: the
    context is signed out, no item of the session is left in either storage and nothing else is
    removed from them, and the browser goes to the connect page; when it reports an account,
    also another one than that of the session, nothing changes. *)
Theorem external_sign_out (publicKey : option string) (p : Page) (n : N) :
  wp (on_account_change publicKey)
     (λ r '(p', _), r = Ret tt ∧
        match publicKey with
        | Some _ => p' = p
        | None => gone p p' ∧ (pushed p' = pushed p ++ [CONNECT] ∨ pushed p' = pushed p ++ [CONNECT; CONNECT])
        end) (p, n).
Proof.
  destruct publicKey as [key|]; [done|]. unfold on_account_change. apply wp_bind. unfold wp at 1. cbn [update fst snd].
  set (p1 := set_storage _ _ p). assert (p1 = set_storage (remove_items SESSION_KEYS) (remove_items LOCAL_KEYS) p) as H1 by done.
  clearbody p1. apply wp_bind, wp_try, wp_bind. eapply wp_mono; [apply guarded_fetch_page|]. intros r [p2 n2] [_ H2].
  assert (∀ q, q = p1 ∨ q = sign_out p1 →
    gone p (push CONNECT (WalletContext.disconnect q)) ∧
    (pushed (push CONNECT (WalletContext.disconnect q)) = pushed p ++ [CONNECT] ∨
     pushed (push CONNECT (WalletContext.disconnect q)) = pushed p ++ [CONNECT; CONNECT])) as Hend.
  { intros q [->| ->]; rewrite H1; (split; [|cbn; rewrite <- ?app_assoc; by auto]); unfold gone; (split; [done|]);
      unfold sign_out, WalletContext.disconnect, set_storage, push, set_wallet; cbn [sessionStorage localStorage];
      rewrite !remove_items_twice by set_solver; done. }
  assert (p2 = p1 ∨ p2 = sign_out p1) as [H H']%Hend by (destruct H2 as [?|[? _]]; auto).
  destruct r; unfold wp; cbn; by split.
Qed.

(** An account that an unwatched extension drops is not noticed: the adapters of LOBSTR and
    xBull subscribe to nothing. *)
Lemma unwatched_disconnect (a : AdapterName) (key : option string) (p : Page) (n : N) :
  activeAdapter (wallet p) = Some LOBSTR ∨ activeAdapter (wallet p) = Some xBull →
  account_event a key (p, n) = (Ret tt, (p, n)).
Proof.
  intros H. unfold account_event, adaptersToWatch.
  destruct H as [-> | ->]; destruct a; cbn; rewrite ?andb_false_r; try done; by rewrite bool_decide_false by set_solver.
Qed.

(** The hook for Freighter signs out the storage, not the context. *)
Lemma listener_leaves_context (p : Page) (n : N) :
  wp (handleAccountChange (λ url options, on_world (fetch url options)) None)
     (λ r '(p', _), r = Ret tt ∧ wallet p' = wallet p ∧ pushed p' = pushed p ++ [CONNECT]) (p, n).
Proof.
  unfold handleAccountChange. apply wp_bind. unfold wp at 1. cbn [update fst snd].
  apply wp_bind, wp_try, wp_bind, wp_on_world, run_wp. by intros [] n1 _.
Qed.

(** Neither does the client's own logout, which also leaves the adapter's name. *)
Definition still_connected (p p' : Page) : Prop :=
  wallet p' = wallet p ∧ sessionStorage p' !! "walletAdapterName"%string = sessionStorage p !! "walletAdapterName"%string.

Lemma clear_session_keeps (p q : Page) (n : N) :
  still_connected p q → wp (ApiClient.clear_session true) (λ r '(p', _), r = Ret tt ∧ still_connected p p') (q, n).
Proof. intros [Hw Hs]. unfold wp. cbn -[remove_items]. split; [done|]. split; [done|]. cbn -[remove_items]. by rewrite lookup_remove_items. Qed.

Lemma apiCall_keeps (url endpoint : string) (options : RequestInit) (p : Page) (n : N) :
  wp (ApiClient.apiCall url true endpoint options) (λ r '(p', _), still_connected p p') (p, n).
Proof.
  assert (still_connected p p) as Hp by done. unfold ApiClient.apiCall.
  apply wp_try, wp_bind, wp_on_world, run_wp. intros [token|e] n1 _; [|done].
  apply wp_bind, wp_on_world, run_wp. intros [response|e] n2 _; [|done].
  apply wp_bind. destruct (json response); [apply wp_ret|by apply wp_throw, wp_ret].
  destruct (status response =? 401); [|by destruct (ok response)].
  apply wp_bind. eapply wp_mono; [by apply clear_session_keeps|]. by intros [] [p' n'] [? ?].
Qed.

Lemma logout_leaves_context (url : string) (p : Page) (n : N) :
  wp (ApiClient.logout url true) (λ r '(p', _), r = Ret tt ∧ still_connected p p') (p, n).
Proof.
  unfold ApiClient.logout. apply wp_try, wp_bind. eapply wp_mono; [apply apiCall_keeps|].
  intros r [p1 n1] H1. destruct r; [|done]. eapply wp_mono; [by apply clear_session_keeps|].
  by intros [] [p' n'] [? ?].
Qed.
End guard.
End WalletSessionGuard.

(** ** Concrete pages *)
Module WalletExamples.
#[local] Existing Instance TokenExamples.toy_codec.

(** A browser with the three extensions, whose server answers every request alike. *)
Definition browser_of (st : Z) (answer : JsValue) : Browser unit := {|
  fetch := λ _ _, mret (mkResponse st ((200 <=? st) && (st <=? 299)) (Some "application/json; charset=utf-8"%string) (Ret answer));
  token_cookie := mret None;
  FreighterApi := Some (mret (Some "GFREIGHTER"%string), λ xdr _, mret (xdr +:+ "/signed")%string);
  lobstrVault := Some (mret "GLOBSTR"%string, λ xdr, mret (xdr +:+ "/signed")%string);
  xBullSDK := None |}.

Definition answer_ex : JsValue :=
  JsObject [("accessToken"%string, JsString "t"); ("walletAddress"%string, JsString "GLOBSTR"); ("role"%string, JsString "INVESTOR")].

Definition blank : Page := mkPage signed_out ∅ ∅ [] None None.

Definition attempt_ex (st : Z) (a : AdapterName) : outcome exn unit * (Page * unit) :=
  ConnectWalletPage.handleConnectWallet (BR := browser_of st answer_ex) "http://api" a ConnectWalletPage.FARMER (blank, tt).

(** The same answer connects the wallet with the status 200; with 201, the status of a POST
    handler that sets none, it is refused.  The dashboard is that of the selected role, not that
    of the account. *)
Example created_is_refused :
  wallet (attempt_ex 201 LOBSTR).2.1 = signed_out ∧
  error (attempt_ex 201 LOBSTR).2.1 = Some (JsString "Failed to connect wallet") ∧
  wallet (attempt_ex 200 LOBSTR).2.1 = mkWalletState (JsString "GLOBSTR") (JsString "INVESTOR") true false (Some LOBSTR) ∧
  pushed (attempt_ex 200 LOBSTR).2.1 = ["/dashboard/farmer"]%string.
Proof. vm_compute. repeat split. Qed.

Example missing_extension :
  error (attempt_ex 200 xBull).2.1 = Some (JsString "xBull wallet extension not detected. Please install it and try again.").
Proof. reflexivity. Qed.

(** A session of Freighter that its extension ends. *)
Definition session_ex : Page := WalletContext.connect (JsString "GFREIGHTER") (JsString "FARMER") (Some Freighter) blank.

Example freighter_sign_out :
  let '(r, (p, _)) := WalletSessionGuard.account_event (BR := browser_of 401 (JsObject [("error"%string, JsString "WALLET_SESSION_EXPIRED")]))
    Freighter None (session_ex, tt) in
  r = Ret tt ∧ wallet p = signed_out ∧ map_to_list (sessionStorage p) = [] ∧
  pushed p = ["/connect-wallet"; "/connect-wallet"]%string.
Proof. vm_compute. repeat split. Qed.
End WalletExamples.
