(* ===== verification/Double.v ===== *)
(** * JavaScript numbers as IEEE doubles

    The arithmetic of [number]s on the binary64 values of the Standard Library's [SpecFloat], the
    conversions from integers, numerals and to text, and the proof that on integers below [2^53]
    the arithmetic is exact, which is the convention of the files that use [Z] for them. *)
From S2P Require Import Prelude Js Schema Errors Prisma Auth.
From Stdlib Require Import SpecFloat.
Open Scope Z_scope.

Notation double := spec_float (only parsing).

Module Double.

Definition add : double → double → double := SFadd 53 1024.
Definition sub : double → double → double := SFsub 53 1024.
Definition mul : double → double → double := SFmul 53 1024.
Definition div : double → double → double := SFdiv 53 1024.
Definition sqrt : double → double := SFsqrt 53 1024.
Definition abs : double → double := SFabs.

(** [a < b], [a <= b], [a === b]: false when one of them is [NaN] *)
Definition ltb : double → double → bool := SFltb.
Definition leb : double → double → bool := SFleb.
Definition eqb : double → double → bool := SFeqb.

(** [Number.isFinite(x)] *)
Definition isFinite (x : double) : bool :=
  match x with S754_zero _ | S754_finite _ _ _ => true | _ => false end.

(** An integer literal, rounded *)
Definition of_Z (n : Z) : double := binary_normalize 53 1024 n 0 false.

(** The double nearest to a rational *)
Definition of_ratio (num : Z) (den : positive) : double :=
  match num with
  | Z0 => S754_zero false
  | Zpos m => div (S754_finite false m 0) (S754_finite false den 0)
  | Zneg m => div (S754_finite true m 0) (S754_finite false den 0)
  end.

Definition of_JsNumber (n : JsNumber) : double :=
  match n with
  | Finite num den => of_ratio num den
  | Infinity negative => S754_infinity negative
  | NaN => S754_nan
  end.

(** [Number(s)] *)
Definition of_string (s : string) : double := of_JsNumber (Number_of_string s).

(** The exact value of a finite double, as a fraction *)
Definition to_ratio (x : double) : option (Z * positive) :=
  match x with
  | S754_zero _ => Some (0, 1%positive)
  | S754_finite s m e =>
      let n := if s then Zneg m else Zpos m in
      Some (if 0 <=? e then (n * 2 ^ e, 1%positive) else (n, Z.to_pos (2 ^ (- e))))
  | _ => None
  end.

(** [Math.floor(x)] of a finite number *)
Definition floor (x : double) : double :=
  match to_ratio x with
  | Some (n, d) => if n =? 0 then x else of_Z (n / Zpos d)
  | None => x
  end.

(** [Math.round(x)]: the nearest integer, a half towards plus infinity *)
Definition round (x : double) : double :=
  match to_ratio x with
  | Some (n, d) => if n mod Zpos d =? 0 then x else of_Z (round_div n (Zpos d))
  | None => x
  end.

(** ** [String(x)]: the shortest decimal that reads back as the number *)

(** The integer [n] with [10^(n-1) <= num/den < 10^n], for positive [num] and [den] *)
Definition decimal_exponent (num den : Z) : Z :=
  if den <=? num then Z.of_nat (length (nat_digits (num / den)))
  else 1 - Z.of_nat (length (nat_digits (- ((- den) / num) - 1))).

(** [s * 10^k] rounded to a double *)
Definition scaled (s k : Z) : double :=
  if 0 <=? k then of_ratio (s * 10 ^ k) 1 else of_ratio s (Z.to_pos (10 ^ (- k))).

(** The digits [s] with the least number [k] of them such that [s * 10^(n-k)] is [x], the one
    closest to [x]; 17 digits always suffice. *)
Fixpoint shortest (fuel : nat) (x : double) (num den n k : Z) : Z * Z :=
  let p := n - k in
  let '(a, b) := if 0 <=? p then (num, den * 10 ^ p) else (num * 10 ^ (- p), den) in
  let lo := a / b in
  let near := if 2 * (a mod b) <? b then lo else lo + 1 in
  let far := if 2 * (a mod b) <? b then lo + 1 else lo in
  if eqb (scaled near p) x then (near, k)
  else if eqb (scaled far p) x then (far, k)
  else match fuel with
       | O => (near, k)
       | S fuel' => shortest fuel' x num den n (k + 1)
       end.

(** The layout of [Number::toString] for the digits [s], [k] of them, and the exponent [n] *)
Definition layout (s k n : Z) : string :=
  let digits := nat_digits s in
  let zeros (j : Z) := replicate (Z.to_nat j) (digit_char 0) in
  if (k <=? n) && (n <=? 21) then of_list (digits ++ zeros (n - k))
  else if (0 <? n) && (n <=? 21) then
    (of_list (take (Z.to_nat n) digits) +:+ "." +:+ of_list (drop (Z.to_nat n) digits))%string
  else if (-6 <? n) && (n <=? 0) then ("0." +:+ of_list (zeros (- n) ++ digits))%string
  else
    let e := n - 1 in
    let exponent := ("e" +:+ (if (0 <? e)%Z then "+" else "-") +:+ of_list (nat_digits (Z.abs e)))%string in
    match digits with
    | [c] => (str1 c +:+ exponent)%string
    | c :: rest => (str1 c +:+ "." +:+ of_list rest +:+ exponent)%string
    | [] => EmptyString
    end.

Definition to_string (x : double) : string :=
  match x with
  | S754_nan => "NaN"
  | S754_infinity s => if s then "-Infinity" else "Infinity"
  | S754_zero _ => "0"
  | S754_finite s _ _ =>
      match to_ratio (abs x) with
      | Some (num, den) =>
          let n := decimal_exponent num (Zpos den) in
          let '(d, k) := shortest 17 (abs x) num (Zpos den) n 1 in
          let text := if d =? 10 ^ k then layout 1 1 (n + 1) else layout d k n in
          if s then ("-" +:+ text)%string else text
      | None => "NaN"
      end
  end.

(** [x.toFixed(digits)] *)
Definition fixed_digits (digits : nat) (num den : Z) : string :=
  let n := (2 * num * 10 ^ Z.of_nat digits + den) / (2 * den) in
  match digits with
  | O => of_list (nat_digits n)
  | _ =>
      let m := padStart0 (S digits) (nat_digits n) in
      (of_list (take (length m - digits) m) +:+ "." +:+ of_list (drop (length m - digits) m))%string
  end.

Definition toFixed (digits : nat) (x : double) : string :=
  match to_ratio x with
  | Some (n, d) =>
      if 10 ^ 21 * Zpos d <=? Z.abs n then to_string x
      else if n <? 0 then ("-" +:+ fixed_digits digits (- n) (Zpos d))%string else fixed_digits digits n (Zpos d)
  | None => to_string x
  end.

Example toFixed_ex :
  map (λ s, toFixed 2 (of_string s)) ["1.005"; "10"; "-0.001"; "2.675"; "0.5"; "x"]%string
  = ["1.00"; "10.00"; "-0.00"; "2.67"; "0.50"; "NaN"]%string.
Proof. vm_compute. reflexivity. Qed.

Example to_string_ex :
  map (λ s, to_string (of_string s))
    ["0.1"; "1e21"; "1.5e-7"; "123456789.123"; "100"; "-0.30"; "5e-324"; "1e23"; "9007199254740993"; "0.000001"; "x"]%string
  = ["0.1"; "1e+21"; "1.5e-7"; "123456789.123"; "100"; "-0.3"; "5e-324"; "1e+23"; "9007199254740992"; "0.000001"; "NaN"]%string.
Proof. vm_compute. reflexivity. Qed.

Example arithmetic_ex :
  (to_string (add (of_string "0.1") (of_string "0.2")), to_string (div (of_Z 1) (of_Z 3)),
   to_string (sqrt (of_Z 2)), to_string (mul (of_string "1.1") (of_Z 3)), to_string (round (of_string "-2.5")))
  = ("0.30000000000000004", "0.3333333333333333", "1.4142135623730951", "3.3000000000000003", "-2")%string.
Proof. vm_compute. reflexivity. Qed.

(** [Number(v)]; an array is converted to a string first. *)
Definition of_value {TC : TokenCodec} (v : JsValue) : double :=
  match v with
  | JsUndefined | JsObject _ => S754_nan
  | JsNull => of_Z 0
  | JsBoolean b => of_Z (if b then 1 else 0)
  | JsString s => of_string s
  | JsArray _ => of_string (Principal.js_String v)
  | JsBigInt n => of_Z n
  | JsNum n => of_JsNumber n
  end.

(** ** Exactness on integers

    Finite doubles are multiples of [2^-1074]; [units m e] is the multiple that [m * 2^e] is. *)

Definition units (m e : Z) : Z := m * 2 ^ (e + 1074).

(** [fexp 53 1024] *)
Definition exponent_of (d : Z) : Z := Z.max (d - 53) (-1074).

Lemma digits2_log2 (m : positive) : Zpos (digits2_pos m) = Z.log2 (Zpos m) + 1.
Proof.
  induction m as [m IH|m IH|]; [| |done]; cbn [digits2_pos]; rewrite Pos2Z.inj_succ, IH.
  - change (Zpos m~1) with (2 * Zpos m + 1). rewrite Z.log2_succ_double by lia. lia.
  - change (Zpos m~0) with (2 * Zpos m). rewrite Z.log2_double by lia. lia.
Qed.

Lemma iter_pos_nat {A : Type} (f : A → A) (n : positive) (x : A) :
  iter_pos f n x = Nat.iter (Pos.to_nat n) f x.
Proof.
  revert x. induction n as [n IH|n IH|]; intros x; cbn [iter_pos]; rewrite ?IH; [| |done].
  - rewrite <- Nat.iter_add, Pos2Nat.inj_xI, <- Nat.iter_succ_r. f_equal. lia.
  - rewrite <- Nat.iter_add, Pos2Nat.inj_xO. f_equal. lia.
Qed.

Lemma shr_1_double (k : positive) :
  shr_1 {| shr_m := 2 * Zpos k; shr_r := false; shr_s := false |} = {| shr_m := Zpos k; shr_r := false; shr_s := false |}.
Proof. done. Qed.

(** Shifting out zeros is exact. *)
Lemma iter_shr_exact (n : nat) (k : positive) :
  Nat.iter n shr_1 {| shr_m := Zpos k * 2 ^ Z.of_nat n; shr_r := false; shr_s := false |}
  = {| shr_m := Zpos k; shr_r := false; shr_s := false |}.
Proof.
  revert k. induction n as [|n IH]; intros k; [cbn [Z.of_nat]; by rewrite Z.mul_1_r|].
  rewrite Nat.iter_succ_r, Nat2Z.inj_succ, Z.pow_succ_r by lia.
  assert (0 < 2 ^ Z.of_nat n) by (apply Z.pow_pos_nonneg; lia).
  destruct (Zpos k * 2 ^ Z.of_nat n) as [|p|p] eqn:Hp; [nia| |nia].
  replace (Zpos k * (2 * 2 ^ Z.of_nat n)) with (2 * Zpos p) by nia.
  rewrite shr_1_double, <- Hp. apply IH.
Qed.

Lemma shl_align_spec (m : positive) (e e' : Z) :
  let '(mz, ez) := shl_align m e e' in
  ez = Z.min e e' ∧ Zpos mz = Zpos m * 2 ^ (e - ez).
Proof.
  unfold shl_align. destruct (e' - e) as [|d|d] eqn:E; [split; [lia|]..|].
  1, 2: by rewrite Z.sub_diag, Z.mul_1_r.
  split; [lia|]. replace (e - e') with (Zpos d) by lia.
  assert (∀ d, Zpos (Pos.iter xO m d) = Zpos m * 2 ^ Zpos d) as Hiter; [|apply Hiter].
  clear d E. intros d. induction d as [|d IH] using Pos.peano_ind; [cbn; lia|].
  rewrite Pos.iter_succ, Pos2Z.inj_succ, Z.pow_succ_r by lia.
  change (Zpos (Pos.iter xO m d)~0) with (2 * Zpos (Pos.iter xO m d)). rewrite IH. lia.
Qed.

Lemma log2_mul_pow2' (m k : Z) : 0 < m → 0 <= k → Z.log2 (m * 2 ^ k) = Z.log2 m + k.
Proof. intros. rewrite Z.log2_mul_pow2 by lia. lia. Qed.

(** A number that is a multiple of the spacing of the doubles of its size is not rounded. *)
Lemma round_exact (s : bool) (m : positive) (e : Z) :
  let e' := exponent_of (Z.log2 (Zpos m) + 1 + e) in
  -1074 <= e → Z.log2 (Zpos m) + 1 + e <= 1024 → (2 ^ (e' + 1074) | units (Zpos m) e) →
  ∃ m', binary_round 53 1024 s m e = S754_finite s m' e' ∧ units (Zpos m') e' = units (Zpos m) e.
Proof.
  intros e' He Hmax [q Hq]. unfold binary_round.
  assert (∀ d, fexp 53 1024 d = exponent_of d) as Hfexp by (intros d; unfold fexp, emin, exponent_of; lia).
  rewrite Hfexp, digits2_log2. fold e'.
  assert (-1074 <= e' <= 971) as He' by (unfold e', exponent_of; lia).
  pose proof (shl_align_spec m e e') as Hshl. destruct (shl_align m e e') as [mz ez] eqn:Ealign. destruct Hshl as [Hez Hmz].
  assert (Hlog : Z.log2 (Zpos mz) + ez = Z.log2 (Zpos m) + e) by (rewrite Hmz, log2_mul_pow2' by lia; lia).
  assert (Hmz' : Zpos mz = q * 2 ^ (e' - ez)).
  { apply (Z.mul_reg_r _ _ (2 ^ (ez + 1074))); [apply Z.pow_nonzero; lia|].
    rewrite <- Z.mul_assoc, <- Z.pow_add_r by lia. replace (e' - ez + (ez + 1074)) with (e' + 1074) by lia.
    rewrite <- Hq, Hmz, <- Z.mul_assoc, <- Z.pow_add_r by lia. unfold units. f_equal. f_equal. lia. }
  assert (0 < 2 ^ (e' - ez)) by (apply Z.pow_pos_nonneg; lia).
  destruct q as [|q|q]; [nia| |nia]. exists q. split; [|unfold units at 1; by rewrite <- Hq].
  assert (Hshr : shr_fexp 53 1024 (Zpos mz) ez loc_Exact = ({| shr_m := Zpos q; shr_r := false; shr_s := false |}, e')).
  { unfold shr_fexp. cbn [Zdigits2 shr_record_of_loc]. rewrite digits2_log2, Hfexp.
    replace (exponent_of (Z.log2 (Zpos mz) + 1 + ez)) with e' by (unfold e'; f_equal; lia).
    destruct (e' - ez) as [|p|p] eqn:Ep; cbn [shr]; [|f_equal; [|lia]|lia].
    - rewrite Hmz'. do 2 f_equal; lia.
    - rewrite iter_pos_nat, Hmz', <- (positive_nat_Z p). apply iter_shr_exact. }
  assert (Hlog' : Z.log2 (Zpos q) + e' = Z.log2 (Zpos m) + e).
  { rewrite <- Hlog, Hmz', log2_mul_pow2' by lia. lia. }
  unfold binary_round_aux. rewrite Hshr. cbn [shr_m loc_of_shr_record round_nearest_even].
  unfold shr_fexp. cbn [Zdigits2 shr_record_of_loc]. rewrite digits2_log2, Hfexp.
  replace (exponent_of (Z.log2 (Zpos q) + 1 + e')) with e' by (unfold e' at 1; f_equal; lia).
  rewrite Z.sub_diag. cbn [shr shr_m]. by rewrite (proj2 (Z.leb_le _ _)) by lia.
Qed.

(** An integer below [2^53], given with [k] zeros after the binary point *)
Lemma round_integer (s : bool) (n m : positive) (k : Z) :
  0 <= k <= 1074 → Zpos m = Zpos n * 2 ^ k → Zpos n < 2 ^ 53 →
  ∃ m', binary_round 53 1024 s m (- k) = S754_finite s m' (exponent_of (Z.log2 (Zpos n) + 1)) ∧
        units (Zpos m') (exponent_of (Z.log2 (Zpos n) + 1)) = Zpos n * 2 ^ 1074.
Proof.
  intros Hk Hm Hn. assert (Hlog : Z.log2 (Zpos n) < 53) by (apply Z.log2_lt_pow2; lia).
  pose proof (Z.log2_nonneg (Zpos n)).
  assert (Hu : units (Zpos m) (- k) = Zpos n * 2 ^ 1074).
  { unfold units. rewrite Hm, <- Z.mul_assoc, <- Z.pow_add_r by lia. do 2 f_equal. lia. }
  pose proof (round_exact s m (- k)) as Hex. rewrite Hu, Hm, log2_mul_pow2' in Hex by lia.
  replace (Z.log2 (Zpos n) + k + 1 + - k) with (Z.log2 (Zpos n) + 1) in Hex by lia.
  destruct Hex as (m' & Hr & Hu'); [lia..| |by exists m'].
  exists (Zpos n * 2 ^ (1074 - (exponent_of (Z.log2 (Zpos n) + 1) + 1074))).
  rewrite <- Z.mul_assoc, <- Z.pow_add_r by (unfold exponent_of; lia). do 2 f_equal. lia.
Qed.

Lemma units_inj (m m' : positive) (e : Z) : units (Zpos m) e = units (Zpos m') e → -1074 <= e → m = m'.
Proof. unfold units. intros H He. apply Z.mul_reg_r in H; [by injection H|]. apply Z.pow_nonzero; lia. Qed.

(** What an integer below [2^53] is as a double *)
Lemma of_Z_finite (n : positive) : Zpos n < 2 ^ 53 →
  ∃ m, let e := exponent_of (Z.log2 (Zpos n) + 1) in
    of_Z (Zpos n) = S754_finite false m e ∧ of_Z (Zneg n) = S754_finite true m e ∧
    units (Zpos m) e = Zpos n * 2 ^ 1074.
Proof.
  intros Hn. destruct (round_integer false n n 0) as (m & Hr & Hu); [lia|by rewrite Z.mul_1_r|done|].
  destruct (round_integer true n n 0) as (m' & Hr' & Hu'); [lia|by rewrite Z.mul_1_r|done|].
  assert (m = m') as <-. { eapply units_inj; [by rewrite Hu, Hu'|unfold exponent_of; lia]. }
  exists m. cbn zeta. by split_and!.
Qed.

Lemma normalize_integer (n k : Z) : 0 <= k <= 1074 → Z.abs n < 2 ^ 53 →
  binary_normalize 53 1024 (n * 2 ^ k) (- k) false = of_Z n.
Proof.
  intros Hk Hn. assert (0 < 2 ^ k) by (apply Z.pow_pos_nonneg; lia).
  destruct n as [|n|n]; [done|..]; (destruct (of_Z_finite n) as (m & Hp & Hng & Hu); [done|]); cbn [Z.abs] in Hn.
  - destruct (Zpos n * 2 ^ k) as [|p|p] eqn:Hm; [nia| |nia]. cbn [binary_normalize].
    destruct (round_integer false n p k) as (m' & -> & Hu'); [done..|]. rewrite Hp. f_equal.
    eapply units_inj; [by rewrite Hu, Hu'|unfold exponent_of; lia].
  - destruct (Zneg n * 2 ^ k) as [|p|p] eqn:Hm; [nia|nia|]. cbn [binary_normalize].
    destruct (round_integer true n p k) as (m' & -> & Hu'); [done|lia|done|]. rewrite Hng. f_equal.
    eapply units_inj; [by rewrite Hu, Hu'|unfold exponent_of; lia].
Qed.

Definition safe (n : Z) : Prop := Z.abs n < 2 ^ 53.

(** Signed mantissas aligned to a common exponent *)
Lemma aligned_integer (s : bool) (n m : positive) (e ez : Z) :
  e = exponent_of (Z.log2 (Zpos n) + 1) → units (Zpos m) e = Zpos n * 2 ^ 1074 → -1074 <= ez <= Z.min e 0 →
  cond_Zopp s (Zpos (fst (shl_align m e ez))) = (if s then Zneg n else Zpos n) * 2 ^ (- ez).
Proof.
  intros He Hu Hez. pose proof (shl_align_spec m e ez) as H. destruct (shl_align m e ez) as [mz e1]. cbn [fst].
  destruct H as [-> Hmz]. rewrite Z.min_r in Hmz by lia.
  assert (Hv : Zpos mz = Zpos n * 2 ^ (- ez)).
  { apply (Z.mul_reg_r _ _ (2 ^ (ez + 1074))); [apply Z.pow_nonzero; lia|].
    rewrite Hmz, <- !Z.mul_assoc, <- !Z.pow_add_r by lia.
    replace (e - ez + (ez + 1074)) with (e + 1074) by lia. replace (- ez + (ez + 1074)) with 1074 by lia. exact Hu. }
  destruct s; cbn [cond_Zopp]; rewrite Hv; [|done]. change (Zneg n) with (- Zpos n). lia.
Qed.

Lemma exponent_nonpos (n : positive) : Zpos n < 2 ^ 53 → -1074 <= exponent_of (Z.log2 (Zpos n) + 1) <= 0.
Proof. intros. assert (Z.log2 (Zpos n) < 53) by (apply Z.log2_lt_pow2; lia). unfold exponent_of. lia. Qed.

Ltac integer_double n H :=
  let m := fresh "m" in let Hp := fresh "Hp" in let Hn := fresh "Hn" in let Hu := fresh "Hu" in
  pose proof (exponent_nonpos n H); destruct (of_Z_finite n H) as (m & Hp & Hn & Hu); rewrite ?Hp, ?Hn.

Ltac align_integers :=
  repeat match goal with
  | Hu : units (Zpos ?m) _ = Zpos ?n * _ |- context [shl_align ?m ?e ?ez] =>
      rewrite (aligned_integer _ n m e ez) by (done || lia)
  end.

Lemma add_integers (a b : Z) : safe a → safe b → safe (a + b) → add (of_Z a) (of_Z b) = of_Z (a + b).
Proof.
  unfold safe, add. intros Ha Hb Hab.
  destruct a as [|a|a]; cbn [Z.abs] in Ha; [destruct b as [|b|b]; cbn [Z.abs] in Hb; [done|integer_double b Hb; by rewrite ?Hp, ?Hn..]|..].
  all: integer_double a Ha; destruct b as [|b|b]; cbn [Z.abs] in Hb;
    [rewrite Z.add_0_r, ?Hp, ?Hn; done|..]; integer_double b Hb; cbn [SFadd];
    align_integers; rewrite <- Z.mul_add_distr_r;
    match goal with |- binary_normalize _ _ (_ * 2 ^ (- ?ez)) _ _ = _ =>
      rewrite <- (Z.opp_involutive ez) at 2; apply normalize_integer; [lia|done] end.
Qed.

Lemma sub_integers (a b : Z) : safe a → safe b → safe (a - b) → sub (of_Z a) (of_Z b) = of_Z (a - b).
Proof.
  unfold safe, sub. intros Ha Hb Hab.
  destruct a as [|a|a]; cbn [Z.abs] in Ha; [destruct b as [|b|b]; cbn [Z.abs] in Hb; [done|integer_double b Hb; cbn; by rewrite ?Hp, ?Hn..]|..].
  all: integer_double a Ha; destruct b as [|b|b]; cbn [Z.abs] in Hb;
    [rewrite Z.sub_0_r, ?Hp, ?Hn; done|..]; integer_double b Hb; cbn [SFsub];
    align_integers; rewrite <- Z.mul_sub_distr_r;
    match goal with |- binary_normalize _ _ (_ * 2 ^ (- ?ez)) _ _ = _ =>
      rewrite <- (Z.opp_involutive ez) at 2; apply normalize_integer; [lia|done] end.
Qed.

Lemma compare_positive (a b m k : positive) :
  Zpos a < 2 ^ 53 → Zpos b < 2 ^ 53 →
  let ea := exponent_of (Z.log2 (Zpos a) + 1) in let eb := exponent_of (Z.log2 (Zpos b) + 1) in
  units (Zpos m) ea = Zpos a * 2 ^ 1074 → units (Zpos k) eb = Zpos b * 2 ^ 1074 →
  match ea ?= eb with Eq => Pos.compare_cont Eq m k | c => c end = (a ?= b)%positive.
Proof.
  intros Ha Hb ea eb Hm Hk.
  pose proof (Z.log2_nonneg (Zpos a)). pose proof (Z.log2_nonneg (Zpos b)).
  assert (Hea : ea = Z.log2 (Zpos a) - 52) by (unfold ea, exponent_of; lia).
  assert (Heb : eb = Z.log2 (Zpos b) - 52) by (unfold eb, exponent_of; lia).
  destruct (Z.compare_spec ea eb) as [He|He|He].
  - rewrite He in Hm. change (Pos.compare_cont Eq m k) with (m ?= k)%positive.
    change ((Zpos m ?= Zpos k) = (Zpos a ?= Zpos b)).
    rewrite (Zmult_compare_compat_r (Zpos m) (Zpos k) (2 ^ (eb + 1074))) by (apply Z.lt_gt, Z.pow_pos_nonneg; lia).
    unfold units in Hm, Hk. rewrite Hm, Hk. symmetry. apply Zmult_compare_compat_r. done.
  - symmetry. change ((Zpos a ?= Zpos b) = Lt). apply Z.compare_lt_iff, Z.log2_lt_cancel. lia.
  - symmetry. change ((Zpos a ?= Zpos b) = Gt). apply Z.compare_gt_iff, Z.log2_lt_cancel. lia.
Qed.

Lemma compare_integers (a b : Z) : safe a → safe b → SFcompare (of_Z a) (of_Z b) = Some (a ?= b).
Proof.
  unfold safe. intros Ha Hb.
  destruct a as [|a|a]; cbn [Z.abs] in Ha; [destruct b as [|b|b]; cbn [Z.abs] in Hb; [done|integer_double b Hb; by rewrite ?Hp, ?Hn..]|..].
  all: integer_double a Ha; destruct b as [|b|b]; cbn [Z.abs] in Hb; [done|..]; integer_double b Hb; cbn [SFcompare]; try done.
  - f_equal. change (Zpos a ?= Zpos b) with (a ?= b)%positive. rewrite <- (compare_positive a b _ _ Ha Hb Hu Hu0). by destruct (_ ?= _).
  - f_equal. change (Zneg a ?= Zneg b) with (CompOpp (a ?= b)%positive). rewrite <- (compare_positive a b _ _ Ha Hb Hu Hu0).
    by destruct (_ ?= _).
Qed.

Lemma ltb_integers (a b : Z) : safe a → safe b → ltb (of_Z a) (of_Z b) = (a <? b).
Proof. intros. unfold ltb, SFltb. rewrite compare_integers by done. unfold Z.ltb. by destruct (a ?= b). Qed.

Lemma leb_integers (a b : Z) : safe a → safe b → leb (of_Z a) (of_Z b) = (a <=? b).
Proof. intros. unfold leb, SFleb. rewrite compare_integers by done. unfold Z.leb. by destruct (a ?= b). Qed.

Lemma isFinite_integer (n : Z) : safe n → isFinite (of_Z n) = true.
Proof. unfold safe. intros Hn. destruct n as [|n|n]; cbn [Z.abs] in Hn; [done|integer_double n Hn; done..]. Qed.
End Double.
