(* ===== verification/Vault.v ===== *)
(** * Secrets from Vault ([config/vault/vault.service.ts], [vault.types.ts]) and the life cycle of
    the database client ([prisma/prisma.service.ts])

    The service that logs in to HashiCorp Vault, loads the four groups of secrets and refreshes
    the database credentials, and the [PrismaService.Connection] that it gives to the
    credential-rotation retry.  HTTP, URLs, JSON and the Prisma client are parameters. *)
From S2P Require Import Prelude Js Schema Errors Prisma Retry PrismaService Auth.
Open Scope Z_scope.

(** ** The platform *)

Record URL := mkURL {
  url_protocol : string; url_hostname : string; url_port : string; url_pathname : string; url_search : string }.

(** [process.env] and [new URL(path, base)] *)
Class VaultPlatform := {
  process_env : string → option string;
  new_URL : string → string → outcome exn URL }.

Inductive Method := GET | POST.

Definition method_name (m : Method) : string := match m with GET => "GET" | POST => "POST" end.

(** [http.RequestOptions]; the port is a string of the URL or a default number. *)
Record RequestOptions := mkRequestOptions {
  rq_https : bool;
  rq_hostname : string;
  rq_port : string + Z;
  rq_path : string;
  rq_method : Method;
  rq_token : string;
  rq_contentLength : option Z }.

(** How a request ends: a whole response, or the [error] event. *)
Inductive HttpEvent :=
| ResponseEnd (statusCode : option Z) (raw : string)
| RequestError (msg : string).

(** [transport.request(options)] with the payload written to it.  It may also throw at once, on a
    header value that is not allowed for instance. *)
Class VaultHttp (W : Type) := { request : RequestOptions → option string → M exn W HttpEvent }.

(** [Buffer.byteLength(s)] of a string of characters below 256 *)
Definition byteLength (s : string) : Z :=
  sum_Z (λ c, if code c <? 128 then 1 else 2) (to_list s).

(** ** The state of the service *)

(** The secrets are what the JSON of Vault contains: nothing checks them against the interfaces. *)
Record AppSecrets := mkAppSecrets {
  sec_database : JsValue; sec_auth : JsValue; sec_smtp : JsValue; sec_stellar : JsValue }.

Record VaultState := mkVaultState {
  vaultAddr : string;
  clientToken : JsValue;
  secrets : option AppSecrets }.

Definition set_clientToken (v : JsValue) (st : VaultState) : VaultState :=
  mkVaultState (vaultAddr st) v (secrets st).

Definition set_secrets (s : AppSecrets) (st : VaultState) : VaultState :=
  mkVaultState (vaultAddr st) (clientToken st) (Some s).

Definition set_database (v : JsValue) (s : AppSecrets) : AppSecrets :=
  mkAppSecrets v (sec_auth s) (sec_smtp s) (sec_stellar s).

Module VaultService.
Section vault.
Context {W : Type} {TC : TokenCodec} {VP : VaultPlatform} {VH : VaultHttp W}.
Notation VM := (M exn (VaultState * W)).

(** ** Helpers *)

Definition requireSecrets (st : VaultState) : outcome exn AppSecrets :=
  match secrets st with
  | None => Throw (JsError "VaultService: secrets have not been loaded yet. Ensure VaultModule is initialized before accessing secrets.")
  | Some s => Ret s
  end.

Definition requireEnv (key : string) : outcome exn string :=
  let value := default EmptyString (process_env key) in
  if negb (truthy value)
  then Throw (JsError ("Missing required environment variable: " +:+ key +:+ ". Set it in your .env file or container environment.")%string)
  else Ret value.

(** [new VaultService()] *)
Definition constructor : outcome exn VaultState :=
  match requireEnv "VAULT_ADDR" with
  | Ret addr => Ret (mkVaultState addr JsNull None)
  | Throw e => Throw e
  end.

(** ** HTTP transport *)

Definition label (method : Method) (path : string) : string :=
  (" [" +:+ method_name method +:+ " " +:+ path +:+ "]: ")%string.

(** [this.clientToken ?? ''], as the text of a header *)
Definition token_header (st : VaultState) : string :=
  match clientToken st with JsUndefined | JsNull => EmptyString | v => Principal.js_String v end.

Definition request_options (st : VaultState) (method : Method) (url : URL) (payload : option string) : RequestOptions :=
  let isHttps := String.eqb (url_protocol url) "https:" in
  {| rq_https := isHttps;
     rq_hostname := url_hostname url;
     rq_port := if truthy (url_port url) then inl (url_port url) else inr (if isHttps then 443 else 80);
     rq_path := (url_pathname url +:+ url_search url)%string;
     rq_method := method;
     rq_token := token_header st;
     rq_contentLength := byteLength <$> payload |}.

(** The [end] and [error] handlers *)
Definition settle (method : Method) (path : string) (ev : HttpEvent) : outcome exn JsValue :=
  match ev with
  | RequestError msg => Throw (JsError ("Vault connection error" +:+ label method path +:+ msg)%string)
  | ResponseEnd statusCode raw =>
      let statusCode := default 0 statusCode in
      if (statusCode <? 200) || (300 <=? statusCode)
      then Throw (JsError ("Vault request failed" +:+ label method path +:+ "HTTP " +:+ Z_to_string statusCode +:+ " — " +:+ raw)%string)
      else match JSON_parse raw with
           | Ret v => Ret v
           | Throw _ => Throw (JsError ("Vault response parse error" +:+ label method path +:+ raw)%string)
           end
  end.

Definition vaultRequest (method : Method) (path : string) (body : option JsValue) : VM JsValue := λ '(st, w),
  match new_URL path (vaultAddr st) with
  | Throw e => (Throw e, (st, w))
  | Ret url =>
      let payload := JSON_stringify <$> body in
      match request (request_options st method url payload) payload w with
      | (Ret ev, w') => (settle method path ev, (st, w'))
      | (Throw e, w') => (Throw e, (st, w'))
      end
  end.

(** Reading a property of a value, and reading and writing [this], in the monad *)
Definition get_m (v : JsValue) (key : string) : VM JsValue := λ s, (Principal.get v key, s).
Definition of_this {A : Type} (f : VaultState → outcome exn A) : VM A := λ '(st, w), (f st, (st, w)).
Definition set_this (f : VaultState → VaultState) : VM unit := λ '(st, w), (Ret tt, (f st, w)).

(** ** Authentication *)

Definition authenticateWithAppRole (roleId secretId : string) : VM unit :=
  response ← vaultRequest POST "/v1/auth/approle/login"
               (Some (JsObject [("role_id", JsString roleId); ("secret_id", JsString secretId)]));
  auth ← get_m response "auth";
  token ← get_m auth "client_token";
  set_this (set_clientToken token).

Definition authenticateWithToken : VM unit :=
  let token := default EmptyString (process_env "VAULT_TOKEN") in
  if negb (truthy token)
  then throw (JsError "Vault authentication failed: neither AppRole (VAULT_ROLE_ID + VAULT_SECRET_ID) nor a root token (VAULT_TOKEN) is configured.")
  else set_this (set_clientToken (JsString token)).

Definition authenticate : VM unit :=
  let roleId := default EmptyString (process_env "VAULT_ROLE_ID") in
  let secretId := default EmptyString (process_env "VAULT_SECRET_ID") in
  if truthy roleId && truthy secretId then authenticateWithAppRole roleId secretId else authenticateWithToken.

(** ** Secret loading *)

Definition readSecret (path : string) : VM JsValue :=
  response ← vaultRequest GET ("/v1/" +:+ path)%string None;
  data ← get_m response "data";
  get_m data "data".

Definition database_path : string := "secret/data/invoicefi/database".
Definition auth_path : string := "secret/data/invoicefi/auth".
Definition smtp_path : string := "secret/data/invoicefi/smtp".
Definition stellar_path : string := "secret/data/invoicefi/stellar".

Definition loadAllSecrets : VM AppSecrets :=
  l ← promise_all_values (map readSecret [database_path; auth_path; smtp_path; stellar_path]);
  match l with
  | [database; auth; smtp; stellar] => mret (mkAppSecrets database auth smtp stellar)
  | _ => throw (TypeError "undefined is not iterable")
  end.

(** ** Life cycle and accessors *)

Definition onApplicationBootstrap : VM unit :=
  authenticate ≫= λ _,
  s ← loadAllSecrets;
  set_this (set_secrets s).

Definition accessor (field : AppSecrets → JsValue) (st : VaultState) : outcome exn JsValue :=
  match requireSecrets st with Ret s => Ret (field s) | Throw e => Throw e end.

Definition database : VaultState → outcome exn JsValue := accessor sec_database.
Definition auth : VaultState → outcome exn JsValue := accessor sec_auth.
Definition smtp : VaultState → outcome exn JsValue := accessor sec_smtp.
Definition stellar : VaultState → outcome exn JsValue := accessor sec_stellar.

Definition refreshDatabaseSecrets : VM JsValue :=
  db ← readSecret database_path;
  s ← of_this requireSecrets;
  set_this (set_secrets (set_database db s)) ≫= λ _,
  mret db.

(** ** Specification

    [answers st path w v w']: from [w], Vault answers the request for [path] of a service in the
    state [st] with a success, and with the JSON of a secret [v]. *)
Definition answers (st : VaultState) (path : string) (w : W) (v : JsValue) (w' : W) : Prop :=
  ∃ url status raw json data,
    new_URL ("/v1/" +:+ path) (vaultAddr st) = Ret url ∧
    request (request_options st GET url None) None w = (Ret (ResponseEnd (Some status) raw), w') ∧
    200 <= status < 300 ∧ JSON_parse raw = Ret json ∧
    Principal.get json "data" = Ret data ∧ Principal.get data "data" = Ret v.

Lemma settle_Ret (method : Method) (path : string) (ev : HttpEvent) (v : JsValue) :
  settle method path ev = Ret v ↔
  ∃ status raw, ev = ResponseEnd (Some status) raw ∧ 200 <= status < 300 ∧ JSON_parse raw = Ret v.
Proof.
  split.
  - destruct ev as [status raw|]; [|done]. cbn. destruct (_ || _) eqn:E; [done|]. bool_to_prop.
    destruct status as [status|]; cbn in *; [|lia]. destruct (JSON_parse raw) eqn:Hj; [|done].
    intros [= ->]. exists status, raw. split; [done|]. split; [lia|done].
  - intros (status & raw & -> & Hs & Hj). cbn.
    rewrite (proj2 (Z.ltb_ge _ _)), (proj2 (Z.leb_gt _ _)) by lia. cbn. by rewrite Hj.
Qed.

(** A request leaves the service as it is. *)
Lemma vaultRequest_this (method : Method) (path : string) (body : option JsValue) (st : VaultState) (w : W) :
  (vaultRequest method path body (st, w)).2.1 = st.
Proof.
  unfold vaultRequest. destruct (new_URL _ _); [|done]. by destruct (request _ _ w) as [[] ?].
Qed.

Lemma readSecret_this (path : string) (st : VaultState) (w : W) : (readSecret path (st, w)).2.1 = st.
Proof.
  unfold readSecret, mbind, M_bind. pose proof (vaultRequest_this GET ("/v1/" +:+ path) None st w) as H.
  destruct (vaultRequest _ _ _ _) as [[v|e] [st1 w1]]; cbn in *; subst; [|done].
  by destruct (Principal.get v "data").
Qed.

Lemma readSecret_Ret (path : string) (st st' : VaultState) (w w' : W) (v : JsValue) :
  readSecret path (st, w) = (Ret v, (st', w')) ↔ st' = st ∧ answers st path w v w'.
Proof.
  unfold readSecret, answers, vaultRequest, mbind, M_bind, get_m. split.
  - intros H. destruct (new_URL _ _) as [url|]; [|done]. cbn [fmap option_fmap option_map] in H.
    destruct (request _ None w) as [[ev|] w1] eqn:Hr; [|done].
    destruct (settle _ _ ev) as [json|] eqn:Hs; [|done].
    apply settle_Ret in Hs as (status & raw & -> & ? & ?).
    destruct (Principal.get json "data") as [data|] eqn:Hd; [|done].
    injection H as H <- <-. split; [done|]. by exists url, status, raw, json, data.
  - intros (-> & url & status & raw & json & data & -> & Hr & ? & ? & Hd & Hv). cbn [fmap option_fmap option_map].
    rewrite Hr. rewrite (proj2 (settle_Ret _ _ _ json)); [|by exists status, raw]. by rewrite Hd, Hv.
Qed.

(** Nothing but [clientToken] is changed by logging in. *)
Lemma authenticate_this (st : VaultState) (w : W) :
  let st' := (authenticate (st, w)).2.1 in vaultAddr st' = vaultAddr st ∧ secrets st' = secrets st.
Proof.
  unfold authenticate. destruct (_ && _).
  - unfold authenticateWithAppRole, mbind, M_bind, get_m.
    pose proof (vaultRequest_this POST "/v1/auth/approle/login"
      (Some (JsObject [("role_id", JsString (default EmptyString (process_env "VAULT_ROLE_ID")));
                       ("secret_id", JsString (default EmptyString (process_env "VAULT_SECRET_ID")))])) st w) as H.
    destruct (vaultRequest _ _ _ _) as [[v|e] [st1 w1]]; cbn in *; subst; [|done].
    destruct (Principal.get v "auth") as [a|]; [|done]. by destruct (Principal.get a "client_token").
  - unfold authenticateWithToken. by destruct (negb _).
Qed.

(** The four secrets are read one after the other with the same token; a failed one fails all. *)
Lemma loadAllSecrets_outcome (st st' : VaultState) (w w' : W) (r : outcome exn AppSecrets) :
  loadAllSecrets (st, w) = (r, (st', w')) →
  st' = st ∧
  match r with
  | Ret s => ∃ w1 w2 w3, answers st database_path w (sec_database s) w1 ∧ answers st auth_path w1 (sec_auth s) w2 ∧
      answers st smtp_path w2 (sec_smtp s) w3 ∧ answers st stellar_path w3 (sec_stellar s) w'
  | Throw _ => True
  end.
Proof.
  unfold loadAllSecrets, mbind, M_bind. cbn [map promise_all_values].
  pose proof (λ path w, readSecret_this path st w) as Hthis.
  destruct (readSecret database_path (st, w)) as [r1 [st1 w1]] eqn:E1.
  pose proof (Hthis database_path w) as H1. rewrite E1 in H1. cbn in H1. subst st1.
  destruct (readSecret auth_path (st, w1)) as [r2 [st2 w2]] eqn:E2.
  pose proof (Hthis auth_path w1) as H2. rewrite E2 in H2. cbn in H2. subst st2.
  destruct (readSecret smtp_path (st, w2)) as [r3 [st3 w3]] eqn:E3.
  pose proof (Hthis smtp_path w2) as H3. rewrite E3 in H3. cbn in H3. subst st3.
  destruct (readSecret stellar_path (st, w3)) as [r4 [st4 w4]] eqn:E4.
  pose proof (Hthis stellar_path w3) as H4. rewrite E4 in H4. cbn in H4. subst st4.
  intros H.
  destruct r1 as [d|], r2 as [a|], r3 as [s|], r4 as [t|]; cbn in H; rewrite ?E2 in H; cbn in H;
    rewrite ?E3 in H; cbn in H; rewrite ?E4 in H; cbn in H; injection H as <- <- <-; split; try done.
  apply readSecret_Ret in E1 as [_ ?], E2 as [_ ?], E3 as [_ ?], E4 as [_ ?]. by exists w1, w2, w3.
Qed.

(** The bootstrap of the Vault service either returns, and then the
    service has logged in and holds exactly the four secrets that Vault answered, each with a
    success status, to requests with the token of that login; or it throws, and then the service
    has no more secrets than before. *)
Theorem bootstrap_all_or_nothing (st st' : VaultState) (w w' : W) (r : outcome exn unit) :
  onApplicationBootstrap (st, w) = (r, (st', w')) →
  vaultAddr st' = vaultAddr st ∧
  match r with
  | Ret _ => ∃ s w0 w1 w2 w3,
      authenticate (st, w) = (Ret tt, (set_clientToken (clientToken st') st, w0)) ∧
      answers st' database_path w0 (sec_database s) w1 ∧ answers st' auth_path w1 (sec_auth s) w2 ∧
      answers st' smtp_path w2 (sec_smtp s) w3 ∧ answers st' stellar_path w3 (sec_stellar s) w' ∧
      secrets st' = Some s
  | Throw _ => secrets st' = secrets st
  end.
Proof.
  unfold onApplicationBootstrap, mbind, M_bind. pose proof (authenticate_this st w) as Hauth.
  destruct (authenticate (st, w)) as [[[]|e] [st1 w0]]; cbn in Hauth; destruct Hauth as [Haddr Hsec];
    [|by intros [= <- <- <-]].
  destruct (loadAllSecrets (st1, w0)) as [[s|e] [st2 w5]] eqn:Hload;
    apply loadAllSecrets_outcome in Hload as [-> Hans]; cbn; intros [= <- <- <-]; [|done].
  split; [done|]. destruct Hans as (w1 & w2 & w3 & ?). exists s, w0, w1, w2, w3. split; [|tauto].
  unfold set_clientToken. rewrite <- Haddr, <- Hsec. by destruct st1.
Qed.

(** A refresh replaces the database secret by Vault's answer and nothing else. *)
Lemma refresh_outcome (st st' : VaultState) (w w' : W) (r : outcome exn JsValue) :
  refreshDatabaseSecrets (st, w) = (r, (st', w')) →
  match r with
  | Ret v => answers st database_path w v w' ∧ ∃ s, secrets st = Some s ∧ st' = set_secrets (set_database v s) st
  | Throw _ => st' = st
  end.
Proof.
  unfold refreshDatabaseSecrets, mbind, M_bind. pose proof (readSecret_this database_path st w) as Hthis.
  destruct (readSecret _ _) as [[v|e] [st1 w1]] eqn:E; cbn in Hthis; subst st1; [|by intros [= <- <- <-]].
  apply readSecret_Ret in E as [_ E]. unfold of_this, requireSecrets.
  destruct (secrets st) as [s|]; cbn; intros [= <- <- <-]; [|done]. eauto.
Qed.

Lemma refresh_Ret (st : VaultState) (w w' : W) (v : JsValue) (s : AppSecrets) :
  answers st database_path w v w' → secrets st = Some s →
  refreshDatabaseSecrets (st, w) = (Ret v, (set_secrets (set_database v s) st, w')).
Proof.
  intros Ha Hs. unfold refreshDatabaseSecrets, mbind, M_bind.
  rewrite (proj2 (readSecret_Ret _ _ st _ w' v)) by done. unfold of_this, requireSecrets. by rewrite Hs.
Qed.
End vault.
End VaultService.

(** ** [prisma/prisma.service.ts] on top of the Vault service *)

(** [new PrismaClient({ datasources: { db: { url } } })] and its connection *)
Class PgClient (W : Type) := {
  Pg : Type;
  pg_new : string → Pg;
  pg_connect : Pg → M exn W unit;
  pg_disconnect : Pg → M exn W unit }.

(** The state of both services, and the world. *)
Notation App W := (VaultState * (Pg (W:=W) * W))%type (only parsing).

Module Database.
Section database.
Context {W : Type} {TC : TokenCodec} {VP : VaultPlatform} {VH : VaultHttp W} {PG : PgClient W} {TM : Timer W}.

#[export] Instance http_of_pair {S : Type} : VaultHttp (S * W) :=
  {| request := λ options payload, on_world (request options payload) |}.

#[export] Instance app_timer : Timer (App W) := {| sleep := λ ms '(st, (c, w)), (st, (c, sleep ms w)) |}.

(** The fields that [buildClient] reads, as the text that its template strings give them. *)
Definition connection_fields (db : JsValue) : outcome exn PrismaService.DatabaseSecrets :=
  match Principal.get db "username" with
  | Throw e => Throw e
  | Ret username =>
      Ret {| PrismaService.username := Principal.js_String username;
             PrismaService.password := Principal.js_String (Principal.get_field db "password");
             PrismaService.host := Principal.js_String (Principal.get_field db "host");
             PrismaService.port := Principal.js_String (Principal.get_field db "port");
             PrismaService.database := Principal.js_String (Principal.get_field db "database") |}
  end.

#[export] Instance connection : PrismaService.Connection (App W) := {|
  PrismaService.Client := Pg;
  PrismaService.client := λ s, s.2.1;
  PrismaService.set_client := λ c '(st, (_, w)), (st, (c, w));
  PrismaService.new_client := pg_new;
  PrismaService.connect := λ c, on_world (on_world (pg_connect c));
  PrismaService.disconnect := λ c, on_world (on_world (pg_disconnect c));
  PrismaService.vault_database := λ s,
    match VaultService.database s.1 with Ret db => connection_fields db | Throw e => Throw e end;
  PrismaService.refreshDatabaseSecrets := VaultService.refreshDatabaseSecrets ≫= λ _, mret tt |}.

(** [new PrismaService(vault)]: the constructor builds the client. *)
Definition constructor (st : VaultState) : outcome exn Pg :=
  match VaultService.database st with
  | Throw e => Throw e
  | Ret db => match connection_fields db with
              | Ret s => Ret (pg_new (PrismaService.client_url s))
              | Throw e => Throw e
              end
  end.

Definition onModuleInit : M exn (App W) unit := λ s, PrismaService.connect (PrismaService.client s) s.
Definition onModuleDestroy : M exn (App W) unit := λ s, PrismaService.disconnect (PrismaService.client s) s.

(** The order in which NestJS runs the life cycle: every constructor, then every [onModuleInit],
    then every [onApplicationBootstrap]. *)
Definition start : M exn W (VaultState * Pg (W:=W)) := λ w,
  match VaultService.constructor with
  | Throw e => (Throw e, w)
  | Ret st =>
      match constructor st with
      | Throw e => (Throw e, w)
      | Ret c =>
          match onModuleInit (st, (c, w)) with
          | (Throw e, (_, (_, w'))) => (Throw e, w')
          | (Ret _, (st1, (c1, w'))) =>
              match VaultService.onApplicationBootstrap (st1, (c1, w')) with
              | (Throw e, (_, (_, w''))) => (Throw e, w'')
              | (Ret _, (st2, (c2, w''))) => (Ret (st2, c2), w'')
              end
          end
      end
  end.

(** The constructor of PrismaService reads the database secrets, which the Vault
    service loads in a later phase of the start-up: whatever the environment, Vault and the database
    answer, the start-up of the two services throws before anything has been sent. *)
Theorem start_fails (w : W) : ∃ msg, start w = (Throw (JsError msg), w).
Proof.
  unfold start, VaultService.constructor, VaultService.requireEnv. destruct (negb _); [by eexists|].
  cbn. by eexists.
Qed.

Lemma answers_lift (st : VaultState) (path : string) (c : Pg) (w w' : W) (v : JsValue) :
  VaultService.answers st path w v w' → VaultService.answers (W:=Pg * W) st path (c, w) v (c, w').
Proof.
  intros (url & status & raw & json & data & ? & Hr & ?). exists url, status, raw, json, data.
  split; [done|]. split; [|done]. cbn. by rewrite Hr.
Qed.

(** A reconnection uses the credentials that Vault answers at that time. *)
Lemma reconnect_fresh (st : VaultState) (s : AppSecrets) (c : Pg) (w w1 w2 : W) (v : JsValue) (creds : PrismaService.DatabaseSecrets) (u : unit) :
  secrets st = Some s → VaultService.answers st VaultService.database_path (pg_disconnect c w).2 v w1 →
  connection_fields v = Ret creds →
  let c' := pg_new (PrismaService.client_url creds) in
  pg_connect c' w1 = (Ret u, w2) →
  PrismaService.reconnectWithNewCredentials (st, (c, w)) = (Ret tt, (set_secrets (set_database v s) st, (c', w2))).
Proof.
  intros Hs Hans Hc c' Hconn. destruct u.
  assert (∀ wd, wd = (pg_disconnect c w).2 →
    PrismaService.refreshDatabaseSecrets (st, (c, wd)) = (Ret tt, (set_secrets (set_database v s) st, (c, w1)))) as Href.
  { intros wd ->. cbn [PrismaService.refreshDatabaseSecrets connection]. unfold mbind, M_bind.
    rewrite (VaultService.refresh_Ret st _ (c, w1) v s); [done|by apply answers_lift|done]. }
  unfold PrismaService.reconnectWithNewCredentials, mbind, M_bind, try_catch, PrismaService.buildClient.
  cbn -[PrismaService.refreshDatabaseSecrets].
  destruct (pg_disconnect c w) as [[[]|e] wd]; cbn -[PrismaService.refreshDatabaseSecrets];
    rewrite Href by done; cbn; rewrite Hc; cbn; fold c'; by rewrite Hconn.
Qed.

Section rotation.
Context {A : Type}.
Variable operation : Pg → M exn (App W) A.

(** C14: while the database rejects the credentials, the retry of PrismaService
    keeps asking Vault for new ones: if after at most two rotations that did not help Vault answers
    credentials with which the client connects and the operation succeeds, then [withRetry] returns
    the result of the operation, and the services hold the new credentials and the client that
    was built from them; the other secrets are as they were. *)
Theorem rotation_recovers (k : nat) (start : App W) (st : VaultState) (s : AppSecrets) (c : Pg) (w wf w1 w2 : W)
    (err : exn) (v : JsValue) (creds : PrismaService.DatabaseSecrets) (a : A) (last : App W) :
  (k <= 2)%nat →
  PrismaService.rotated operation 0 k start (st, (c, w)) → secrets st = Some s →
  operation c (st, (c, w)) = (Throw err, (st, (c, wf))) → PrismaService.isAuthError err = true →
  VaultService.answers st VaultService.database_path
    (pg_disconnect c (sleep (PrismaService.ROTATION_RETRY_BASE_MS * 2 ^ Z.of_nat k) wf)).2 v w1 →
  connection_fields v = Ret creds →
  let c' := pg_new (PrismaService.client_url creds) in
  let st' := set_secrets (set_database v s) st in
  pg_connect c' w1 = (Ret tt, w2) →
  operation c' (st', (c', w2)) = (Ret a, last) →
  PrismaService.withRetry operation start = (Ret a, last).
Proof.
  intros Hk Hrot Hs Hop Herr Hans Hc c' st' Hconn Hop'.
  eapply (PrismaService.rotation_loop_succeeds (W:=App W) _ (S k) _ _ _ (st', (c', w2))); [unfold PrismaService.MAX_ROTATION_RETRIES; lia|done| |exact Hop'].
  eapply PrismaService.rotated_snoc; [done..|]. rewrite Z.add_0_l.
  by apply (reconnect_fresh _ _ _ _ w1 w2 v creds tt).
Qed.
End rotation.
End database.
End Database.

(** ** A concrete Vault, for the witnesses

    The world is the time; until 600 ms Vault still answers the old password. *)
Module VaultExamples.
Import VaultService Database.

#[local] Instance toy_codec : TokenCodec := {|
  hmac_sha256 := λ k s, s; base64url_decode := λ s, s; base64url_encode := λ s, s;
  JSON_parse := λ raw, Ret (JsObject [("data", JsObject [("data",
    JsObject [("username", JsString "app"); ("password", JsString raw); ("host", JsString "db");
              ("port", JsString "5432"); ("database", JsString "invoicefi")])])]);
  JSON_stringify := λ _, EmptyString; decodeURIComponent := Ret; fraction_to_string := λ _ _, EmptyString |}%string.

#[local] Instance toy_platform : VaultPlatform := {|
  process_env := λ key, if String.eqb key "VAULT_TOKEN" then Some "root"%string else None;
  new_URL := λ path base, Ret (mkURL "https:" base "" path "") |}.

#[local] Instance toy_http : VaultHttp Z := {|
  request := λ _ _ now, (Ret (ResponseEnd (Some 200) (if now <? 600 then "old"%string else "new"%string)), now) |}.

#[local] Instance toy_timer : Timer Z := {| sleep := λ ms now, now + ms |}.

#[local] Instance toy_pg : PgClient Z := {|
  Pg := string; pg_new := λ url, url; pg_connect := λ _, mret tt; pg_disconnect := λ _, mret tt |}.

(** A query of a database that takes the new password only. *)
Definition query : Pg (W:=Z) → M exn (App Z) Z := λ c s,
  if includes (c : string) "new" then (Ret 1, s) else (Throw (PrismaError "P1000" "Authentication failed against database server"), s).

Definition old_state : VaultState :=
  mkVaultState "vault" (JsString "root") (Some (mkAppSecrets JsNull JsNull JsNull JsNull)).

Definition creds_of (pw : string) : JsValue :=
  JsObject [("username", JsString "app"); ("password", JsString pw); ("host", JsString "db");
            ("port", JsString "5432"); ("database", JsString "invoicefi")].

Lemma bootstrap_witness :
  let start := mkVaultState "vault" JsNull None in
  let final := set_secrets (mkAppSecrets (creds_of "new") (creds_of "new") (creds_of "new") (creds_of "new"))
                 (set_clientToken (JsString "root") start) in
  onApplicationBootstrap (start, 700) = (Ret tt, (final, 700)) ∧ vaultAddr final = vaultAddr start ∧
  ∃ s w0 w1 w2 w3,
      authenticate (start, 700) = (Ret tt, (set_clientToken (clientToken final) start, w0)) ∧
      answers final database_path w0 (sec_database s) w1 ∧ answers final auth_path w1 (sec_auth s) w2 ∧
      answers final smtp_path w2 (sec_smtp s) w3 ∧ answers final stellar_path w3 (sec_stellar s) 700 ∧
      secrets final = Some s.
Proof.
  intros start final. assert (onApplicationBootstrap (start, 700) = (Ret tt, (final, 700))) as H by (vm_compute; reflexivity).
  split; [exact H|]. exact (bootstrap_all_or_nothing start final 700 700 (Ret tt) H).
Defined.

(** The first rotation still gets the old password, the second one the new one. *)
Lemma rotation_recovers_witness :
  let url pw := ("postgresql://app:" +:+ pw +:+ "@db:5432/invoicefi")%string in
  let st := set_secrets (mkAppSecrets (creds_of "old") JsNull JsNull JsNull) old_state in
  let st' := set_secrets (mkAppSecrets (creds_of "new") JsNull JsNull JsNull) old_state in
  PrismaService.withRetry (W:=App Z) (A:=Z) query (old_state, ("stale"%string, 0)) = (Ret 1, (st', (url "new"%string, 1500))).
Proof.
  intros url st st'.
  apply (rotation_recovers (W:=Z) query 1 _ st (mkAppSecrets (creds_of "old") JsNull JsNull JsNull) (url "old"%string) 500 500 1500 1500
    (PrismaError "P1000" "Authentication failed against database server") (creds_of "new")
    {| PrismaService.username := "app"; PrismaService.password := "new"; PrismaService.host := "db";
       PrismaService.port := "5432"; PrismaService.database := "invoicefi" |}).
  - lia.
  - eapply PrismaService.rotated_one; [vm_compute; reflexivity..|constructor].
  - reflexivity.
  - vm_compute; reflexivity.
  - reflexivity.
  - exists (mkURL "https:" "vault" "" "/v1/secret/data/invoicefi/database" ""), 200, "new"%string,
      (JsObject [("data", JsObject [("data", creds_of "new")])]), (JsObject [("data", creds_of "new")]).
    repeat split; try reflexivity; vm_compute; discriminate.
  - vm_compute; reflexivity.
  - reflexivity.
  - vm_compute; reflexivity.
Defined.
End VaultExamples.
