(* ===== verification/WebhookDispatch.v ===== *)
(** * Enqueueing webhook deliveries ([webhooks/webhook-dispatch.service.ts])

    One invoice lifecycle event is fanned out to every active subscription interested in it,
    at most once per subscription; the component discharges [InvoiceEventSink]. *)
From S2P Require Import Prelude Js Schema Errors Prisma PrismaService Interfaces.
Open Scope Z_scope.

Module WebhookDispatchService.

Definition ALL_EVENTS_WILDCARD : string := "*".

Definition ALL_INVOICE_EVENT_TYPES : list string :=
  ["created"; "submitted"; "funded"; "repaid"; "defaulted"]%string.

(** The [filter] of the active subscriptions. *)
Definition is_interested (event : InvoiceEvent) (s : WebhookSubscription) : bool :=
  existsb (String.eqb ALL_EVENTS_WILDCARD) (sub_eventTypes s)
  || existsb (String.eqb (ie_event event)) (sub_eventTypes s).

Section service.
Context {W : Type} `{!Prisma W} `{!Clock W} `{!Crypto}.
Variable h : PrismaService.handle.

Definition buildIdempotencyKey (event : InvoiceEvent) : string :=
  sha256_hex (ie_invoiceId event +:+ ":" +:+ ie_event event +:+ ":" +:+ ie_timestamp event)%string.

(** The row that [webhookDelivery.create] inserts: the given data and the schema's defaults. *)
Definition new_delivery (event : InvoiceEvent) (key subscriptionId : string) (now : Z) (g : gen)
    : WebhookDelivery :=
  {| del_id := g_id g; del_subscriptionId := subscriptionId; del_eventType := ie_event event;
     del_idempotencyKey := key; del_payload := event; del_status := D_PENDING;
     del_attemptCount := 0; del_nextAttemptAt := now; del_lockedAt := None;
     del_lastAttemptAt := None; del_lastStatusCode := None; del_lastError := None;
     del_createdAt := g_now g; del_updatedAt := g_now g |}.

(** The body of the [for] loop. *)
Definition enqueue (event : InvoiceEvent) (key : string) (enqueued : Z) (s : WebhookSubscription)
    : M exn W (Z + Z) :=
  try_catch
    (PrismaService.via h PrismaService.m_webhookDelivery (
       now ← date_now;
       _ ← create (new_delivery event key (sub_id s) now);
       mret (inl (enqueued + 1))))
    (λ err, if is_unique_violation err then mret (inl enqueued) else mret (inl enqueued)).

Definition dispatchInvoiceEvent (event : InvoiceEvent) : M exn W Z :=
  subscriptions ← PrismaService.via h PrismaService.m_webhookSubscription
    (find_many (λ s, sub_active s) (λ _, 0));
  let interested := List.filter (is_interested event) subscriptions in
  if Z.of_nat (length interested) =? 0 then mret 0
  else
    let idempotencyKey := buildIdempotencyKey event in
    r ← for_of interested 0 (enqueue event idempotencyKey);
    match r with inl enqueued => mret enqueued | inr x => mret x end.

(** ** What dispatching does *)
Context `{!PrismaLaws W} `{!ClockLaws W}.

(** The subscriptions the event must reach. *)
Definition recipients (event : InvoiceEvent) (d : db) : list WebhookSubscription :=
  List.filter (is_interested event) (List.filter (λ s, sub_active s) (rows d)).

Definition is_for (key sid : string) (x : WebhookDelivery) : bool :=
  String.eqb sid (del_subscriptionId x) && String.eqb key (del_idempotencyKey x).

(** The number of deliveries queued for a subscription under an idempotency key. *)
Definition queued (key sid : string) (d : db) : Z := count_if (is_for key sid) (rows d).

(** What the loop has done to the database [d0] once it has processed the subscriptions
    [done] and counted [n]: [news] are the entries it appended. *)
Record enqueued_inv (event : InvoiceEvent) (d0 : db) (u : Prop) (done : list WebhookSubscription)
    (n : Z) (d : db) (news : list WebhookDelivery) : Prop := {
  inv_tables : d = set_rows (rows d0 ++ news) d0;
  inv_count : n = Z.of_nat (length news);
  inv_news : ∀ x, x ∈ news → ∃ s now g, s ∈ done ∧ queued (buildIdempotencyKey event) (sub_id s) d0 = 0 ∧
    x = new_delivery event (buildIdempotencyKey event) (sub_id s) now g;
  inv_once : ∀ sid, queued (buildIdempotencyKey event) sid d
                    <= Z.max 1 (queued (buildIdempotencyKey event) sid d0);
  inv_all : u → ∀ s, s ∈ done → 1 <= queued (buildIdempotencyKey event) (sub_id s) d }.

Lemma conflict_is_for (event : InvoiceEvent) (key sid : string) (now : Z) (g : gen) (l : list WebhookDelivery) :
  existsb (conflict (new_delivery event key sid now g)) l = false → count_if (is_for key sid) l = 0.
Proof.
  rewrite existsb_false_forall. intros Hno. apply count_if_zero. intros x Hx.
  specialize (Hno x Hx). cbn in Hno. apply orb_false_iff in Hno as [_ Hno]. exact Hno.
Qed.

Lemma fresh_conflict_is_for (event : InvoiceEvent) (key sid : string) (now : Z) (g : gen) (d : db) :
  g_id g ∉ ids d → existsb (conflict (new_delivery event key sid now g)) (rows d) = true →
  1 <= queued key sid d.
Proof.
  intros Hfresh (x & Hx & Hc)%existsb_exists. unfold queued.
  enough (0 < count_if (is_for key sid) (rows d)) by lia.
  apply count_if_pos. exists x. rewrite list_elem_of_In. split; [done|].
  cbn in Hc. apply orb_true_iff in Hc as [Hid|Hc]; [|done].
  destruct Hfresh. apply String.eqb_eq in Hid. rewrite Hid. unfold ids. rewrite !elem_of_app, !list_elem_of_In.
  right. right. left. by apply in_map.
Qed.

Lemma queued_app (key sid : string) (l : list WebhookDelivery) (d : db) :
  queued key sid (set_rows (rows d ++ l) d) = queued key sid d + count_if (is_for key sid) l.
Proof. unfold queued. by rewrite rows_set_rows, count_if_app. Qed.

Lemma enqueued_inv_refused (event : InvoiceEvent) (d0 d : db) (u u' : Prop) done s n news :
  enqueued_inv event d0 u done n d news → (u' → u) →
  (u' → 1 <= queued (buildIdempotencyKey event) (sub_id s) d) →
  enqueued_inv event d0 u' (done ++ [s]) n d news.
Proof.
  intros [??? ? Hall] Hu Hs. split; [done..| |done|].
  - intros x (s' & t & g & ? & ?)%inv_news0. exists s', t, g. set_solver.
  - intros Hu' s' [?| ->%list_elem_of_singleton]%elem_of_app; auto.
Qed.

Lemma enqueued_inv_created (event : InvoiceEvent) (d0 d : db) (u u' : Prop) done s n news now g :
  let x := new_delivery event (buildIdempotencyKey event) (sub_id s) now g in
  enqueued_inv event d0 u done n d news → (u' → u) → existsb (conflict x) (rows d) = false →
  enqueued_inv event d0 u' (done ++ [s]) (n + 1) (set_rows (rows d ++ [x]) d) (news ++ [x]).
Proof.
  intros x [-> -> Hnews Honce Hall] Hu Hno. apply conflict_is_for in Hno.
  fold (queued (buildIdempotencyKey event) (sub_id s) (set_rows (rows d0 ++ news) d0)) in Hno.
  assert (∀ sid, 0 <= queued (buildIdempotencyKey event) sid d0) as Hpos by (intros; apply count_if_nonneg).
  assert (∀ sid, 0 <= count_if (is_for (buildIdempotencyKey event) sid) news) as Hnn by (intros; apply count_if_nonneg).
  assert (∀ sid, count_if (is_for (buildIdempotencyKey event) sid) [x]
                 = if String.eqb sid (sub_id s) then 1 else 0) as Hx.
  { intros sid. unfold count_if, is_for. cbn. rewrite String.eqb_refl, andb_true_r. by destruct (String.eqb _ _). }
  pose proof (Hpos (sub_id s)) as Hs. pose proof (Hnn (sub_id s)) as Hs'. rewrite queued_app in Hno.
  split.
  - by rewrite rows_set_rows, set_rows_set_rows, app_assoc.
  - rewrite length_app. cbn. lia.
  - intros y [Hy| ->%list_elem_of_singleton]%elem_of_app.
    + apply Hnews in Hy as (s' & t & g' & ? & ?). exists s', t, g'. set_solver.
    + exists s, now, g. split; [set_solver|]. split; [lia|done].
  - intros sid. specialize (Honce sid). specialize (Hnn sid). specialize (Hpos sid). rewrite queued_app in Honce. rewrite !queued_app, Hx.
    destruct (String.eqb_spec sid (sub_id s)) as [->|]; lia.
  - intros Hu' s' Hin. rewrite !queued_app, Hx. specialize (Hall (Hu Hu')).
    setoid_rewrite queued_app in Hall.
    apply elem_of_app in Hin as [Hin| ->%list_elem_of_singleton].
    + specialize (Hall s' Hin). destruct (String.eqb _ _); lia.
    + rewrite String.eqb_refl. lia.
Qed.

(** The loop keeps [enqueued_inv] and never throws. *)
Lemma enqueue_loop (event : InvoiceEvent) (l : list WebhookSubscription) (w0 : W) :
  PrismaService.m_webhookDelivery ∈ h →
  wp (for_of l 0 (enqueue event (buildIdempotencyKey event)))
     (λ r w, match r with
             | Ret (inl n) => ∃ news, enqueued_inv event (tables w0) (up w0) l n (tables w) news
                                      ∧ (up w0 → up w)
             | _ => False end) w0.
Proof.
  intros Hh.
  apply (wp_for_of (λ done n w, ∃ news,
    enqueued_inv event (tables w0) (up w0) done n (tables w) news ∧ (up w0 → up w))).
  - intros done s todo n w _ (news & Hinv & Hup). unfold enqueue.
    rewrite PrismaService.via_in by done. apply wp_try. wp_steps; wp_tables.
    + exists (news ++ [new_delivery event (buildIdempotencyKey event) (sub_id s) t g]).
      split; [by eapply enqueued_inv_created|tauto].
    + exists news. split; [|tauto]. eapply enqueued_inv_refused; [done|done|].
      intros Hu. destruct H3 as [(_ & g & ? & ?) _]; [tauto|]. by eapply fresh_conflict_is_for.
    + exists news. split; [|tauto]. eapply enqueued_inv_refused; [done|done|].
      intros Hu. by destruct H3 as [[? _] _]; [tauto|].
  - done.
  - exists []. split; [|done]. split.
    + by rewrite app_nil_r, set_rows_rows.
    + done.
    + intros x Hx. by apply elem_of_nil in Hx.
    + lia.
    + intros _ s Hs. by apply elem_of_nil in Hs.
Qed.

(** The handle has the two members the service reads. *)
Definition wired : Prop :=
  PrismaService.m_webhookSubscription ∈ h ∧ PrismaService.m_webhookDelivery ∈ h.

(** Dispatching in any world: the outcome and the entries [news] it appends. *)
Lemma dispatch_spec (event : InvoiceEvent) (w : W) :
  wired →
  wp (dispatchInvoiceEvent event)
     (λ r w', match r with
              | Ret n => ∃ l news, l ≡ₚ recipients event (tables w) ∧
                  enqueued_inv event (tables w) (up w) l n (tables w') news ∧ (up w → up w')
              | Throw _ => tables w' = tables w ∧ ¬ up w end) w.
Proof.
  intros [Hs Hd]. unfold dispatchInvoiceEvent. rewrite PrismaService.via_in by done.
  wp_step. wp_op.
  - wp_tables. assert (List.filter (is_interested event) l ≡ₚ recipients event (tables w)) as Hl.
    { unfold recipients. match goal with Hp : l ≡ₚ _ |- _ => by rewrite Hp end. }
    cbv zeta. wp_step; [wp_step|].
    + bool_to_prop. destruct (List.filter (is_interested event) l); [|done].
      exists [], []. split; [done|]. split; [|done]. split.
      * by rewrite app_nil_r, set_rows_rows.
      * done.
      * intros x Hx. by apply elem_of_nil in Hx.
      * rewrite H0. lia.
      * intros _ s Hin. by apply elem_of_nil in Hin.
    + wp_step. eapply wp_mono; [by apply enqueue_loop|].
      intros [[n|?]|?] w2; try done. intros (news & Hinv & ?). wp_step.
      exists (List.filter (is_interested event) l), news. rewrite H0 in *.
      split; [done|]. split; [|tauto]. destruct Hinv. split; auto.
  - unfold refuses in *. tauto.
Qed.
End service.

(** The service is an [InvoiceEventSink]. *)
Definition sink {W : Type} `{!Prisma W} `{!Clock W} `{!Crypto} (h : PrismaService.handle)
    : InvoiceEventSink W := {| Interfaces.dispatchInvoiceEvent := dispatchInvoiceEvent h |}.

Section theorems.
Context {W : Type} `{!Prisma W} `{!Clock W} `{!Crypto} `{!PrismaLaws W} `{!ClockLaws W}.
Variable h : PrismaService.handle.

(** What the class [InvoiceEventSinkLaws] asks of one call. *)
Lemma dispatch_keeps_promise (event : InvoiceEvent) (w : W) :
  wired h →
  match dispatchInvoiceEvent h event w with
  | (Ret _, w') => same_but_deliveries (tables w) (tables w') ∧ (up w → up w')
  | (Throw _, w') => tables w' = tables w ∧ ¬ up w
  end.
Proof.
  intros Hwired. pose proof (dispatch_spec h event w Hwired) as H'.
  unfold wp in H'. destruct (dispatchInvoiceEvent h event w) as [[n|e] w']; cbn in H'; [|done].
  destruct H' as (l & news & _ & [Ht _ _ _ _] & ?). rewrite Ht. split; [apply same_but_deliveries_set|done].
Qed.

(** C30: the dispatch service keeps the promise on which settlement relies: enqueueing an
    event writes webhook deliveries only, and fails only when the database is unreachable. *)
Theorem sink_laws (Hwired : wired h) : @InvoiceEventSinkLaws W _ (sink h).
Proof.
  split. intros event w. by apply dispatch_keeps_promise.
Qed.


(** Dispatching the same event again (an upstream emitter that retries) enqueues nothing
    and reports zero: every entry is suppressed by the idempotency key. *)
Theorem dispatch_again_enqueues_nothing (event : InvoiceEvent) (w w1 w2 : W) (n m : Z)
    (Hwired : wired h) (Hup : up w)
    (H1 : dispatchInvoiceEvent h event w = (Ret n, w1))
    (H2 : dispatchInvoiceEvent h event w1 = (Ret m, w2)) :
  m = 0 ∧ tables w2 = tables w1.
Proof.
  pose proof (wp_run _ _ _ _ _ (dispatch_spec h event w Hwired) H1) as (l & news & Hl & Hinv & Hup1).
  pose proof (wp_run _ _ _ _ _ (dispatch_spec h event w1 Hwired) H2) as (l2 & news2 & Hl2 & [Ht -> Hnews _ _] & _).
  assert (recipients event (tables w1) = recipients event (tables w)) as Hr.
  { destruct Hinv as [-> _ _ _ _]. done. }
  destruct news2 as [|x news2]; [by rewrite Ht, app_nil_r, set_rows_rows|].
  destruct (Hnews x) as (s & t & g & Hs & Hzero & _); [by left|].
  rewrite Hl2, Hr, <- Hl in Hs. destruct Hinv. specialize (inv_all0 Hup s Hs). lia.
Qed.
End theorems.

(** ** Witnesses *)

Definition sub_ex (id : string) (types : list string) (active : bool) : WebhookSubscription :=
  mkWebhookSubscription id "GA" "https://hooks.example.org/a" "s3cret" types active 0 0.

Definition event_ex : InvoiceEvent :=
  mkInvoiceEvent "7" "repaid" None "2026-01-01T00:00:00.000Z" [("ledger"%string, 12)].

Definition world_ex : mem :=
  mkMem (set_rows [sub_ex "s1" ["repaid"] true; sub_ex "s2" ["*"] true;
                   sub_ex "s3" ["funded"] true; sub_ex "s4" ["*"] false] empty_db) 1000 1 [].

#[local] Existing Instance toy_crypto.

Lemma wired_surface : wired PrismaService.surface.
Proof. split; apply (bool_decide_unpack _); vm_compute; exact I. Qed.

Lemma sink_laws_witness : @InvoiceEventSinkLaws mem _ (sink PrismaService.surface).
Proof. apply (sink_laws PrismaService.surface), wired_surface. Defined.


Lemma dispatch_again_enqueues_nothing_witness :
  let r1 := dispatchInvoiceEvent PrismaService.surface event_ex world_ex in
  let r2 := dispatchInvoiceEvent PrismaService.surface event_ex r1.2 in
  r1.1 = Ret 2 ∧ r2.1 = Ret 0 ∧ tables r2.2 = tables r1.2.
Proof.
  intros r1 r2. split; [vm_compute; reflexivity|].
  destruct (dispatch_again_enqueues_nothing PrismaService.surface event_ex world_ex r1.2 r2.2 2 0
              wired_surface) as [_ H]; [vm_compute; reflexivity..|].
  split; [vm_compute; reflexivity|exact H].
Defined.

End WebhookDispatchService.
