(* ===== verification/Invoices.v ===== *)
(** * Invoices and their audit log ([invoices/invoice-event.service.ts],
    [invoices/invoices.service.ts])

    The append-only event log of invoice transitions and the read side of the API. *)
From S2P Require Import Prelude Js Schema Errors Prisma PrismaService Interfaces.
Open Scope Z_scope.

(** ** [invoice-event.service.ts] *)
Module InvoiceEventService.

Record RecordInvoiceEventParams := mkParams {
  p_invoiceOnchainId : Z;
  p_previousStatus : option InvoiceStatus;
  p_newStatus : InvoiceStatus;
  p_actorId : string;
  p_txHash : option string }.

Record InvoiceEventDto := mkInvoiceEventDto {
  dto_id : string;
  dto_invoiceOnchainId : string;
  dto_previousStatus : option InvoiceStatus;
  dto_newStatus : InvoiceStatus;
  dto_actorId : string;
  dto_txHash : option string;
  dto_occurredAtNanos : string;
  dto_createdAt : string }.

Section service.
Context {W : Type} `{!Prisma W} `{!Clock W} `{!Hrtime W}.

(** Milliseconds of the wall clock, refined by the sub-millisecond part of [hrtime]. *)
Definition nowNanos : M exn W Z :=
  hr ← process_hrtime;
  ms ← date_now;
  mret (ms * 1000000 + hr.2 mod 1000000).

Definition new_event (params : RecordInvoiceEventParams) (nanos : Z) (g : gen) : InvoiceEventRow :=
  {| ev_id := g_id g; ev_invoiceOnchainId := p_invoiceOnchainId params;
     ev_previousStatus := p_previousStatus params; ev_newStatus := p_newStatus params;
     ev_actorId := p_actorId params; ev_txHash := p_txHash params;
     ev_occurredAtNanos := nanos; ev_sequence := g_seq g; ev_createdAt := g_now g |}.

Definition appendInvoiceEvent (params : RecordInvoiceEventParams) : M exn W unit :=
  nanos ← nowNanos;
  _ ← create (new_event params nanos);
  mret tt.

Definition toDto (event : InvoiceEventRow) : InvoiceEventDto :=
  {| dto_id := ev_id event; dto_invoiceOnchainId := Z_to_string (ev_invoiceOnchainId event);
     dto_previousStatus := ev_previousStatus event; dto_newStatus := ev_newStatus event;
     dto_actorId := ev_actorId event; dto_txHash := ev_txHash event;
     dto_occurredAtNanos := Z_to_string (ev_occurredAtNanos event);
     dto_createdAt := toISOString (ev_createdAt event) |}.

Definition listByOnchainId (h : PrismaService.handle) (onchainId : Z) : M exn W (list InvoiceEventDto) :=
  events ← PrismaService.via h PrismaService.m_db
    (find_many (λ e, ev_invoiceOnchainId e =? onchainId) ev_sequence);
  mret (map toDto events).

Context `{!PrismaLaws W} `{!ClockLaws W} `{!HrtimeLaws W}.

(** Appending adds one row and changes nothing else; when the database is reachable it can
    only fail on a clash of generated identifiers, which does not occur. *)
Lemma wp_appendInvoiceEvent (params : RecordInvoiceEventParams) (Φ : outcome exn unit → W → Prop) (w : W) :
  (∀ ms n g w', 0 <= n < 1000000 →
     commits w w' (set_rows (rows (tables w) ++ [new_event params (ms * 1000000 + n) g]) (tables w)) →
     Φ (Ret tt) w') →
  (∀ e w', refuses w w' False → Φ (Throw e) w') →
  wp (appendInvoiceEvent params) Φ w.
Proof.
  intros Hok Hno. unfold appendInvoiceEvent, nowNanos. wp_steps; wp_tables.
  - eapply (Hok t (n mod 1000000) g); [by apply Z.mod_pos_bound|]. split; [done|auto].
  - apply Hno. split; [done|]. intros Hup. exfalso.
    destruct H5 as [(_ & g & Hfresh & Hc) _]; [auto|].
    apply existsb_exists in Hc as (x & Hx & Hc). apply Hfresh. cbn in Hc.
    apply String.eqb_eq in Hc. rewrite Hc. unfold ids. rewrite !elem_of_app, !list_elem_of_In.
    left. by apply in_map.
Qed.
End service.
End InvoiceEventService.

(** ** [invoices.service.ts] *)
Module InvoicesService.

Record InvoiceDto := mkInvoiceDto {
  dto_id : Z;
  dto_onchainId : string;
  dto_status : string;
  dto_faceValue : string;
  dto_farmer : string;
  dto_investor : option string;
  dto_settledLedger : option Z;
  dto_settledAt : option string;
  dto_createdAt : string;
  dto_updatedAt : string }.

Definition toDto (invoice : Invoice) : InvoiceDto :=
  {| dto_id := inv_id invoice; dto_onchainId := Z_to_string (inv_onchainId invoice);
     dto_status := InvoiceStatus_name (inv_status invoice);
     dto_faceValue := Z_to_string (inv_faceValue invoice);
     dto_farmer := inv_farmer invoice; dto_investor := inv_investor invoice;
     dto_settledLedger := inv_settledLedger invoice;
     dto_settledAt := toISOString <$> inv_settledAt invoice;
     dto_createdAt := toISOString (inv_createdAt invoice);
     dto_updatedAt := toISOString (inv_updatedAt invoice) |}.

Section service.
Context {W : Type} `{!Prisma W}.
Variable h : PrismaService.handle.

(** [findMany({ where, orderBy: { createdAt: 'desc' } })] *)
Definition newest_first (invoice : Invoice) : Z := - inv_createdAt invoice.

Definition findAll : M exn W (list InvoiceDto) :=
  invoices ← PrismaService.via h PrismaService.m_invoice (find_many (λ _, true) newest_first);
  mret (map toDto invoices).

Definition findOne (onchainId : string) : M exn W (option InvoiceDto) :=
  invoice ← PrismaService.via h PrismaService.m_invoice
    (id ← BigInt onchainId; find_unique (λ i, inv_onchainId i =? id));
  mret (toDto <$> invoice).

Definition byFarmer (farmer : string) : M exn W (list InvoiceDto) :=
  invoices ← PrismaService.via h PrismaService.m_invoice
    (find_many (λ i, String.eqb (inv_farmer i) farmer) newest_first);
  mret (map toDto invoices).

Definition byInvestor (investor : string) : M exn W (list InvoiceDto) :=
  invoices ← PrismaService.via h PrismaService.m_invoice
    (find_many (λ i, bool_decide (inv_investor i = Some investor)) newest_first);
  mret (map toDto invoices).

Definition events (onchainId : string) : M exn W (list InvoiceEventService.InvoiceEventDto) :=
  invoice ← PrismaService.via h PrismaService.m_invoice
    (id ← BigInt onchainId; find_unique (λ i, inv_onchainId i =? id));
  match invoice with
  | None => throw (NotFoundException ("Invoice " +:+ onchainId +:+ " not found")%string)
  | Some i => InvoiceEventService.listByOnchainId h (inv_onchainId i)
  end.
End service.

Section theorems.
Context {W : Type} `{!Prisma W} `{!PrismaLaws W}.

(** The event endpoint answers, for the decimal id of a mirrored invoice, with all the
    audit events of that invoice and of no other, in the order the database appended them;
    for an id that is mirrored nowhere it throws a 404; it reads only. *)
Theorem events_complete (h : PrismaService.handle) (onchainId : string) (n : Z) (w : W)
    (Hdb : PrismaService.m_db ∈ h) (Hinv : PrismaService.m_invoice ∈ h) (Hup : up w)
    (Hid : BigInt_of_string onchainId = Some n) :
  wp (events h onchainId)
     (λ r w', tables w' = tables w ∧
        if existsb (λ i, inv_onchainId i =? n) (rows (tables w)) then
          ∃ l, r = Ret (map InvoiceEventService.toDto l) ∧ Sorted (key_le ev_sequence) l ∧
               l ≡ₚ List.filter (λ e, ev_invoiceOnchainId e =? n) (rows (tables w))
        else ∃ msg, r = Throw (NotFoundException msg)) w.
Proof.
  unfold events, InvoiceEventService.listByOnchainId, BigInt. rewrite !PrismaService.via_in by done.
  rewrite Hid. wp_steps; try rewrite !PrismaService.via_in by done; wp_steps; wp_tables;
    try (exfalso; tauto).
  - split; [done|]. replace (existsb _ _) with true.
    + exists l. split; [done|]. split; [done|]. bool_to_prop.
      match goal with H : inv_onchainId _ = n |- _ => by rewrite <- H end.
    + symmetry. apply existsb_exists. eexists. rewrite <- list_elem_of_In. done.
  - split; [done|]. match goal with H : existsb _ _ = false |- _ => rewrite H end. by eexists.
Qed.
End theorems.

(** A database with the invoice 7 and two of its audit events, stored out of order. *)
Definition audit_ex (id : string) (onchainId sequence : Z) : InvoiceEventRow :=
  mkInvoiceEventRow id onchainId (Some FUNDED) REPAID "actor" None 0 sequence 0.

Definition world_ex : mem :=
  mkMem (set_rows [mkInvoice 1 7 REPAID 1000 "GF" None None None None None None None None 0 0]
           (set_rows [audit_ex "b" 7 2; audit_ex "c" 8 3; audit_ex "a" 7 1] empty_db)) 1000 4 [].

Lemma events_complete_witness :
  let r := events PrismaService.surface "7" world_ex in
  tables r.2 = tables world_ex ∧
  r.1 = Ret (map InvoiceEventService.toDto [audit_ex "a" 7 1; audit_ex "b" 7 2]).
Proof.
  split; [|vm_compute; reflexivity].
  apply (events_complete PrismaService.surface "7" 7 world_ex);
    [apply (bool_decide_unpack _); vm_compute; exact I..|vm_compute; reflexivity|vm_compute; reflexivity].
Defined.
End InvoicesService.
