(* ===== verification/SettlementEvents.v ===== *)
(** * Settlement events ([settlement/settlement-event.parser.ts],
    [settlement/soroban-events.service.ts], [settlement/types.ts])

    The events of the Soroban RPC, their decoding to JavaScript values, and the parser that
    recognises invoice settlements. *)
From S2P Require Import Prelude Js Schema Errors Prisma.
Open Scope Z_scope.

(** ** [types.ts] *)
Record NormalizedEvent := mkNormalizedEvent {
  e_ledger : Z;
  e_contractId : string;
  e_topics : list JsValue;
  e_value : JsValue;
  e_txHash : option string }.

Record SettlementEvent := mkSettlementEvent {
  se_invoiceId : string;
  se_ledger : Z;
  se_txHash : option string }.

(** ** [settlement-event.parser.ts] *)
Module SettlementEventParser.

Definition SETTLEMENT_TOPICS : list string := ["invoice_settled"; "invoicesettled"; "settled"]%string.

Definition asString (value : JsValue) : option string :=
  match value with
  | JsString s => Some s
  | JsBigInt n => Some (Z_to_string n)
  | JsNum (Finite num den) => Some (integral_to_string (trunc num den))
  | _ => None
  end.

Definition isPositiveIntString (value : string) : bool :=
  all_digits (to_list value) && negb (String.eqb value "0").

(** [if (s && isPositiveIntString(s)) return s] *)
Definition accept (s : option string) : option string :=
  match s with
  | Some s => if truthy s && isPositiveIntString s then Some s else None
  | None => None
  end.

(** The [for] loop over the candidate keys. *)
Fixpoint first_key (fields : list (string * JsValue)) (keys : list string) : option string :=
  match keys with
  | [] => None
  | key :: keys' =>
      match accept (asString (property fields key)) with
      | Some s => Some s
      | None => first_key fields keys'
      end
  end.

Definition extractInvoiceId (candidate : JsValue) : option string :=
  match accept (asString candidate) with
  | Some s => Some s
  | None =>
      match candidate with
      | JsObject fields => first_key fields ["invoice_id"; "invoiceId"; "id"]%string
      | _ => None
      end
  end.

Definition parseSettlementEvent (event : NormalizedEvent) : option SettlementEvent :=
  let name := default JsUndefined (e_topics event !! 0%nat) in
  let indexedId := default JsUndefined (e_topics event !! 1%nat) in
  match toLowerCase <$> asString name with
  | None => None
  | Some eventName =>
      if negb (truthy eventName) || negb (existsb (String.eqb eventName) SETTLEMENT_TOPICS) then None
      else
        match (match extractInvoiceId indexedId with
               | Some s => Some s
               | None => extractInvoiceId (e_value event)
               end) with
        | None => None
        | Some invoiceId => Some (mkSettlementEvent invoiceId (e_ledger event) (e_txHash event))
        end
  end.

(** *** Lemmas *)

Lemma accept_spec (o : option string) (s : string) :
  accept o = Some s → o = Some s ∧ isPositiveIntString s = true.
Proof.
  destruct o as [t|]; cbn; [|done]. destruct (truthy t && isPositiveIntString t) eqn:E; [|done].
  intros [= ->]. bool_to_prop. done.
Qed.

Lemma first_key_spec (fields : list (string * JsValue)) (keys : list string) (s : string) :
  first_key fields keys = Some s → isPositiveIntString s = true.
Proof.
  induction keys as [|k keys IH]; cbn; [done|].
  destruct (accept _) eqn:E; [|done]. intros [= ->]. by eapply accept_spec.
Qed.

Lemma extractInvoiceId_spec (v : JsValue) (s : string) :
  extractInvoiceId v = Some s → isPositiveIntString s = true.
Proof.
  unfold extractInvoiceId. destruct (accept _) eqn:E.
  - intros [= ->]. by eapply accept_spec.
  - destruct v; try done. apply first_key_spec.
Qed.

(** A parsed event comes from its source, and its id is a decimal numeral. *)
Lemma parse_inv (event : NormalizedEvent) (se : SettlementEvent) :
  parseSettlementEvent event = Some se →
  ∃ name s id, e_topics event !! 0%nat = Some name ∧ asString name = Some s ∧
    toLowerCase s ∈ SETTLEMENT_TOPICS ∧ isPositiveIntString id = true ∧
    se = mkSettlementEvent id (e_ledger event) (e_txHash event).
Proof.
  intros H. unfold parseSettlementEvent in H. destruct (e_topics event !! 0%nat) as [name|]; [|discriminate].
  cbn [default from_option] in H. unfold id in H. destruct (asString name) as [s|] eqn:Hs; [|done].
  change (toLowerCase <$> Some s) with (Some (toLowerCase s)) in H. cbv beta iota in H.
  destruct (negb _ || negb _) eqn:E; [done|]. bool_to_prop.
  assert (∃ id, se = mkSettlementEvent id (e_ledger event) (e_txHash event) ∧ isPositiveIntString id = true)
    as (id & -> & Hid).
  { destruct (extractInvoiceId _) eqn:E1; [|destruct (extractInvoiceId (e_value event)) eqn:E2; [|done]];
      injection H as <-; eexists; (split; [done|]); by eapply extractInvoiceId_spec. }
  exists name, s, id. repeat split; try done.
  match goal with He : existsb _ _ = true |- _ => apply existsb_exists in He as (t & Ht & Heq) end.
  apply String.eqb_eq in Heq as ->. by apply list_elem_of_In.
Qed.

Lemma positive_string_value (id : string) :
  isPositiveIntString id = true →
  BigInt_of_string id = Some (digits_val (to_list id)) ∧ 0 <= digits_val (to_list id).
Proof.
  unfold isPositiveIntString. intros [Hid _]%andb_true_iff.
  pose proof (BigInt_of_digits _ Hid) as Hb. rewrite of_to_list in Hb. split; [done|].
  apply digits_val_nonneg. by destruct (to_list id).
Qed.

Lemma parsed_id (event : NormalizedEvent) (se : SettlementEvent) :
  parseSettlementEvent event = Some se →
  BigInt_of_string (se_invoiceId se) = Some (digits_val (to_list (se_invoiceId se))) ∧
  0 <= digits_val (to_list (se_invoiceId se)).
Proof. intros (? & ? & id & _ & _ & _ & ? & ->)%parse_inv. by apply positive_string_value. Qed.

(** Whatever JavaScript values the RPC delivers, a parsed settlement event keeps the
    ledger and transaction hash of its source, its first topic is one of the settlement
    symbols in some letter case, and its invoice id is a string of decimal digits, so that
    the [BigInt(...)] of the settlement service cannot throw on it. *)
Theorem parse_sound (event : NormalizedEvent) (se : SettlementEvent)
    (H : parseSettlementEvent event = Some se) :
  se_ledger se = e_ledger event ∧ se_txHash se = e_txHash event ∧
  (∃ name s, e_topics event !! 0%nat = Some name ∧ asString name = Some s ∧
     toLowerCase s ∈ SETTLEMENT_TOPICS) ∧
  BigInt_of_string (se_invoiceId se) = Some (digits_val (to_list (se_invoiceId se))) ∧
  0 <= digits_val (to_list (se_invoiceId se)).
Proof.
  pose proof (parsed_id event se H) as [? ?].
  apply parse_inv in H as (name & s & id & ? & ? & ? & ? & ->). repeat split; try done. eauto.
Qed.

(** An event whose first topic is a settlement symbol and whose second topic is a
    positive invoice id (as a [bigint], the decoded form of the contract's u64) is parsed,
    with the id that the topic holds. *)
Theorem parse_complete (ledger id : Z) (contract topic : string) (rest : list JsValue)
    (value : JsValue) (tx : option string)
    (Htopic : toLowerCase topic ∈ SETTLEMENT_TOPICS) (Hid : 0 < id) :
  ∃ se, parseSettlementEvent
          (mkNormalizedEvent ledger contract (JsString topic :: JsBigInt id :: rest) value tx) = Some se
        ∧ se_ledger se = ledger ∧ se_txHash se = tx ∧ BigInt_of_string (se_invoiceId se) = Some id.
Proof.
  destruct (nat_digits_spec id) as (Hv & Hd & Hne); [lia|].
  assert (Z_to_string id = of_list (nat_digits id)) as Hz.
  { unfold Z_to_string. by rewrite (proj2 (Z.ltb_ge _ _)) by lia. }
  assert (all_digits (nat_digits id) = true) as Hall by (by destruct (nat_digits id)).
  assert (BigInt_of_string (Z_to_string id) = Some id) as Hb by (by rewrite Hz, BigInt_of_digits, Hv).
  assert (String.eqb (Z_to_string id) "0" = false) as H0.
  { apply String.eqb_neq. intros E. rewrite E in Hb. vm_compute in Hb. injection Hb. lia. }
  exists (mkSettlementEvent (Z_to_string id) ledger tx). split; [|done].
  unfold parseSettlementEvent. cbn -[toLowerCase truthy existsb extractInvoiceId Z_to_string].
  assert (truthy (toLowerCase topic) = true ∧ existsb (String.eqb (toLowerCase topic)) SETTLEMENT_TOPICS = true)
    as [-> ->].
  { unfold SETTLEMENT_TOPICS in *. repeat (apply elem_of_cons in Htopic as [->|Htopic]; [done|]).
    by apply elem_of_nil in Htopic. }
  enough (extractInvoiceId (JsBigInt id) = Some (Z_to_string id)) as -> by done.
  unfold extractInvoiceId, accept, asString, isPositiveIntString.
  assert (truthy (Z_to_string id) = true) as ->.
  { unfold truthy. rewrite Hz. destruct (String.eqb_spec (of_list (nat_digits id)) "") as [E|_]; [|done].
    destruct Hne. by apply (of_list_inj _ []). }
  rewrite H0, Hz, to_of_list, Hall. done.
Qed.

Lemma parse_sound_witness :
  let e := mkNormalizedEvent 12 "C" [JsString "Invoice_Settled"; JsBigInt 42] JsNull None in
  parseSettlementEvent e = Some (mkSettlementEvent "42" 12 None) ∧
  BigInt_of_string "42" = Some (digits_val (to_list "42")).
Proof.
  intros e. split; [vm_compute; reflexivity|].
  destruct (parse_sound e (mkSettlementEvent "42" 12 None)) as (_ & _ & _ & H & _);
    [vm_compute; reflexivity|exact H].
Defined.

Lemma parse_complete_witness :
  ∃ se, parseSettlementEvent
          (mkNormalizedEvent 12 "C" [JsString "SETTLED"; JsBigInt 42] JsNull None) = Some se
        ∧ se_ledger se = 12 ∧ se_txHash se = None ∧ BigInt_of_string (se_invoiceId se) = Some 42.
Proof.
  apply (parse_complete 12 42 "C" "SETTLED" [] JsNull None); [|lia].
  apply (bool_decide_unpack _); vm_compute; exact I.
Defined.
End SettlementEventParser.
