(* ===== verification/Settlement.v ===== *)
(** * Settling invoices ([settlement/settlement.service.ts],
    [settlement/sync-cursor.service.ts])

    The conditional FUNDED to REPAID transition with its audit event, and the persisted
    ledger cursor. *)
From S2P Require Import Prelude Js Schema Errors Prisma PrismaService Interfaces Invoices.
Open Scope Z_scope.

(** ** [settlement.service.ts] *)
Module SettlementService.

Inductive SettlementResult := SETTLED | ALREADY_REPAID.

#[global] Instance SettlementResult_eq : EqDecision SettlementResult.
Proof. solve_decision. Defined.

Section service.
Context {W : Type} `{!Prisma W} `{!Clock W} `{!Hrtime W} `{!InvoiceEventSink W}.
Variable h : PrismaService.handle.

(** [settleInvoiceWithTx] names a variable [txHash] that no enclosing scope of the file
    declares, so it is looked up in the global object: [None] when the global object has no
    such property (reading it is a [ReferenceError]), else its value. *)
Variable global_txHash : option (option string).

Definition read_txHash : M exn W (option string) :=
  match global_txHash with
  | Some v => mret v
  | None => throw (ReferenceError "txHash")
  end.

(** The guard and the data of the [updateMany]. *)
Definition settleable (onchainId : Z) (i : Invoice) : bool :=
  (inv_onchainId i =? onchainId) && bool_decide (inv_status i = FUNDED).

Definition mark_repaid (ledger now : Z) (g : gen) (i : Invoice) : Invoice :=
  {| inv_id := inv_id i; inv_onchainId := inv_onchainId i; inv_status := REPAID;
     inv_faceValue := inv_faceValue i; inv_farmer := inv_farmer i; inv_investor := inv_investor i;
     inv_funder := inv_funder i; inv_discountPercentage := inv_discountPercentage i;
     inv_settledLedger := Some ledger; inv_settledAt := Some now;
     inv_fundedAmount := inv_fundedAmount i; inv_repaidAmount := inv_repaidAmount i;
     inv_assetCode := inv_assetCode i; inv_createdAt := inv_createdAt i;
     inv_updatedAt := g_now g |}.

Definition settled_params (onchainId : Z) (txHash : option string) : InvoiceEventService.RecordInvoiceEventParams :=
  InvoiceEventService.mkParams onchainId (Some FUNDED) REPAID "settlement-sync-service" txHash.

(** The callback of the inner [$transaction]. *)
Definition settle_tx (invoiceId : string) (onchainId ledger : Z) : M exn W SettlementResult :=
  now ← date_now;
  count ← update_many (settleable onchainId) (mark_repaid ledger now);
  if 0 <? count then
    txHash ← read_txHash;
    _ ← InvoiceEventService.appendInvoiceEvent (settled_params onchainId txHash);
    mret SETTLED
  else
    existing ← find_unique (λ i, inv_onchainId i =? onchainId);
    match existing with
    | None => throw (InvoiceNotFoundError invoiceId)
    | Some i =>
        if bool_decide (inv_status i = REPAID) then mret ALREADY_REPAID
        else throw (UnexpectedInvoiceStatusError invoiceId (inv_status i))
    end.

Definition repaid_event (invoiceId : string) (ledger now : Z) : InvoiceEvent :=
  mkInvoiceEvent invoiceId "repaid" None (toISOString now) [("ledger"%string, ledger)].

(** The parameter [tx] is shadowed by the inner callback's and never used. *)
Definition settleInvoiceWithTx (invoiceId : string) (ledger : Z) : M exn W SettlementResult :=
  onchainId ← BigInt invoiceId;
  result ← PrismaService.via h PrismaService.m_db (transaction (settle_tx invoiceId onchainId ledger));
  match result with
  | SETTLED =>
      now ← date_now;
      _ ← dispatchInvoiceEvent (repaid_event invoiceId ledger now);
      mret result
  | ALREADY_REPAID => mret result
  end.

(** The parameter [txHash] is not used. *)
Definition settleInvoice (invoiceId : string) (ledger : Z) (txHash : option string) : M exn W SettlementResult :=
  PrismaService.via h PrismaService.m_transaction
    (transaction_idle (settleInvoiceWithTx invoiceId ledger)).
End service.

(** ** What settling does

    [settles id ledger d d']: every FUNDED invoice with the on-chain id becomes REPAID with
    the ledger recorded, one FUNDED to REPAID audit event is appended, and webhook deliveries
    may have been queued. *)
Definition settles (onchainId ledger : Z) (txHash : option string) (d d' : db) : Prop :=
  (∃ i, i ∈ rows d ∧ settleable onchainId i = true) ∧
  ∃ now g1 nanos g2,
    same_but_deliveries
      (set_rows (rows d ++ [InvoiceEventService.new_event (settled_params onchainId txHash) nanos g2])
         (set_rows (map_if (settleable onchainId) (mark_repaid ledger now g1) (rows d)) d)) d'.

Section proofs.
Context {W : Type} `{!Prisma W} `{!Clock W} `{!Hrtime W} `{!InvoiceEventSink W}
  `{!PrismaLaws W} `{!ClockLaws W} `{!HrtimeLaws W} `{!InvoiceEventSinkLaws W}.

(** The postcondition of the callback, over the database [d] it starts from. *)
Definition settle_post (txHash : option string) (invoiceId : string) (onchainId ledger : Z) (d : db)
    (u : Prop) (r : outcome exn SettlementResult) (d' : db) : Prop :=
  match r with
  | Ret SETTLED => settles onchainId ledger txHash d d'
  | Ret ALREADY_REPAID =>
      d' = d ∧ (∃ i, i ∈ rows d ∧ inv_onchainId i = onchainId ∧ inv_status i = REPAID)
      ∧ ∀ i, i ∈ rows d → settleable onchainId i = false
  | Throw e =>
      u → (∀ i, i ∈ rows d → settleable onchainId i = false) ∧
          ((e = InvoiceNotFoundError invoiceId ∧ ∀ i, i ∈ rows d → inv_onchainId i ≠ onchainId) ∨
           (∃ i, i ∈ rows d ∧ inv_onchainId i = onchainId ∧ inv_status i ≠ FUNDED ∧ inv_status i ≠ REPAID ∧
                 e = UnexpectedInvoiceStatusError invoiceId (inv_status i)))
  end.

Lemma same_keys_mark_repaid (ledger now : Z) (g : gen) (i : Invoice) :
  same_keys i (mark_repaid ledger now g i) = true.
Proof. cbn. by rewrite !Z.eqb_refl. Qed.

Lemma settle_tx_spec (txHash : option string) (invoiceId : string) (onchainId ledger : Z) (w : W) :
  wp (settle_tx (Some txHash) invoiceId onchainId ledger)
     (λ r w', settle_post txHash invoiceId onchainId ledger (tables w) (up w) r (tables w')
              ∧ (up w → up w')) w.
Proof.
  assert (0 <? count_if (settleable onchainId) (rows (tables w)) = false →
          (∀ i, i ∈ rows (tables w) → settleable onchainId i = false)) as Hcount.
  { intros Hc. bool_to_prop. pose proof (count_if_nonneg (settleable onchainId) (rows (tables w))).
    apply count_if_zero. lia. }
  assert (∀ i, i ∈ rows (tables w) → settleable onchainId i = false → inv_onchainId i = onchainId →
          inv_status i ≠ FUNDED) as Hguard.
  { intros i _ Hs <-. unfold settleable in Hs. rewrite Z.eqb_refl in Hs. cbn in Hs. by bool_to_prop. }
  unfold settle_tx. wp_steps; wp_tables; try (split; [|tauto]).
  2, 3, 4, 5: match goal with Hc : (0 <? _) = false |- _ => specialize (Hcount Hc) end;
    rewrite !map_if_none, !set_rows_rows in * by done.
  - apply InvoiceEventService.wp_appendInvoiceEvent.
    + intros ms n g2 w2 ? Hw2. wp_tables. apply wp_ret. split; [|tauto].
      rewrite H4. split; [|by exists t, g, (ms * 1000000 + n), g2; exact (same_but_deliveries_refl _)].
      bool_to_prop. by apply count_if_pos.
    + intros e w2 ?. wp_tables. split; tauto.
  - split; [done|]. split; [|done]. exists r. bool_to_prop. done.
  - intros Hu. split; [done|]. right. bool_to_prop. exists r. repeat split; auto.
  - intros Hu. split; [done|]. left. split; [done|].
    match goal with He : existsb _ _ = false |- _ => rewrite existsb_false_forall in He end.
    intros i Hi. specialize (H2 i Hi). by bool_to_prop.
  - intros Hu. tauto.
  - intros Hu. destruct H2 as [(g & i & _ & Hk) _]; [auto|]. by rewrite same_keys_mark_repaid in Hk.
Qed.

(** The postcondition of a whole settlement: a failure leaves the database as it was, except
    that a lost connection after the commit may leave a complete settlement behind. *)
Definition settle_outcome (txHash : option string) (invoiceId : string) (onchainId ledger : Z) (d : db)
    (u : Prop) (r : outcome exn SettlementResult) (d' : db) : Prop :=
  match r with
  | Ret _ => settle_post txHash invoiceId onchainId ledger d u r d'
  | Throw _ =>
      (d' = d ∧ settle_post txHash invoiceId onchainId ledger d u r d')
      ∨ (¬ u ∧ settles onchainId ledger txHash d d')
  end.

Lemma settles_more_deliveries (onchainId ledger : Z) (txHash : option string) (d d1 d2 : db) :
  settles onchainId ledger txHash d d1 → same_but_deliveries d1 d2 → settles onchainId ledger txHash d d2.
Proof.
  intros [? (now & g1 & nanos & g2 & H1)] H2. split; [done|]. exists now, g1, nanos, g2.
  by eapply same_but_deliveries_trans.
Qed.

Lemma settleInvoiceWithTx_spec (h : PrismaService.handle) (txHash : option string)
    (invoiceId : string) (onchainId ledger : Z) (w : W) :
  PrismaService.m_db ∈ h → BigInt_of_string invoiceId = Some onchainId →
  wp (settleInvoiceWithTx h (Some txHash) invoiceId ledger)
     (λ r w', settle_outcome txHash invoiceId onchainId ledger (tables w) (up w) r (tables w')
              ∧ (up w → up w')) w.
Proof.
  intros Hdb Hid. unfold settleInvoiceWithTx, BigInt. rewrite Hid.
  wp_step. wp_step. wp_step. rewrite PrismaService.via_in by done. wp_op.
  - unfold refuses in *. split; [|tauto]. left. unfold settle_post. tauto.
  - wp_tables. eapply wp_mono; [apply settle_tx_spec|]. intros r w1 [Hpost Hup]. wp_tables.
    destruct r as [a|e].
    + split; [|intros e w2 ? ?; wp_tables; split; [left; unfold settle_post; tauto|tauto]].
      intros w2 ?. wp_tables. destruct a.
      * wp_steps; wp_tables; try (split; [|tauto]).
        -- by eapply settles_more_deliveries.
        -- right. split; [tauto|done].
      * wp_steps. wp_tables. split; [|tauto]. destruct Hpost as (? & ? & ?). by wp_tables.
    + intros w2 ? ?. wp_tables. split; [|tauto]. left. split; [done|]. unfold settle_post in *. tauto.
Qed.

(** A handle with the two members that settling reads. *)
Definition wired (h : PrismaService.handle) : Prop :=
  PrismaService.m_db ∈ h ∧ PrismaService.m_transaction ∈ h.

Lemma settleInvoice_spec (h : PrismaService.handle) (txHash tx : option string)
    (invoiceId : string) (onchainId ledger : Z) (w : W) :
  wired h → BigInt_of_string invoiceId = Some onchainId →
  wp (settleInvoice h (Some txHash) invoiceId ledger tx)
     (λ r w', settle_outcome txHash invoiceId onchainId ledger (tables w) (up w) r (tables w')
              ∧ (up w → up w')) w.
Proof.
  intros [Hdb Htx] Hid. unfold settleInvoice. rewrite PrismaService.via_in by done. wp_op.
  - unfold refuses in *. split; [|tauto]. left. unfold settle_post. tauto.
  - wp_tables. eapply wp_mono; [by apply settleInvoiceWithTx_spec|]. intros r w1 [Hpost Hup].
    match goal with Ht : tables w0 = _ |- _ => rewrite Ht in Hpost end.
    assert (settle_outcome txHash invoiceId onchainId ledger (tables w) (up w) r (tables w1)) as Hout.
    { destruct r as [[]|e]; cbn in *; tauto. }
    destruct r as [a|e].
    + split; [intros w2 ?; wp_tables; tauto|]. intros e w2 Ht ?. split; [|tauto].
      unfold settle_outcome. rewrite Ht.
      destruct a; cbn in Hout; [right; split; [tauto|done]|left]. split; [apply Hout|].
      unfold settle_post. tauto.
    + intros w2 Ht ?. rewrite Ht. tauto.
Qed.


(** The invoices with an on-chain id. *)
Definition with_id (onchainId : Z) (d : db) : list Invoice :=
  List.filter (λ i, inv_onchainId i =? onchainId) (rows d).

(** Reading the outcome off the mirrored invoice. *)
Definition by_status (txHash : option string) (invoiceId : string) (onchainId ledger : Z) (d : db)
    (r : outcome exn SettlementResult) (d' : db) : Prop :=
  match with_id onchainId d with
  | [] => r = Throw (InvoiceNotFoundError invoiceId) ∧ d' = d
  | [i] =>
      match inv_status i with
      | FUNDED => r = Ret SETTLED ∧ settles onchainId ledger txHash d d'
      | REPAID => r = Ret ALREADY_REPAID ∧ d' = d
      | s => r = Throw (UnexpectedInvoiceStatusError invoiceId s) ∧ d' = d
      end
  | _ => True
  end.

Lemma elem_of_with_id (onchainId : Z) (d : db) (i : Invoice) :
  i ∈ with_id onchainId d ↔ i ∈ rows d ∧ inv_onchainId i = onchainId.
Proof. unfold with_id. by rewrite !list_elem_of_In, filter_In, Z.eqb_eq. Qed.

Lemma settleable_true (onchainId : Z) (i : Invoice) :
  settleable onchainId i = true ↔ inv_onchainId i = onchainId ∧ inv_status i = FUNDED.
Proof. unfold settleable. by rewrite andb_true_iff, Z.eqb_eq, bool_decide_eq_true. Qed.

Lemma settle_outcome_by_status (txHash : option string) (invoiceId : string) (onchainId ledger : Z)
    (d d' : db) (u : Prop) (r : outcome exn SettlementResult) :
  u → settle_outcome txHash invoiceId onchainId ledger d u r d' →
  by_status txHash invoiceId onchainId ledger d r d'.
Proof.
  intros Hup H. unfold by_status. pose proof (elem_of_with_id onchainId d) as Hl.
  destruct (with_id onchainId d) as [|i [|]]; [| |done].
  - assert (∀ i, ¬ (i ∈ rows d ∧ inv_onchainId i = onchainId)) as Hnone.
    { intros i Hi%Hl. by apply elem_of_nil in Hi. }
    destruct r as [[]|e]; cbn in H.
    + destruct H as [(i & ? & [? ?]%settleable_true) _]. by destruct (Hnone i).
    + destruct H as (_ & (i & ? & ? & _) & _). by destruct (Hnone i).
    + destruct H as [[? H]|[? _]]; [|done]. destruct (H Hup) as [_ [[-> _]|(i & ? & ? & _)]]; [done|].
      by destruct (Hnone i).
  - assert (∀ j, j ∈ rows d → inv_onchainId j = onchainId → j = i) as Honly.
    { intros j ? ?. apply list_elem_of_singleton. by apply Hl. }
    assert (i ∈ rows d ∧ inv_onchainId i = onchainId) as [Hi Ho] by (apply Hl; by left).
    destruct r as [[]|e]; cbn in H.
    + pose proof H as [(j & Hj & [? Hs]%settleable_true) _]. rewrite (Honly j) in Hs by done. by rewrite Hs.
    + destruct H as (? & (j & ? & ? & Hs) & _). rewrite (Honly j) in Hs by done. by rewrite Hs.
    + destruct H as [[? H]|[? _]]; [|done]. destruct (H Hup) as [_ [[_ Hn]|(j & ? & ? & Hs & Hs' & ->)]].
      * by destruct (Hn i Hi).
      * rewrite (Honly j) in * by done. by destruct (inv_status i).
Qed.


Lemma with_id_settles (onchainId ledger : Z) (txHash : option string) (d d' : db) :
  settles onchainId ledger txHash d d' →
  ∃ now g, with_id onchainId d' =
    map (λ i, if settleable onchainId i then mark_repaid ledger now g i else i) (with_id onchainId d).
Proof.
  intros (_ & now & g & nanos & g2 & Hd'). exists now, g. unfold with_id.
  assert (rows d' = map_if (settleable onchainId) (mark_repaid ledger now g) (rows d)) as -> by by rewrite Hd'.
  clear Hd'. unfold map_if. induction (rows (R:=Invoice) d) as [|i l IH]; [done|]. cbn [map List.filter].
  rewrite IH. destruct (settleable onchainId i) eqn:Es; cbn; destruct (_ =? _) eqn:E; cbn; by rewrite ?Es.
Qed.


(** With the handle that the application injects, [PrismaService], which defines no
    member [$transaction], settling throws a TypeError on every input and changes nothing. *)
Theorem settleInvoice_injected_throws (global_txHash : option (option string)) (invoiceId : string)
    (ledger : Z) (tx : option string) (w : W) :
  ∃ msg, settleInvoice PrismaService.surface global_txHash invoiceId ledger tx w
         = (Throw (TypeError msg), w).
Proof. apply PrismaService.via_out. apply (bool_decide_unpack _). vm_compute. exact I. Qed.

(** Where the global object has no property [txHash], settling a FUNDED invoice always
    fails, with a ReferenceError when the database is reachable, and the rolled-back
    transaction leaves the invoice FUNDED: no invoice is ever settled. *)
Theorem settle_unbound_txHash (h : PrismaService.handle) (invoiceId : string) (onchainId ledger : Z)
    (w : W) (Hdb : PrismaService.m_db ∈ h) (Hid : BigInt_of_string invoiceId = Some onchainId)
    (Hfunded : existsb (settleable onchainId) (rows (tables w)) = true) :
  wp (settleInvoiceWithTx h None invoiceId ledger)
     (λ r w', tables w' = tables w ∧ ∃ e, r = Throw e ∧ (up w → e = ReferenceError "txHash")) w.
Proof.
  assert (0 < count_if (settleable onchainId) (rows (tables w))) as Hpos.
  { apply existsb_exists in Hfunded as (i & ? & ?). apply count_if_pos. exists i. by rewrite list_elem_of_In. }
  unfold settleInvoiceWithTx, BigInt, settle_tx. rewrite Hid.
  wp_step. wp_step. wp_step. rewrite PrismaService.via_in by done. wp_op.
  - unfold refuses in *. split; [tauto|]. eexists. split; [done|tauto].
  - wp_steps; wp_tables; bool_to_prop; try lia.
    all: split; [done|]; eexists; split; [done|]; intros Hu; try done.
    destruct H6 as [(g & i & _ & Hk) _]; [auto|]. by rewrite same_keys_mark_repaid in Hk.
Qed.
End proofs.
End SettlementService.

(** ** [sync-cursor.service.ts] *)
Module SyncCursorService.

Definition CURSOR_ID : Z := 1.

(** [{ where: { id: CURSOR_ID } }] *)
Definition at_cursor (row : SyncCursor) : bool := cur_id row =? CURSOR_ID.

Section service.
Context {W : Type} `{!Prisma W}.
Variable h : PrismaService.handle.

Definition getLastLedger : M exn W Z :=
  row ← PrismaService.via h PrismaService.m_syncCursor (find_unique at_cursor);
  mret (default 0 (cur_lastLedger <$> row)).

Definition write_cursor (ledger : Z) : M exn W SyncCursor :=
  upsert at_cursor (λ _, mkSyncCursor CURSOR_ID ledger) (λ _ row, mkSyncCursor (cur_id row) ledger).

(** [in_tx]: a transaction client is supplied; it has the [syncCursor] delegate. *)
Definition setLastLedger (ledger : Z) (in_tx : bool) : M exn W unit :=
  _ ← (if in_tx then write_cursor ledger
       else PrismaService.via h PrismaService.m_syncCursor (write_cursor ledger));
  mret tt.
End service.

(** The ledger a database's cursor stands at: 0 before the first run. *)
Definition cursor (d : db) : Z :=
  match List.find at_cursor (rows d) with Some row => cur_lastLedger row | None => 0 end.

(** The primary key admits one cursor row. *)
Definition one_cursor (d : db) : Prop := count_if at_cursor (rows d) <= 1.

(** The database [d] with its cursor row set to [ledger]. *)
Definition moved (ledger : Z) (d d' : db) : Prop :=
  d' = set_rows (rows (R:=SyncCursor) d') d ∧ cursor d' = ledger ∧ (one_cursor d → one_cursor d').

Lemma find_map_cursor (ledger : Z) (l : list SyncCursor) :
  existsb at_cursor l = true →
  match List.find at_cursor (map_if at_cursor (λ row, mkSyncCursor (cur_id row) ledger) l) with
  | Some row => cur_lastLedger row | None => 0 end = ledger.
Proof.
  unfold map_if. induction l as [|r l IH]; cbn; [done|]. destruct (at_cursor r) eqn:E; cbn.
  - unfold at_cursor in *. cbn. by rewrite E.
  - rewrite E. apply IH.
Qed.

Lemma find_none_app (l : list SyncCursor) (r : SyncCursor) :
  existsb at_cursor l = false → at_cursor r = true → List.find at_cursor (l ++ [r]) = Some r.
Proof.
  induction l as [|a l IH]; cbn; [by intros _ ->|]. destruct (at_cursor a); cbn; [done|auto].
Qed.

Lemma count_map_cursor (ledger : Z) (l : list SyncCursor) :
  count_if at_cursor (map_if at_cursor (λ row, mkSyncCursor (cur_id row) ledger) l) = count_if at_cursor l.
Proof.
  unfold count_if, map_if. f_equal. induction l as [|r l IH]; [done|]. cbn.
  destruct (at_cursor r) eqn:E; cbn; unfold at_cursor in *; cbn in *; rewrite E; cbn; by rewrite IH.
Qed.

Lemma moved_upsert (ledger : Z) (d : db) :
  moved ledger d
    (set_rows (if existsb at_cursor (rows d)
               then map_if at_cursor (λ row, mkSyncCursor (cur_id row) ledger) (rows d)
               else rows d ++ [mkSyncCursor CURSOR_ID ledger]) d).
Proof.
  unfold moved, cursor, one_cursor. rewrite rows_set_rows. split; [done|].
  destruct (existsb at_cursor (rows d)) eqn:E.
  - split; [by apply find_map_cursor|]. by rewrite count_map_cursor.
  - split; [by rewrite find_none_app|]. intros _. rewrite count_if_app.
    rewrite existsb_false_forall in E. apply count_if_zero in E. rewrite E. done.
Qed.

Section proofs.
Context {W : Type} `{!Prisma W} `{!PrismaLaws W}.

Lemma cursor_find (d : db) (r : SyncCursor) :
  one_cursor d → r ∈ rows d → at_cursor r = true → cursor d = cur_lastLedger r.
Proof.
  unfold one_cursor, cursor, count_if. generalize (rows (R:=SyncCursor) d) as l. clear d.
  induction l as [|a l IH]; cbn; intros Hone Hin Hr; [by apply elem_of_nil in Hin|].
  destruct (at_cursor a) eqn:E; cbn in *.
  - apply elem_of_cons in Hin as [->|Hin]; [done|]. exfalso.
    assert (0 < count_if at_cursor l) by (apply count_if_pos; eauto). unfold count_if in *. lia.
  - apply elem_of_cons in Hin as [->|Hin]; [congruence|auto].
Qed.

Lemma wp_getLastLedger (h : PrismaService.handle) (Φ : outcome exn Z → W → Prop) (w : W) :
  PrismaService.m_syncCursor ∈ h → one_cursor (tables w) →
  (∀ w', commits w w' (tables w) → Φ (Ret (cursor (tables w))) w') →
  (∀ e w', refuses w w' False → Φ (Throw e) w') →
  wp (getLastLedger h) Φ w.
Proof.
  intros Hh Hone Hok Hno. unfold getLastLedger. rewrite PrismaService.via_in by done. wp_steps.
  - rewrite <- (cursor_find (tables w) r) by done. auto.
  - assert (cursor (tables w) = 0) as <-; [|auto]. unfold cursor.
    pose proof (find_existsb at_cursor (rows (tables w))) as Hf.
    destruct (List.find _ _); [|done]. destruct Hf.
    match goal with H : existsb _ _ = false |- _ => rewrite existsb_false_forall in H; rewrite H in * by done end. done.
  - auto.
Qed.

Lemma wp_setLastLedger (h : PrismaService.handle) (ledger : Z) (in_tx : bool)
    (Φ : outcome exn unit → W → Prop) (w : W) :
  PrismaService.m_syncCursor ∈ h →
  (∀ w', moved ledger (tables w) (tables w') → (up w → up w') → Φ (Ret tt) w') →
  (∀ e w', refuses w w' False → Φ (Throw e) w') →
  wp (setLastLedger h ledger in_tx) Φ w.
Proof.
  intros Hh Hok Hno. unfold setLastLedger, write_cursor. rewrite PrismaService.via_in by done.
  assert ((if in_tx then upsert at_cursor (λ _, mkSyncCursor CURSOR_ID ledger) (λ _ row, mkSyncCursor (cur_id row) ledger)
           else upsert at_cursor (λ _, mkSyncCursor CURSOR_ID ledger) (λ _ row, mkSyncCursor (cur_id row) ledger) : M exn W _)
          = upsert at_cursor (λ _, mkSyncCursor CURSOR_ID ledger) (λ _ row, mkSyncCursor (cur_id row) ledger)) as ->
    by by destruct in_tx.
  wp_steps; wp_tables.
  - apply Hok; [|done]. match goal with Ht : tables _ = _ |- _ => rewrite Ht end. apply moved_upsert.
  - apply Hno. split; [done|]. intros Hu. exfalso.
    match goal with H : up w → _ |- _ => destruct (H Hu) as [[(_ & r & _ & Hk)|(Hn & _ & Hc)] _] end.
    + cbn in Hk. by rewrite Z.eqb_refl in Hk.
    + apply existsb_exists in Hc as (x & Hx & Hc). rewrite existsb_false_forall in Hn.
      specialize (Hn x). rewrite list_elem_of_In in Hn. specialize (Hn Hx). change (CURSOR_ID =? cur_id x = true) in Hc. unfold at_cursor in Hn.
      bool_to_prop. congruence.
Qed.
End proofs.
End SyncCursorService.
