(* ===== verification/SettlementSync.v ===== *)
(** * The settlement listener ([settlement/settlement-sync.service.ts],
    [settlement/soroban-events.service.ts])

    One poll cycle fetches contract events from the persisted cursor on, settles each invoice
    with retries, and moves the cursor; [backfill] re-applies a ledger range. *)
From S2P Require Import Prelude Js Schema Errors Prisma PrismaService Retry Interfaces Invoices SettlementEvents Settlement WebhookDispatch.
Import SettlementEventParser SettlementService SyncCursorService.
Open Scope Z_scope.

(** ** [soroban-events.service.ts] *)
Module SorobanEventsService.

(** An event of the RPC response; [topic] may be missing. *)
Record RawEvent (Entry : Type) := mkRawEvent {
  r_ledger : Z;
  r_contractId : option string;
  r_topic : option (list Entry);
  r_value : Entry;
  r_txHash : option string }.
Arguments mkRawEvent {Entry}.
Arguments r_ledger {Entry}.
Arguments r_contractId {Entry}.
Arguments r_topic {Entry}.
Arguments r_value {Entry}.
Arguments r_txHash {Entry}.

(** The Stellar SDK: the RPC server, and the decoding of an XDR entry ([scValToNative] of
    [xdr.ScVal.fromXDR]), which may throw; [as_is] is the entry itself as a JavaScript value. *)
Class StellarRpc (W : Type) := {
  Entry : Type;
  rpc_getLatestLedger : M exn W Z;
  rpc_getEvents : Z → list string → M exn W (list (RawEvent Entry) * Z);
  scValToNative : Entry → outcome exn JsValue;
  as_is : Entry → JsValue }.

Class StellarRpcLaws (W : Type) `{!Prisma W} `{!StellarRpc W} := {
  getLatestLedger_law : ∀ w,
    commits w (rpc_getLatestLedger w).2 (tables w) ∧
    match (rpc_getLatestLedger w).1 with Ret n => 1 <= n | Throw _ => True end;
  getEvents_law : ∀ start filters w, commits w (rpc_getEvents start filters w).2 (tables w) }.

(** [INVOICE_CONTRACT_ID], a comma-separated list. *)
Definition parse_contractIds (config : option string) : list string :=
  List.filter truthy (map trim (split "," (default EmptyString config))).

Section service.
Context {W : Type} `{!StellarRpc W}.
Variable contractIds : list string.

Definition decode (entry : Entry) : JsValue :=
  match scValToNative entry with
  | Ret v => v
  | Throw _ => as_is entry
  end.

Definition normalize (event : RawEvent Entry) : NormalizedEvent :=
  {| e_ledger := r_ledger event; e_contractId := default EmptyString (r_contractId event);
     e_topics := map decode (default [] (r_topic event)); e_value := decode (r_value event);
     e_txHash := r_txHash event |}.

Definition getLatestLedger : M exn W Z := rpc_getLatestLedger.

Definition fetchEvents (startLedger : Z) : M exn W (list NormalizedEvent * Z) :=
  response ← rpc_getEvents startLedger contractIds;
  mret (map normalize response.1, response.2).
End service.

Section rules.
Context {W : Type} `{!Prisma W} `{!StellarRpc W} `{!StellarRpcLaws W}.

Lemma wp_getLatestLedger (Φ : outcome exn Z → W → Prop) (w : W) :
  (∀ n w', commits w w' (tables w) → 1 <= n → Φ (Ret n) w') →
  (∀ e w', commits w w' (tables w) → Φ (Throw e) w') → wp getLatestLedger Φ w.
Proof.
  intros H1 H2. unfold wp, getLatestLedger. destruct (getLatestLedger_law w).
  destruct (rpc_getLatestLedger w) as [[n|e] w']; cbn in *; auto.
Qed.

Lemma wp_fetchEvents (contractIds : list string) (startLedger : Z)
    (Φ : outcome exn (list NormalizedEvent * Z) → W → Prop) (w : W) :
  (∀ l n w', commits w w' (tables w) → Φ (Ret (l, n)) w') →
  (∀ e w', commits w w' (tables w) → Φ (Throw e) w') → wp (fetchEvents contractIds startLedger) Φ w.
Proof.
  intros H1 H2. unfold fetchEvents. apply wp_bind. unfold wp at 1.
  pose proof (getEvents_law startLedger contractIds w) as Hl.
  destruct (rpc_getEvents startLedger contractIds w) as [[r|e] w']; cbn in *; [apply wp_ret|]; auto.
Qed.
End rules.
End SorobanEventsService.

(** ** [settlement-sync.service.ts] *)
Module SettlementSyncService.
Import SorobanEventsService.

Record SyncSummary := mkSyncSummary { processed : Z; settled : Z; gaps : Z }.

(** *** Gap detection *)

(** [[...new Set(ledgers)].sort((a, b) => a - b)] *)
Definition distinct_sorted (ledgers : list Z) : list Z := merge_sort Z.le (remove_dups ledgers).

Fixpoint internal_gaps (prev : Z) (ledgers : list Z) : Z :=
  match ledgers with
  | [] => 0
  | curr :: rest => (if 1 <? curr - prev then 1 else 0) + internal_gaps curr rest
  end.

Definition detectGaps (lastProcessedLedger : Z) (events : list NormalizedEvent) : Z :=
  match distinct_sorted (map e_ledger events) with
  | [] => 0
  | firstLedger :: rest =>
      let expectedFirst := lastProcessedLedger + 1 in
      (if (0 <? lastProcessedLedger) && (expectedFirst <? firstLedger) then 1 else 0)
      + internal_gaps firstLedger rest
  end.

(** *** Lemmas on gap detection *)

Lemma distinct_sorted_spec (l : list Z) :
  StronglySorted Z.lt (distinct_sorted l) ∧ ∀ k, k ∈ distinct_sorted l ↔ k ∈ l.
Proof.
  assert (distinct_sorted l ≡ₚ remove_dups l) as Hp by apply merge_sort_Permutation.
  assert (NoDup (distinct_sorted l)) as Hnd by (rewrite Hp; apply NoDup_remove_dups).
  assert (StronglySorted Z.le (distinct_sorted l)) as Hs by apply (StronglySorted_merge_sort _ _).
  split; [|intros k; by rewrite Hp, elem_of_remove_dups].
  induction (distinct_sorted l) as [|a k IH]; [constructor|].
  inversion Hs as [|? ? Hs' Hle]; inversion Hnd as [|? ? Hnin Hnd']; subst.
  assert (Permutation k k) as Hrefl by done. constructor.
  - clear Hp. revert Hs' Hnd'. clear. induction k as [|b k IH]; [constructor|]. intros Hs Hnd.
    inversion Hs as [|? ? Hs' Hle]; inversion Hnd as [|? ? Hnin Hnd']; subst. constructor; [auto|].
    rewrite Forall_forall in *. intros x Hx. specialize (Hle x Hx). assert (b ≠ x) by congruence. lia.
  - rewrite Forall_forall in *. intros x Hx. specialize (Hle x Hx). assert (a ≠ x) by congruence. lia.
Qed.

Lemma internal_gaps_nonneg (prev : Z) (l : list Z) : 0 <= internal_gaps prev l.
Proof. revert prev. induction l as [|a l IH]; intros prev; cbn; [lia|]. specialize (IH a). case_match; lia. Qed.

Lemma internal_gaps_zero (prev : Z) (l : list Z) :
  StronglySorted Z.lt (prev :: l) →
  internal_gaps prev l = 0 ↔ ∀ x k, x ∈ l → prev < k <= x → k ∈ l.
Proof.
  revert prev. induction l as [|a l IH]; intros prev Hs; cbn; [set_solver|].
  inversion Hs as [|? ? Hs' Hlt]; subst. rewrite Forall_forall in Hlt.
  inversion Hs' as [|? ? _ Hlt']; subst. rewrite Forall_forall in Hlt'.
  pose proof (internal_gaps_nonneg a l). specialize (IH a Hs').
  assert (prev < a) by (apply Hlt; by left). destruct (Z.ltb_spec 1 (a - prev)).
  - split; [lia|]. intros Hall. exfalso.
    assert (prev + 1 ∈ a :: l) as Hin by (apply (Hall a); [by left|lia]).
    apply elem_of_cons in Hin as [?|Hin]; [lia|]. specialize (Hlt' _ Hin). lia.
  - rewrite Z.add_0_l, IH. split.
    + intros Hall x k [->|Hx]%elem_of_cons Hk; [assert (k = a) as -> by lia; by left|].
      destruct (decide (k <= a)); [assert (k = a) as -> by lia; by left|right]. apply (Hall x); [done|lia].
    + intros Hall x k Hx Hk. assert (k ∈ a :: l) as Hin by (apply (Hall x); [by right|lia]).
      apply elem_of_cons in Hin as [->|?]; [lia|done].
Qed.

(** For events beyond a positive cursor, gap detection reports no gap exactly when every
    ledger from the one after the cursor up to the last event is present, whatever the order
    and multiplicity of the events; the count of gaps is never negative. *)
Theorem detectGaps_zero_iff_contiguous (last : Z) (events : list NormalizedEvent)
    (Hlast : 0 < last) (Hev : ∀ e, e ∈ events → last < e_ledger e) :
  0 <= detectGaps last events ∧
  (detectGaps last events = 0 ↔
   ∀ e k, e ∈ events → last < k <= e_ledger e → ∃ e', e' ∈ events ∧ e_ledger e' = k).
Proof.
  destruct (distinct_sorted_spec (map e_ledger events)) as [Hs Hin].
  assert (detectGaps last events = internal_gaps last (distinct_sorted (map e_ledger events))) as Heq.
  { unfold detectGaps. destruct (distinct_sorted _) as [|a l]; [done|]. cbn. f_equal.
    rewrite (proj2 (Z.ltb_lt 0 last)) by lia. cbn. repeat case_match; bool_to_prop; lia. }
  assert (∀ k, k ∈ map e_ledger events ↔ ∃ e, e ∈ events ∧ e_ledger e = k) as Hm.
  { intros k. rewrite list_elem_of_In, in_map_iff. setoid_rewrite list_elem_of_In. split; intros (? & ? & ?); eauto. }
  rewrite Heq. split; [apply internal_gaps_nonneg|]. rewrite internal_gaps_zero.
  - split.
    + intros Hall e k He Hk. apply Hm, Hin, (Hall (e_ledger e)); [|done]. apply Hin, Hm. eauto.
    + intros Hall x k Hx Hk. apply Hin, Hm in Hx as (e & He & <-). apply Hin, Hm. eauto.
  - constructor; [done|]. apply Forall_forall. intros x Hx.
    apply Hin, Hm in Hx as (e & He & <-). auto.
Qed.

Section service.
Context {W : Type} `{!Prisma W} `{!Clock W} `{!Timer W} `{!Hrtime W} `{!InvoiceEventSink W} `{!StellarRpc W}.
Variable h : PrismaService.handle.
Variable global_txHash : option (option string).
Variable contractIds : list string.
(** [SETTLEMENT_MAX_ATTEMPTS] and [SETTLEMENT_RETRY_BASE_MS] *)
Variable maxAttempts baseDelayMs : Z.

(** [onRetry] only logs. *)
Definition retry_options : Retry.RetryOptions W :=
  Retry.mkRetryOptions (Some maxAttempts) (Some baseDelayMs) None None.

Definition settle_retrying (se : SettlementEvent) (txHash : option string) : M exn W SettlementResult :=
  Retry.withRetry (settleInvoice h global_txHash (se_invoiceId se) (se_ledger se) txHash) retry_options.

(** The loop variables of [syncOnce]: [processed], [settled] and [safeLedger]. *)
Record Progress := mkProgress { p_processed : Z; p_settled : Z; p_safeLedger : Z }.

Definition bump (result : SettlementResult) : Z := if bool_decide (result = SETTLED) then 1 else 0.

(** The body of [syncOnce]'s loop; [inr] is its early [return]. *)
Definition sync_event (gaps : Z) (p : Progress) (event : NormalizedEvent)
    : M exn W (Progress + SyncSummary) :=
  match parseSettlementEvent event with
  | None => mret (inl (mkProgress (p_processed p) (p_settled p) (Z.max (p_safeLedger p) (e_ledger event))))
  | Some parsed =>
      let processed := p_processed p + 1 in
      try_catch
        (result ← settle_retrying parsed (se_txHash parsed);
         mret (inl (mkProgress processed (p_settled p + bump result)
                               (Z.max (p_safeLedger p) (e_ledger event)))))
        (λ _, _ ← setLastLedger h (Z.max 0 (p_safeLedger p)) false;
              mret (inr (mkSyncSummary processed (p_settled p) gaps)))
  end.

(** From the initialisation of [safeLedger] to the end of [syncOnce]. *)
Definition sync_batch (startLedger latestLedger gaps : Z) (events : list NormalizedEvent)
    : M exn W SyncSummary :=
  r ← for_of events (mkProgress 0 0 (startLedger - 1)) (sync_event gaps);
  match r with
  | inr summary => mret summary
  | inl p =>
      let newCursor := Z.max (p_safeLedger p) latestLedger in
      _ ← setLastLedger h newCursor false;
      mret (mkSyncSummary (p_processed p) (p_settled p) gaps)
  end.

Definition syncOnce : M exn W SyncSummary :=
  lastLedger ← getLastLedger h;
  startLedger ← (if 0 <? lastLedger then mret (lastLedger + 1) else getLatestLedger);
  fetched ← fetchEvents contractIds startLedger;
  let gaps := match fetched.1 with [] => 0 | _ => detectGaps lastLedger fetched.1 end in
  sync_batch startLedger fetched.2 gaps fetched.1.

(** [tick]: [running] is the flag of the service object. *)
Definition tick (running : bool) : M exn W bool :=
  if running then mret running
  else try_catch (_ ← syncOnce; mret false) (λ _, mret false).

(** The body of [backfill]'s loop: a failed event is logged and skipped. *)
Definition backfill_event (p : Progress) (event : NormalizedEvent) : M exn W (Progress + unit) :=
  match parseSettlementEvent event with
  | None => mret (inl p)
  | Some parsed =>
      let processed := p_processed p + 1 in
      try_catch
        (result ← settle_retrying parsed None;
         mret (inl (mkProgress processed (p_settled p + bump result) (p_safeLedger p))))
        (λ _, mret (inl (mkProgress processed (p_settled p) (p_safeLedger p))))
  end.

Definition in_range (fromLedger toLedger : Z) (e : NormalizedEvent) : bool :=
  (fromLedger <=? e_ledger e) && (e_ledger e <=? toLedger).

Definition backfill (fromLedger toLedger : Z) : M exn W SyncSummary :=
  fetched ← fetchEvents contractIds fromLedger;
  let rangeEvents := List.filter (in_range fromLedger toLedger) fetched.1 in
  let gaps := detectGaps (fromLedger - 1) rangeEvents in
  r ← for_of rangeEvents (mkProgress 0 0 0) backfill_event;
  match r with
  | inl p => mret (mkSyncSummary (p_processed p) (p_settled p) gaps)
  | inr _ => mret (mkSyncSummary 0 0 gaps)
  end.

(** Not called by any code of the service. *)
Definition applyEventAtomically (invoiceId : string) (ledger eventLedger : Z) : M exn W SettlementResult :=
  PrismaService.via h PrismaService.m_transaction (transaction (
    result ← settleInvoiceWithTx h global_txHash invoiceId ledger;
    _ ← setLastLedger h eventLedger true;
    mret result)).
End service.

(** *** What a cycle does to the invoices and to the cursor *)

(** No invoice with the on-chain id waits for its settlement. *)
Definition applied (onchainId : Z) (d : db) : Prop :=
  ∀ i, i ∈ rows d → settleable onchainId i = false.

Lemma settles_invoices (onchainId ledger : Z) (txHash : option string) (d d' : db) :
  settles onchainId ledger txHash d d' →
  ∃ now g, rows d' = map_if (settleable onchainId) (mark_repaid ledger now g) (rows d).
Proof. intros (_ & now & g & nanos & g2 & ->). by exists now, g. Qed.

Lemma settles_applied (m onchainId ledger : Z) (txHash : option string) (d d' : db) :
  settles onchainId ledger txHash d d' → applied m d ∨ m = onchainId → applied m d'.
Proof.
  intros (now & g & Hr)%settles_invoices Hm i Hi. rewrite Hr in Hi.
  apply elem_of_map_if in Hi as (j & Hj & ->). destruct (settleable onchainId j) eqn:E.
  - unfold settleable. cbn. by rewrite andb_false_r.
  - destruct Hm as [Hm| ->]; [by apply Hm|done].
Qed.

Section proofs.
Context {W : Type} `{!Prisma W} `{!Clock W} `{!Timer W} `{!Hrtime W} `{!InvoiceEventSink W} `{!StellarRpc W}
  `{!PrismaLaws W} `{!ClockLaws W} `{!TimerLaws W} `{!HrtimeLaws W} `{!InvoiceEventSinkLaws W} `{!StellarRpcLaws W}.
Implicit Types (w : W) (h : PrismaService.handle).

(** A retried settlement of a parsed event keeps what is applied, and applies its invoice if
    it succeeds. *)
Lemma settle_retrying_spec h (global : option string) (max base : Z) (se : SettlementEvent)
    (txHash : option string) (n : Z) w :
  wired h → BigInt_of_string (se_invoiceId se) = Some n →
  wp (settle_retrying h (Some global) max base se txHash)
     (λ r w', (∀ m, applied m (tables w) → applied m (tables w')) ∧
              match r with Ret _ => applied n (tables w') | Throw _ => True end) w.
Proof.
  intros Hw Hid. unfold settle_retrying.
  apply (Retry.wp_withRetry _ _ (λ w', ∀ m, applied m (tables w) → applied m (tables w'))); try done.
  intros w1 HI. eapply wp_mono; [by apply settleInvoice_spec|]. intros r w2 [H _].
  assert (∀ m, applied m (tables w1) → applied m (tables w2)) as Hkeep.
  { intros m Hm. destruct r as [[]|e]; cbn in H.
    - eapply settles_applied; eauto.
    - destruct H as [-> _]. done.
    - destruct H as [[-> _]|[_ H]]; [done|]. eapply settles_applied; eauto. }
  destruct r as [[]|e]; cbn in H.
  - split; [auto|]. eapply settles_applied; eauto.
  - split; [auto|]. destruct H as (-> & _ & ?). done.
  - split; [auto|]. intros ms m Hm. destruct (sleep_law ms w2) as [-> _]. auto.
Qed.

(** Settling never touches the cursor, whatever the handle and however it ends. *)
Lemma settle_frame h (global : option (option string)) (id : string) (ledger : Z) (txHash : option string) :
  keeps (W:=W) (rows (R:=SyncCursor)) (settleInvoice h global id ledger txHash).
Proof.
  unfold settleInvoice, settleInvoiceWithTx, settle_tx, read_txHash, InvoiceEventService.appendInvoiceEvent,
    InvoiceEventService.nowNanos.
  apply PrismaService.keeps_via. repeat keeps_step. apply PrismaService.keeps_via. repeat keeps_step.
Qed.

Lemma settle_retrying_frame h (global : option (option string)) (max base : Z) (se : SettlementEvent)
    (txHash : option string) :
  keeps (W:=W) (rows (R:=SyncCursor)) (settle_retrying h global max base se txHash).
Proof. apply Retry.keeps_withRetry; [done|apply settle_frame]. Qed.

(** The databases with the same cursor rows. *)
Lemma cursor_rows (d d' : db) :
  rows (R:=SyncCursor) d' = rows d → cursor d' = cursor d ∧ (one_cursor d → one_cursor d').
Proof. unfold cursor, one_cursor. by intros ->. Qed.

Lemma sync_batch_monotone h (global : option (option string)) (max base startLedger latest g : Z)
    (events : list NormalizedEvent) w :
  PrismaService.m_syncCursor ∈ h → cursor (tables w) <= startLedger - 1 →
  wp (sync_batch h global max base startLedger latest g events)
     (λ _ w', cursor (tables w) <= cursor (tables w') ∧ (one_cursor (tables w) → one_cursor (tables w'))) w.
Proof.
  intros Hh Hstart. unfold sync_batch. apply wp_bind.
  apply (wp_for_of (λ _ p w', rows (R:=SyncCursor) (tables w') = rows (tables w) ∧ startLedger - 1 <= p_safeLedger p)).
  - intros done ev todo p w1 _ [Hrows Hsafe]. unfold sync_event.
    destruct (parseSettlementEvent ev) as [se|]; [|apply wp_ret; cbn; split; [done|lia]].
    apply wp_try, wp_bind. eapply wp_mono; [eapply keeps_wp, settle_retrying_frame|].
    intros [result|e] w2 H2; [apply wp_ret; cbn; split; [congruence|lia]|].
    rewrite Hrows in H2. apply cursor_rows in H2 as [Hc Hone].
    apply wp_bind, wp_setLastLedger; [done|intros w3 (_ & Hw3 & Hone3) _; apply wp_ret, wp_ret|];
      [|intros e' w3 [-> _]]; cbn; split; try lia; tauto.
  - intros p w1 [Hrows Hsafe]. apply cursor_rows in Hrows as [Hc Hone].
    apply wp_bind, wp_setLastLedger; [done|intros w3 (_ & Hw3 & Hone3) _; apply wp_ret|];
      [|intros e' w3 [-> _]]; cbn; split; try lia; tauto.
  - split; [done|cbn; lia].
Qed.

(** The persisted cursor never moves backwards: whatever a poll cycle fetches, however
    its settlements, retries and writes fail and however it ends, the ledger stored
    afterwards is at least the one stored before (and the cursor row stays unique). *)
Theorem syncOnce_monotone h (global : option (option string)) (contractIds : list string)
    (max base : Z) w (Hh : PrismaService.m_syncCursor ∈ h) (Hone : one_cursor (tables w)) :
  wp (syncOnce h global contractIds max base)
     (λ _ w', cursor (tables w) <= cursor (tables w') ∧ one_cursor (tables w')) w.
Proof.
  unfold syncOnce. apply wp_bind, wp_getLastLedger; [done..| |intros e w' [-> _]; done].
  intros w1 [H1 _]. apply wp_bind.
  assert (wp (if 0 <? cursor (tables w) then mret (cursor (tables w) + 1) else getLatestLedger)
    (λ r w', tables w' = tables w ∧ match r with Ret s => cursor (tables w) <= s - 1 | Throw _ => True end) w1) as Hs.
  { destruct (Z.ltb_spec 0 (cursor (tables w))).
    - apply wp_ret. split; [done|lia].
    - apply wp_getLatestLedger; intros; unfold commits in *; (split; [|try lia; done]); destruct_and?; congruence. }
  eapply wp_mono; [exact Hs|]. intros [s|e] w2 [H2 Hs2]; [|by rewrite H2].
  apply wp_bind, wp_fetchEvents; [|intros e w3 [-> _]; by rewrite H2].
  intros l n w3 [H3 _]. cbv zeta. rewrite H2 in H3. rewrite <- H3 in *.
  eapply wp_mono; [by apply sync_batch_monotone|]. cbn. tauto.
Qed.

(** The scheduler entry point never throws, does nothing while a cycle is running, and
    always leaves the [running] flag cleared after its own cycle. *)
Theorem tick_never_throws h (global : option (option string)) (contractIds : list string)
    (max base : Z) (running : bool) w :
  wp (tick h global contractIds max base running)
     (λ r w', r = Ret running ∧ (running = true → w' = w)) w.
Proof.
  unfold tick. destruct running; [by apply wp_ret|]. apply wp_try, wp_bind. unfold wp at 1.
  by destruct (syncOnce _ _ _ _ _ w) as [[s|e] w']; cbn.
Qed.

(** Back-filling a ledger range never moves the live cursor, and once its events are
    fetched it runs to the end of the range whatever its settlements do: it can throw only
    when the RPC request itself failed. *)
Theorem backfill_keeps_cursor h (global : option (option string)) (contractIds : list string)
    (max base fromLedger toLedger : Z) w :
  wp (backfill h global contractIds max base fromLedger toLedger)
     (λ r w', cursor (tables w') = cursor (tables w) ∧
              match r with
              | Ret _ => True
              | Throw e => ∃ w1, fetchEvents contractIds fromLedger w = (Throw e, w1)
              end) w.
Proof.
  unfold backfill. apply wp_bind. unfold wp at 1.
  assert (keeps (W:=W) (rows (R:=SyncCursor)) (fetchEvents contractIds fromLedger)) as Hf.
  { apply wp_keeps. intros w0. apply wp_fetchEvents; unfold commits; intros; destruct_and?; congruence. }
  specialize (Hf w). destruct (fetchEvents contractIds fromLedger w) as [[l|e] w1] eqn:E; cbn in Hf |- *.
  2: { split; [|by exists w1]. by apply cursor_rows. }
  apply wp_bind, (wp_for_of (λ _ _ w', rows (R:=SyncCursor) (tables w') = rows (tables w))); [| |done].
  - intros done ev todo p w2 _ H2. unfold backfill_event.
    destruct (parseSettlementEvent ev) as [se|]; [|by apply wp_ret].
    apply wp_try, wp_bind. eapply wp_mono; [eapply keeps_wp, settle_retrying_frame|].
    intros [x|e] w3 H3; [apply wp_ret|apply wp_ret]; congruence.
  - intros p w2 H2. apply wp_ret. split; [|done]. by apply cursor_rows.
Qed.

(** Events in the order of their ledgers, at most one per ledger. *)
Definition one_per_ledger (events : list NormalizedEvent) : Prop :=
  StronglySorted (λ a b, e_ledger a < e_ledger b) events.

Lemma one_per_ledger_split (l1 l2 : list NormalizedEvent) (e : NormalizedEvent) :
  one_per_ledger (l1 ++ e :: l2) →
  (∀ a, a ∈ l1 → e_ledger a < e_ledger e) ∧ (∀ b, b ∈ l2 → e_ledger e < e_ledger b).
Proof.
  unfold one_per_ledger. induction l1 as [|a l1 IH]; cbn; intros H; inversion H as [|? ? Hs Hf]; subst.
  - split; [set_solver|]. by apply Forall_forall.
  - destruct (IH Hs) as [H1 H2]. split; [|done]. rewrite Forall_forall in Hf. set_solver.
Qed.

(** The settlement events of a list are applied in a database. *)
Definition all_applied (events : list NormalizedEvent) (d : db) : Prop :=
  ∀ e se n, e ∈ events → parseSettlementEvent e = Some se →
    BigInt_of_string (se_invoiceId se) = Some n → applied n d.

Lemma moved_applied (ledger n : Z) (d d' : db) : moved ledger d d' → applied n d → applied n d'.
Proof. intros [-> _] H. exact H. Qed.

(** With at most one event per ledger, a batch never moves the cursor past a settlement
    that was not applied: whether the batch completes or gives up at an event, every
    settlement event it fetched at or below the stored ledger has been applied (no FUNDED
    invoice with its id is left), so the next cycle re-fetches all the others. *)
Theorem batch_cursor_covers_applied h (global : option string) (max base startLedger latest g : Z)
    (events : list NormalizedEvent) w
    (Hw : wired h) (Hh : PrismaService.m_syncCursor ∈ h) (Hstart : 1 <= startLedger)
    (Hcur : cursor (tables w) < startLedger) (Hev : ∀ e, e ∈ events → startLedger <= e_ledger e)
    (Hsorted : one_per_ledger events) :
  wp (sync_batch h (Some global) max base startLedger latest g events)
     (λ _ w', all_applied (List.filter (λ e, e_ledger e <=? cursor (tables w')) events) (tables w')) w.
Proof.
  assert (∀ d k, (∀ e, e ∈ events → k < e_ledger e) → cursor d = k →
    all_applied (List.filter (λ e, e_ledger e <=? cursor d) events) d) as Hnone.
  { intros d k Hk Hc e se n He. rewrite list_elem_of_In, filter_In, <- list_elem_of_In in He.
    destruct He as [He Hle]. specialize (Hk e He). bool_to_prop. lia. }
  unfold sync_batch. apply wp_bind.
  apply (wp_for_of (λ done p w', all_applied done (tables w') ∧ cursor (tables w') = cursor (tables w) ∧
    (p_safeLedger p = startLedger - 1 ∨ ∃ e, e ∈ done ∧ p_safeLedger p = e_ledger e))).
  - intros done ev todo p w1 Hl (Happ & Hc1 & Hsafe). unfold sync_event.
    pose proof Hsorted as Hsp. rewrite Hl in Hsp. apply one_per_ledger_split in Hsp as [Hbefore Hafter].
    assert (startLedger <= e_ledger ev) as Hle by (apply Hev; set_solver).
    assert (p_safeLedger p < e_ledger ev) as Hlt.
    { destruct Hsafe as [->|(e & ? & ->)]; [lia|]. by apply Hbefore. }
    destruct (parseSettlementEvent ev) as [se|] eqn:Hp.
    2: { apply wp_ret; cbn. split; [|split; [done|right; exists ev; split; [set_solver|lia]]].
         intros e se n [?| ->%list_elem_of_singleton]%elem_of_app; [eauto|congruence]. }
    apply wp_try, wp_bind. pose proof (parsed_id ev se Hp) as [Hid _].
    eapply wp_mono; [apply wp_and; [by apply settle_retrying_spec|eapply keeps_wp, settle_retrying_frame]|].
    intros [result|e] w2 [[Hkeep Hres] [Hc2 _]%cursor_rows].
    + apply wp_ret; cbn. split; [|split; [congruence|right; exists ev; split; [set_solver|lia]]].
      intros e' se' n [?| ->%list_elem_of_singleton]%elem_of_app Hp' Hn; [by eapply Hkeep, Happ|].
      rewrite Hp in Hp'. injection Hp' as <-. rewrite Hid in Hn. by injection Hn as <-.
    + apply wp_bind, wp_setLastLedger; [done|intros w3 Hmv _; apply wp_ret, wp_ret|intros e' w3 [Ht _]].
      * pose proof Hmv as (_ & Hw3 & _). intros e' se' n He' Hp' Hn. eapply moved_applied; [done|].
        rewrite list_elem_of_In, filter_In, <- list_elem_of_In in He'. destruct He' as [He' Hle']. bool_to_prop.
        rewrite Hl in He'. apply Hkeep. apply elem_of_app in He' as [He'|[->|He']%elem_of_cons]; [by eapply Happ|lia|].
        specialize (Hafter e' He'). lia.
      * rewrite Ht. apply (Hnone _ (cursor (tables w))); [|congruence]. intros x Hx. specialize (Hev x Hx). lia.
  - intros p w1 (Happ & Hc1 & Hsafe).
    apply wp_bind, wp_setLastLedger; [done|intros w3 Hmv _; apply wp_ret|intros e' w3 [Ht _]].
    + intros e' se' n He' Hp' Hn. eapply moved_applied; [done|]. eapply Happ; [|done..].
      rewrite list_elem_of_In, filter_In, <- list_elem_of_In in He'. by destruct He'.
    + rewrite Ht. apply (Hnone _ (cursor (tables w))); [|congruence]. intros x Hx. specialize (Hev x Hx). lia.
  - split; [|split; [done|by left]]. intros e se n He. by apply elem_of_nil in He.
Qed.
End proofs.
End SettlementSyncService.

(** ** Concrete runs: an in-memory database with two invoices and one subscriber *)
Module SettlementExamples.
Import SettlementService SyncCursorService SorobanEventsService SettlementSyncService.

#[local] Existing Instance toy_crypto.
#[local] Instance example_sink : InvoiceEventSink mem := WebhookDispatchService.sink PrismaService.surface.

#[local] Instance example_sink_laws : InvoiceEventSinkLaws mem.
Proof.
  split. intros event w. apply WebhookDispatchService.dispatch_keeps_promise, WebhookDispatchService.wired_surface.
Qed.

(** An RPC that always answers with the same two events. *)
Definition raw_event (ledger id : Z) : RawEvent JsValue :=
  mkRawEvent ledger (Some "C"%string) (Some [JsString "invoice_settled"; JsBigInt id]) JsNull None.

#[local] Instance example_rpc : StellarRpc mem := {|
  Entry := JsValue;
  rpc_getLatestLedger := mret 5;
  rpc_getEvents := λ _ _, mret ([raw_event 10 1; raw_event 11 2], 11);
  scValToNative := λ v, Ret v;
  as_is := λ v, v |}.

#[local] Instance example_rpc_laws : StellarRpcLaws mem.
Proof. split; [intros w; split; [done|cbn; lia]|done]. Qed.

Definition invoice_ex (n : Z) (status : InvoiceStatus) : Invoice :=
  mkInvoice n n status 1000 "GF" None None (Some 5) None None None None None 0 0.

Definition event_at (ledger id : Z) : NormalizedEvent :=
  mkNormalizedEvent ledger "C" [JsString "invoice_settled"; JsBigInt id] JsNull None.

(** Invoice 1 is FUNDED, invoice 2 has the given status. *)
Definition world (status2 : InvoiceStatus) : mem :=
  mkMem (set_rows [invoice_ex 1 FUNDED; invoice_ex 2 status2]
           (set_rows [WebhookDispatchService.sub_ex "s1" ["*"] true] empty_db)) 1000 1 [].

Lemma wired_full : wired PrismaService.full_surface.
Proof. split; apply (bool_decide_unpack _); vm_compute; exact I. Qed.

Lemma cursor_member : PrismaService.m_syncCursor ∈ PrismaService.full_surface.
Proof. apply (bool_decide_unpack _); vm_compute; exact I. Qed.




Lemma settle_unbound_txHash_witness :
  let r := settleInvoiceWithTx PrismaService.surface None "1" 10 (world FUNDED) in
  tables r.2 = tables (world FUNDED) ∧ r.1 = Throw (ReferenceError "txHash").
Proof.
  destruct (settle_unbound_txHash PrismaService.surface "1" 1 10 (world FUNDED)) as (H & e & H1 & H2);
    [apply (bool_decide_unpack _); vm_compute; exact I|vm_compute; reflexivity|vm_compute; reflexivity|].
  split; [exact H|]. rewrite <- H2; [exact H1|vm_compute; reflexivity].
Defined.

Lemma syncOnce_monotone_witness :
  let r := syncOnce PrismaService.full_surface (Some None) [] 3 500 (world FUNDED) in
  r.1 = Ret (mkSyncSummary 2 2 0) ∧ cursor (tables r.2) = 11 ∧
  cursor (tables (world FUNDED)) <= cursor (tables r.2) ∧ one_cursor (tables r.2).
Proof.
  intros r. split; [vm_compute; reflexivity|]. split; [vm_compute; reflexivity|].
  apply (syncOnce_monotone PrismaService.full_surface (Some None) [] 3 500 (world FUNDED) cursor_member).
  vm_compute. discriminate.
Defined.

Lemma backfill_keeps_cursor_witness :
  let r := backfill PrismaService.full_surface (Some None) [] 3 500 11 11 (world FUNDED) in
  r.1 = Ret (mkSyncSummary 1 1 0) ∧ cursor (tables r.2) = cursor (tables (world FUNDED)) ∧
  map inv_status (rows (tables r.2)) = [FUNDED; REPAID].
Proof.
  intros r. split; [vm_compute; reflexivity|]. split; [|vm_compute; reflexivity].
  apply (backfill_keeps_cursor PrismaService.full_surface (Some None) [] 3 500 11 11 (world FUNDED)).
Defined.

Lemma detectGaps_zero_iff_contiguous_witness :
  detectGaps 9 [event_at 11 1; event_at 10 2; event_at 11 3] = 0 ∧ 0 <= detectGaps 9 [event_at 12 1] ∧
  detectGaps 9 [event_at 12 1; event_at 14 1] = 2.
Proof.
  split; [|split].
  - apply detectGaps_zero_iff_contiguous; [lia|..].
    + intros e He. repeat (apply elem_of_cons in He as [->|He]; [vm_compute; reflexivity|]). by apply elem_of_nil in He.
    + intros e k He Hk. assert (k = 10 ∨ k = 11) as [-> | ->].
      { repeat (apply elem_of_cons in He as [->|He]; [cbn in Hk; lia|]). by apply elem_of_nil in He. }
      * exists (event_at 10 2). split; [set_solver|done].
      * exists (event_at 11 1). split; [set_solver|done].
  - apply detectGaps_zero_iff_contiguous; [lia|].
    intros e He. apply list_elem_of_singleton in He as ->. vm_compute. reflexivity.
  - vm_compute. reflexivity.
Defined.

Lemma one_per_ledger_ex : one_per_ledger [event_at 10 1; event_at 11 2].
Proof. repeat constructor. Qed.

Lemma batch_cursor_covers_applied_witness :
  let r := sync_batch PrismaService.full_surface (Some None) 3 500 10 11 0
             [event_at 10 1; event_at 11 2] (world PENDING) in
  cursor (tables r.2) = 10 ∧ applied 1 (tables r.2).
Proof.
  intros r. split; [vm_compute; reflexivity|].
  assert (all_applied (List.filter (λ e, e_ledger e <=? cursor (tables r.2)) [event_at 10 1; event_at 11 2])
            (tables r.2)) as H.
  { apply (batch_cursor_covers_applied PrismaService.full_surface None 3 500 10 11 0
             [event_at 10 1; event_at 11 2] (world PENDING) wired_full cursor_member).
    - lia.
    - vm_compute. reflexivity.
    - intros e He. repeat (apply elem_of_cons in He as [->|He]; [vm_compute; discriminate|]). by apply elem_of_nil in He.
    - exact one_per_ledger_ex. }
  apply (H (event_at 10 1) (mkSettlementEvent "1" 10 None) 1); vm_compute; [left|reflexivity..].
Defined.

(** Without the one-event-per-ledger premise the cursor can pass a failed settlement:
    when ledger 10 holds the settlements of invoice 1 (FUNDED) and of invoice 2 (not yet
    FUNDED in the mirror), the cycle gives up at the second but stores ledger 10, so the
    next cycle starts at ledger 11; when invoice 2 becomes FUNDED later it stays unsettled. *)
Theorem shared_ledger_event_lost :
  let r := sync_batch PrismaService.full_surface (Some None) 3 500 10 11 0
             [event_at 10 1; event_at 10 2] (world PENDING) in
  r.1 = Ret (mkSyncSummary 2 1 0) ∧
  cursor (tables r.2) = 10 ∧ e_ledger (event_at 10 2) < cursor (tables r.2) + 1 ∧
  map inv_status (rows (tables r.2)) = [REPAID; PENDING].
Proof. vm_compute. repeat split; reflexivity. Qed.
End SettlementExamples.
