(* ===== verification/SettlementListeners.v ===== *)
(** * Several settlement listeners ([settlement/settlement-sync.service.ts])

    Poll cycles of several instances of the backend and back-fills of a ledger range, interleaved
    at their awaits with each other and with the rest of the backend: [syncOnce] and [backfill] of
    SettlementSync.v as threads.  A settlement is one piece: all it writes to the invoices it
    writes in one transaction. *)
From S2P Require Import Prelude Threads Js Schema Errors Prisma Retry PrismaService Interfaces Invoices SettlementEvents Settlement SettlementSync WebhookDispatch.
Import SettlementEventParser SettlementService SyncCursorService SorobanEventsService SettlementSyncService.
Open Scope Z_scope.

(** ** [withRetry] as a thread (without [onRetry], which only logs in this service) *)
Module Retrying.
Section retrying.
Context {W : Type} `{!Timer W} {A : Type}.
Variable fn : thread exn W A.

Fixpoint retry_loop_ (max base cap : Z) (n : nat) (attempt : Z) (lastError : option exn) : thread exn W A :=
  match n with
  | O => throw_ (default (NonError "undefined") lastError)
  | S n' =>
      try_ fn (λ error,
        if max <=? attempt then throw_ error
        else await (await_sleep (Retry.backoff base cap attempt)) ≫= λ _,
             retry_loop_ max base cap n' (attempt + 1) (Some error))
  end.

Definition withRetry_ (maxAttempts baseDelayMs : Z) : thread exn W A :=
  retry_loop_ maxAttempts baseDelayMs Retry.DEFAULT_maxDelayMs (Z.to_nat maxAttempts) 1 None.

Lemma withRetry_cuts (m : M exn W A) (maxAttempts baseDelayMs : Z) :
  cuts fn m →
  cuts (withRetry_ maxAttempts baseDelayMs)
       (Retry.withRetry m (Retry.mkRetryOptions (Some maxAttempts) (Some baseDelayMs) None None)).
Proof.
  intros Hfn. unfold withRetry_, Retry.withRetry. cbn [Retry.maxAttempts Retry.baseDelayMs Retry.maxDelayMs Retry.onRetry default from_option].
  unfold id. generalize 1 as attempt, (None : option exn) as err.
  induction (Z.to_nat maxAttempts) as [|n IH]; intros attempt err; [apply cuts_throw|]. intros w. cbn [retry_loop_ Retry.retry_loop].
  unfold try_. rewrite run_alone_then, Hfn. destruct (m w) as [[a|e] w']; [done|]. destruct (maxAttempts <=? attempt); [done|].
  cbn. apply IH.
Qed.

(** The obligation of a retried thread: [J] holds before every attempt. *)
Lemma safe_withRetry {B P : Type} (I : W → list (B * P) → Prop) (G : W → W → Prop) (alive : string → P → Prop)
    (J : P → Prop) (Q : outcome exn A → P → Prop) (b : B) (maxAttempts baseDelayMs : Z) (p : P) :
  (∀ p, J p → safe I G alive (λ r p', Q r p' ∧ match r with Ret _ => True | Throw _ => J p' end) b fn p) →
  (∀ ms p, J p → safe I G alive (λ r p', r = Ret tt ∧ J p') b (await (await_sleep ms)) p) →
  (∀ e p, J p → maxAttempts < 1 → Q (Throw e) p) →
  J p → safe I G alive Q b (withRetry_ maxAttempts baseDelayMs) p.
Proof.
  intros Hfn Hsleep Hnone. unfold withRetry_.
  assert (∀ n attempt err p, (0 < n)%nat → Z.of_nat n = maxAttempts - attempt + 1 → J p →
    safe I G alive Q b (retry_loop_ maxAttempts baseDelayMs Retry.DEFAULT_maxDelayMs n attempt err) p) as Hloop.
  { clear p. induction n as [|n IH]; intros attempt err p Hpos Hn HJ; [lia|]. cbn [retry_loop_]. apply safe_try.
    eapply safe_mono; [by apply Hfn|]. intros [a|e] p' [HQ HJ']; [exact HQ|].
    destruct (Z.leb_spec maxAttempts attempt); [exact HQ|]. apply safe_bind. eapply safe_mono; [by apply Hsleep|].
    intros r p2 [-> HJ2]. apply IH; [lia|lia|done]. }
  intros HJ. destruct (decide (maxAttempts < 1)) as [Hm|Hm].
  - rewrite Z2Nat.nonpos by lia. cbn. by apply Hnone.
  - apply Hloop; [lia..|done].
Qed.
End retrying.
End Retrying.

Module Listeners.
Import Retrying.

Section threads.
Context {W : Type} `{!Prisma W} `{!Clock W} `{!Timer W} `{!Hrtime W} `{!InvoiceEventSink W} `{!StellarRpc W}.
Variable h : PrismaService.handle.
Variable global_txHash : option (option string).
Variable contractIds : list string.
Variable maxAttempts baseDelayMs : Z.

Definition settle_retrying_ (se : SettlementEvent) (txHash : option string) : thread exn W SettlementResult :=
  withRetry_ (await (settleInvoice h global_txHash (se_invoiceId se) (se_ledger se) txHash)) maxAttempts baseDelayMs.

Definition sync_event_ (gaps : Z) (p : Progress) (event : NormalizedEvent) : thread exn W (Progress + SyncSummary) :=
  match parseSettlementEvent event with
  | None => mret (inl (mkProgress (p_processed p) (p_settled p) (Z.max (p_safeLedger p) (e_ledger event))))
  | Some parsed =>
      let processed := p_processed p + 1 in
      try_
        (result ← settle_retrying_ parsed (se_txHash parsed);
         mret (inl (mkProgress processed (p_settled p + bump result)
                               (Z.max (p_safeLedger p) (e_ledger event)))))
        (λ _, await (setLastLedger h (Z.max 0 (p_safeLedger p)) false) ≫= λ _,
              mret (inr (mkSyncSummary processed (p_settled p) gaps)))
  end.

Definition sync_batch_ (startLedger latestLedger gaps : Z) (events : list NormalizedEvent) : thread exn W SyncSummary :=
  r ← each events (mkProgress 0 0 (startLedger - 1)) (sync_event_ gaps);
  match r with
  | inr summary => mret summary
  | inl p =>
      let newCursor := Z.max (p_safeLedger p) latestLedger in
      await (setLastLedger h newCursor false) ≫= λ _,
      mret (mkSyncSummary (p_processed p) (p_settled p) gaps)
  end.

Definition syncOnce_ : thread exn W SyncSummary :=
  lastLedger ← await (getLastLedger h);
  startLedger ← (if 0 <? lastLedger then mret (lastLedger + 1) else await getLatestLedger);
  fetched ← await (fetchEvents contractIds startLedger);
  let gaps := match fetched.1 with [] => 0 | _ => detectGaps lastLedger fetched.1 end in
  sync_batch_ startLedger fetched.2 gaps fetched.1.

Definition backfill_event_ (p : Progress) (event : NormalizedEvent) : thread exn W (Progress + unit) :=
  match parseSettlementEvent event with
  | None => mret (inl p)
  | Some parsed =>
      let processed := p_processed p + 1 in
      try_
        (result ← settle_retrying_ parsed None;
         mret (inl (mkProgress processed (p_settled p + bump result) (p_safeLedger p))))
        (λ _, mret (inl (mkProgress processed (p_settled p) (p_safeLedger p))))
  end.

Definition backfill_ (fromLedger toLedger : Z) : thread exn W SyncSummary :=
  fetched ← await (fetchEvents contractIds fromLedger);
  let rangeEvents := List.filter (in_range fromLedger toLedger) fetched.1 in
  let gaps := detectGaps (fromLedger - 1) rangeEvents in
  r ← each rangeEvents (mkProgress 0 0 0) backfill_event_;
  match r with
  | inl p => mret (mkSyncSummary (p_processed p) (p_settled p) gaps)
  | inr _ => mret (mkSyncSummary 0 0 gaps)
  end.

(** The threads are the methods. *)
Lemma settle_retrying_cuts (se : SettlementEvent) (txHash : option string) :
  cuts (settle_retrying_ se txHash) (settle_retrying h global_txHash maxAttempts baseDelayMs se txHash).
Proof. apply withRetry_cuts, cuts_await. Qed.

Lemma syncOnce_cuts : cuts syncOnce_ (syncOnce h global_txHash contractIds maxAttempts baseDelayMs).
Proof.
  unfold syncOnce_, syncOnce. apply cuts_bind; [auto with cuts|]. intros lastLedger.
  apply cuts_bind; [destruct (0 <? lastLedger); auto with cuts|]. intros startLedger.
  apply cuts_bind; [auto with cuts|]. intros fetched. unfold sync_batch_, sync_batch.
  apply cuts_bind; [|intros [p|s]; [apply cuts_bind; auto with cuts|auto with cuts]].
  apply cuts_each. intros p event. unfold sync_event_, sync_event. destruct (parseSettlementEvent event); [|auto with cuts].
  apply cuts_try; [apply cuts_bind; [apply settle_retrying_cuts|auto with cuts]|].
  intros e. apply cuts_bind; auto with cuts.
Qed.

Lemma backfill_cuts (fromLedger toLedger : Z) :
  cuts (backfill_ fromLedger toLedger) (backfill h global_txHash contractIds maxAttempts baseDelayMs fromLedger toLedger).
Proof.
  unfold backfill_, backfill. apply cuts_bind; [auto with cuts|]. intros fetched. cbv zeta.
  apply cuts_bind; [|intros [p|s]; auto with cuts]. apply cuts_each. intros p event.
  unfold backfill_event_, backfill_event. destruct (parseSettlementEvent event); [|auto with cuts].
  apply cuts_try; [apply cuts_bind; [apply settle_retrying_cuts|auto with cuts]|auto with cuts].
Qed.
End threads.

(** *** What is repaid, and its audit *)

Definition repaid_with (n : Z) (i : Invoice) : bool := (inv_onchainId i =? n) && bool_decide (inv_status i = REPAID).

Definition repaid (n : Z) (d : db) : Prop := ∃ i, i ∈ rows d ∧ repaid_with n i = true.

Definition repaid_event_of (n : Z) (e : InvoiceEventRow) : bool :=
  (ev_invoiceOnchainId e =? n) && bool_decide (ev_newStatus e = REPAID).

(** There is one audit event "became REPAID" for every REPAID invoice, and no other. *)
Definition audited (d : db) : Prop :=
  NoDup (map inv_onchainId (rows d)) ∧
  ∀ n, count_if (repaid_event_of n) (rows d) = count_if (repaid_with n) (rows d).

Lemma settleable_spec (k : Z) (i : Invoice) : settleable k i = true ↔ inv_onchainId i = k ∧ inv_status i = FUNDED.
Proof. unfold settleable. by rewrite andb_true_iff, Z.eqb_eq, bool_decide_eq_true. Qed.

Lemma repaid_with_spec (k : Z) (i : Invoice) : repaid_with k i = true ↔ inv_onchainId i = k ∧ inv_status i = REPAID.
Proof. unfold repaid_with. by rewrite andb_true_iff, Z.eqb_eq, bool_decide_eq_true. Qed.

Lemma repaid_unsettleable (n k : Z) (i : Invoice) : repaid_with k i = true → settleable n i = false.
Proof. intros [_ Hr]%repaid_with_spec. unfold settleable. by rewrite Hr, andb_false_r. Qed.

Lemma count_map_repaid (n k ledger now : Z) (g : gen) (l : list Invoice) :
  NoDup (map inv_onchainId l) → (∃ i, i ∈ l ∧ settleable k i = true) →
  count_if (repaid_with n) (map_if (settleable k) (mark_repaid ledger now g) l) =
  count_if (repaid_with n) l + (if k =? n then 1 else 0).
Proof.
  assert (∀ l, (∀ i, i ∈ l → settleable k i = false) → map_if (settleable k) (mark_repaid ledger now g) l = l) as Hsame
    by (intros; by apply map_if_none).
  induction l as [|i l IH]; intros Hn (j & Hj & Hs); [by apply elem_of_nil in Hj|]. cbn in Hn. apply NoDup_cons in Hn as [Hnin Hn].
  unfold map_if. cbn [map]. change (map _ l) with (map_if (settleable k) (mark_repaid ledger now g) l).
  assert (∀ (f : Invoice → bool) a m, count_if f (a :: m) = (if f a then 1 else 0) + count_if f m) as Hcons.
  { intros f a m. unfold count_if. cbn. destruct (f a); cbn; lia. }
  rewrite !Hcons. destruct (settleable k i) eqn:E.
  - rewrite Hsame.
    + apply settleable_spec in E as [Hid Hst]. unfold repaid_with. cbn. rewrite Hid, Hst. cbn. rewrite andb_true_r, andb_false_r.
      destruct (k =? n); lia.
    + intros x Hx. destruct (settleable k x) eqn:E'; [|done]. destruct Hnin. apply settleable_spec in E as [-> _], E' as [<- _].
      apply list_elem_of_In, in_map. by apply list_elem_of_In.
  - rewrite IH; [lia|done|]. apply elem_of_cons in Hj as [->|Hj]; [congruence|by exists j].
Qed.

Lemma settles_repaid (n ledger : Z) (txHash : option string) (d d' : db) :
  settles n ledger txHash d d' →
  (∀ k, repaid k d → repaid k d') ∧ repaid n d' ∧ (audited d → audited d') ∧
  rows (R:=SyncCursor) d' = rows d.
Proof.
  intros ((i & Hi & Hs) & now & g1 & nanos & g2 & Hd).
  assert (rows (R:=Invoice) d' = map_if (settleable n) (mark_repaid ledger now g1) (rows d)) as Hrows by (by rewrite Hd).
  assert (rows (R:=InvoiceEventRow) d' = rows d ++ [InvoiceEventService.new_event (settled_params n txHash) nanos g2]) as Hev by (by rewrite Hd).
  split; [|split; [|split; [|by rewrite Hd]]].
  - intros k (j & Hj & Hk). exists j. split; [|done]. rewrite Hrows. apply elem_of_map_if. exists j. split; [done|].
    by rewrite (repaid_unsettleable n k).
  - exists (mark_repaid ledger now g1 i). split; [rewrite Hrows; apply elem_of_map_if; exists i; by rewrite Hs|].
    apply repaid_with_spec. cbn. by apply settleable_spec in Hs as [-> _].
  - intros [Hn Hc]. split.
    + rewrite Hrows. unfold map_if. rewrite map_map.
      replace (map _ (rows d)) with (map inv_onchainId (rows (R:=Invoice) d)); [done|]. apply map_ext. intros j. by destruct (settleable n j).
    + intros k. rewrite Hev, count_if_app, Hrows, count_map_repaid, Hc by eauto. f_equal.
      unfold count_if, repaid_event_of. cbn. rewrite andb_true_r. by destruct (n =? k).
Qed.

(** One settlement, whatever becomes of it *)
Lemma settle_piece {W : Type} `{!Prisma W} `{!Clock W} `{!Hrtime W} `{!InvoiceEventSink W}
    `{!PrismaLaws W} `{!ClockLaws W} `{!HrtimeLaws W} `{!InvoiceEventSinkLaws W}
    h (global txHash : option string) (id : string) (n ledger : Z) (w : W) :
  wired h → BigInt_of_string id = Some n →
  wp (settleInvoice h (Some global) id ledger txHash)
     (λ r w', (∀ k, repaid k (tables w) → repaid k (tables w')) ∧ (audited (tables w) → audited (tables w')) ∧
              rows (R:=SyncCursor) (tables w') = rows (tables w) ∧
              match r with Ret _ => repaid n (tables w') | Throw _ => True end) w.
Proof.
  intros Hw Hid. eapply wp_mono; [by apply settleInvoice_spec|]. intros r w' [H _].
  assert (settles n ledger global (tables w) (tables w') → (∀ k, repaid k (tables w) → repaid k (tables w')) ∧
    repaid n (tables w') ∧ (audited (tables w) → audited (tables w')) ∧ rows (R:=SyncCursor) (tables w') = rows (tables w)) as Hset
    by apply settles_repaid.
  destruct r as [[]|e]; cbn in H.
  - tauto.
  - destruct H as (-> & (i & Hi & Hid' & Hst) & _). do 3 (split; [done|]). exists i. split; [done|].
    by apply repaid_with_spec.
  - destruct H as [[-> _]|[_ H]]; [done|tauto].
Qed.

(** *** The invariant

    The chain is the list of all events that there will be; what a fetch returns is the part of it
    between the requested ledger and the network's latest one. *)
Section inv.
Context {W : Type} `{!Prisma W}.
Variable chain : list NormalizedEvent.
(** the ledger of the cursor at the start *)
Variable first : Z.

(** The settlement events after [first] and up to the ledger [n] are applied. *)
Definition covered (n : Z) (d : db) : Prop :=
  ∀ e se k, e ∈ chain → first < e_ledger e <= n → parseSettlementEvent e = Some se →
    BigInt_of_string (se_invoiceId se) = Some k → repaid k d.

(** The auxiliary state of a cycle is a ledger up to which it knows the events to be applied. *)
Definition listener_inv {B : Type} (w : W) (ls : list (B * Z)) : Prop :=
  one_cursor (tables w) ∧ 0 < cursor (tables w) ∧ covered (cursor (tables w)) (tables w) ∧ audited (tables w) ∧
  ∀ b p, (b, p) ∈ ls → covered p (tables w).

Definition keeps_repaid (w w' : W) : Prop := ∀ k, repaid k (tables w) → repaid k (tables w').

#[global] Instance keeps_repaid_preorder : PreOrder keeps_repaid.
Proof. split; [by intros w k|]. intros w1 w2 w3 H12 H23 k Hk. by apply H23, H12. Qed.

Lemma covered_keeps (n : Z) (w w' : W) : keeps_repaid w w' → covered n (tables w) → covered n (tables w').
Proof. intros Hk H e se k He Hl Hp Hn. eapply Hk, H; eassumption. Qed.

(** Between two ledgers without settlement events nothing is missing. *)
Lemma covered_gap (p n : Z) (d : db) :
  (∀ e, e ∈ chain → p < e_ledger e <= n → parseSettlementEvent e = None) → covered p d → covered n d.
Proof.
  intros Hgap Hp e se k He Hl Hse Hk. destruct (Z.le_gt_cases (e_ledger e) p) as [Hle|Hgt].
  - eapply Hp; [done|lia|done..].
  - rewrite Hgap in Hse; [done|done|lia].
Qed.

(** A piece that leaves the cursor alone, after which the thread knows [p']. *)
Lemma listener_inv_piece {B : Type} (w w' : W) ls1 (b : B) p p' ls2 :
  listener_inv w (ls1 ++ (b, p) :: ls2) → keeps_repaid w w' → (audited (tables w) → audited (tables w')) →
  rows (R:=SyncCursor) (tables w') = rows (tables w) → covered p' (tables w') →
  listener_inv w' (ls1 ++ (b, p') :: ls2).
Proof.
  intros (H1 & H2 & H3 & H4 & H5) Hk Ha Hc Hp. apply cursor_rows in Hc as [Hcur Hone]. split; [auto|]. rewrite Hcur.
  split; [done|]. split; [by eapply covered_keeps|]. split; [auto|]. intros b' q Hq.
  apply elem_of_app in Hq as [Hq|[[= -> ->]|Hq]%elem_of_cons]; [|done|];
    (eapply covered_keeps; [exact Hk|]; apply (H5 b'); apply elem_of_app; rewrite elem_of_cons; tauto).
Qed.

(** A write of the cursor that is covered *)
Lemma listener_inv_cursor {B : Type} (w w' : W) (ls : list (B * Z)) (ledger : Z) :
  listener_inv w ls → moved ledger (tables w) (tables w') → 0 < ledger → covered ledger (tables w) →
  keeps_repaid w w' ∧ listener_inv w' ls.
Proof.
  intros (H1 & H2 & H3 & H4 & H5) (Hd & Hc & Hone) Hpos Hcov.
  assert (keeps_repaid w w') as Hk by (intros k (i & Hi & ?); exists i; by rewrite Hd).
  split; [done|]. split; [auto|]. rewrite Hc. split; [done|]. split; [by eapply covered_keeps|].
  split; [by rewrite Hd|]. intros b p Hp. eapply covered_keeps; [done|]. by apply (H5 b).
Qed.

Lemma listener_inv_same {B : Type} (w w' : W) (ls : list (B * Z)) :
  tables w' = tables w → listener_inv w ls → keeps_repaid w w' ∧ listener_inv w' ls.
Proof. intros Ht HI. split; [intros k; by rewrite Ht|]. unfold listener_inv. by rewrite Ht. Qed.

Lemma listener_inv_drop {B : Type} (w : W) (ls1 : list (B * Z)) bp ls2 :
  listener_inv w (ls1 ++ bp :: ls2) → listener_inv w (ls1 ++ ls2).
Proof.
  intros (H1 & H2 & H3 & H4 & H5). do 4 (split; [done|]). intros b p Hp. apply (H5 b). set_solver.
Qed.

Lemma listener_knows {B : Type} (w : W) ls1 (b : B) p ls2 : listener_inv w (ls1 ++ (b, p) :: ls2) → covered p (tables w).
Proof. intros (_ & _ & _ & _ & H). apply (H b). set_solver. Qed.
End inv.

(** *** The obligations of the cycles *)

Lemma one_per_ledger_filter (p : NormalizedEvent → bool) (l : list NormalizedEvent) :
  one_per_ledger l → one_per_ledger (List.filter p l).
Proof.
  unfold one_per_ledger. induction 1 as [|a l _ IH Ha]; [constructor|]. cbn. destruct (p a); [|exact IH].
  constructor; [exact IH|]. rewrite Forall_forall in *. intros x Hx. apply Ha.
  rewrite list_elem_of_In, filter_In, <- list_elem_of_In in Hx. tauto.
Qed.

Inductive job := Cycle | Backfill.

Section proofs.
Context {W : Type} `{!Prisma W} `{!Clock W} `{!Timer W} `{!Hrtime W} `{!InvoiceEventSink W} `{!StellarRpc W}
  `{!PrismaLaws W} `{!ClockLaws W} `{!TimerLaws W} `{!HrtimeLaws W} `{!InvoiceEventSinkLaws W} `{!StellarRpcLaws W}.
Variable h : PrismaService.handle.
Variable global : option string.
Variable contractIds : list string.
Variable maxAttempts baseDelayMs : Z.
Variable chain : list NormalizedEvent.
Variable first : Z.

Hypothesis Hwired : wired h.
Hypothesis Hcursor : PrismaService.m_syncCursor ∈ h.
Hypothesis Hchain : one_per_ledger chain.
Hypothesis Hfirst : 0 < first.

(** The RPC answers with every event of the chain in the range that it says it has answered for. *)
Definition in_window (start latest : Z) (e : NormalizedEvent) : bool := (start <=? e_ledger e) && (e_ledger e <=? latest).

Hypothesis Hcomplete : ∀ start w l latest w',
  fetchEvents contractIds start w = (Ret (l, latest), w') → l = List.filter (in_window start latest) chain.

#[local] Abbreviation I := (listener_inv (B:=job) chain first).
#[local] Abbreviation safe_ := (safe I keeps_repaid (λ _ (_ : Z), True)).

(** A piece that writes no invoice, event or cursor, after which the thread knows what it did *)
Lemma safe_same {C : Type} (Q : outcome exn C → Z → Prop) (b : job) (m : M exn W C) (p : Z) :
  (∀ w, covered chain first p (tables w) → wp m (λ r w', tables w' = tables w ∧ Q r p) w) → safe_ Q b (await m) p.
Proof.
  intros Hm. apply safe_await; [done|]. intros w ls1 ls2 HI. eapply wp_mono; [by apply Hm; eapply listener_knows|].
  intros r w' [Ht HQ]. destruct (listener_inv_same chain first w w' _ Ht HI) as [HG HI']. split; [done|]. by exists p.
Qed.

Lemma safe_setLastLedger (Q : outcome exn unit → Z → Prop) (b : job) (ledger p : Z) :
  0 < ledger → (∀ d, covered chain first p d → covered chain first ledger d) → (∀ r, Q r p) →
  safe_ Q b (await (setLastLedger h ledger false)) p.
Proof.
  intros Hpos Hcov HQ. apply safe_await; [done|]. intros w ls1 ls2 HI. pose proof (listener_knows _ _ _ _ _ _ _ HI) as Hp.
  apply wp_setLastLedger; [done| |].
  - intros w' Hm _. destruct (listener_inv_cursor chain first w w' _ ledger HI Hm) as [HG HI']; [done|by apply Hcov|].
    split; [done|]. by exists p.
  - intros e w' [Ht _]. destruct (listener_inv_same chain first w w' _ Ht HI) as [HG HI']. split; [done|]. by exists p.
Qed.

(** A retried settlement: when it succeeds the thread knows of one event more. *)
Lemma safe_settle_retrying (b : job) (ev : NormalizedEvent) (se : SettlementEvent) (txHash : option string) (p p' : Z) :
  parseSettlementEvent ev = Some se →
  (∀ d, covered chain first p d → (∀ n, BigInt_of_string (se_invoiceId se) = Some n → repaid n d) → covered chain first p' d) →
  safe_ (λ r q, q = match r with Ret _ => p' | Throw _ => p end) b
    (settle_retrying_ h (Some global) maxAttempts baseDelayMs se txHash) p.
Proof.
  intros Hp Hknow. pose proof (parsed_id ev se Hp) as [Hid _]. unfold settle_retrying_.
  apply (safe_withRetry _ _ _ _ (λ q, q = p)); [| |done|done].
  - intros q ->. apply safe_await; [done|]. intros w ls1 ls2 HI.
    pose proof (listener_knows _ _ _ _ _ _ _ HI) as Hcov. eapply wp_mono; [by apply settle_piece|].
    intros r w' (Hk & Ha & Hc & Hr). split; [exact Hk|]. destruct r as [res|e].
    + exists p'. split; [|done]. eapply listener_inv_piece; [exact HI|done..|]. apply Hknow; [by eapply covered_keeps|].
      intros n Hn. rewrite Hid in Hn. by injection Hn as <-.
    + exists p. split; [|done]. eapply listener_inv_piece; [exact HI|done..|]. by eapply covered_keeps.
  - intros ms q ->. apply safe_same. intros w _. unfold wp. cbn. by destruct (sleep_law ms w) as [-> _].
Qed.

(** The state of [syncOnce]'s loop over the window from [start] to [latest], after the events
    [done]: the thread knows everything up to [p], and nothing happened between [p] and
    [safeLedger]. *)
Definition loop_inv (start latest : Z) (done : list NormalizedEvent) (s : Progress) (p : Z) : Prop :=
  0 < p ∧ p <= p_safeLedger s ∧ start - 1 <= p_safeLedger s ∧
  (∀ e, e ∈ chain → p < e_ledger e <= p_safeLedger s → parseSettlementEvent e = None) ∧
  ∀ e, e ∈ chain → p_safeLedger s < e_ledger e <= latest → e ∉ done.

Lemma window_next (start latest : Z) (done todo : list NormalizedEvent) (ev : NormalizedEvent) :
  List.filter (in_window start latest) chain = done ++ ev :: todo →
  start <= e_ledger ev <= latest ∧ (∀ e, e ∈ done → e_ledger e < e_ledger ev) ∧
  ∀ e, e ∈ chain → start <= e_ledger e <= e_ledger ev → e ∉ done → e = ev.
Proof.
  intros Hl. assert (one_per_ledger (done ++ ev :: todo)) as Hs.
  { rewrite <- Hl. by apply one_per_ledger_filter. }
  destruct (one_per_ledger_split _ _ _ Hs) as [Hbefore Hafter].
  assert (∀ e, e ∈ done ++ ev :: todo ↔ e ∈ chain ∧ start <= e_ledger e <= latest) as Hin.
  { intros e. rewrite <- Hl, list_elem_of_In, filter_In, <- list_elem_of_In. unfold in_window.
    by rewrite andb_true_iff, !Z.leb_le. }
  pose proof (proj1 (Hin ev)) as Hev. split; [apply Hev; set_solver|]. split; [done|].
  intros e He Hle Hnd. assert (e ∈ done ++ ev :: todo) as Hmem.
  { apply Hin. split; [done|]. assert (e_ledger ev <= latest) by (apply Hev; set_solver). lia. }
  apply elem_of_app in Hmem as [?|[->|Ht]%elem_of_cons]; [done|done|]. specialize (Hafter e Ht). lia.
Qed.

Lemma safe_sync_event (b : job) (start latest gaps : Z) (done todo : list NormalizedEvent) (ev : NormalizedEvent)
    (s : Progress) (p : Z) :
  List.filter (in_window start latest) chain = done ++ ev :: todo → loop_inv start latest done s p →
  safe_ (λ r p', match r with Ret (inl s') => loop_inv start latest (done ++ [ev]) s' p' | _ => True end) b
    (sync_event_ h (Some global) maxAttempts baseDelayMs gaps s ev) p.
Proof.
  intros Hl (Hp & Hps & Hstart & Hgap & Hrest). destruct (window_next _ _ _ _ _ Hl) as (Hw & Hbefore & Honly).
  assert (∀ e, e ∈ chain → p_safeLedger s < e_ledger e <= e_ledger ev → e = ev) as Hnext.
  { intros e He Hle. apply Honly; [done|lia|]. apply Hrest; [done|lia]. }
  assert (∀ e, e ∈ chain → Z.max (p_safeLedger s) (e_ledger ev) < e_ledger e <= latest → e ∉ done ++ [ev]) as Hrest'.
  { intros e He Hle [Hd| ->%list_elem_of_singleton]%elem_of_app; [|lia]. specialize (Hbefore e Hd). lia. }
  unfold sync_event_. destruct (parseSettlementEvent ev) as [se|] eqn:Hse.
  - apply safe_try, safe_bind. eapply safe_mono; [apply (safe_settle_retrying b ev se _ p (Z.max p (e_ledger ev))); [done|]|].
    + intros d Hcov Hev e se' k He Hle Hse' Hk. destruct (Z.le_gt_cases (e_ledger e) p); [apply (Hcov e se' k); [done|lia|done|done]|].
      destruct (Z.le_gt_cases (e_ledger e) (p_safeLedger s)); [rewrite Hgap in Hse'; [done|done|lia]|].
      assert (e = ev) as -> by (apply Hnext; [done|lia]). rewrite Hse in Hse'. injection Hse' as <-. by apply Hev.
    + intros [res|e] q ->.
      * repeat split; cbn; try lia; [|exact Hrest']. intros e He Hle. destruct (Z.le_gt_cases (e_ledger e) (p_safeLedger s)); [apply Hgap; [done|lia]|].
        assert (e = ev) as -> by (apply Hnext; [done|lia]). lia.
      * apply safe_bind, safe_setLastLedger; [lia| |by intros []].
        intros d Hcov. rewrite Z.max_r by lia. by eapply covered_gap.
  - cbn. repeat split; cbn; try lia; [|exact Hrest']. intros e He Hle.
    destruct (Z.le_gt_cases (e_ledger e) (p_safeLedger s)); [apply Hgap; [done|lia]|].
    by assert (e = ev) as -> by (apply Hnext; [done|lia]).
Qed.

Lemma safe_syncOnce : safe_ (λ _ _, True) Cycle (syncOnce_ h (Some global) contractIds maxAttempts baseDelayMs) first.
Proof.
  unfold syncOnce_. apply safe_bind.
  apply (safe_mono _ _ _ (λ r p, match r with Ret n => 0 < n ∧ p = n | Throw _ => True end)).
  { apply safe_await; [done|]. intros w ls1 ls2 HI. pose proof HI as (Hone & Hpos & Hcov & _).
    apply wp_getLastLedger; [done..| |].
    - intros w' [Ht _]. assert (keeps_repaid w w') as HG by (intros k; by rewrite Ht). split; [exact HG|]. exists (cursor (tables w)).
      split; [|done]. eapply listener_inv_piece; [exact HI|exact HG|by rewrite Ht|by rewrite Ht|by rewrite Ht].
    - intros e w' [Ht _]. destruct (listener_inv_same chain first w w' _ Ht HI) as [HG HI']. split; [done|]. by exists first. }
  intros [last|e] p; [|done]. intros [Hpos ->]. rewrite (proj2 (Z.ltb_lt 0 last)) by done.
  apply safe_bind. cbn [safe thread_ret mret]. apply safe_bind.
  apply (safe_mono _ _ _ (λ r q, q = last ∧ match r with Ret f => f.1 = List.filter (in_window (last + 1) f.2) chain | Throw _ => True end)).
  { apply safe_same. intros w _. unfold wp. pose proof (Hcomplete (last + 1) w) as Hc.
    assert (tables (fetchEvents contractIds (last + 1) w).2 = tables w) as Ht.
    { apply (wp_fetchEvents contractIds (last + 1) (λ _ w', tables w' = tables w)); unfold commits; tauto. }
    destruct (fetchEvents contractIds (last + 1) w) as [[[l n]|e] w']; cbn in *; [|done]. split; [done|]. split; [done|]. by eapply Hc. }
  intros [[l latest]|e] p; cbn [fst snd]; intros [-> Hl]; [|done]. unfold sync_batch_. apply safe_bind.
  apply (safe_each _ _ _ (λ done s p, loop_inv (last + 1) latest done s p)).
  - intros done ev todo s p Hsplit HJ. eapply safe_mono; [eapply safe_sync_event; [by rewrite <- Hl|exact HJ]|].
    by intros [[s'|x]|e] p'.
  - intros s p (Hp & Hps & Hstart & Hgap & Hrest). apply safe_bind, safe_setLastLedger; [lia| |by intros []].
    intros d Hcov e se k He Hle Hse Hk. destruct (Z.le_gt_cases (e_ledger e) (p_safeLedger s)).
    + eapply (covered_gap chain first p (p_safeLedger s)); [done|exact Hcov|done|lia|done..].
    + exfalso. apply (Hrest e He); [lia|]. rewrite Hl, list_elem_of_In, filter_In, <- list_elem_of_In. split; [done|].
      unfold in_window. apply andb_true_iff. rewrite !Z.leb_le. lia.
  - repeat split; cbn; try lia. intros e _ _ He. by apply elem_of_nil in He.
Qed.

Lemma safe_backfill (fromLedger toLedger : Z) :
  safe_ (λ _ _, True) Backfill (backfill_ h (Some global) contractIds maxAttempts baseDelayMs fromLedger toLedger) first.
Proof.
  unfold backfill_. apply safe_bind. apply (safe_mono _ _ _ (λ _ q, q = first)).
  { apply safe_same. intros w _. apply wp_fetchEvents; unfold commits; tauto. }
  intros [[l n]|e] p ->; [|done]. cbv zeta. apply safe_bind. apply (safe_each _ _ _ (λ _ _ p, p = first)); [|by intros s p _|done].
  intros done ev todo s p _ ->. unfold backfill_event_. destruct (parseSettlementEvent ev) as [se|] eqn:Hse; [|done].
  apply safe_try, safe_bind. eapply safe_mono; [by apply (safe_settle_retrying Backfill ev se None first first)|].
  by intros [r|e] q ->.
Qed.

(** *** The pool *)

Inductive entry := StartCycle | StartBackfill (fromLedger toLedger : Z) | Backend.

(** What the rest of the backend may do: anything that leaves the cursor to the listeners, REPAID
    invoices REPAID, and the audit of repayments complete. *)
Definition backend_step (d d' : db) : Prop :=
  rows (R:=SyncCursor) d' = rows d ∧ (∀ k, repaid k d → repaid k d') ∧ (audited d → audited d').

Inductive listener_enter : entry → W → list (job * thread exn W SyncSummary) → W → Prop :=
| cycle_starts w :
    listener_enter StartCycle w [(Cycle, syncOnce_ h (Some global) contractIds maxAttempts baseDelayMs)] w
| backfill_starts fromLedger toLedger w :
    listener_enter (StartBackfill fromLedger toLedger) w
      [(Backfill, backfill_ h (Some global) contractIds maxAttempts baseDelayMs fromLedger toLedger)] w
| backend_runs w w' : backend_step (tables w) (tables w') → listener_enter Backend w [] w'.

Lemma listeners_ok :
  entries_ok listener_enter I keeps_repaid (λ _ _, True) (λ _ _, True) (λ _ _, True).
Proof.
  assert (∀ w ls b, I w ls → I w (ls ++ [(b, first)])) as Hnew.
  { intros w ls b (H1 & H2 & H3 & H4 & H5). do 4 (split; [done|]). intros b' p [Hp|Hp]%elem_of_app; [by apply (H5 b')|].
    apply list_elem_of_singleton in Hp as [= -> ->]. intros e se k _ Hle. lia. }
  intros e ts w new w' ls Hm HI _ He. destruct He as [w|fromLedger toLedger w|w w' (Hc & Hk & Ha)].
  - split; [by intros k|]. exists [(Cycle, first)]. split; [by apply Hnew|]. constructor; [|constructor]. split; [done|apply safe_syncOnce].
  - split; [by intros k|]. exists [(Backfill, first)]. split; [by apply Hnew|]. constructor; [|constructor]. split; [done|apply safe_backfill].
  - split; [exact Hk|]. exists []. rewrite app_nil_r. split; [|constructor]. destruct HI as (H1 & H2 & H3 & H4 & H5).
    apply cursor_rows in Hc as [Hcur Hone]. split; [auto|]. rewrite Hcur. split; [done|].
    split; [by eapply covered_keeps|]. split; [auto|]. intros b p Hp. eapply covered_keeps; [exact Hk|]. by apply (H5 b).
Qed.

End proofs.
End Listeners.

(** ** Concrete runs *)
Module ListenerExamples.
Import Listeners SettlementExamples.

#[local] Existing Instance toy_crypto.
#[local] Existing Instance example_sink.
#[local] Existing Instance example_sink_laws.

Definition chain_ex : list NormalizedEvent := [event_at 10 1; event_at 11 2].

(** An RPC over [chain_ex] whose latest ledger is 11, and 12 from the time 5000 on. *)
#[local] Instance chain_rpc : StellarRpc mem := {|
  Entry := JsValue;
  rpc_getLatestLedger := mret 11;
  rpc_getEvents := λ start _ w,
    (Ret (List.filter (λ e, start <=? r_ledger e) [raw_event 10 1; raw_event 11 2], if m_now w <? 5000 then 11 else 12), w);
  scValToNative := λ v, Ret v;
  as_is := λ v, v |}.

#[local] Instance chain_rpc_laws : StellarRpcLaws mem.
Proof. split; [intros w; split; [done|cbn; lia]|done]. Qed.

Lemma chain_rpc_complete start (w : mem) l latest w' :
  fetchEvents [] start w = (Ret (l, latest), w') → l = List.filter (in_window start latest) chain_ex.
Proof.
  unfold fetchEvents. cbn. intros [= <- <- <-]. unfold chain_ex, in_window. cbn.
  by destruct (start <=? 10), (start <=? 11), (m_now w <? 5000).
Qed.

(** The cursor stands at 9; both invoices are FUNDED. *)
Definition start_ex : mem :=
  mkMem (set_rows [mkSyncCursor 1 9] (m_db (world FUNDED))) 1000 1 [].

Definition enter_ex := listener_enter (W:=mem) PrismaService.full_surface None [] 3 500.
Definition cycle_ex : pool → pool := λ c,
  (c.1 ++ [(Cycle, syncOnce_ PrismaService.full_surface (Some None) [] 3 500)], c.2).
Definition later (ms : Z) (c : pool (E:=exn) (W:=mem) (A:=SyncSummary) (B:=job)) : pool :=
  (c.1 ++ [], mkMem (m_db c.2) (m_now c.2 + ms) (m_next c.2) (m_faults c.2)).

Lemma cycle_run (c : pool) : run (pool_step enter_ex) (λ _ _, True) c (cycle_ex c).
Proof. destruct c. eapply run_more; [apply run_none|done|]. apply (step_enter _ StartCycle). constructor. Qed.

Lemma time_passes_run (ms : Z) (c : pool) : run (pool_step enter_ex) (λ _ _, True) c (later ms c).
Proof. destruct c. eapply run_more; [apply run_none|done|]. apply (step_enter _ Backend). by constructor. Qed.

(** Two cycles read the same cursor; the first has settled invoice 1 when the second starts. *)
Definition two_ex : pool := Nat.iter 3 (advance 0) (cycle_ex (cycle_ex ([], start_ex))).
Definition end_ex : pool := Nat.iter 9 (advance 1) two_ex.

Lemma two_run : run (pool_step enter_ex) (λ _ _, True) ([], start_ex) two_ex.
Proof.
  eapply run_trans; [apply (cycle_run ([], start_ex))|]. eapply run_trans; [apply cycle_run|].
  exact (advances_run _ _ 3 0 _ (λ _, Logic.I)).
Qed.


(** The cursor is not monotone across instances: a cycle that fetched before another one, and ends
    after it, moves it back (and the next cycle applies some ledgers again). *)
Definition ahead_ex : pool := Nat.iter 9 (advance 1) (later 5000 (Nat.iter 4 (advance 0) (cycle_ex (cycle_ex ([], start_ex))))).
Definition back_ex : pool := Nat.iter 9 (advance 0) ahead_ex.

Theorem cursor_moves_back :
  run (pool_step enter_ex) (λ _ _, True) ([], start_ex) ahead_ex ∧
  run (pool_step enter_ex) (λ _ _, True) ahead_ex back_ex ∧
  cursor (tables ahead_ex.2) = 12 ∧ cursor (tables back_ex.2) = 11.
Proof.
  split; [|split; [exact (advances_run _ _ 9 0 ahead_ex (λ _, Logic.I))|split; vm_compute; reflexivity]].
  eapply run_trans; [apply (cycle_run ([], start_ex))|]. eapply run_trans; [apply cycle_run|].
  eapply run_trans; [exact (advances_run _ _ 4 0 _ (λ _, Logic.I))|]. eapply run_trans; [apply (time_passes_run 5000)|].
  exact (advances_run _ _ 9 1 _ (λ _, Logic.I)).
Qed.

(** An RPC whose answers hold one event at most, as [getEvents] limits the events of an answer
    while it reports the network's latest ledger. *)
Definition paged_rpc : StellarRpc mem := {|
  Entry := JsValue;
  rpc_getLatestLedger := mret 11;
  rpc_getEvents := λ start _, mret (take 1 (List.filter (λ e, start <=? r_ledger e) [raw_event 10 1; raw_event 11 2]), 11);
  scValToNative := λ v, Ret v;
  as_is := λ v, v |}.

(** The cursor passes the events that did not fit. *)
Theorem truncated_answer_lost :
  let r := syncOnce (StellarRpc0:=paged_rpc) PrismaService.full_surface (Some None) [] 3 500 start_ex in
  r.1 = Ret (mkSyncSummary 1 1 0) ∧ cursor (tables r.2) = 11 ∧ map inv_status (rows (tables r.2)) = [REPAID; FUNDED].
Proof. vm_compute. repeat split; reflexivity. Qed.
End ListenerExamples.
