(* ===== verification/Webhooks.v ===== *)
(** * Webhook subscriptions and delivery ([webhooks/webhook-signing.ts],
    [webhooks/webhook-url.ts], [webhooks/webhook-subscriptions.service.ts],
    [webhooks/webhook-delivery-log.service.ts],
    [webhooks/webhook-delivery-worker.service.ts], [webhooks/webhooks.controller.ts]) *)
From S2P Require Import Prelude Js Schema Errors Prisma Retry PrismaService Interfaces Auth WebhookDispatch.
Open Scope Z_scope.

(** ** [webhook-signing.ts] *)
Module WebhookSigning.
Section signing.
Context {CR : Crypto}.

Definition WEBHOOK_SIGNATURE_HEADER : string := "X-InvoiceFi-Signature".
Definition WEBHOOK_EVENT_HEADER : string := "X-InvoiceFi-Event".
Definition WEBHOOK_DELIVERY_ID_HEADER : string := "X-InvoiceFi-Delivery-Id".
Definition WEBHOOK_TIMESTAMP_HEADER : string := "X-InvoiceFi-Timestamp".

Definition signWebhookPayload (secret rawBody : string) : string :=
  ("sha256=" +:+ hmac_sha256_hex secret rawBody)%string.

(** The strings are compared as buffers: [timingSafeEqual] needs equal lengths. *)
Definition verifyWebhookSignature (secret rawBody : string) (signatureHeader : option string) : bool :=
  match signatureHeader with
  | None => false
  | Some header =>
      if negb (truthy header) then false
      else
        let expected := signWebhookPayload secret rawBody in
        if negb (str_length expected =? str_length header)%nat then false
        else String.eqb expected header
  end.

(** A signature header verifies exactly when it is the one the worker sends for that
    secret and body. *)
Theorem verify_iff_signed (secret rawBody : string) (header : option string) :
  verifyWebhookSignature secret rawBody header = true ↔ header = Some (signWebhookPayload secret rawBody).
Proof.
  unfold verifyWebhookSignature. destruct header as [s|]; [|done].
  split.
  - destruct (negb (truthy s)); [done|]. destruct (negb _); [done|]. intros H. bool_to_prop. by subst.
  - intros [= ->]. rewrite Nat.eqb_refl, String.eqb_refl. done.
Qed.
End signing.
End WebhookSigning.

(** ** [webhook-url.ts] *)
Module WebhookUrl.

(** The members of a [URL] that the program uses. *)
Record URL := mkURL { protocol : string; hostname : string; href : string }.

(** [new URL(s)], which throws on invalid input. *)
Class UrlParser := { parse_url : string → option URL }.

(** [/^\d{1,3}$/] *)
Definition short_number (s : string) : bool :=
  all_digits (to_list s) && (str_length s <=? 3)%nat.

(** The octets of a dotted quad, by the regular expression's four groups. *)
Definition ipv4_octets (hostname : string) : option (list Z) :=
  let parts := split "." hostname in
  if (length parts =? 4)%nat && forallb short_number parts
  then Some (map (λ s, digits_val (to_list s)) parts) else None.

Definition isBlockedHostname (hostname : string) : bool :=
  if String.eqb hostname "localhost" || endsWith hostname ".localhost" then true
  else if String.eqb hostname "::1" || String.eqb hostname "0:0:0:0:0:0:0:1" then true
  else
    match ipv4_octets hostname with
    | Some octets =>
        if existsb (λ o, 255 <? o) octets then true
        else
          let a := nth 0 octets 0 in
          let b := nth 1 octets 0 in
          if a =? 0 then true
          else if a =? 127 then true
          else if a =? 10 then true
          else if (a =? 169) && (b =? 254) then true
          else if (a =? 172) && (16 <=? b) && (b <=? 31) then true
          else (a =? 192) && (b =? 168)
    | None =>
        let l := toLowerCase hostname in
        startsWith l "fe80" || startsWith l "fc00" || startsWith l "fd"
    end.

(** [.replace(/^\[|\]$/g, '')] *)
Definition strip_brackets (s : string) : string :=
  let l := to_list s in
  let l := match l with c :: l' => if code c =? 91 then l' else l | [] => l end in
  of_list (match reverse l with c :: l' => if code c =? 93 then reverse l' else l | [] => l end).

Definition assertPublicWebhookUrl `{!UrlParser} (rawUrl : string) : outcome exn URL :=
  if negb (truthy rawUrl) then Throw (BadRequestException "url is required")
  else
    match parse_url rawUrl with
    | None => Throw (BadRequestException "url must be a valid absolute URL")
    | Some parsed =>
        if negb (String.eqb (protocol parsed) "https:") && negb (String.eqb (protocol parsed) "http:")
        then Throw (BadRequestException "url must use http or https")
        else if isBlockedHostname (strip_brackets (toLowerCase (hostname parsed)))
        then Throw (BadRequestException "url must not target a loopback, private, or link-local address")
        else Ret parsed
    end.

(** The dotted-quad text of an address. *)
Definition dotted (a b c d : Z) : string :=
  join "." [Z_to_string a; Z_to_string b; Z_to_string c; Z_to_string d].

(** "This network", loopback, the three RFC 1918 blocks and link-local (the cloud metadata
    endpoint). *)
Definition internal_ipv4 (a b : Z) : bool :=
  (a =? 0) || (a =? 127) || (a =? 10) || ((a =? 169) && (b =? 254))
  || ((a =? 172) && (16 <=? b) && (b <=? 31)) || ((a =? 192) && (b =? 168)).

Lemma octet_string (o : Z) :
  0 <= o <= 255 →
  short_number (Z_to_string o) = true ∧ digits_val (to_list (Z_to_string o)) = o ∧
  "."%char ∉ to_list (Z_to_string o).
Proof.
  intros Ho. assert (Forall (λ o, short_number (Z_to_string o) = true) (seqZ 0 256)) as Hs.
  { apply Forall_forall. intros x Hx. revert x Hx. apply Forall_forall.
    apply (bool_decide_unpack _). vm_compute. exact I. }
  rewrite Forall_forall in Hs. specialize (Hs o). rewrite elem_of_seqZ in Hs. specialize (Hs ltac:(lia)).
  destruct (nat_digits_spec o) as (Hv & Hd & _); [lia|].
  assert (to_list (Z_to_string o) = nat_digits o) as Hz.
  { unfold Z_to_string. rewrite (proj2 (Z.ltb_ge o 0)) by lia. apply to_of_list. }
  rewrite Hz. split; [done|]. split; [done|].
  rewrite forallb_forall in Hd. intros Hin. apply list_elem_of_In in Hin. by specialize (Hd _ Hin).
Qed.

Lemma to_list_dotted (a b c d : Z) :
  to_list (dotted a b c d) = (to_list (Z_to_string a) ++ "."%char :: to_list (Z_to_string b) ++ "."%char ::
    to_list (Z_to_string c) ++ "."%char :: to_list (Z_to_string d))%list.
Proof. unfold dotted, join. cbn [String.concat]. by rewrite !to_list_app. Qed.

Lemma split_dotted (a b c d : Z) :
  0 <= a <= 255 → 0 <= b <= 255 → 0 <= c <= 255 → 0 <= d <= 255 →
  split "." (dotted a b c d) = [Z_to_string a; Z_to_string b; Z_to_string c; Z_to_string d].
Proof.
  intros Ha Hb Hc Hd. unfold split. rewrite to_list_dotted.
  rewrite split_list_app by by apply octet_string. rewrite split_list_app by by apply octet_string.
  rewrite split_list_app by by apply octet_string. rewrite split_list_no by by apply octet_string.
  cbn. by rewrite !of_to_list.
Qed.

Lemma dotted_chars (a b c d : Z) (x : ascii) :
  0 <= a <= 255 → 0 <= b <= 255 → 0 <= c <= 255 → 0 <= d <= 255 →
  x ∈ to_list (dotted a b c d) → is_digit x = true ∨ x = "."%char.
Proof.
  intros Ha Hb Hc Hd. assert (∀ o, 0 <= o <= 255 → x ∈ to_list (Z_to_string o) → is_digit x = true) as Ho.
  { intros o (Hs & _ & _)%octet_string Hx. unfold short_number in Hs. bool_to_prop.
    destruct (to_list (Z_to_string o)) as [|y l] eqn:E; [by apply elem_of_nil in Hx|].
    unfold all_digits in *. rewrite forallb_forall in H. apply H. by apply list_elem_of_In. }
  rewrite to_list_dotted. rewrite !elem_of_app, !elem_of_cons, !elem_of_app, !elem_of_cons, !elem_of_app, !elem_of_cons.
  intuition eauto.
Qed.

Lemma elem_of_slice (n : nat) (s : string) (x : ascii) : x ∈ to_list (slice_from n s) → x ∈ to_list s.
Proof. unfold slice_from. rewrite to_of_list. intros H. rewrite <- (take_drop n (to_list s)). set_solver. Qed.

(** For every IPv4 address in dotted-quad form the host check blocks exactly the
    addresses of "this network", loopback, the RFC 1918 private blocks and link-local. *)
Theorem blocked_ipv4_iff_internal (a b c d : Z)
    (Ha : 0 <= a <= 255) (Hb : 0 <= b <= 255) (Hc : 0 <= c <= 255) (Hd : 0 <= d <= 255) :
  isBlockedHostname (dotted a b c d) = internal_ipv4 a b.
Proof.
  assert (∀ t x, x ∈ to_list t → is_digit x = false → x ≠ "."%char → String.eqb (dotted a b c d) t = false) as Hne.
  { intros t x Hx Hxd Hxp. apply String.eqb_neq. intros <-.
    destruct (dotted_chars a b c d x) as [?|?]; congruence. }
  unfold isBlockedHostname. rewrite (Hne "localhost"%string "l"%char), (Hne "::1"%string ":"%char), (Hne "0:0:0:0:0:0:0:1"%string ":"%char)
    by (first [done|apply (bool_decide_unpack _); vm_compute; exact I]).
  assert (endsWith (dotted a b c d) ".localhost" = false) as ->.
  { unfold endsWith. apply andb_false_iff. right. apply String.eqb_neq. intros E.
    assert ("l"%char ∈ to_list (dotted a b c d)) as Hl.
    { eapply elem_of_slice. rewrite E. apply (bool_decide_unpack _); vm_compute; exact I. }
    by apply dotted_chars in Hl as [?|?]. }
  cbn [orb]. unfold ipv4_octets. rewrite split_dotted by done.
  destruct (octet_string a Ha) as (Sa & Va & _), (octet_string b Hb) as (Sb & Vb & _),
    (octet_string c Hc) as (Sc & Vc & _), (octet_string d Hd) as (Sd & Vd & _).
  cbn [forallb length Nat.eqb]. rewrite Sa, Sb, Sc, Sd. cbn [andb map existsb]. rewrite Va, Vb, Vc, Vd.
  rewrite !(proj2 (Z.ltb_ge 255 _)) by lia. cbn [orb nth]. unfold internal_ipv4.
  repeat case_match; try done.
Qed.

(** A URL that passes the check has an http or https scheme and a host that the check
    does not block; every rejection is an HTTP 400. *)
Theorem assertPublic_sound `{!UrlParser} (rawUrl : string) :
  match assertPublicWebhookUrl rawUrl with
  | Ret u => parse_url rawUrl = Some u ∧ (protocol u = "https:" ∨ protocol u = "http:")%string ∧
             isBlockedHostname (strip_brackets (toLowerCase (hostname u))) = false
  | Throw e => ∃ msg, e = BadRequestException msg
  end.
Proof.
  unfold assertPublicWebhookUrl. destruct (negb (truthy rawUrl)); [by eexists|].
  destruct (parse_url rawUrl) as [u|] eqn:Hp; [|by eexists].
  destruct (negb _ && negb _) eqn:E; [by eexists|]. destruct (isBlockedHostname _) eqn:Hb; [by eexists|].
  split; [done|]. split; [|done]. bool_to_prop. destruct E; bool_to_prop; auto.
Qed.

(** The textual IPv6 test is neither complete nor limited to addresses: addresses of the
    unique-local block outside fc00 (fc01::1), IPv4-mapped loopback (::ffff:7f00:1, the form
    URL parsing gives [::ffff:127.0.0.1]) and the fully qualified name "localhost." pass,
    while public domain names that begin with "fd" are blocked. *)
Theorem host_check_gaps :
  isBlockedHostname "fc01::1" = false ∧ isBlockedHostname "::ffff:7f00:1" = false ∧
  isBlockedHostname "localhost." = false ∧ isBlockedHostname "fdic.gov" = true.
Proof. vm_compute. repeat split. Qed.
End WebhookUrl.

(** Node's [randomBytes(n).toString('hex')]. *)
Class Random (W : Type) := { random_hex : nat → W → string * W }.

Class RandomLaws (W : Type) `{!Prisma W} `{!Random W} := {
  random_law : ∀ n w, commits w (random_hex n w).2 (tables w) }.

Definition randomHex {W : Type} `{!Random W} (n : nat) : M exn W string :=
  λ w, (Ret (random_hex n w).1, (random_hex n w).2).

(** ** [webhook-subscriptions.service.ts] *)
Module WebhookSubscriptionsService.
Import Principal WebhookUrl WebhookDispatchService.

Definition MAX_SUBSCRIPTIONS_PER_OWNER : Z := 20.

Record CreateWebhookSubscriptionDto := mkCreateDto {
  c_url : option string;
  c_eventTypes : option (list string) }.

Record WebhookSubscriptionView := mkSubscriptionView {
  v_id : string;
  v_ownerId : string;
  v_url : string;
  v_eventTypes : list string;
  v_active : bool;
  v_createdAt : string;
  v_updatedAt : string }.

Definition toView (s : WebhookSubscription) : WebhookSubscriptionView :=
  {| v_id := sub_id s; v_ownerId := sub_ownerId s; v_url := sub_url s;
     v_eventTypes := sub_eventTypes s; v_active := sub_active s;
     v_createdAt := toISOString (sub_createdAt s); v_updatedAt := toISOString (sub_updatedAt s) |}.

(** [list.includes(s)] *)
Definition includes_string (l : list string) (s : string) : bool := existsb (String.eqb s) l.

(** [Array.from(new Set(l))]: first occurrences, in order. *)
Fixpoint unique_from (seen l : list string) : list string :=
  match l with
  | [] => []
  | x :: l' => if includes_string seen x then unique_from seen l' else x :: unique_from (x :: seen) l'
  end.

Definition validateEventTypes (eventTypes : option (list string)) : outcome exn (list string) :=
  match eventTypes with
  | None | Some [] => Ret [ALL_EVENTS_WILDCARD]
  | Some l =>
      if includes_string l ALL_EVENTS_WILDCARD then Ret [ALL_EVENTS_WILDCARD]
      else
        match List.filter (λ t, negb (includes_string ALL_INVOICE_EVENT_TYPES t)) l with
        | [] => Ret (unique_from [] l)
        | invalid =>
            Throw (BadRequestException ("Invalid event types: " +:+ join ", " invalid +:+ ". Valid types: "
              +:+ join ", " ALL_INVOICE_EVENT_TYPES +:+ ", or " +:+ str1 quote +:+ ALL_EVENTS_WILDCARD +:+ str1 quote)%string)
        end
  end.

Section service.
Context {W : Type} `{!Prisma W} `{!Random W} {UP : UrlParser}.
Variable h : PrismaService.handle.

Definition owned_active (wallet : string) (s : WebhookSubscription) : bool :=
  String.eqb (sub_ownerId s) wallet && sub_active s.

Definition new_subscription (owner url secret : string) (types : list string) (g : gen) : WebhookSubscription :=
  {| sub_id := g_id g; sub_ownerId := owner; sub_url := url; sub_secret := secret;
     sub_eventTypes := types; sub_active := true; sub_createdAt := g_now g; sub_updatedAt := g_now g |}.

Definition register (principal : Principal) (dto : CreateWebhookSubscriptionDto)
    : M exn W (WebhookSubscriptionView * string) :=
  url ← AccessGuard.of_outcome (assertPublicWebhookUrl (default EmptyString (c_url dto)));
  eventTypes ← AccessGuard.of_outcome (validateEventTypes (c_eventTypes dto));
  existing ← PrismaService.via h PrismaService.m_webhookSubscription
    (count_rows (owned_active (walletAddress principal)));
  if MAX_SUBSCRIPTIONS_PER_OWNER <=? existing then
    throw (BadRequestException ("A wallet may register at most " +:+ Z_to_string MAX_SUBSCRIPTIONS_PER_OWNER
                                +:+ " active webhook subscriptions")%string)
  else
    secret ← randomHex 32;
    created ← PrismaService.via h PrismaService.m_webhookSubscription
      (create (new_subscription (walletAddress principal) (href url) secret eventTypes));
    mret (toView created, secret).

(** The [where] of [list]; an empty [ownerId] is falsy. *)
Definition visible (principal : Principal) (ownerId : option string) (s : WebhookSubscription) : bool :=
  if isAdmin principal
  then if truthy_opt ownerId then String.eqb (sub_ownerId s) (default EmptyString ownerId) else true
  else String.eqb (sub_ownerId s) (walletAddress principal).

Definition list_ (principal : Principal) (ownerId : option string) : M exn W (list WebhookSubscriptionView) :=
  subscriptions ← PrismaService.via h PrismaService.m_webhookSubscription
    (find_many (visible principal ownerId) (λ s, - sub_createdAt s));
  mret (map toView subscriptions).

Definition findOwned (principal : Principal) (id : string) : M exn W WebhookSubscription :=
  subscription ← PrismaService.via h PrismaService.m_webhookSubscription
    (find_unique (λ s, String.eqb (sub_id s) id));
  match subscription with
  | None => throw (NotFoundException ("Webhook subscription " +:+ id +:+ " not found")%string)
  | Some s =>
      if negb (isAdmin principal) && negb (String.eqb (sub_ownerId s) (walletAddress principal))
      then throw (ForbiddenException "Not the owner of this webhook subscription")
      else mret s
  end.

Definition deactivate (g : gen) (s : WebhookSubscription) : WebhookSubscription :=
  {| sub_id := sub_id s; sub_ownerId := sub_ownerId s; sub_url := sub_url s; sub_secret := sub_secret s;
     sub_eventTypes := sub_eventTypes s; sub_active := false; sub_createdAt := sub_createdAt s;
     sub_updatedAt := g_now g |}.

Definition revoke (principal : Principal) (id : string) : M exn W unit :=
  subscription ← findOwned principal id;
  if negb (sub_active subscription) then mret tt
  else
    _ ← PrismaService.via h PrismaService.m_webhookSubscription
      (update (λ s, String.eqb (sub_id s) (sub_id subscription)) deactivate);
    mret tt.
End service.

Section theorems.
Context {W : Type} `{!Prisma W} `{!Random W} {UP : UrlParser} `{!PrismaLaws W} `{!RandomLaws W}.

Lemma wp_randomHex (n : nat) (Φ : outcome exn string → W → Prop) (w : W) :
  (∀ s w', commits w w' (tables w) → Φ (Ret s) w') → wp (randomHex n) Φ w.
Proof. intros H. apply H, random_law. Qed.

Lemma elem_of_unique_from (seen l : list string) (t : string) : t ∈ unique_from seen l → t ∈ l.
Proof.
  revert seen. induction l as [|x l IH]; intros seen; cbn; [done|].
  destruct (includes_string seen x); [|rewrite elem_of_cons; intros [->|?]]; [intros ?; right; eauto|by left|right; eauto].
Qed.

Lemma validateEventTypes_vocabulary (o : option (list string)) (types : list string) :
  validateEventTypes o = Ret types → Forall (λ t, t ∈ ALL_EVENTS_WILDCARD :: ALL_INVOICE_EVENT_TYPES) types.
Proof.
  assert (Forall (λ t, t ∈ ALL_EVENTS_WILDCARD :: ALL_INVOICE_EVENT_TYPES) [ALL_EVENTS_WILDCARD]) as Hw.
  { repeat constructor. }
  unfold validateEventTypes. destruct o as [[|x l]|]; [by intros [= <-]| |by intros [= <-]].
  destruct (includes_string (x :: l) ALL_EVENTS_WILDCARD); [by intros [= <-]|].
  destruct (List.filter _ (x :: l)) as [|y k] eqn:E; [|done]. intros [= <-]. apply Forall_forall.
  intros t Ht. change (t ∈ unique_from [] (x :: l)) in Ht. apply elem_of_unique_from in Ht. right.
  assert (negb (includes_string ALL_INVOICE_EVENT_TYPES t) = false) as Hf.
  { destruct (negb _) eqn:En; [|done]. assert (In t []) as []. rewrite <- E. apply filter_In.
    by rewrite <- list_elem_of_In. }
  apply negb_false_iff, existsb_exists in Hf as (u & Hu & ->%String.eqb_eq). by apply list_elem_of_In.
Qed.

(** Registration validates before it writes: it succeeds only for a URL that passes the
    public-host check and for event types of the published vocabulary (or the wildcard), and
    then adds exactly one active subscription owned by the caller; an owner who starts with
    at most 20 active subscriptions never has more afterwards, and a failed registration
    writes nothing. *)
Theorem register_spec (h : PrismaService.handle) (principal : Principal) (dto : CreateWebhookSubscriptionDto)
    (w : W) (Hh : PrismaService.m_webhookSubscription ∈ h)
    (Hcap : count_if (owned_active (walletAddress principal)) (rows (tables w)) <= MAX_SUBSCRIPTIONS_PER_OWNER) :
  wp (register h principal dto)
     (λ r w', match r with
        | Ret (view, secret) =>
            (∃ url types g, assertPublicWebhookUrl (default EmptyString (c_url dto)) = Ret url ∧
               validateEventTypes (c_eventTypes dto) = Ret types ∧
               Forall (λ t, t ∈ ALL_EVENTS_WILDCARD :: ALL_INVOICE_EVENT_TYPES) types ∧
               let s := new_subscription (walletAddress principal) (href url) secret types g in
               view = toView s ∧ tables w' = set_rows (rows (tables w) ++ [s]) (tables w)) ∧
            count_if (owned_active (walletAddress principal)) (rows (tables w')) <= MAX_SUBSCRIPTIONS_PER_OWNER
        | Throw _ => tables w' = tables w
        end) w.
Proof.
  pose proof (validateEventTypes_vocabulary (c_eventTypes dto)) as Hvalid.
  unfold register. apply wp_bind. destruct (assertPublicWebhookUrl _) as [url|e]; cbn [AccessGuard.of_outcome];
    [apply wp_ret|by apply wp_throw].
  apply wp_bind. destruct (validateEventTypes _) as [types|e]; cbn [AccessGuard.of_outcome];
    [apply wp_ret|by apply wp_throw].
  rewrite PrismaService.via_in by done. wp_step. wp_op; [|by wp_tables].
  wp_step; [by wp_step; wp_tables|]. wp_step. apply wp_randomHex. intros secret w2 ?. wp_tables.
  rewrite PrismaService.via_in by done. wp_steps; wp_tables; [|done].
  split; [by exists url, types, g; repeat split; try done; apply Hvalid|]. rewrite rows_set_rows, count_if_app. bool_to_prop.
  assert (count_if (owned_active (walletAddress principal))
            [new_subscription (walletAddress principal) (href url) secret types g] <= 1); [|lia].
  unfold count_if. cbn. by destruct (owned_active _ _).
Qed.

(** A caller without the admin role can neither see nor revoke another wallet's
    subscription: listing returns exactly the subscriptions the caller may see, all of them
    the caller's own unless the role is admin; looking one up or revoking it succeeds only
    for an admin or the owner, and a refusal (HTTP 403, or 404 for an unknown id) changes
    nothing. *)
Theorem subscriptions_access (h : PrismaService.handle) (principal : Principal) (ownerId : option string)
    (id : string) (w : W) (Hh : PrismaService.m_webhookSubscription ∈ h) (Hup : up w) :
  wp (list_ h principal ownerId)
     (λ r w', tables w' = tables w ∧ ∃ l, r = Ret (map toView l) ∧
        l ≡ₚ List.filter (visible principal ownerId) (rows (tables w)) ∧
        (isAdmin principal = false → ∀ s, s ∈ l → sub_ownerId s = walletAddress principal)) w ∧
  wp (revoke h principal id)
     (λ r w', match r with
        | Ret _ => ∃ s, s ∈ rows (tables w) ∧ sub_id s = id ∧
            (isAdmin principal = true ∨ sub_ownerId s = walletAddress principal) ∧
            (tables w' = tables w ∧ sub_active s = false ∨
             ∃ g, tables w' = set_rows (map_if (λ s, String.eqb (sub_id s) id) (deactivate g) (rows (tables w))) (tables w))
        | Throw e => tables w' = tables w ∧
            ((∃ msg, e = NotFoundException msg) ∨ (∃ msg, e = ForbiddenException msg))
        end) w.
Proof.
  split.
  - unfold list_. rewrite PrismaService.via_in by done. wp_steps; wp_tables; [|tauto].
    split; [done|]. exists l. split; [done|]. split; [done|]. intros Hna s Hs.
    match goal with Hp : l ≡ₚ _ |- _ => rewrite Hp in Hs end.
    apply list_elem_of_In, filter_In in Hs as [_ Hv]. unfold visible in Hv. rewrite Hna in Hv. by bool_to_prop.
  - unfold revoke, findOwned. rewrite !PrismaService.via_in by done.
    wp_steps; try rewrite !PrismaService.via_in by done; wp_steps; wp_tables; try tauto; bool_to_prop.
    all: try (split; [done|]; first [by left; eexists|by right; eexists]).
    + exists r. split; [done|]. split; [done|]. split; [destruct Heqb; bool_to_prop; auto|by left].
    + exists r. split; [done|]. split; [done|]. split; [destruct Heqb; bool_to_prop; auto|right].
      match goal with Hx : sub_id r = id |- _ => rewrite Hx in * end. by eexists.
    + match goal with Hu : up _ → (_ ∨ _) ∧ _ |- _ => destruct Hu as [[Hn|(g & s & _ & Hk)] _]; [tauto|..] end.
      * rewrite existsb_false_forall in Hn. match goal with Hr : ?r ∈ rows _ |- _ => specialize (Hn r Hr) end.
        bool_to_prop. done.
      * cbn in Hk. by rewrite String.eqb_refl in Hk.
Qed.
End theorems.
End WebhookSubscriptionsService.

(** ** [webhook-delivery-log.service.ts] *)
Module WebhookDeliveryLogService.

Definition DELIVERY_STATUSES : list WebhookDeliveryStatus := [D_PENDING; D_PROCESSING; D_DELIVERED; D_ABANDONED].
Definition DEFAULT_LIMIT : Z := 50.
Definition MAX_LIMIT : Z := 200.

(** [limit] is [None] when undefined; [Math.trunc] keeps the infinities. *)
Definition clampLimit (limit : option JsNumber) : Z :=
  match limit with
  | None | Some NaN => DEFAULT_LIMIT
  | Some (Finite num den) => Z.min (Z.max (trunc num den) 1) MAX_LIMIT
  | Some (Infinity negative) => if negative then 1 else MAX_LIMIT
  end.

Record AttemptView := mkAttemptView {
  a_attemptNumber : Z; a_attemptedAt : string; a_success : bool;
  a_statusCode : option Z; a_error : option string; a_durationMs : option Z }.

Record WebhookDeliveryView := mkDeliveryView {
  w_id : string; w_subscriptionId : string; w_eventType : string; w_status : string;
  w_attemptCount : Z; w_nextAttemptAt : string; w_lastAttemptAt : option string;
  w_lastStatusCode : option Z; w_lastError : option string; w_createdAt : string;
  w_updatedAt : string; w_attempts : list AttemptView }.

Definition attemptView (a : WebhookDeliveryAttempt) : AttemptView :=
  {| a_attemptNumber := att_attemptNumber a; a_attemptedAt := toISOString (att_attemptedAt a);
     a_success := att_success a; a_statusCode := att_statusCode a; a_error := att_error a;
     a_durationMs := att_durationMs a |}.

Definition toView (delivery : WebhookDelivery) (attempts : list WebhookDeliveryAttempt) : WebhookDeliveryView :=
  {| w_id := del_id delivery; w_subscriptionId := del_subscriptionId delivery;
     w_eventType := del_eventType delivery; w_status := WebhookDeliveryStatus_name (del_status delivery);
     w_attemptCount := del_attemptCount delivery; w_nextAttemptAt := toISOString (del_nextAttemptAt delivery);
     w_lastAttemptAt := toISOString <$> del_lastAttemptAt delivery;
     w_lastStatusCode := del_lastStatusCode delivery; w_lastError := del_lastError delivery;
     w_createdAt := toISOString (del_createdAt delivery); w_updatedAt := toISOString (del_updatedAt delivery);
     w_attempts := map attemptView attempts |}.

(** [options.status]: an unknown name is rejected. *)
Definition parse_status (status : option string) : outcome exn (option WebhookDeliveryStatus) :=
  match status with
  | None => Ret None
  | Some s =>
      match List.find (λ st, String.eqb (WebhookDeliveryStatus_name st) s) DELIVERY_STATUSES with
      | Some st => Ret (Some st)
      | None => Throw (BadRequestException ("Invalid status: " +:+ s +:+ ". Valid: "
                  +:+ join ", " (map WebhookDeliveryStatus_name DELIVERY_STATUSES))%string)
      end
  end.

Definition wanted (subscriptionId : string) (status : option WebhookDeliveryStatus) (x : WebhookDelivery) : bool :=
  String.eqb (del_subscriptionId x) subscriptionId
  && match status with Some st => bool_decide (del_status x = st) | None => true end.

Section service.
Context {W : Type} `{!Prisma W}.
Variable h : PrismaService.handle.

(** [take] keeps the first rows of the ordered result; [include] is a second query for the
    attempts of the selected deliveries. *)
Definition listForSubscription (subscriptionId : string) (status : option string) (limit : option JsNumber)
    : M exn W (list WebhookDeliveryView) :=
  st ← AccessGuard.of_outcome (parse_status status);
  let limit := clampLimit limit in
  PrismaService.via h PrismaService.m_webhookDelivery (
    all ← find_many (wanted subscriptionId st) (λ x, - del_createdAt x);
    let deliveries := take (Z.to_nat limit) all in
    attempts ← find_many (λ a, existsb (λ x, String.eqb (att_deliveryId a) (del_id x)) deliveries) att_attemptNumber;
    mret (map (λ x, toView x (List.filter (λ a, String.eqb (att_deliveryId a) (del_id x)) attempts)) deliveries)).
End service.

(** The delivery log of a subscription never returns more than 200 entries and its limit
    is between 1 and 200 for every number a query string can hold (missing, not a number,
    fractional, negative or infinite); with a reachable database and a valid status it
    returns only deliveries of that subscription and status, newest first, each with all its
    attempts. *)
Theorem delivery_log_bounded `{!Prisma W} `{!PrismaLaws W} (h : PrismaService.handle)
    (subscriptionId : string) (status : option string) (st : option WebhookDeliveryStatus)
    (limit : option JsNumber) (w : W)
    (Hh : PrismaService.m_webhookDelivery ∈ h) (Hup : up w) (Hst : parse_status status = Ret st) :
  1 <= clampLimit limit <= MAX_LIMIT ∧
  wp (listForSubscription h subscriptionId status limit)
     (λ r w', tables w' = tables w ∧ ∃ deliveries attempts_of,
        r = Ret (map (λ x, toView x (attempts_of x)) deliveries) ∧
        Z.of_nat (length deliveries) <= clampLimit limit ∧
        Sorted (key_le (λ x, - del_createdAt x)) deliveries ∧
        (∀ x, x ∈ deliveries → x ∈ rows (tables w) ∧ wanted subscriptionId st x = true ∧
           attempts_of x ≡ₚ List.filter (λ a, String.eqb (att_deliveryId a) (del_id x)) (rows (tables w)))) w.
Proof.
  assert (1 <= clampLimit limit <= MAX_LIMIT) as Hlim.
  { unfold clampLimit, DEFAULT_LIMIT, MAX_LIMIT. repeat case_match; lia. }
  split; [done|]. unfold listForSubscription. rewrite Hst. cbn [AccessGuard.of_outcome].
  wp_step. wp_step. cbv zeta. rewrite PrismaService.via_in by done. wp_step. wp_op; [|wp_tables; tauto].
  wp_tables. cbv zeta. wp_steps; wp_tables; [|tauto]. split; [done|].
  exists (take (Z.to_nat (clampLimit limit)) l), (λ x, List.filter (λ a, String.eqb (att_deliveryId a) (del_id x)) l0).
  split; [done|]. split; [rewrite length_take; lia|]. split.
  { by apply Sorted_take. }
  intros x Hx. assert (x ∈ l) as Hxl.
  { rewrite <- (take_drop (Z.to_nat (clampLimit limit)) l). set_solver. }
  match goal with Hp : l ≡ₚ _ |- _ => rewrite Hp in Hxl end.
  apply list_elem_of_In, filter_In in Hxl as [Hxr Hxw]. rewrite <- list_elem_of_In in Hxr.
  split; [done|]. split; [done|]. match goal with Hp : l0 ≡ₚ _ |- _ => rewrite Hp end.
  rewrite filter_filter_imp; [done|]. intros a Ha. apply existsb_exists. exists x.
  by rewrite <- list_elem_of_In.
Qed.
End WebhookDeliveryLogService.

(** ** [webhook-delivery-worker.service.ts] *)

(** [fetch] with method POST (aborted after the request timeout): the response's status, or a
    rejection; and the serialization of a payload. *)
Class Http (W : Type) := {
  http_post : string → list (string * string) → string → M exn W Z;
  JSON_stringify_event : InvoiceEvent → string }.

Class HttpLaws (W : Type) `{!Prisma W} `{!Http W} := {
  http_law : ∀ url headers body w, commits w (http_post url headers body w).2 (tables w) }.

Module WebhookDeliveryWorkerService.
Import Retry WebhookSigning.

Definition BATCH_SIZE : Z := 20.
Definition POLL_INTERVAL_MS : Z := 15000.
Definition REQUEST_TIMEOUT_MS : Z := 10000.
Definition STUCK_PROCESSING_MS : Z := 5 * 60000.

Record ClaimedDelivery := mkClaimed {
  cd_id : string; cd_subscriptionId : string; cd_eventType : string;
  cd_payload : InvoiceEvent; cd_attemptCount : Z }.

(** The columns of the [RETURNING] clause. *)
Definition claimed_of (x : WebhookDelivery) : ClaimedDelivery :=
  mkClaimed (del_id x) (del_subscriptionId x) (del_eventType x) (del_payload x) (del_attemptCount x).

(** The [WHERE] of the claiming statement. *)
Definition claimable (g : gen) (x : WebhookDelivery) : bool :=
  (bool_decide (del_status x = D_PENDING) && (del_nextAttemptAt x <=? g_now g))
  || (bool_decide (del_status x = D_PROCESSING)
      && match del_lockedAt x with Some t => t <? g_now g - STUCK_PROCESSING_MS | None => false end).

Definition set_processing (g : gen) (x : WebhookDelivery) : WebhookDelivery :=
  {| del_id := del_id x; del_subscriptionId := del_subscriptionId x; del_eventType := del_eventType x;
     del_idempotencyKey := del_idempotencyKey x; del_payload := del_payload x; del_status := D_PROCESSING;
     del_attemptCount := del_attemptCount x; del_nextAttemptAt := del_nextAttemptAt x;
     del_lockedAt := Some (g_now g); del_lastAttemptAt := del_lastAttemptAt x;
     del_lastStatusCode := del_lastStatusCode x; del_lastError := del_lastError x;
     del_createdAt := del_createdAt x; del_updatedAt := del_updatedAt x |}.

Record Final := mkFinal {
  f_status : WebhookDeliveryStatus; f_attemptCount : Z; f_nextAttemptAt : option Z;
  f_lastAttemptAt : Z; f_lastStatusCode : option Z; f_lastError : option string }.

Definition set_final (data : Final) (g : gen) (x : WebhookDelivery) : WebhookDelivery :=
  {| del_id := del_id x; del_subscriptionId := del_subscriptionId x; del_eventType := del_eventType x;
     del_idempotencyKey := del_idempotencyKey x; del_payload := del_payload x; del_status := f_status data;
     del_attemptCount := f_attemptCount data;
     del_nextAttemptAt := default (del_nextAttemptAt x) (f_nextAttemptAt data);
     del_lockedAt := del_lockedAt x; del_lastAttemptAt := Some (f_lastAttemptAt data);
     del_lastStatusCode := f_lastStatusCode data; del_lastError := f_lastError data;
     del_createdAt := del_createdAt x; del_updatedAt := g_now g |}.

Definition is_id (id : string) (x : WebhookDelivery) : bool := String.eqb (del_id x) id.

(** [response.ok] *)
Definition ok_status (status : Z) : bool := (200 <=? status) && (status <=? 299).

(** [statusCode], [success] and [errorMessage] after the request. *)
Record Attempted := mkAttempted { at_statusCode : option Z; at_success : bool; at_error : option string }.

(** [err instanceof Error ? err.message : 'Unknown delivery error'] *)
Definition delivery_error (err : exn) : string :=
  match err with NonError _ => "Unknown delivery error" | _ => message err end.

Section service.
Context {W : Type} `{!Prisma W} `{!Clock W} `{!Http W} {CR : Crypto}.
Variable h : PrismaService.handle.

Definition claimBatch (limit : Z) : M exn W (list ClaimedDelivery) :=
  rows ← PrismaService.via h PrismaService.m_db
    (update_skip_locked claimable del_nextAttemptAt limit set_processing);
  mret (map claimed_of rows).

Definition finalize (id : string) (data : Final) : M exn W unit :=
  _ ← PrismaService.via h PrismaService.m_webhookDelivery (update (is_id id) (set_final data));
  mret tt.

Definition new_attempt (deliveryId : string) (attemptNumber : Z) (success : bool) (statusCode : option Z)
    (error : option string) (durationMs : Z) (g : gen) : WebhookDeliveryAttempt :=
  {| att_id := g_id g; att_deliveryId := deliveryId; att_attemptNumber := attemptNumber;
     att_attemptedAt := g_now g; att_success := success; att_statusCode := statusCode;
     att_error := error; att_durationMs := Some durationMs |}.

Definition logAttempt (deliveryId : string) (attemptNumber : Z) (success : bool) (statusCode : option Z)
    (error : option string) (durationMs : Z) : M exn W unit :=
  _ ← PrismaService.via h PrismaService.m_webhookDeliveryAttempt
    (create (new_attempt deliveryId attemptNumber success statusCode error durationMs));
  mret tt.

(** The [try { fetch } catch { } finally { }] block. *)
Definition request (delivery : ClaimedDelivery) (subscription : WebhookSubscription) (rawBody signature : string)
    : M exn W Attempted :=
  try_catch
    (now ← date_now;
     status ← http_post (sub_url subscription)
       [("content-type"%string, "application/json"%string); (WEBHOOK_SIGNATURE_HEADER, signature);
        (WEBHOOK_EVENT_HEADER, cd_eventType delivery); (WEBHOOK_DELIVERY_ID_HEADER, cd_id delivery);
        (WEBHOOK_TIMESTAMP_HEADER, toISOString now)] rawBody;
     let success := ok_status status in
     mret (mkAttempted (Some status) success
             (if success then None else Some ("Subscriber responded " +:+ Z_to_string status)%string)))
    (λ err, mret (mkAttempted None false (Some (delivery_error err)))).

(** The branch for a subscription that is gone or revoked. *)
Definition abandon_revoked (delivery : ClaimedDelivery) (attemptNumber startedAt : Z) : M exn W unit :=
  now ← date_now;
  logAttempt (cd_id delivery) attemptNumber false None (Some "subscription revoked or deleted"%string) (now - startedAt) ≫= λ _,
  t ← date_now;
  finalize (cd_id delivery)
    (mkFinal D_ABANDONED attemptNumber None t None (Some "subscription revoked or deleted"%string)).

(** What follows the logging of an attempt that was made. *)
Definition conclude (delivery : ClaimedDelivery) (attemptNumber : Z) (a : Attempted) : M exn W unit :=
  if at_success a then
    t ← date_now;
    finalize (cd_id delivery) (mkFinal D_DELIVERED attemptNumber None t (at_statusCode a) None)
  else
    delayMs ← AccessGuard.of_outcome (nextRetryDelayMs attemptNumber);
    match delayMs with
    | None =>
        t ← date_now;
        finalize (cd_id delivery) (mkFinal D_ABANDONED attemptNumber None t (at_statusCode a) (at_error a))
    | Some d =>
        next ← date_now;
        t ← date_now;
        finalize (cd_id delivery)
          (mkFinal D_PENDING attemptNumber (Some (next + d)) t (at_statusCode a) (at_error a))
    end.

Definition attemptDelivery (delivery : ClaimedDelivery) : M exn W unit :=
  let attemptNumber := cd_attemptCount delivery + 1 in
  startedAt ← date_now;
  subscription ← PrismaService.via h PrismaService.m_webhookSubscription
    (find_unique (λ s, String.eqb (sub_id s) (cd_subscriptionId delivery)));
  match subscription with
  | Some s =>
      if sub_active s then
        let rawBody := JSON_stringify_event (cd_payload delivery) in
        let signature := signWebhookPayload (sub_secret s) rawBody in
        a ← request delivery s rawBody signature;
        now ← date_now;
        logAttempt (cd_id delivery) attemptNumber (at_success a) (at_statusCode a) (at_error a) (now - startedAt) ≫= λ _,
        conclude delivery attemptNumber a
      else abandon_revoked delivery attemptNumber startedAt
  | None => abandon_revoked delivery attemptNumber startedAt
  end.

Definition processDueDeliveries : M exn W Z :=
  claimed ← claimBatch BATCH_SIZE;
  if (length claimed =? 0)%nat then mret 0
  else
    _ ← promise_all (map attemptDelivery claimed);
    mret (Z.of_nat (length claimed)).

(** [poll]: [polling] is the flag of the service object. *)
Definition poll (polling : bool) : M exn W bool :=
  if polling then mret polling
  else try_catch (_ ← processDueDeliveries; mret false) (λ _, mret false).
End service.

(** *** The life cycle of a delivery *)

(** A delivery that is still to be attempted has been attempted fewer than
    [MAX_DELIVERY_ATTEMPTS] times, a finished one at most so often. *)
Definition delivery_ok (status : WebhookDeliveryStatus) (attemptCount : Z) : Prop :=
  match status with
  | D_PENDING | D_PROCESSING => 0 <= attemptCount < MAX_DELIVERY_ATTEMPTS
  | D_DELIVERED | D_ABANDONED => 1 <= attemptCount <= MAX_DELIVERY_ATTEMPTS
  end.

Definition queue_ok (d : db) : Prop :=
  ∀ x : WebhookDelivery, x ∈ rows d → delivery_ok (del_status x) (del_attemptCount x).

Definition terminal (x : WebhookDelivery) : bool :=
  bool_decide (del_status x = D_DELIVERED) || bool_decide (del_status x = D_ABANDONED).

Lemma picked_rows_in {R Q : Type} (p : R → bool) (f : R → Q) (picked : list bool) (l : list R) (y : Q) :
  Forall2 (λ (b : bool) r, b = true → p r = true) picked l → y ∈ picked_rows picked (map f l) →
  ∃ r, r ∈ l ∧ p r = true ∧ y = f r.
Proof.
  intros H. induction H as [|b r picked l Hb _ IH]; cbn; intros Hy; [by apply elem_of_nil in Hy|].
  destruct b.
  - apply elem_of_cons in Hy as [->|Hy]; [exists r; split; [by left|auto]|].
    destruct (IH Hy) as (q & ? & ?). exists q. split; [by right|done].
  - destruct (IH Hy) as (q & ? & ?). exists q. split; [by right|done].
Qed.

Lemma zip_with_in {R : Type} (p : R → bool) (f : R → R) (picked : list bool) (l : list R) (y : R) :
  Forall2 (λ (b : bool) r, b = true → p r = true) picked l →
  y ∈ zip_with (λ b r, if (b : bool) then f r else r) picked l →
  ∃ r, r ∈ l ∧ (y = r ∨ (p r = true ∧ y = f r)).
Proof.
  intros H. induction H as [|b r picked l Hb _ IH]; cbn; intros Hy; [by apply elem_of_nil in Hy|].
  apply elem_of_cons in Hy as [->|Hy].
  - exists r. split; [by left|]. destruct b; auto.
  - destruct (IH Hy) as (q & ? & ?). exists q. split; [by right|done].
Qed.

Lemma zip_with_keeps {R : Type} (p : R → bool) (f : R → R) (picked : list bool) (l : list R) (x : R) :
  Forall2 (λ (b : bool) r, b = true → p r = true) picked l → x ∈ l → p x = false →
  x ∈ zip_with (λ b r, if (b : bool) then f r else r) picked l.
Proof.
  intros H. induction H as [|b r picked l Hb _ IH]; cbn; intros Hx Hp; [by apply elem_of_nil in Hx|].
  apply elem_of_cons in Hx as [->|Hx]; [|right; auto]. destruct b; [|by left].
  rewrite Hb in Hp by done. done.
Qed.

Lemma claimable_not_terminal (g : gen) (x : WebhookDelivery) : claimable g x = true → terminal x = false.
Proof. unfold claimable, terminal. destruct (del_status x); cbn; try done; by rewrite andb_false_l. Qed.

Section proofs.
Context {W : Type} `{!Prisma W} `{!Clock W} `{!Http W} {CR : Crypto}
  `{!PrismaLaws W} `{!ClockLaws W} `{!HttpLaws W}.

Lemma wp_http_post url headers body (Φ : outcome exn Z → W → Prop) (w : W) :
  (∀ r w', commits w w' (tables w) → Φ r w') → wp (http_post url headers body) Φ w.
Proof. intros H. unfold wp. apply H, http_law. Qed.

Lemma wp_request delivery subscription rawBody signature (Φ : outcome exn Attempted → W → Prop) (w : W) :
  (∀ a w', commits w w' (tables w) →
     (at_success a = true → ∃ c, at_statusCode a = Some c ∧ 200 <= c <= 299) → Φ (Ret a) w') →
  wp (request delivery subscription rawBody signature) Φ w.
Proof.
  intros H. unfold request. apply wp_try. wp_step. wp_op. wp_step. apply wp_http_post.
  intros [status|e] w2 ?; [wp_step; cbv beta iota zeta|wp_step]; wp_tables; apply H;
    try (split; [done|auto]); cbn; [|done].
  unfold ok_status. intros Hs. bool_to_prop. by exists status.
Qed.

Lemma same_keys_set_final (data : Final) (g : gen) (x : WebhookDelivery) : same_keys x (set_final data g x) = true.
Proof. cbn. by rewrite !String.eqb_refl. Qed.

Lemma same_keys_set_processing (g : gen) (x : WebhookDelivery) : same_keys x (set_processing g x) = true.
Proof. cbn. by rewrite !String.eqb_refl. Qed.

(** What one attempt needs of a predicate on the queue to keep it. *)
Definition finalizable (I : db → Prop) (delivery : ClaimedDelivery) : Prop :=
  (∀ (l : list WebhookDeliveryAttempt) d, I d → I (set_rows l d)) ∧
  ∀ data g d, I d → f_attemptCount data = cd_attemptCount delivery + 1 →
    delivery_ok (f_status data) (f_attemptCount data) →
    I (set_rows (map_if (is_id (cd_id delivery)) (set_final data g) (rows d)) d).

Lemma attempt_keeps h (I : db → Prop) (delivery : ClaimedDelivery) (w : W) :
  finalizable I delivery → 0 <= cd_attemptCount delivery < MAX_DELIVERY_ATTEMPTS →
  I (tables w) → wp (attemptDelivery h delivery) (λ _ w', I (tables w')) w.
Proof.
  intros [Hatt Hfin] Hn HI.
  assert (∀ data w0, I (tables w0) → f_attemptCount data = cd_attemptCount delivery + 1 →
    delivery_ok (f_status data) (f_attemptCount data) →
    wp (finalize h (cd_id delivery) data) (λ _ w', I (tables w')) w0) as Hfinalize.
  { intros data w0 H0 Hc Hok. unfold finalize, PrismaService.via.
    case_bool_decide; [|by apply wp_bind, wp_throw]. wp_steps; wp_tables; [by apply Hfin|done]. }
  assert (∀ n s c e t w0, I (tables w0) →
    wp (logAttempt h (cd_id delivery) n s c e t) (λ _ w', I (tables w')) w0) as Hlog.
  { intros n s c e t w0 H0. unfold logAttempt, PrismaService.via.
    case_bool_decide; [|by apply wp_bind, wp_throw]. wp_steps; wp_tables; [by apply Hatt|done]. }
  assert (∀ t w0, I (tables w0) →
    wp (abandon_revoked h delivery (cd_attemptCount delivery + 1) t) (λ _ w', I (tables w')) w0) as Hab.
  { intros t w0 H0. unfold abandon_revoked. wp_step. wp_op. wp_tables. wp_step.
    eapply wp_mono; [apply Hlog; congruence|]. intros [[]|e] w2 H2; [|done]. wp_step. wp_op. wp_tables.
    apply Hfinalize; [congruence|done|]. cbn. lia. }
  assert (∀ a w0, I (tables w0) →
    wp (conclude h delivery (cd_attemptCount delivery + 1) a) (λ _ w', I (tables w')) w0) as Hcon.
  { intros a w0 H0. unfold conclude. destruct (at_success a).
    - wp_step. wp_op. wp_tables. apply Hfinalize; [congruence|done|]. cbn. lia.
    - destruct (nextRetryDelayMs_cases (cd_attemptCount delivery + 1)) as (r & -> & Hr); [lia|].
      apply wp_bind; cbn [AccessGuard.of_outcome]; apply wp_ret. destruct r as [d|]; wp_step; wp_op; wp_tables; [wp_step; wp_op; wp_tables|];
        (apply Hfinalize; [congruence|done|]); cbn; lia. }
  unfold attemptDelivery. wp_step. wp_op. wp_tables. wp_step. unfold PrismaService.via at 1.
  case_bool_decide; [|apply wp_throw; congruence]. wp_op; wp_tables; [|apply Hab; congruence|congruence].
  destruct (sub_active _); [|apply Hab; congruence]. cbv zeta. wp_step. apply wp_request. intros a w2 ? _. wp_tables.
  wp_step. wp_op. wp_tables. wp_step. eapply wp_mono; [apply Hlog; congruence|].
  intros [[]|e] w4 Hw4; [|done]. by apply Hcon.
Qed.

(** The invariant of a poll that starts from [d0]. *)
Definition poll_inv (d0 d : db) : Prop :=
  queue_ok d ∧ ∀ x, x ∈ rows d0 → terminal x = true → x ∈ rows d.

Lemma poll_inv_claim (d0 : db) (g : gen) (picked : list bool) :
  queue_ok d0 → Forall2 (λ (b : bool) r, b = true → claimable g r = true) picked (rows d0) →
  poll_inv d0 (set_rows (zip_with (λ b r, if (b : bool) then set_processing g r else r) picked (rows d0)) d0).
Proof.
  intros Hok Hp. split; unfold queue_ok; rewrite rows_set_rows.
  - intros y (r & Hr & [->|[Hc ->]])%(zip_with_in (claimable g)); [by apply Hok| |done].
    specialize (Hok r Hr). apply claimable_not_terminal in Hc. unfold terminal in Hc.
    destruct (del_status r); try done; exact Hok.
  - intros x Hx Hterm. eapply (zip_with_keeps (claimable g)); [done..|].
    destruct (claimable g x) eqn:E; [|done]. apply claimable_not_terminal in E. congruence.
Qed.

Lemma poll_inv_finalizable (d0 : db) (r : WebhookDelivery) :
  NoDup (map del_id (rows d0)) → r ∈ rows d0 → terminal r = false →
  finalizable (poll_inv d0) (claimed_of r).
Proof.
  intros Hids Hr Hnt. split; [done|].
  intros data g d [Hok Hterm] Hc Hfin. split; unfold queue_ok; rewrite rows_set_rows.
  - intros y (x & Hx & ->)%elem_of_map_if. destruct (is_id _ x); [exact Hfin|by apply Hok].
  - intros x Hx Ht. apply elem_of_map_if. exists x. split; [by apply Hterm|].
    destruct (is_id (cd_id (claimed_of r)) x) eqn:E; [|done]. exfalso.
    unfold is_id in E. cbn in E. bool_to_prop. enough (x = r) by congruence.
    apply list_elem_of_lookup in Hx as [i Hi], Hr as [j Hj].
    assert (i = j) as ->; [|congruence]. eapply NoDup_lookup; [exact Hids|..]; rewrite list_lookup_fmap.
    + by rewrite Hi.
    + rewrite Hj. cbn. by f_equal.
Qed.

(** A poll of the delivery worker never throws and, however the database, the HTTP
    requests and the concurrent deliveries of the batch fail, it keeps the queue in order:
    deliveries still to be attempted have been attempted fewer than seven times and finished
    ones at most seven times, so no delivery is attempted more than seven times; and a
    delivery that was already delivered or abandoned is not touched. *)
Theorem poll_keeps_queue h (polling : bool) (w : W)
    (Hok : queue_ok (tables w)) (Hids : NoDup (map del_id (rows (tables w)))) :
  wp (poll h polling)
     (λ r w', r = Ret polling ∧ queue_ok (tables w') ∧
        ∀ x, x ∈ rows (tables w) → terminal x = true → x ∈ rows (tables w')) w.
Proof.
  unfold poll. destruct polling; [by apply wp_ret|].
  enough (wp (processDueDeliveries h) (λ _ w', poll_inv (tables w) (tables w')) w) as H.
  { apply wp_try, wp_bind. eapply wp_mono; [exact H|]. intros [n|e] w' [? ?]; by apply wp_ret. }
  unfold processDueDeliveries, claimBatch, PrismaService.via at 1.
  do 2 apply wp_bind. case_bool_decide; [|by apply wp_throw]. wp_op; wp_tables; [|by split].
  assert (poll_inv (tables w) (tables w')) as Hinv by (rewrite H4; by apply poll_inv_claim).
  apply wp_ret. destruct (_ =? 0)%nat; [by apply wp_ret|].
  apply wp_bind. eapply wp_mono; [apply (wp_promise_all (λ w1, poll_inv (tables w) (tables w1))); [|exact Hinv]|].
  - intros c w1 Hc Hw1. apply list_elem_of_In, in_map_iff in Hc as (y & <- & Hy).
    rewrite <- list_elem_of_In, H2 in Hy. eapply picked_rows_in in Hy as (r & Hr & Hcl & ->); [|exact H1].
    change (claimed_of (set_processing g r)) with (claimed_of r).
    pose proof (claimable_not_terminal g r Hcl) as Hnt. apply attempt_keeps; [by apply poll_inv_finalizable| |done].
    specialize (Hok r Hr). unfold terminal in Hnt. by destruct (del_status r).
  - intros [[]|e] w1 Hw1; [by apply wp_ret|done].
Qed.

(** The subscription of a delivery exists and is active. *)
Definition live_subscription (delivery : ClaimedDelivery) (d : db) : Prop :=
  ∃ s, s ∈ rows d ∧ sub_id s = cd_subscriptionId delivery ∧ sub_active s = true.

(** The verdict on attempt number [n]: the logged attempt and the row's final data. *)
Definition verdict (delivery : ClaimedDelivery) (n : Z) (d : db) (att : WebhookDeliveryAttempt) (data : Final) : Prop :=
  att_deliveryId att = cd_id delivery ∧ att_attemptNumber att = n ∧ f_attemptCount data = n ∧
  f_lastStatusCode data = att_statusCode att ∧
  match f_status data with
  | D_DELIVERED => att_success att = true ∧ ∃ c, att_statusCode att = Some c ∧ 200 <= c <= 299
  | D_PENDING => att_success att = false ∧ n < MAX_DELIVERY_ATTEMPTS ∧ live_subscription delivery d ∧
      ∃ now delay, nextRetryDelayMs n = Ret (Some delay) ∧ f_nextAttemptAt data = Some (now + delay)
  | D_ABANDONED => att_success att = false ∧
      (MAX_DELIVERY_ATTEMPTS <= n ∨ ∃ s, sub_id s = cd_subscriptionId delivery ∧ sub_active s = false ∧ s ∈ rows d
       ∨ existsb (λ s, String.eqb (sub_id s) (cd_subscriptionId delivery)) (rows d) = false)
  | D_PROCESSING => False
  end.

(** The database after an attempt was logged and the delivery finalized. *)
Definition after_attempt (delivery : ClaimedDelivery) (d d' : db) (att : WebhookDeliveryAttempt) (data : Final) : Prop :=
  ∃ g, d' = set_rows (map_if (is_id (cd_id delivery)) (set_final data g) (rows d)) (set_rows (rows d ++ [att]) d).

(** With a reachable database, logging an attempt and finalizing an existing row succeed. *)
Lemma wp_logAttempt_up h id n s c e t (Φ : outcome exn unit → W → Prop) (w : W) :
  PrismaService.m_webhookDeliveryAttempt ∈ h → up w →
  (∀ g w', commits w w' (set_rows (rows (tables w) ++ [new_attempt id n s c e t g]) (tables w)) → Φ (Ret tt) w') →
  wp (logAttempt h id n s c e t) Φ w.
Proof.
  intros Hh Hup H. unfold logAttempt. rewrite PrismaService.via_in by done. wp_steps; [by eapply H|].
  unfold refuses in *. exfalso.
  match goal with Hx : _ ∧ (up w → _) |- _ => destruct Hx as [_ Hx]; destruct (Hx Hup) as [(_ & g & Hfresh & Hc) _] end.
  apply existsb_exists in Hc as (x & Hx & Hc). apply Hfresh. cbn in Hc.
  apply String.eqb_eq in Hc. rewrite Hc. unfold ids. rewrite !elem_of_app, !list_elem_of_In.
  right. right. right. left. by apply in_map.
Qed.

Lemma wp_finalize_up h id data (Φ : outcome exn unit → W → Prop) (w : W) :
  PrismaService.m_webhookDelivery ∈ h → up w → existsb (is_id id) (rows (tables w)) = true →
  (∀ g w', commits w w' (set_rows (map_if (is_id id) (set_final data g) (rows (tables w))) (tables w)) → Φ (Ret tt) w') →
  wp (finalize h id data) Φ w.
Proof.
  intros Hh Hup Hex H. unfold finalize. rewrite PrismaService.via_in by done. wp_steps; [by eapply H|].
  unfold refuses in *. exfalso.
  match goal with Hx : _ ∧ (up w → _) |- _ => destruct Hx as [_ Hx]; destruct (Hx Hup) as [[?|(g & r & _ & Hk)] _] end.
  - congruence.
  - by rewrite same_keys_set_final in Hk.
Qed.

End proofs.
End WebhookDeliveryWorkerService.

(** ** [webhooks.controller.ts] *)
Module WebhooksController.
Section controller.
Context {W : Type} `{!Prisma W} `{!Random W} {UP : WebhookUrl.UrlParser}.
Variable h : PrismaService.handle.
(** [Number(s)] of a query-string value *)
Variable Number : string → JsNumber.

Definition create := WebhookSubscriptionsService.register h.
Definition list_ := WebhookSubscriptionsService.list_ h.
Definition revoke := WebhookSubscriptionsService.revoke h.

(** Ownership is checked before the log is read. *)
Definition listDeliveries (principal : Principal.Principal) (id : string) (status limit : option string)
    : M exn W (list WebhookDeliveryLogService.WebhookDeliveryView) :=
  _ ← WebhookSubscriptionsService.findOwned h principal id;
  WebhookDeliveryLogService.listForSubscription h id status (Number <$> limit).
End controller.
End WebhooksController.

(** ** Concrete runs *)
Module WebhookExamples.
Import WebhookDeliveryWorkerService WebhookDispatchService WebhookUrl.

#[local] Existing Instance toy_crypto.

(** A parser that accepts one URL. *)
#[local] Instance toy_url : UrlParser := {|
  parse_url := λ s, if String.eqb s "https://a.example/h" then Some (mkURL "https:" "a.example" s) else None |}.

#[local] Instance toy_random : Random mem := {| random_hex := λ n w, ("00ff"%string, w) |}.
#[local] Instance toy_random_laws : RandomLaws mem.
Proof. by split. Qed.

(** Subscribers of the path "/up" answer 204, the others reject the connection. *)
#[local] Instance toy_http : Http mem := {|
  http_post := λ url _ _, if endsWith url "/up" then mret 204 else throw (JsError "ECONNREFUSED");
  JSON_stringify_event := ie_invoiceId |}.
#[local] Instance toy_http_laws : HttpLaws mem.
Proof. split. intros url hs b w. cbn. by destruct (endsWith url "/up"). Qed.

Definition delivery_ex (id sub : string) (status : WebhookDeliveryStatus) (count : Z) : WebhookDelivery :=
  mkWebhookDelivery id sub "repaid" id event_ex status count 0 None None None None 0 0.

Definition sub_at (id path : string) : WebhookSubscription :=
  mkWebhookSubscription id "GA" ("https://a.example" +:+ path)%string "s3cret" ["*"%string] true 0 0.

Definition world_ex : mem :=
  mkMem (set_rows [sub_at "s1" "/up"; sub_at "s2" "/down"]
     (set_rows [delivery_ex "d1" "s1" D_PENDING 0; delivery_ex "d2" "s2" D_PENDING 6;
                delivery_ex "d3" "s2" D_PENDING 1; delivery_ex "d4" "s1" D_DELIVERED 1] empty_db)) 1000 1 [].

Lemma blocked_ipv4_witness : isBlockedHostname "172.16.0.9" = true ∧ isBlockedHostname "172.32.0.9" = false.
Proof.
  split.
  - apply (blocked_ipv4_iff_internal 172 16 0 9); lia.
  - apply (blocked_ipv4_iff_internal 172 32 0 9); lia.
Defined.

Definition principal_ex : Principal.Principal := Principal.mkPrincipal "u" "GB" "investor".

Lemma register_spec_witness :
  let dto := WebhookSubscriptionsService.mkCreateDto (Some "https://a.example/h"%string) (Some ["repaid"; "repaid"]%string) in
  let r := WebhookSubscriptionsService.register PrismaService.surface principal_ex dto world_ex in
  map sub_eventTypes (rows (tables r.2)) = [["*"]; ["*"]; ["repaid"]]%string ∧
  count_if (WebhookSubscriptionsService.owned_active "GB") (rows (tables r.2)) <= 20.
Proof.
  intros dto r. split; [vm_compute; reflexivity|].
  pose proof (WebhookSubscriptionsService.register_spec PrismaService.surface principal_ex dto world_ex) as H.
  destruct H as [_ H]; [apply (bool_decide_unpack _); vm_compute; exact I|vm_compute; discriminate|exact H].
Defined.

Lemma subscriptions_access_witness :
  let r := WebhookSubscriptionsService.revoke PrismaService.surface principal_ex "s1" world_ex in
  r.1 = Throw (ForbiddenException "Not the owner of this webhook subscription") ∧ tables r.2 = tables world_ex.
Proof.
  intros r. split; [vm_compute; reflexivity|].
  destruct (WebhookSubscriptionsService.subscriptions_access PrismaService.surface principal_ex None "s1" world_ex)
    as [_ [H _]]; [apply (bool_decide_unpack _); vm_compute; exact I|vm_compute; reflexivity|exact H].
Defined.

Lemma delivery_log_bounded_witness :
  1 <= WebhookDeliveryLogService.clampLimit (Some (Infinity false)) <= 200 ∧
  tables (WebhookDeliveryLogService.listForSubscription PrismaService.surface "s1" (Some "PENDING"%string)
            (Some (Infinity false)) world_ex).2 = tables world_ex.
Proof.
  destruct (WebhookDeliveryLogService.delivery_log_bounded PrismaService.surface "s1" (Some "PENDING"%string)
              (Some D_PENDING) (Some (Infinity false)) world_ex) as [H1 [H2 _]];
    [apply (bool_decide_unpack _); vm_compute; exact I|vm_compute; reflexivity..|]. split; [exact H1|exact H2].
Defined.

Lemma poll_keeps_queue_witness :
  let r := poll PrismaService.surface false world_ex in
  r.1 = Ret false ∧ queue_ok (tables r.2) ∧
  map (λ x, (del_status x, del_attemptCount x)) (rows (R:=WebhookDelivery) (tables r.2)) =
    [(D_DELIVERED, 1); (D_ABANDONED, 7); (D_PENDING, 2); (D_DELIVERED, 1)].
Proof.
  destruct (poll_keeps_queue PrismaService.surface false world_ex) as (H1 & H2 & _).
  - intros x Hx. repeat (apply elem_of_cons in Hx as [->|Hx]; [vm_compute; split; congruence|]). by apply elem_of_nil in Hx.
  - apply (bool_decide_unpack _). vm_compute. exact I.
  - split; [exact H1|]. split; [exact H2|]. vm_compute. reflexivity.
Defined.

End WebhookExamples.
