(* ===== verification/DeliveryInstances.v ===== *)
(** * Delivery by several instances ([webhooks/webhook-delivery-worker.service.ts])

    The delivery worker when the backend runs as several instances, or when a poll starts while
    deliveries of an earlier one are still under way: the methods of Webhooks.v cut at their
    awaits, in a pool with polls at any time, with statements of the rest of the backend in
    between, and with instances that crash. *)
From S2P Require Import Prelude Threads Js Schema Errors Prisma Retry PrismaService Interfaces Auth WebhookDispatch Webhooks.
Open Scope Z_scope.

(** The clock of the database server: [now()] of a statement is its value when the statement
    starts. *)
Class ServerClock (W : Type) := { server_now : W → Z }.

Class ServerClockLaws (W : Type) `{!Prisma W} `{!ServerClock W} := {
  claim_now_law : ∀ {R : Type} `{!Table R} (p : gen → R → bool) (key : R → Z) (n : Z) (f : gen → R → R) (w : W),
    match update_skip_locked p key n f w with
    | (Ret l, w') => ∃ g picked, g_now g = server_now w ∧ length picked = length (rows (R:=R) (tables w)) ∧
        Forall2 (λ (b : bool) r, b = true → p g r = true) picked (rows (tables w)) ∧
        l ≡ₚ picked_rows picked (map (f g) (rows (tables w))) ∧
        tables w' = set_rows (zip_with (λ b r, if (b : bool) then f g r else r) picked (rows (tables w))) (tables w)
    | (Throw _, w') => tables w' = tables w
    end }.

#[export] Instance mem_server_clock : ServerClock mem := {| server_now := m_now |}.

#[export] Instance mem_server_clock_laws : ServerClockLaws mem.
Proof.
  split. intros R HT p key n f w. cbn. unfold mem_update_skip_locked, mem_stmt.
  set (g := mkGen (fresh_id (m_db w)) (m_next w) (m_now w)). set (l := rows (m_db w)).
  assert (length (mem_pick (p g) (Z.to_nat n) l) = length l ∧
          Forall2 (λ (b : bool) r, b = true → p g r = true) (mem_pick (p g) (Z.to_nat n) l) l) as [Hlen Hp].
  { generalize (Z.to_nat n). induction l as [|r l IH]; intros k; [by split; constructor|]. cbn.
    destruct k as [|k]; [|destruct (p g r) eqn:E]; cbn.
    - destruct (IH 0%nat). split; [congruence|]. by constructor.
    - destruct (IH k). split; [congruence|]. by constructor.
    - destruct (IH (S k)). split; [congruence|]. by constructor. }
  destruct (m_faults w) as [|[] fs]; cbn; [|done|]; (exists g, (mem_pick (p g) (Z.to_nat n) l)); done.
Qed.

Module Instances.
Import WebhookDeliveryWorkerService Retry WebhookSigning.

Section threads.
Context {W : Type} `{!Prisma W} `{!Clock W} `{!Http W} {CR : Crypto}.
Variable h : PrismaService.handle.

(** *** [attemptDelivery] and what it calls, cut at the awaits *)

Definition request_ (delivery : ClaimedDelivery) (subscription : WebhookSubscription) (rawBody signature : string)
    : thread exn W Attempted :=
  try_
    (now ← await date_now;
     status ← await (http_post (sub_url subscription)
       [("content-type"%string, "application/json"%string); (WEBHOOK_SIGNATURE_HEADER, signature);
        (WEBHOOK_EVENT_HEADER, cd_eventType delivery); (WEBHOOK_DELIVERY_ID_HEADER, cd_id delivery);
        (WEBHOOK_TIMESTAMP_HEADER, toISOString now)] rawBody);
     let success := ok_status status in
     mret (mkAttempted (Some status) success
             (if success then None else Some ("Subscriber responded " +:+ Z_to_string status)%string)))
    (λ err, mret (mkAttempted None false (Some (delivery_error err)))).

Definition abandon_revoked_ (delivery : ClaimedDelivery) (attemptNumber startedAt : Z) : thread exn W unit :=
  now ← await date_now;
  await (logAttempt h (cd_id delivery) attemptNumber false None (Some "subscription revoked or deleted"%string) (now - startedAt)) ≫= λ _,
  t ← await date_now;
  await (finalize h (cd_id delivery)
    (mkFinal D_ABANDONED attemptNumber None t None (Some "subscription revoked or deleted"%string))).

Definition conclude_ (delivery : ClaimedDelivery) (attemptNumber : Z) (a : Attempted) : thread exn W unit :=
  if at_success a then
    t ← await date_now;
    await (finalize h (cd_id delivery) (mkFinal D_DELIVERED attemptNumber None t (at_statusCode a) None))
  else
    delayMs ← Stop (nextRetryDelayMs attemptNumber);
    match delayMs with
    | None =>
        t ← await date_now;
        await (finalize h (cd_id delivery) (mkFinal D_ABANDONED attemptNumber None t (at_statusCode a) (at_error a)))
    | Some d =>
        next ← await date_now;
        t ← await date_now;
        await (finalize h (cd_id delivery)
          (mkFinal D_PENDING attemptNumber (Some (next + d)) t (at_statusCode a) (at_error a)))
    end.

Definition attemptDelivery_ (delivery : ClaimedDelivery) : thread exn W unit :=
  let attemptNumber := cd_attemptCount delivery + 1 in
  startedAt ← await date_now;
  subscription ← await (PrismaService.via h PrismaService.m_webhookSubscription
    (find_unique (λ s, String.eqb (sub_id s) (cd_subscriptionId delivery))));
  match subscription with
  | Some s =>
      if sub_active s then
        let rawBody := JSON_stringify_event (cd_payload delivery) in
        let signature := signWebhookPayload (sub_secret s) rawBody in
        a ← request_ delivery s rawBody signature;
        now ← await date_now;
        await (logAttempt h (cd_id delivery) attemptNumber (at_success a) (at_statusCode a) (at_error a) (now - startedAt)) ≫= λ _,
        conclude_ delivery attemptNumber a
      else abandon_revoked_ delivery attemptNumber startedAt
  | None => abandon_revoked_ delivery attemptNumber startedAt
  end.

Lemma cuts_outcome {A : Type} (o : outcome exn A) : cuts (W:=W) (Stop o) (AccessGuard.of_outcome o).
Proof. by destruct o. Qed.

(** The thread is the method. *)
Lemma attemptDelivery_cuts (delivery : ClaimedDelivery) :
  cuts (attemptDelivery_ delivery) (attemptDelivery h delivery).
Proof.
  assert (∀ n t, cuts (abandon_revoked_ delivery n t) (abandon_revoked h delivery n t)) as Hab.
  { intros n t. apply cuts_bind; [apply cuts_await|]. intros now. apply cuts_bind; [apply cuts_await|]. intros _.
    apply cuts_bind; auto with cuts. }
  unfold attemptDelivery_, attemptDelivery. apply cuts_bind; [auto with cuts|]. intros startedAt.
  apply cuts_bind; [auto with cuts|]. intros [s|]; [|apply Hab]. destruct (sub_active s); [|apply Hab]. cbv zeta.
  apply cuts_bind; [unfold request_, request; auto 10 with cuts|]. intros a.
  apply cuts_bind; [auto with cuts|]. intros now. apply cuts_bind; [auto with cuts|]. intros _.
  unfold conclude_, conclude. destruct (at_success a); [auto with cuts|].
  apply cuts_bind; [apply cuts_outcome|]. intros [d|]; auto 10 with cuts.
Qed.

(** *** The pool *)

Inductive entry := Poll | Elsewhere.

(** What the rest of the backend does to the queue: enqueue. *)
Definition enqueues (d d' : db) : Prop :=
  ∃ new, rows d' = rows d ++ new ∧ NoDup (map del_id (rows d')) ∧
         ∀ x, x ∈ new → del_status x = D_PENDING ∧ del_attemptCount x = 0.

(** A poll claims its batch in one statement and starts the attempts of the batch. *)
Inductive worker_enter : entry → W → list (ClaimedDelivery * thread exn W unit) → W → Prop :=
| poll_claims w l w' :
    claimBatch h BATCH_SIZE w = (Ret l, w') →
    worker_enter Poll w (map (λ d, (d, attemptDelivery_ d)) l) w'
| poll_fails w e w' : claimBatch h BATCH_SIZE w = (Throw e, w') → worker_enter Poll w [] w'
| backend_runs w w' : enqueues (tables w) (tables w') → worker_enter Elsewhere w [] w'.
End threads.

(** The poll of the service is a poll of the pool whose attempts then run one after the other. *)
Lemma processDueDeliveries_polls {W : Type} `{!Prisma W} `{!Clock W} `{!Http W} {CR : Crypto} h (w : W) :
  processDueDeliveries h w =
    match claimBatch h BATCH_SIZE w with
    | (Ret l, w') => (_ ← promise_all (map (λ d, run_alone (attemptDelivery_ h d)) l); mret (Z.of_nat (length l))) w'
    | (Throw e, w') => (Throw e, w')
    end.
Proof.
  unfold processDueDeliveries, mbind at 1, M_bind. destruct (claimBatch h BATCH_SIZE w) as [[l|e] w']; [|done].
  destruct l as [|d l]; [done|]. cbn [length Nat.eqb]. unfold mbind, M_bind.
  enough (promise_all (map (attemptDelivery h) (d :: l)) w' =
          promise_all (map (λ d, run_alone (attemptDelivery_ h d)) (d :: l)) w') as -> by done.
  revert w'. induction (d :: l) as [|a k IH]; intros w'; [done|]. cbn [map promise_all]. rewrite (attemptDelivery_cuts h a w').
  destruct (attemptDelivery h a w') as [[[]|e] w'']; [apply IH|by rewrite IH].
Qed.

(** *** The invariant of the queue and of the attempts under way *)

(** The auxiliary state of an attempt: it holds its claim until it ends. *)
Inductive phase := Held | Over.

Definition held (ls : list (ClaimedDelivery * phase)) : list ClaimedDelivery :=
  omap (λ x : ClaimedDelivery * phase, match x.2 with Held => Some x.1 | Over => None end) ls.

(** The row of a claim is as the claim left it. *)
Definition claim_stands (delivery : ClaimedDelivery) (d : db) : Prop :=
  ∃ x : WebhookDelivery, x ∈ rows d ∧ del_id x = cd_id delivery ∧ del_status x = D_PROCESSING ∧
    del_attemptCount x = cd_attemptCount delivery.

(** What every piece of the program leaves of the queue. *)
Definition preserved (d d' : db) : Prop :=
  ∀ x : WebhookDelivery, x ∈ rows d → ∃ x', x' ∈ rows d' ∧ del_id x' = del_id x ∧
    del_attemptCount x <= del_attemptCount x' ∧ (terminal x = true → x' = x).

Section inv.
Context {W : Type} `{!Prisma W}.

Definition inst_inv (w : W) (ls : list (ClaimedDelivery * phase)) : Prop :=
  queue_ok (tables w) ∧ NoDup (map del_id (rows (tables w))) ∧ NoDup (cd_id <$> held ls) ∧
  ∀ d, d ∈ held ls → claim_stands d (tables w).

Definition guarantee (w w' : W) : Prop := preserved (tables w) (tables w').

#[local] Instance preserved_preorder : PreOrder preserved.
Proof.
  split; [intros d x Hx; exists x; repeat split; try done; lia|]. intros d1 d2 d3 H12 H23 x Hx.
  destruct (H12 x Hx) as (y & Hy & ? & ? & Ht). destruct (H23 y Hy) as (z & Hz & ? & ? & Ht').
  exists z. repeat split; [done|congruence|lia|]. intros Hterm. rewrite (Ht Hterm) in Ht'. by apply Ht'.
Qed.

#[global] Instance guarantee_preorder : PreOrder guarantee.
Proof. split; [intros w; unfold guarantee; reflexivity|intros w1 w2 w3; unfold guarantee; apply transitivity]. Qed.

Lemma held_app (ls ls' : list (ClaimedDelivery * phase)) : held (ls ++ ls') = held ls ++ held ls'.
Proof. apply omap_app. Qed.

(** A claim may be dropped. *)
Lemma inst_inv_drop (w : W) ls1 bp ls2 : inst_inv w (ls1 ++ bp :: ls2) → inst_inv w (ls1 ++ ls2).
Proof.
  assert (held (ls1 ++ ls2) `sublist_of` held (ls1 ++ bp :: ls2)) as Hsub.
  { rewrite !held_app. apply sublist_app; [done|]. destruct bp as [b []]; cbn; [by apply sublist_cons|done]. }
  intros (H1 & H2 & H3 & H4). split; [done|]. split; [done|]. split.
  - eapply sublist_NoDup; [exact H3|]. by apply fmap_sublist.
  - intros d Hd. apply H4. by apply (sublist_subseteq _ _ Hsub).
Qed.

Lemma inst_inv_over (w : W) ls1 delivery p ls2 :
  inst_inv w (ls1 ++ (delivery, p) :: ls2) → inst_inv w (ls1 ++ (delivery, Over) :: ls2).
Proof.
  intros H%inst_inv_drop. unfold inst_inv. rewrite held_app. cbn. by rewrite <- held_app.
Qed.

(** Pieces that do not write the queue *)
Lemma inst_inv_frame (w w' : W) ls :
  rows (R:=WebhookDelivery) (tables w') = rows (tables w) → inst_inv w ls → guarantee w w' ∧ inst_inv w' ls.
Proof.
  intros Hr (H1 & H2 & H3 & H4). split; [|split; [|split; [|split; [done|]]]].
  - intros x Hx. exists x. rewrite Hr. repeat split; try done; lia.
  - unfold queue_ok. by rewrite Hr.
  - by rewrite Hr.
  - intros d Hd. destruct (H4 d Hd) as (x & Hx & ?). exists x. by rewrite Hr.
Qed.

Lemma ids_map_if (p : WebhookDelivery → bool) (f : WebhookDelivery → WebhookDelivery) (l : list WebhookDelivery) :
  (∀ x, del_id (f x) = del_id x) → map del_id (map_if p f l) = map del_id l.
Proof. intros Hf. unfold map_if. rewrite map_map. apply map_ext. intros x. by destruct (p x). Qed.

Lemma nodup_id (l : list WebhookDelivery) (x y : WebhookDelivery) :
  NoDup (map del_id l) → x ∈ l → y ∈ l → del_id x = del_id y → x = y.
Proof.
  intros Hn [i Hi]%list_elem_of_lookup [j Hj]%list_elem_of_lookup He.
  assert (i = j) as ->; [|congruence]. eapply NoDup_lookup; [exact Hn|..]; change (map del_id l) with (del_id <$> l);
    rewrite list_lookup_fmap; [by rewrite Hi|rewrite Hj; cbn; by f_equal].
Qed.

(** Finalizing a delivery that is held ends its claim and touches no other row. *)
Lemma inst_inv_finalize (w w' : W) ls1 delivery ls2 (data : Final) (g : gen) :
  inst_inv w (ls1 ++ (delivery, Held) :: ls2) →
  f_attemptCount data = cd_attemptCount delivery + 1 → delivery_ok (f_status data) (f_attemptCount data) →
  tables w' = set_rows (map_if (is_id (cd_id delivery)) (set_final data g) (rows (tables w))) (tables w) →
  guarantee w w' ∧ inst_inv w' (ls1 ++ (delivery, Over) :: ls2).
Proof.
  intros (H1 & H2 & H3 & H4) Hc Hok Ht. rewrite held_app in H3, H4. cbn in H3, H4.
  destruct (H4 delivery) as (r & Hr & Hid & Hst & Hcnt); [set_solver|].
  assert (∀ x, x ∈ rows (tables w) → is_id (cd_id delivery) x = true → x = r) as Honly.
  { intros x Hx Hi. unfold is_id in Hi. bool_to_prop. eapply nodup_id; [done..|congruence]. }
  unfold guarantee, preserved, inst_inv, queue_ok. rewrite Ht, rows_set_rows. split; [|split; [|split; [|split]]].
  - intros x Hx. exists (if is_id (cd_id delivery) x then set_final data g x else x).
    split; [apply elem_of_map_if; eauto|]. destruct (is_id (cd_id delivery) x) eqn:E; [|repeat split; try done; lia].
    rewrite (Honly x Hx E). cbn. repeat split; try lia. unfold terminal. by rewrite Hst.
  - intros x (y & Hy & ->)%elem_of_map_if. destruct (is_id (cd_id delivery) y); [exact Hok|by apply H1].
  - by rewrite ids_map_if.
  - rewrite held_app. cbn. rewrite !fmap_app in H3 |- *. cbn in H3.
    eapply sublist_NoDup; [exact H3|]. apply sublist_app; [done|]. by apply sublist_cons.
  - intros d Hd. rewrite held_app in Hd. cbn in Hd. destruct (H4 d) as (x & Hx & Hxid & Hxst & Hxc); [set_solver|].
    exists x. split; [|done]. apply elem_of_map_if. exists x. split; [done|].
    destruct (is_id (cd_id delivery) x) eqn:E; [|done]. exfalso. unfold is_id in E. bool_to_prop.
    rewrite fmap_app in H3. cbn in H3.
    apply NoDup_app in H3 as (_ & Hdis & [Hnin _]%NoDup_cons).
    assert (cd_id delivery = cd_id d) as Hsame by congruence. apply elem_of_app in Hd as [Hd|Hd].
    + apply (Hdis (cd_id d)); [by apply list_elem_of_fmap_2|]. rewrite <- Hsame. by left.
    + apply Hnin. rewrite Hsame. by apply list_elem_of_fmap_2.
Qed.
End inv.

Section proofs.
Context {W : Type} `{!Prisma W} `{!Clock W} `{!Http W} {CR : Crypto}
  `{!PrismaLaws W} `{!ClockLaws W} `{!HttpLaws W} `{!ServerClock W} `{!ServerClockLaws W}.
Variable h : PrismaService.handle.

Definition ended {C : Type} (r : outcome exn C) (p : phase) : Prop := p = Over.

#[local] Abbreviation safe_ := (safe inst_inv guarantee (λ _ p, p = Held)).

(** A piece that does not write the queue, ended or not *)
Lemma safe_quiet {C : Type} (Q : outcome exn C → phase → Prop) (delivery : ClaimedDelivery) (m : M exn W C) :
  keeps (rows (R:=WebhookDelivery)) m → (∀ r, Q r Held ∨ Q r Over) → safe_ Q delivery (await m) Held.
Proof.
  intros Hm HQ. apply safe_await; [done|]. intros w ls1 ls2 HI. eapply wp_mono; [apply (keeps_wp _ _ _ Hm)|]. intros r w' Hr.
  destruct (inst_inv_frame w w' _ Hr HI) as [HG HI']. split; [done|].
  destruct (HQ r) as [HQr|HQr]; eexists; (split; [|exact HQr]); [done|by eapply inst_inv_over].
Qed.

Lemma safe_date_now (Q : outcome exn Z → phase → Prop) (delivery : ClaimedDelivery) :
  (∀ t, Q (Ret t) Held) → safe_ Q delivery (await date_now) Held.
Proof.
  intros HQ. apply safe_await; [done|]. intros w ls1 ls2 HI. apply wp_date_now. intros t w' [Ht _].
  destruct (inst_inv_frame w w' (ls1 ++ (delivery, Held) :: ls2)) as [HG HI']; [by rewrite Ht|done|]. split; [done|]. by exists Held.
Qed.

Lemma safe_finalize (delivery : ClaimedDelivery) (data : Final) :
  f_attemptCount data = cd_attemptCount delivery + 1 → delivery_ok (f_status data) (f_attemptCount data) →
  safe_ ended delivery (await (finalize h (cd_id delivery) data)) Held.
Proof.
  intros Hc Hok. apply safe_await; [done|]. intros w ls1 ls2 HI.
  assert (∀ w', tables w' = tables w → guarantee w w' ∧
    ∃ p', inst_inv w' (ls1 ++ (delivery, p') :: ls2) ∧ p' = Over) as Hsame.
  { intros w' Ht. destruct (inst_inv_frame w w' (ls1 ++ (delivery, Held) :: ls2)) as [HG HI']; [by rewrite Ht|done|].
    split; [done|]. exists Over. split; [by eapply inst_inv_over|done]. }
  unfold finalize, PrismaService.via. apply wp_bind. case_bool_decide; [|apply wp_throw; by apply Hsame].
  apply wp_update; [|intros e w' [Ht _]; by apply Hsame]. intros g r w' _ _ [Ht _]. apply wp_ret.
  destruct (inst_inv_finalize w w' ls1 delivery ls2 data g) as [HG HI']; [done..|]. split; [done|]. by exists Over.
Qed.

Lemma keeps_logAttempt id n s c e t : keeps (W:=W) (rows (R:=WebhookDelivery)) (logAttempt h id n s c e t).
Proof. unfold logAttempt. apply keeps_bind; [|by intros]. apply PrismaService.keeps_via. by apply keeps_create. Qed.

Lemma keeps_http_post url headers body : keeps (W:=W) (rows (R:=WebhookDelivery)) (http_post url headers body).
Proof. intros w. by destruct (http_law url headers body w) as [-> _]. Qed.

Lemma safe_abandon (delivery : ClaimedDelivery) (t : Z) :
  0 <= cd_attemptCount delivery < MAX_DELIVERY_ATTEMPTS →
  safe_ ended delivery (abandon_revoked_ h delivery (cd_attemptCount delivery + 1) t) Held.
Proof.
  intros Hn. unfold abandon_revoked_. apply safe_bind, safe_date_now. intros now.
  apply safe_bind, safe_quiet; [apply keeps_logAttempt|]. intros [[]|e]; [left|by right].
  apply safe_bind, safe_date_now. intros t'. apply safe_finalize; cbn; [done|lia].
Qed.

Lemma safe_conclude (delivery : ClaimedDelivery) (a : Attempted) :
  0 <= cd_attemptCount delivery < MAX_DELIVERY_ATTEMPTS →
  safe_ ended delivery (conclude_ h delivery (cd_attemptCount delivery + 1) a) Held.
Proof.
  intros Hn. unfold conclude_. destruct (at_success a).
  - apply safe_bind, safe_date_now. intros t. apply safe_finalize; cbn; [done|lia].
  - destruct (nextRetryDelayMs_cases (cd_attemptCount delivery + 1)) as (r & -> & Hr); [lia|].
    apply safe_bind. destruct r as [d|]; cbn [safe].
    + apply safe_bind, safe_date_now. intros next. apply safe_bind, safe_date_now. intros t.
      apply safe_finalize; cbn; [done|lia].
    + apply safe_bind, safe_date_now. intros t. apply safe_finalize; cbn; [done|lia].
Qed.

Lemma safe_attempt (delivery : ClaimedDelivery) :
  0 <= cd_attemptCount delivery < MAX_DELIVERY_ATTEMPTS →
  safe_ ended delivery (attemptDelivery_ h delivery) Held.
Proof.
  intros Hn. unfold attemptDelivery_. apply safe_bind, safe_date_now. intros startedAt.
  apply safe_bind, safe_quiet; [apply PrismaService.keeps_via, keeps_find_unique|].
  intros [[s|]|e]; [|left; by apply safe_abandon|by right]. left. destruct (sub_active s); [|by apply safe_abandon].
  cbv zeta. apply safe_bind. unfold request_. apply safe_try, safe_bind, safe_date_now. intros now.
  assert (∀ a, safe_ ended delivery (now ← await date_now;
    await (logAttempt h (cd_id delivery) (cd_attemptCount delivery + 1) (at_success a) (at_statusCode a) (at_error a) (now - startedAt)) ≫= λ _,
    conclude_ h delivery (cd_attemptCount delivery + 1) a) Held) as Hrest.
  { intros a. apply safe_bind, safe_date_now. intros now'. apply safe_bind, safe_quiet; [apply keeps_logAttempt|].
    intros [[]|e]; [left; by apply safe_conclude|by right]. }
  apply safe_bind, safe_quiet; [apply keeps_http_post|]. intros [status|e]; left; apply Hrest.
Qed.

(** *** Polls *)

Lemma claimBatch_spec (n : Z) (w w' : W) (r : outcome exn (list ClaimedDelivery)) :
  claimBatch h n w = (r, w') →
  match r with
  | Ret l => ∃ g picked claimed, g_now g = server_now w ∧ length picked = length (rows (R:=WebhookDelivery) (tables w)) ∧
      Forall2 (λ (b : bool) x, b = true → claimable g x = true) picked (rows (tables w)) ∧
      claimed ≡ₚ picked_rows picked (map (set_processing g) (rows (tables w))) ∧
      l = map claimed_of claimed ∧
      tables w' = set_rows (zip_with (λ b x, if (b : bool) then set_processing g x else x) picked (rows (tables w))) (tables w)
  | Throw _ => tables w' = tables w
  end.
Proof.
  unfold claimBatch, PrismaService.via, mbind, M_bind. case_bool_decide; [|by intros [= <- <-]].
  pose proof (claim_now_law claimable del_nextAttemptAt n set_processing w) as Hlaw.
  destruct (update_skip_locked claimable del_nextAttemptAt n set_processing w) as [[l|e] w1]; intros [= <- <-]; [|done].
  destruct Hlaw as (g & picked & ? & ? & ? & ? & ?). exists g, picked, l. repeat split; try done.
Qed.

Lemma ids_claimed (g : gen) (picked : list bool) (l : list WebhookDelivery) :
  length picked = length l →
  map del_id (zip_with (λ b x, if (b : bool) then set_processing g x else x) picked l) = map del_id l.
Proof.
  revert picked. induction l as [|x l IH]; intros [|b picked]; try done. intros [= Hl]. cbn. f_equal; [by destruct b|auto].
Qed.

Lemma picked_ids (g : gen) (picked : list bool) (l : list WebhookDelivery) :
  del_id <$> picked_rows picked (map (set_processing g) l) `sublist_of` map del_id l.
Proof.
  revert picked. induction l as [|x l IH]; intros [|[] picked]; cbn; try apply sublist_nil_l.
  - apply sublist_skip, IH.
  - apply sublist_cons, IH.
Qed.

(** A row that is not claimable now is as it was after the claim. *)
Lemma unclaimed_stays (g : gen) (picked : list bool) (l : list WebhookDelivery) (x : WebhookDelivery) :
  Forall2 (λ (b : bool) r, b = true → claimable g r = true) picked l → x ∈ l → claimable g x = false →
  x ∈ zip_with (λ b r, if (b : bool) then set_processing g r else r) picked l.
Proof. intros. by eapply zip_with_keeps. Qed.

Lemma claimed_in (g : gen) (picked : list bool) (l : list WebhookDelivery) (y : WebhookDelivery) :
  Forall2 (λ (b : bool) r, b = true → claimable g r = true) picked l →
  y ∈ picked_rows picked (map (set_processing g) l) →
  y ∈ zip_with (λ b r, if (b : bool) then set_processing g r else r) picked l.
Proof.
  intros H. induction H as [|b x picked l Hb _ IH]; cbn; [done|]. destruct b; cbn; [|intros; right; auto].
  intros [->|Hy]%elem_of_cons; [by left|right; auto].
Qed.

Lemma poll_preserves (w w' : W) (g : gen) (picked : list bool) :
  length picked = length (rows (R:=WebhookDelivery) (tables w)) →
  Forall2 (λ (b : bool) x, b = true → claimable g x = true) picked (rows (tables w)) →
  tables w' = set_rows (zip_with (λ b x, if (b : bool) then set_processing g x else x) picked (rows (tables w))) (tables w) →
  guarantee w w'.
Proof.
  intros Hlen Hp Ht x Hx. rewrite Ht, rows_set_rows. clear Ht. revert Hlen. induction Hp as [|b r picked l Hb _ IH]; [by apply elem_of_nil in Hx|].
  intros [= Hlen]. apply elem_of_cons in Hx as [->|Hx].
  - destruct b; eexists; (split; [by left|]); cbn; repeat split; try done; try lia.
    intros Hterm. specialize (Hb eq_refl). apply claimable_not_terminal in Hb. congruence.
  - destruct (IH Hx Hlen) as (x' & Hx' & ?). exists x'. split; [by right|done].
Qed.

(** The deliveries of running attempts are not claimable at the time of the claim. *)
Lemma timely_unclaimable (w : W) (g : gen) (delivery : ClaimedDelivery) (x : WebhookDelivery) :
  g_now g = server_now w → del_status x = D_PROCESSING →
  (∀ t0, del_lockedAt x = Some t0 → server_now w - STUCK_PROCESSING_MS <= t0) → claimable g x = false.
Proof.
  intros Hg Hst Hlock. unfold claimable. rewrite Hst, Hg. cbn. destruct (del_lockedAt x) as [t0|]; [|done].
  specialize (Hlock t0 eq_refl). by apply Z.ltb_ge.
Qed.

(** Running attempts have not been under way for longer than it takes a claim to count as
    stuck when a poll claims its batch. *)
Definition timely (e : pool_event (Entry:=entry)) (c : pool (E:=exn) (W:=W) (A:=unit) (B:=ClaimedDelivery)) : Prop :=
  match e with
  | Enter Poll => ∀ delivery t, (delivery, t) ∈ c.1 → running t →
      ∀ x, x ∈ rows (tables c.2) → del_id x = cd_id delivery →
      ∀ t0, del_lockedAt x = Some t0 → server_now c.2 - STUCK_PROCESSING_MS <= t0
  | _ => True
  end.

Lemma held_runs ts ls delivery :
  Forall2 (minds inst_inv guarantee (λ _ p, p = Held) ended) ts ls → delivery ∈ held ls → ∃ t, (delivery, t) ∈ ts ∧ running (E:=exn) (A:=unit) t.
Proof.
  intros Hm Hd. apply list_elem_of_omap in Hd as ([d p] & Hin & Hp). cbn in Hp. destruct p; [|done]. injection Hp as ->.
  apply list_elem_of_lookup in Hin as [i Hi]. destruct (Forall2_lookup_r _ _ _ _ _ Hm Hi) as ([b t] & Ht & Hb & Hs).
  cbn in Hb, Hs. subst b. exists t. split; [by eapply list_elem_of_lookup_2|]. by intros r ->.
Qed.

Lemma held_new (l : list ClaimedDelivery) : held (map (λ d, (d, Held)) l) = l.
Proof. induction l as [|d l IH]; [done|]. unfold held in *. cbn. by rewrite IH. Qed.

Lemma poll_ok ts w ls l w' :
  Forall2 (minds inst_inv guarantee (λ _ p, p = Held) ended) ts ls → inst_inv w ls → timely (Enter Poll) (ts, w) →
  claimBatch h BATCH_SIZE w = (Ret l, w') →
  guarantee w w' ∧ inst_inv w' (ls ++ map (λ d, (d, Held)) l) ∧
  ∀ d, d ∈ l → 0 <= cd_attemptCount d < MAX_DELIVERY_ATTEMPTS.
Proof.
  intros Hm (H1 & H2 & H3 & H4) Htime (g & picked & claimed & Hnow & Hlen & Hp & Hperm & -> & Ht)%claimBatch_spec.
  assert (∀ d, d ∈ held ls → ∃ x, x ∈ rows (tables w) ∧ del_id x = cd_id d ∧ del_status x = D_PROCESSING ∧
    del_attemptCount x = cd_attemptCount d ∧ claimable g x = false) as Hheld.
  { intros d Hd. destruct (H4 d Hd) as (x & Hx & Hid & Hst & Hc). destruct (held_runs _ _ _ Hm Hd) as (t & Hin & Hr).
    exists x. repeat split; try done. by eapply timely_unclaimable, Htime. }
  assert (∀ y, y ∈ claimed → ∃ r, r ∈ rows (tables w) ∧ claimable g r = true ∧ y = set_processing g r) as Hclaimed.
  { intros y Hy. rewrite Hperm in Hy. by eapply picked_rows_in in Hy; [|exact Hp]. }
  split; [by eapply poll_preserves|]. split.
  - unfold inst_inv, queue_ok. rewrite Ht, rows_set_rows, ids_claimed, held_app, held_new by done. split; [|split; [done|split]].
    + intros y (r & Hr & [->|[Hc ->]])%(zip_with_in (claimable g)); [by apply H1| |done].
      specialize (H1 r Hr). apply claimable_not_terminal in Hc. unfold terminal in Hc. by destruct (del_status r).
    + rewrite fmap_app. apply NoDup_app. split; [done|]. split.
      * intros k (d & -> & Hd)%list_elem_of_fmap (c & Hk & Hc)%list_elem_of_fmap. apply list_elem_of_In, in_map_iff in Hc as (y & <- & Hy).
        rewrite <- list_elem_of_In in Hy. destruct (Hclaimed y Hy) as (r & Hr & Hcl & ->). destruct (Hheld d Hd) as (x & Hx & Hid & _ & _ & Hn).
        cbn in Hk. assert (x = r) as -> by (eapply nodup_id; [done..|congruence]). congruence.
      * change (map claimed_of claimed) with (claimed_of <$> claimed). rewrite <- list_fmap_compose.
        change (NoDup (del_id <$> claimed)). rewrite Hperm. eapply sublist_NoDup; [exact H2|apply picked_ids].
    + intros d [Hd|Hd]%elem_of_app.
      * destruct (Hheld d Hd) as (x & Hx & ? & ? & ? & Hn). exists x. split; [|done]. rewrite rows_set_rows. by apply unclaimed_stays.
      * apply list_elem_of_In, in_map_iff in Hd as (y & <- & Hy). rewrite <- list_elem_of_In in Hy. exists y.
        rewrite rows_set_rows. split; [apply claimed_in; [done|by rewrite <- Hperm]|].
        destruct (Hclaimed y Hy) as (r & _ & _ & ->). done.
  - intros d Hd. apply list_elem_of_In, in_map_iff in Hd as (y & <- & Hy). rewrite <- list_elem_of_In in Hy.
    destruct (Hclaimed y Hy) as (r & Hr & Hcl & ->). specialize (H1 r Hr). apply claimable_not_terminal in Hcl.
    unfold terminal in Hcl. cbn. by destruct (del_status r).
Qed.

Lemma backend_ok w w' ls : inst_inv w ls → enqueues (tables w) (tables w') → guarantee w w' ∧ inst_inv w' ls.
Proof.
  intros (H1 & H2 & H3 & H4) (new & Hr & Hids & Hnew). split.
  - intros x Hx. exists x. rewrite Hr, elem_of_app. repeat split; try lia; try done; by left.
  - split; [|split; [done|split; [done|]]].
    + intros x Hx. rewrite Hr in Hx. apply elem_of_app in Hx as [Hx|Hx]; [by apply H1|].
      destruct (Hnew x Hx) as [-> ->]. by cbn.
    + intros d Hd. destruct (H4 d Hd) as (x & Hx & ?). exists x. split; [rewrite Hr; set_solver|done].
Qed.

Lemma workers_ok : entries_ok (worker_enter h) inst_inv guarantee (λ _ p, p = Held) ended timely.
Proof.
  intros e ts w new w' ls Hm HI Ha He. destruct He as [w l w' Hc|w e w' Hc|w w' Hd].
  - destruct (poll_ok ts w ls l w') as (HG & HI' & Hn); [done..|]. split; [done|]. eexists. split; [exact HI'|].
    clear -Hn PrismaLaws0 ClockLaws0 HttpLaws0. induction l as [|d l IH]; [constructor|]. cbn. constructor.
    + split; [done|]. apply safe_attempt, Hn. by left.
    + apply IH. intros d' Hd'. apply Hn. by right.
  - apply claimBatch_spec in Hc. destruct (inst_inv_frame w w' ls) as [HG HI']; [by rewrite Hc|done|].
    split; [done|]. exists []. rewrite app_nil_r. by split.
  - destruct (backend_ok w w' ls) as [HG HI']; [done..|]. split; [done|]. exists []. rewrite app_nil_r. by split.
Qed.

(** The deliveries that running attempts are about *)
Definition under_way (ts : list (ClaimedDelivery * thread exn W unit)) (delivery : ClaimedDelivery) : Prop :=
  ∃ t, (delivery, t) ∈ ts ∧ running t.

Lemma held_lookup (ts : list (ClaimedDelivery * thread exn W unit)) ls i delivery t :
  Forall2 (minds inst_inv guarantee (λ _ p, p = Held) ended) ts ls → ts !! i = Some (delivery, t) → running t →
  ls !! i = Some (delivery, Held).
Proof.
  intros Hm Hi Hr. destruct (Forall2_lookup_l _ _ _ _ _ Hm Hi) as ([b p] & Hp & Hmi).
  apply running_place in Hr as [place Hpl]. pose proof (minds_alive _ _ _ _ _ _ _ _ Hmi Hpl) as Hh. destruct Hmi as [Hb _]. cbn in Hb, Hh. by subst.
Qed.

Lemma held_position (ls : list (ClaimedDelivery * phase)) i j d d' :
  NoDup (cd_id <$> held ls) → ls !! i = Some (d, Held) → ls !! j = Some (d', Held) → cd_id d = cd_id d' → i = j.
Proof.
  revert i j. induction ls as [|[b p] ls IH]; intros i j Hn Hi Hj Hd; [by rewrite lookup_nil in Hi|].
  assert (∀ k c, ls !! k = Some (c, Held) → c ∈ held ls) as Hin.
  { intros k c Hk. apply list_elem_of_omap. exists (c, Held). split; [by eapply list_elem_of_lookup_2|done]. }
  destruct i as [|i], j as [|j]; cbn in Hi, Hj; try done.
  - injection Hi as -> ->. cbn in Hn. apply NoDup_cons in Hn as [Hnin _]. destruct Hnin. rewrite Hd. by eapply list_elem_of_fmap_2, Hin.
  - injection Hj as -> ->. cbn in Hn. apply NoDup_cons in Hn as [Hnin _]. destruct Hnin. rewrite <- Hd. by eapply list_elem_of_fmap_2, Hin.
  - f_equal. apply IH; try done. destruct p; cbn in Hn; [|done]. by apply NoDup_cons in Hn as [_ Hn].
Qed.

(** C19: any number of instances of the delivery worker poll at any time, their attempts run
    interleaved statement by statement, with each other and with whatever enqueues deliveries,
    and attempts are lost when an instance crashes.  As long as no attempt is still running when
    its claim counts as stuck, two attempts never run for the same delivery at the same time, and
    a running attempt's delivery is PROCESSING with the attempt count it was claimed with; the
    queue stays in order, so that no delivery is attempted an eighth time; and nothing is lost from
    it: attempt counts never go down, and a delivery that was delivered or abandoned stays so. *)
Theorem instances_exclusive (w : W) (c1 c2 : pool) :
  queue_ok (tables w) → NoDup (map del_id (rows (tables w))) →
  run (pool_step (worker_enter h)) timely ([], w) c1 → run (pool_step (worker_enter h)) timely c1 c2 →
  queue_ok (tables c2.2) ∧ preserved (tables c1.2) (tables c2.2) ∧
  (∀ i j d d' t t', c2.1 !! i = Some (d, t) → c2.1 !! j = Some (d', t') → running t → running t' →
     cd_id d = cd_id d' → i = j) ∧
  ∀ d, under_way c2.1 d → claim_stands d (tables c2.2).
Proof.
  intros Hok Hids H01 H12.
  destruct (pool_sound _ _ _ _ _ _ _ _ workers_ok (crashes_any _ _ inst_inv_drop) H01) as [Hinv1 _].
  { apply pool_inv_empty. split; [done|]. split; [done|]. split; [constructor|]. intros d Hd. by apply elem_of_nil in Hd. }
  destruct (pool_sound _ _ _ _ _ _ _ _ workers_ok (crashes_any _ _ inst_inv_drop) H12 Hinv1) as [(ls & (H1 & H2 & H3 & H4) & Hm) HG].
  split; [done|]. split; [exact HG|]. split.
  - intros i j d d' t t' Hi Hj Ht Ht' Hd. eapply held_position; [exact H3|by eapply held_lookup|by eapply held_lookup|done].
  - intros d (t & [i Hi]%list_elem_of_lookup & Hr). apply H4. eapply held_lookup in Hi; [|done..].
    apply list_elem_of_omap. exists (d, Held). split; [by eapply list_elem_of_lookup_2|done].
Qed.
End proofs.

(** A poll of the pool as a function *)
Definition poll_pool {W : Type} `{!Prisma W} `{!Clock W} `{!Http W} {CR : Crypto} h (c : pool) : pool :=
  match claimBatch h BATCH_SIZE c.2 with
  | (Ret l, w') => (c.1 ++ map (λ d, (d, attemptDelivery_ h d)) l, w')
  | (Throw _, w') => (c.1 ++ [], w')
  end.

Lemma poll_pool_run {W : Type} `{!Prisma W} `{!Clock W} `{!Http W} {CR : Crypto} h allowed (c : pool) :
  allowed (Enter Poll) c → run (pool_step (worker_enter h)) allowed c (poll_pool h c).
Proof.
  intros Ha. destruct c as [ts w]. unfold poll_pool. cbn. destruct (claimBatch h BATCH_SIZE w) as [[l|e] w'] eqn:E;
    (eapply run_more; [apply run_none|exact Ha|]); apply step_enter; econstructor; done.
Qed.
End Instances.

(** ** Concrete runs *)
Module InstanceExamples.
Import WebhookDeliveryWorkerService WebhookSigning Instances.

#[local] Existing Instance toy_crypto.

(** A subscriber that is down until the clock is at 5000. *)
#[local] Instance recovering_http : Http mem := {|
  http_post := λ _ _ _ w, (Ret (if m_now w <? 5000 then 503 else 200), w);
  JSON_stringify_event := ie_invoiceId |}.
#[local] Instance recovering_http_laws : HttpLaws mem.
Proof. by split. Qed.

Definition start_ex : mem :=
  mkMem (set_rows [WebhookExamples.sub_at "s1" "/h"] (set_rows [WebhookExamples.delivery_ex "d1" "s1" D_PENDING 0] empty_db)) 1000 1 [].

(** What a row says, for reading the results *)
Definition view (w : mem) : list (WebhookDeliveryStatus * Z) :=
  map (λ x, (del_status x, del_attemptCount x)) (rows (R:=WebhookDelivery) (m_db w)).

Definition claimed_ex : pool := poll_pool PrismaService.surface ([], start_ex).

(** No lock is older than five minutes. *)
Definition fresh_locks (w : mem) : bool :=
  forallb (λ x, match del_lockedAt x with Some t0 => m_now w - STUCK_PROCESSING_MS <=? t0 | None => true end)
    (rows (R:=WebhookDelivery) (m_db w)).

Lemma fresh_timely (e : pool_event) (c : pool) : fresh_locks c.2 = true → timely e c.
Proof.
  intros Hf. destruct e as [[]|i|i]; try done. intros d t _ _ x Hx _ t0 Ht0.
  unfold fresh_locks in Hf. rewrite forallb_forall in Hf. specialize (Hf x). rewrite <- list_elem_of_In in Hf.
  specialize (Hf Hx). rewrite Ht0 in Hf. by apply Z.leb_le.
Qed.

(** The first attempt is requesting when a second instance polls: it claims nothing. *)
Definition polled_again_ex : pool := poll_pool PrismaService.surface (Nat.iter 3 (advance 0) claimed_ex).

Lemma instances_exclusive_witness :
  length polled_again_ex.1 = 1%nat ∧ view polled_again_ex.2 = [(D_PROCESSING, 0)] ∧
  ∀ d, under_way polled_again_ex.1 d → claim_stands d (tables polled_again_ex.2).
Proof.
  split; [vm_compute; reflexivity|]. split; [vm_compute; reflexivity|].
  refine (proj2 (proj2 (proj2 (instances_exclusive PrismaService.surface start_ex claimed_ex polled_again_ex _ _ _ _)))).
  - intros x Hx. apply elem_of_cons in Hx as [->|Hx]; [vm_compute; split; congruence|by apply elem_of_nil in Hx].
  - apply (bool_decide_unpack _). vm_compute. exact I.
  - apply poll_pool_run, fresh_timely. vm_compute. reflexivity.
  - eapply run_trans; [apply (advances_run _ _ 3 0); done|]. apply poll_pool_run, fresh_timely. vm_compute. reflexivity.
Defined.

(** Without that condition it fails: an attempt that takes longer than five minutes is joined by a
    second one; when that has delivered, the late end of the first puts the delivery back into the
    queue. *)
Definition later (ms : Z) (c : pool (E:=exn) (W:=mem) (A:=unit) (B:=ClaimedDelivery)) : pool :=
  (c.1 ++ [], mkMem (m_db c.2) (m_now c.2 + ms) (m_next c.2) (m_faults c.2)).

Lemma later_run (ms : Z) (c : pool) :
  NoDup (map del_id (rows (m_db c.2))) → run (pool_step (worker_enter PrismaService.surface)) (λ _ _, True) c (later ms c).
Proof.
  intros Hn. destruct c as [ts w]. eapply run_more; [apply run_none|done|]. apply (step_enter _ Elsewhere). constructor.
  exists []. cbn. rewrite app_nil_r. split; [done|]. split; [exact Hn|]. intros x Hx. by apply elem_of_nil in Hx.
Qed.

(** The first attempt has its answer (503) and is late; the second is claimed and delivers. *)
Definition joined_ex : pool := poll_pool PrismaService.surface (later 400000 (Nat.iter 4 (advance 0) claimed_ex)).
Definition delivered_ex : pool := Nat.iter 9 (advance 1) joined_ex.
Definition requeued_ex : pool := Nat.iter 9 (advance 0) delivered_ex.

Theorem late_attempt_requeues :
  run (pool_step (worker_enter PrismaService.surface)) (λ _ _, True) ([], start_ex) joined_ex ∧
  map (λ x, cd_id x.1) joined_ex.1 = ["d1"; "d1"]%string ∧ forallb (λ x, is_running x.2) joined_ex.1 = true ∧
  run (pool_step (worker_enter PrismaService.surface)) (λ _ _, True) joined_ex delivered_ex ∧
  view delivered_ex.2 = [(D_DELIVERED, 1)] ∧
  run (pool_step (worker_enter PrismaService.surface)) (λ _ _, True) delivered_ex requeued_ex ∧
  view requeued_ex.2 = [(D_PENDING, 1)].
Proof.
  split.
  { eapply run_trans; [by apply (poll_pool_run _ _ ([], start_ex))|]. eapply run_trans; [exact (advances_run _ _ 4 0 claimed_ex (λ _, Logic.I))|].
    eapply run_trans; [apply (later_run 400000)|by apply poll_pool_run]. apply (bool_decide_unpack _). vm_compute. exact I. }
  split; [vm_compute; reflexivity|]. split; [vm_compute; reflexivity|].
  split; [exact (advances_run _ _ 9 1 joined_ex (λ _, Logic.I))|]. split; [vm_compute; reflexivity|].
  split; [exact (advances_run _ _ 9 0 delivered_ex (λ _, Logic.I))|vm_compute; reflexivity].
Qed.
End InstanceExamples.
