(* ===== verification/Schedules.v ===== *)
(** * Cycles on a timer ([tick] of [settlement/settlement-sync.service.ts], [poll] of
    [webhooks/webhook-delivery-worker.service.ts])

    Both services start a cycle on every tick of an interval and keep a flag that is set while a
    cycle is under way, so that a tick in between does nothing.  The ticks of one instance are
    interleaved here with the pieces of a cycle that is still running; the flag is a member of
    the service object, next to the world. *)
From S2P Require Import Prelude Threads Js Schema Errors Prisma Retry PrismaService Interfaces SettlementEvents Settlement SettlementSync SettlementListeners Webhooks.
Import SyncCursorService SorobanEventsService SettlementSyncService Listeners WebhookDeliveryWorkerService.
Open Scope Z_scope.

Module Ticks.

Section ticks.
Context {W A : Type}.

(** A piece that does not look at the flag *)
Definition on_world {X : Type} (m : M exn W X) : M exn (W * bool) X :=
  λ wf, let '(r, w') := m wf.1 in (r, (w', wf.2)).

Fixpoint lift (t : thread exn W A) : thread exn (W * bool) A :=
  match t with
  | Stop r => Stop r
  | Atom X place m k => Atom X place (on_world m) (λ x, lift (k x))
  end.

(** [finally { this.running = false }]; an error of the cycle is logged. *)
Definition release : M exn (W * bool) unit := λ wf, (Ret tt, (wf.1, false)).

Definition guarded_ (cycle : thread exn W A) : thread exn (W * bool) unit :=
  then_ (lift cycle) (λ _, await_at "finally" release).

Inductive entry := Tick | Elsewhere.

(** [if (this.running) return; this.running = true]: nothing waits in between. *)
Inductive tick_enter (cycle : thread exn W A) : entry → W * bool → list (unit * thread exn (W * bool) unit) → W * bool → Prop :=
| tick_skips w : tick_enter cycle Tick (w, true) [] (w, true)
| tick_starts w : tick_enter cycle Tick (w, false) [(tt, guarded_ cycle)] (w, true)
| others_run w w' flag : tick_enter cycle Elsewhere (w, flag) [] (w', flag).

Lemma run_alone_lift (t : thread exn W A) (w : W) (flag : bool) :
  run_alone (lift t) (w, flag) = ((run_alone t w).1, ((run_alone t w).2, flag)).
Proof.
  revert w. induction t as [r|X place m k IH]; intros w; [done|]. cbn. destruct (m w) as [x w'] eqn:E.
  unfold on_world. cbn. rewrite E. apply IH.
Qed.

(** Left alone, a tick runs the cycle and leaves the flag clear, however the cycle ends. *)
Lemma guarded_alone (cycle : thread exn W A) (w : W) :
  run_alone (guarded_ cycle) (w, true) = (Ret tt, ((run_alone cycle w).2, false)).
Proof. unfold guarded_. rewrite run_alone_then, run_alone_lift. done. Qed.

(** *** The invariant: the flag is set exactly while a cycle runs. *)

Definition holders {B : Type} (ls : list (B * bool)) : nat := length (List.filter snd ls).

Definition flag_inv (wf : W * bool) (ls : list (unit * bool)) : Prop := holders ls = if wf.2 then 1%nat else 0%nat.

Lemma holders_app {B : Type} (ls1 ls2 : list (B * bool)) : holders (ls1 ++ ls2) = (holders ls1 + holders ls2)%nat.
Proof. unfold holders. by rewrite List.filter_app, length_app. Qed.

#[local] Abbreviation alive := (λ (_ : string) (p : bool), p = true).
#[local] Abbreviation anything := (λ _ _ : W * bool, True).
#[local] Abbreviation left := (λ (_ : outcome exn unit) (p : bool), p = false).

Lemma safe_guarded (cycle : thread exn W A) : safe flag_inv anything alive left tt (guarded_ cycle) true.
Proof.
  induction cycle as [r|X place m k IH].
  - split; [done|]. intros [w flag] ls1 ls2 HI. split; [done|]. exists false. split; [|done].
    unfold flag_inv in *. rewrite holders_app in *. cbn in *. destruct flag; lia.
  - split; [done|]. intros [w flag] ls1 ls2 HI. unfold wp, on_world. cbn. destruct (m w) as [x w']. cbn.
    split; [done|]. exists true. split; [exact HI|apply IH].
Qed.

Definition no_crash (e : pool_event (Entry:=entry)) (c : pool (E:=exn) (W:=W * bool) (A:=unit) (B:=unit)) : Prop :=
  match e with Crash _ => False | _ => True end.

Lemma ticks_ok (cycle : thread exn W A) : entries_ok (tick_enter cycle) flag_inv anything alive left no_crash.
Proof.
  intros e ts w new w' ls _ HI _ He. split; [done|]. destruct He as [w|w|w w' flag].
  - exists []. by rewrite app_nil_r.
  - exists [(tt, true)]. split; [unfold flag_inv in *; rewrite holders_app; cbn in *; lia|].
    constructor; [|constructor]. split; [done|apply safe_guarded].
  - exists []. by rewrite app_nil_r.
Qed.

(** The threads under way are those that hold the flag. *)
Lemma running_holders (ts : list (unit * thread exn (W * bool) unit)) (ls : list (unit * bool)) :
  Forall2 (minds flag_inv anything alive left) ts ls → length (List.filter (λ bt, is_running bt.2) ts) = holders ls.
Proof.
  intros H. unfold holders. induction H as [|[b t] [b' p] ts ls [_ Hs] _ IH]; [done|]. cbn in Hs |- *.
  destruct t as [r|X place m k]; cbn in Hs |- *; [by rewrite Hs|]. destruct Hs as [-> _]. cbn. by f_equal.
Qed.

(** C5: ticks of one instance never overlap, and no cycle, however it fails, keeps later ones from
    running: under every interleaving of ticks, of the pieces of the cycles and of the rest of the
    system, at most one cycle is under way, and the flag is set exactly while one is. *)
Theorem ticks_exclusive (cycle : thread exn W A) (w : W) (c : pool) :
  run (pool_step (tick_enter cycle)) no_crash ([], (w, false)) c →
  (length (List.filter (λ bt, is_running bt.2) c.1) <= 1)%nat ∧
  (c.2.2 = true ↔ ∃ b t, (b, t) ∈ c.1 ∧ running t).
Proof.
  intros Hrun. assert (PreOrder anything) as HG by (split; by repeat intro).
  destruct (pool_sound _ _ _ _ _ _ _ _ (ticks_ok cycle) (λ i c H, match H with end) Hrun) as [(ls & HI & Hm) _].
  - by apply pool_inv_empty.
  - pose proof (running_holders _ _ Hm) as Hlen. unfold flag_inv in HI. rewrite HI in Hlen. split; [destruct c.2.2; lia|].
    split.
    + intros Hf. rewrite Hf in Hlen. destruct (List.filter _ _) as [|[b t] l] eqn:E; [done|]. exists b, t.
      assert ((b, t) ∈ List.filter (λ bt, is_running bt.2) c.1) as Hin by (rewrite E; by left).
      rewrite list_elem_of_In, filter_In, <- list_elem_of_In in Hin. destruct Hin as [Hin Hr]. split; [done|by apply is_running_spec].
    + intros (b & t & Hin & Hr). destruct c.2.2; [done|]. exfalso.
      assert ((b, t) ∈ List.filter (λ bt, is_running bt.2) c.1) as Hf.
      { rewrite list_elem_of_In, filter_In, <- list_elem_of_In. split; [done|]. destruct t; [by destruct (Hr r)|done]. }
      destruct (List.filter _ _); [by apply elem_of_nil in Hf|done].
Qed.
End ticks.
End Ticks.

(** ** The two services *)
Module Services.
Import Ticks.

Section settlement.
Context {W : Type} `{!Prisma W} `{!Clock W} `{!Timer W} `{!Hrtime W} `{!InvoiceEventSink W} `{!StellarRpc W}.
Variable h : PrismaService.handle.
Variable global_txHash : option (option string).
Variable contractIds : list string.
Variable maxAttempts baseDelayMs : Z.

Definition tick_ : thread exn (W * bool) unit := guarded_ (syncOnce_ h global_txHash contractIds maxAttempts baseDelayMs).

(** A tick that finds the flag clear is [tick] of SettlementSync.v. *)
Lemma tick_alone (w : W) :
  run_alone tick_ (w, true) = (Ret tt, ((tick h global_txHash contractIds maxAttempts baseDelayMs false w).2, false)).
Proof.
  unfold tick_. rewrite guarded_alone, syncOnce_cuts. do 2 f_equal. unfold tick, try_catch, mbind, M_bind.
  by destruct (syncOnce _ _ _ _ _ w) as [[r|e] w'].
Qed.
End settlement.

Section delivery.
Context {W : Type} `{!Prisma W} `{!Clock W} `{!Http W} {CR : Crypto}.
Variable h : PrismaService.handle.

(** [poll], around a thread that is [processDueDeliveries] *)
Lemma poll_alone (due : thread exn W Z) (w : W) :
  cuts due (processDueDeliveries h) → run_alone (guarded_ due) (w, true) = (Ret tt, ((poll h false w).2, false)).
Proof.
  intros Hd. rewrite guarded_alone, Hd. do 2 f_equal. unfold poll, try_catch, mbind, M_bind.
  by destruct (processDueDeliveries _ w) as [[r|e] w'].
Qed.
End delivery.
End Services.

(** ** The settings of the settlement listener *)
Module SyncConfig.

(** [Number(config.get(name) ?? fallback)]; the values of the environment are strings. *)
Definition setting (value : option string) (fallback : Z) : JsNumber :=
  match value with Some s => Number_of_string s | None => Finite fallback 1 end.

Record SyncSettings := mkSyncSettings { pollIntervalMs : JsNumber; maxAttempts : JsNumber; baseDelayMs : JsNumber }.

Definition constructor (get : string → option string) : SyncSettings :=
  mkSyncSettings (setting (get "SETTLEMENT_POLL_INTERVAL_MS"%string) 5000)
                 (setting (get "SETTLEMENT_MAX_ATTEMPTS"%string) 3)
                 (setting (get "SETTLEMENT_RETRY_BASE_MS"%string) 500).

(** The delay between two ticks: [setInterval] takes 1 for what is not between 1 and 2^31-1. *)
Definition interval_delay (n : JsNumber) : Z :=
  match n with
  | Finite num den => if (Z.pos den <=? num) && (num <=? (2 ^ 31 - 1) * Z.pos den) then trunc num den else 1
  | _ => 1
  end.

(** How often [for (let attempt = 1; attempt <= n; attempt++)] runs; [None]: without end *)
Definition attempts (n : JsNumber) : option Z :=
  match n with
  | Finite num den => Some (Z.max 0 (num / Z.pos den))
  | Infinity false => None
  | Infinity true | NaN => Some 0
  end.

Section stalled.
Context {W : Type} `{!Prisma W} `{!Clock W} `{!Timer W} `{!Hrtime W} `{!InvoiceEventSink W} `{!StellarRpc W}
  `{!PrismaLaws W} `{!ClockLaws W} `{!TimerLaws W} `{!StellarRpcLaws W}.
Variable h : PrismaService.handle.
Variable global_txHash : option (option string).
Variable contractIds : list string.
Variable maxAttempts baseDelayMs : Z.
Hypothesis no_attempts : maxAttempts < 1.

(** Without attempts no event is settled, whatever the database and the network answer: the cycle
    gives up at the first settlement event. *)
Lemma gives_up (gaps : Z) (p : Progress) (event : NormalizedEvent) (se : SettlementEvent) (w : W) :
  SettlementEventParser.parseSettlementEvent event = Some se →
  sync_event h global_txHash maxAttempts baseDelayMs gaps p event w
  = (_ ← SyncCursorService.setLastLedger h (Z.max 0 (p_safeLedger p)) false;
     mret (inr (mkSyncSummary (p_processed p + 1) (p_settled p) gaps))) w.
Proof.
  intros Hp. unfold sync_event. rewrite Hp. cbv zeta. unfold settle_retrying, Retry.withRetry, retry_options.
  cbn [Retry.maxAttempts Retry.baseDelayMs Retry.maxDelayMs Retry.onRetry default from_option id].
  rewrite Z2Nat.nonpos by lia. done.
Qed.

Lemma nothing_settled : keeps (rows (R:=Invoice)) (syncOnce h global_txHash contractIds maxAttempts baseDelayMs).
Proof.
  assert (∀ l b, keeps (W:=W) (rows (R:=Invoice)) (SyncCursorService.setLastLedger h l b)) as Hcur.
  { intros l b. unfold SyncCursorService.setLastLedger, SyncCursorService.write_cursor. apply keeps_bind; [|by intros].
    destruct b; [|apply PrismaService.keeps_via]; by apply keeps_upsert. }
  unfold syncOnce, sync_batch. apply keeps_bind; [|intros last].
  { unfold SyncCursorService.getLastLedger. apply keeps_bind; [apply PrismaService.keeps_via, keeps_find_unique|by intros]. }
  apply keeps_bind; [destruct (0 <? last); [by intros w|]|intros start].
  { apply wp_keeps. intros w. apply wp_getLatestLedger; [intros n w' [Ht _] _; by rewrite Ht|intros e w' [Ht _]; by rewrite Ht]. }
  apply keeps_bind; [|intros fetched].
  { apply wp_keeps. intros w. apply wp_fetchEvents; [intros l n w' [Ht _]; by rewrite Ht|intros e w' [Ht _]; by rewrite Ht]. }
  cbv zeta. apply keeps_bind; [|intros [p|summary]; [apply keeps_bind; [apply Hcur|by intros]|by intros w]].
  apply keeps_for_of. intros p event w. destruct (SettlementEventParser.parseSettlementEvent event) as [se|] eqn:Hse.
  - rewrite (gives_up _ p event se w Hse). revert w. apply keeps_bind; [apply Hcur|by intros].
  - unfold sync_event. by rewrite Hse.
Qed.
End stalled.
End SyncConfig.

(** ** Examples *)
Module ScheduleExamples.
Import Ticks SyncConfig.

(** A cycle of two pieces that fails at its end *)
Definition cycle_ex : thread exn Z unit :=
  _ ← await (λ w, (Ret tt, w + 1)); await (λ w, (Throw (JsError "RPC down"), w + 1)).

#[local] Abbreviation ticks := (pool (E:=exn) (W:=Z * bool) (A:=unit) (B:=unit)).

Definition tick_now (c : ticks) : ticks :=
  if c.2.2 then c else (c.1 ++ [(tt, guarded_ cycle_ex)], (c.2.1, true)).

Lemma tick_now_run (c : ticks) : run (pool_step (tick_enter cycle_ex)) no_crash c (tick_now c).
Proof.
  destruct c as [ts [w []]]; cbn; (eapply run_more with (e := Enter Tick); [apply run_none|exact Logic.I|]).
  - rewrite <- (app_nil_r ts) at 2. apply (step_enter _ Tick). constructor.
  - apply (step_enter _ Tick). constructor.
Qed.

(** The second tick comes while the cycle is under way, the third after it has failed. *)
Definition busy_ex : ticks := tick_now (advance 0 (tick_now ([], (0, false)))).
Definition again_ex : ticks := tick_now (Nat.iter 2 (advance 0) busy_ex).

Lemma ticks_exclusive_witness :
  length busy_ex.1 = 1%nat ∧ map (λ x, is_running x.2) again_ex.1 = [false; true] ∧
  (length (List.filter (λ bt, is_running bt.2) again_ex.1) <= 1)%nat.
Proof.
  split; [vm_compute; reflexivity|]. split; [vm_compute; reflexivity|].
  refine (proj1 (ticks_exclusive cycle_ex 0 again_ex _)).
  eapply run_trans; [apply tick_now_run|]. eapply run_trans; [apply (advances_run _ _ 1 0); exact (λ _, Logic.I)|].
  eapply run_trans; [apply tick_now_run|]. eapply run_trans; [apply (advances_run _ _ 2 0); exact (λ _, Logic.I)|]. apply tick_now_run.
Defined.

(** A variable that is set to nothing, or to no number, leaves no attempts; an interval that is
    not a number is polled every millisecond. *)
Lemma malformed_settings :
  map (λ v, attempts (setting v 3)) [None; Some "5"; Some "2.9"; Some ""; Some "three"; Some "-1"]%string
    = [Some 3; Some 5; Some 2; Some 0; Some 0; Some 0] ∧
  map (λ v, interval_delay (setting v 5000)) [None; Some "250"; Some ""; Some "5s"]%string = [5000; 250; 1; 1].
Proof. vm_compute. split; reflexivity. Qed.
End ScheduleExamples.
