(* ===== verification/Amount.v ===== *)
(** * Amounts and CSV ([compliance/amount.ts], [compliance/csv.ts])

    Fixed-point amounts as decimal text, and the CSV serialization of exports, each with its
    round trip. *)
From S2P Require Import Prelude Js Schema Errors.
Open Scope Z_scope.

(** ** [amount.ts] *)
Module Amount.

Definition DEFAULT_ASSET_DECIMALS : Z := 7.

Definition dot : ascii := ".".
Definition minus : ascii := "-".

Definition minorUnitsToDecimal (value decimals : Z) : string :=
  let negative := value <? 0 in
  let digits := padStart0 (Z.to_nat (decimals + 1)) (nat_digits (if negative then - value else value)) in
  let cut := Z.to_nat (Z.of_nat (length digits) - decimals) in
  let whole := take cut digits in
  let fraction := if 0 <? decimals then drop cut digits else [] in
  let sign := if negative then [minus] else [] in
  of_list (match fraction with [] => sign ++ whole | _ => sign ++ whole ++ dot :: fraction end).

(** [/^(-?)(\d+)(?:\.(\d+))?$/]: the sign, the digits before and those after the point. *)
Definition match_decimal (l : list ascii) : option (bool * list ascii * list ascii) :=
  let negative := match l with c :: _ => Ascii.eqb c minus | [] => false end in
  let rest := if negative then tail l else l in
  match split_list dot rest with
  | [whole] => if all_digits whole then Some (negative, whole, []) else None
  | [whole; fraction] =>
      if all_digits whole && all_digits fraction then Some (negative, whole, fraction) else None
  | _ => None
  end.

Definition decimalToMinorUnits (value : string) (decimals : Z) : outcome exn Z :=
  match match_decimal (trim_list (to_list value)) with
  | None => Throw (JsError ("Invalid decimal amount: " +:+ str1 quote +:+ value +:+ str1 quote)%string)
  | Some (negative, whole, fraction) =>
      if decimals <? Z.of_nat (length fraction)
      then Throw (JsError ("Amount " +:+ str1 quote +:+ value +:+ str1 quote +:+ " exceeds "
                           +:+ Z_to_string decimals +:+ " decimal places of precision")%string)
      else
        let scaled := whole ++ padEnd0 (Z.to_nat decimals) fraction in
        let magnitude := digits_val scaled in
        Ret (if negative then - magnitude else magnitude)
  end.

(** *** Lemmas *)

Lemma dot_not_digit (l : list ascii) : forallb is_digit l = true → dot ∉ l.
Proof. rewrite forallb_forall. intros H Hin%list_elem_of_In. by specialize (H _ Hin). Qed.

Lemma minus_not_digit (l : list ascii) : forallb is_digit l = true → minus ∉ l.
Proof. rewrite forallb_forall. intros H Hin%list_elem_of_In. by specialize (H _ Hin). Qed.

Lemma forallb_take_drop {A : Type} (p : A → bool) (n : nat) (l : list A) :
  forallb p l = true → forallb p (take n l) = true ∧ forallb p (drop n l) = true.
Proof. rewrite <- (take_drop n l) at 1. by rewrite forallb_app, andb_true_iff. Qed.

Lemma all_digits_spec (l : list ascii) : l ≠ [] → forallb is_digit l = true → all_digits l = true.
Proof. by destruct l. Qed.

(** White space survives trimming only inside: a text whose characters are no white space is
    left alone. *)
Lemma trim_list_none (l : list ascii) : (∀ c, c ∈ l → is_space c = false) → trim_list l = l.
Proof.
  intros H. unfold trim_list. rewrite (drop_while_none _ l) by done.
  rewrite drop_while_none; [by rewrite reverse_involutive|]. intros c Hc. apply H. by rewrite elem_of_reverse in Hc.
Qed.

(** The padded digits of a magnitude: at least one more than the decimals, with its value. *)
Lemma padded_digits (n decimals : Z) :
  0 <= n → 0 <= decimals →
  let digits := padStart0 (Z.to_nat (decimals + 1)) (nat_digits n) in
  forallb is_digit digits = true ∧ digits_val digits = n ∧ decimals + 1 <= Z.of_nat (length digits).
Proof.
  intros Hn Hd digits. destruct (nat_digits_spec n Hn) as (Hv & Hdig & _). unfold digits, padStart0.
  rewrite forallb_app, digits_val_app, digits_val_zeros, length_app, length_replicate, Hv, Hdig.
  split; [|split; lia]. rewrite andb_true_r. apply forallb_forall. intros c Hc.
  apply list_elem_of_In, elem_of_replicate in Hc as [-> _]. done.
Qed.

Lemma match_decimal_print (negative : bool) (whole fraction : list ascii) :
  whole ≠ [] → forallb is_digit whole = true → forallb is_digit fraction = true →
  match_decimal ((if negative then [minus] else []) ++
                 match fraction with [] => whole | _ => whole ++ dot :: fraction end)
  = Some (negative, whole, fraction).
Proof.
  intros Hne Hw Hf. unfold match_decimal.
  set (body := match fraction with [] => whole | _ => whole ++ dot :: fraction end).
  assert (match body with c :: _ => Ascii.eqb c minus | [] => false end = false) as Hhead.
  { pose proof (minus_not_digit whole Hw) as Hm. unfold body.
    destruct whole as [|c whole]; [done|]. assert (Ascii.eqb c minus = false) as Hc.
    { apply Ascii.eqb_neq. intros ->. apply Hm. by left. }
    by destruct fraction. }
  assert ((if (if negative then true else match body with c :: _ => Ascii.eqb c minus | [] => false end) : bool
           then tail ((if negative then [minus] else []) ++ body) else (if negative then [minus] else []) ++ body) = body) as Hrest.
  { rewrite Hhead. by destruct negative. }
  assert (match (if negative then [minus] else []) ++ body with c :: _ => Ascii.eqb c minus | [] => false end
          = if negative then true else match body with c :: _ => Ascii.eqb c minus | [] => false end) as ->.
  { by destruct negative. }
  rewrite Hrest, Hhead. assert ((if negative then true else false) = negative) as -> by by destruct negative.
  unfold body. destruct fraction as [|f fraction].
  - rewrite split_list_no by by apply dot_not_digit. by rewrite all_digits_spec.
  - rewrite split_list_app, split_list_no by by apply dot_not_digit. by rewrite !all_digits_spec.
Qed.

(** C34: printing an amount of minor units as a decimal and parsing it back gives the same
    amount, for every integer (of either sign and any magnitude) and every number of decimal
    places. *)
Theorem amount_roundtrip (value decimals : Z) (Hd : 0 <= decimals) :
  decimalToMinorUnits (minorUnitsToDecimal value decimals) decimals = Ret value.
Proof.
  set (n := if value <? 0 then - value else value).
  assert (0 <= n) as Hn by (unfold n; destruct (Z.ltb_spec value 0); lia).
  destruct (padded_digits n decimals Hn Hd) as (Hdig & Hval & Hlen).
  unfold minorUnitsToDecimal. fold n. set (digits := padStart0 _ _) in *.
  set (cut := Z.to_nat (Z.of_nat (length digits) - decimals)).
  destruct (forallb_take_drop is_digit cut digits Hdig) as [Hw Hf].
  set (fraction := if 0 <? decimals then drop cut digits else []).
  assert (length (drop cut digits) = Z.to_nat decimals) as Hfl by (rewrite length_drop; lia).
  assert (forallb is_digit fraction = true ∧ Z.of_nat (length fraction) = decimals ∧ take cut digits ++ fraction = digits)
    as (Hf' & Hfl' & Hall).
  { unfold fraction. destruct (Z.ltb_spec 0 decimals); [split; [done|]; split; [lia|apply take_drop]|].
    split; [done|]. split; [cbn; lia|]. rewrite app_nil_r. apply take_ge. lia. }
  assert (take cut digits ≠ []) as Hne.
  { intros E%(f_equal length). rewrite length_take in E. cbn in E. lia. }
  unfold decimalToMinorUnits. rewrite to_of_list.
  assert (match fraction with [] => (if value <? 0 then [minus] else []) ++ take cut digits
          | _ => (if value <? 0 then [minus] else []) ++ take cut digits ++ dot :: fraction end
          = (if value <? 0 then [minus] else []) ++ match fraction with [] => take cut digits | _ => take cut digits ++ dot :: fraction end)
    as -> by by destruct fraction.
  assert (∀ c, is_digit c = true ∨ c = dot ∨ c = minus → is_space c = false) as Hsp.
  { intros c [H|[-> | ->]]; [by apply is_digit_not_space|done..]. }
  rewrite forallb_forall in Hw, Hf'. rewrite trim_list_none.
  2: { intros c Hc. apply Hsp. setoid_rewrite <- list_elem_of_In in Hw. setoid_rewrite <- list_elem_of_In in Hf'.
       apply elem_of_app in Hc as [Hc|Hc].
       - destruct (value <? 0); [|by apply elem_of_nil in Hc]. apply list_elem_of_singleton in Hc. auto.
       - destruct fraction as [|f k]; [auto|]. apply elem_of_app in Hc as [Hc|[->|Hc]%elem_of_cons]; auto. }
  rewrite <- forallb_forall in Hw, Hf'. rewrite match_decimal_print by done.
  destruct (Z.ltb_spec decimals (Z.of_nat (length fraction))); [lia|]. f_equal.
  assert (padEnd0 (Z.to_nat decimals) fraction = fraction) as ->.
  { unfold padEnd0. replace (Z.to_nat decimals - length fraction)%nat with 0%nat by lia. apply app_nil_r. }
  rewrite Hall, Hval. unfold n. destruct (Z.ltb_spec value 0); lia.
Qed.
End Amount.

(** ** [csv.ts] *)
Module Csv.

Definition comma : ascii := ",".

(** A comma, a double quote, or a line break ([\r], [\n]) occurs in the text. *)
Definition needs_quotes (l : list ascii) : bool :=
  existsb (λ c, Ascii.eqb c quote || Ascii.eqb c comma || Ascii.eqb c CR || Ascii.eqb c LF) l.

(** The replacement of every double quote by two. *)
Fixpoint double_quotes (l : list ascii) : list ascii :=
  match l with
  | [] => []
  | c :: l' => if Ascii.eqb c quote then quote :: quote :: double_quotes l' else c :: double_quotes l'
  end.

(** The argument is [String(value)], or [None] for [null] and [undefined]. *)
Definition escapeField (value : option string) : list ascii :=
  match value with
  | None => []
  | Some s => let l := to_list s in
              if needs_quotes l then quote :: double_quotes l ++ [quote] else l
  end.

Fixpoint join_list (sep : list ascii) (l : list (list ascii)) : list ascii :=
  match l with
  | [] => []
  | [x] => x
  | x :: l' => x ++ sep ++ join_list sep l'
  end.

Definition csv_line (values : list (option string)) : list ascii :=
  join_list [comma] (map escapeField values).

(** [row field] is the value that the row has for a field. *)
Definition toCsv {Row : Type} (get : Row → string → option string) (fields : list string) (rows : list Row) : string :=
  let header := csv_line (map Some fields) in
  let body := map (λ row, csv_line (map (get row) fields)) rows in
  of_list (join_list [CR; LF] (header :: body)).

(** *** A reader of RFC 4180 text, written from the RFC

    [Start]: at the beginning of a field; [Plain]: inside an unquoted one; [Quoted]: inside a
    quoted one; [Closed]: after a quote inside a quoted field, which ends it unless another
    quote follows. *)
Inductive mode := Start | Plain | Quoted | Closed.

Fixpoint read_csv (l : list ascii) (m : mode) (field : list ascii) (row : list (list ascii))
    : list (list (list ascii)) :=
  match l with
  | [] => [row ++ [field]]
  | c :: l' =>
      match m with
      | Quoted => if Ascii.eqb c quote then read_csv l' Closed field row
                  else read_csv l' Quoted (field ++ [c]) row
      | _ =>
          if Ascii.eqb c comma then read_csv l' Start [] (row ++ [field])
          else
            match l' with
            | d :: l'' =>
                if Ascii.eqb c CR && Ascii.eqb d LF then (row ++ [field]) :: read_csv l'' Start [] []
                else if Ascii.eqb c quote then
                       match m with
                       | Start => read_csv l' Quoted field row
                       | Closed => read_csv l' Quoted (field ++ [quote]) row
                       | _ => read_csv l' Plain (field ++ [c]) row
                       end
                else read_csv l' Plain (field ++ [c]) row
            | [] => if Ascii.eqb c quote then
                      match m with
                      | Start => read_csv l' Quoted field row
                      | Closed => read_csv l' Quoted (field ++ [quote]) row
                      | _ => read_csv l' Plain (field ++ [c]) row
                      end
                    else read_csv l' Plain (field ++ [c]) row
            end
      end
  end.

Definition fromCsv (text : string) : list (list string) :=
  map (map of_list) (read_csv (to_list text) Start [] []).

(** *** Lemmas *)

(** The text after a field: a comma, a line end or nothing. *)
Definition delimited (rest : list ascii) : Prop :=
  rest = [] ∨ (∃ l, rest = comma :: l) ∨ (∃ l, rest = CR :: LF :: l).

(** A field has been read completely, whatever form it had. *)
Lemma read_at_end (rest : list ascii) (m m' : mode) (field : list ascii) (row : list (list ascii)) :
  delimited rest → m ≠ Quoted → m' ≠ Quoted → read_csv rest m field row = read_csv rest m' field row.
Proof. intros [->|[[l ->]|[l ->]]] ? ?; by destruct m, m'. Qed.

Lemma needs_quotes_false (l : list ascii) :
  needs_quotes l = false → ∀ c, c ∈ l → c ≠ quote ∧ c ≠ comma ∧ c ≠ CR ∧ c ≠ LF.
Proof.
  unfold needs_quotes. rewrite existsb_false_forall. intros H c Hc. specialize (H c Hc).
  rewrite !orb_false_iff, !Ascii.eqb_neq in H. tauto.
Qed.

Lemma read_plain (l rest : list ascii) (m : mode) (field : list ascii) (row : list (list ascii)) :
  needs_quotes l = false → delimited rest → m = Start ∨ m = Plain →
  read_csv (l ++ rest) m field row = read_csv rest Plain (field ++ l) row.
Proof.
  intros Hn Hrest. revert m field. induction l as [|c l IH]; intros m field Hm.
  - rewrite app_nil_r. apply read_at_end; [done|by destruct Hm; subst|done].
  - pose proof (needs_quotes_false _ Hn c) as (Hq & Hc & Hcr & _); [by left|].
    assert (needs_quotes l = false) as Hl by (unfold needs_quotes in *; cbn in Hn; bool_to_prop; done).
    replace (field ++ c :: l) with ((field ++ [c]) ++ l) by by rewrite <- app_assoc.
    rewrite <- (IH Hl Plain) by auto. cbn [app read_csv].
    apply Ascii.eqb_neq in Hq, Hc, Hcr. rewrite Hq, Hc, Hcr. destruct Hm; subst m; by destruct (l ++ rest).
Qed.

Lemma read_quoted (l rest : list ascii) (field : list ascii) (row : list (list ascii)) :
  read_csv (double_quotes l ++ quote :: rest) Quoted field row = read_csv rest Closed (field ++ l) row.
Proof.
  revert field. induction l as [|c l IH]; intros field; cbn [double_quotes app].
  - by rewrite app_nil_r.
  - replace (field ++ c :: l) with ((field ++ [c]) ++ l) by by rewrite <- app_assoc. rewrite <- IH.
    destruct (Ascii.eqb_spec c quote) as [->|Hc]; cbn [app read_csv].
    + rewrite Ascii.eqb_refl. cbn. by destruct (double_quotes l ++ _).
    + apply Ascii.eqb_neq in Hc. by rewrite Hc.
Qed.

Lemma read_field (v : option string) (rest : list ascii) (row : list (list ascii)) :
  delimited rest →
  read_csv (escapeField v ++ rest) Start [] row
  = read_csv rest Plain (to_list (default EmptyString v)) row.
Proof.
  intros Hrest. destruct v as [s|]; cbn [escapeField default from_option].
  - unfold id. destruct (needs_quotes (to_list s)) eqn:E.
    + rewrite <- app_comm_cons, <- app_assoc. cbn [app read_csv].
      change (Ascii.eqb quote comma) with false. change (Ascii.eqb quote CR) with false.
      rewrite Ascii.eqb_refl. cbn [andb].
      assert (∀ A (x : A) (l : list ascii), match l with [] => x | _ :: _ => x end = x) as Hm by by intros A x [].
      rewrite Hm, read_quoted. by apply read_at_end.
    + rewrite read_plain by auto. done.
  - by apply read_at_end.
Qed.

Lemma read_line (values : list (option string)) (rest : list ascii) (row : list (list ascii)) :
  values ≠ [] → rest = [] ∨ (∃ l, rest = CR :: LF :: l) →
  ∃ field row', read_csv (csv_line values ++ rest) Start [] row = read_csv rest Plain field row' ∧
    row' ++ [field] = row ++ map (λ v, to_list (default EmptyString v)) values.
Proof.
  intros Hne Hrest. revert row. induction values as [|v values IH]; intros row; [done|].
  destruct values as [|v2 values].
  - exists (to_list (default EmptyString v)), row. split; [|done]. unfold csv_line. cbn [map join_list].
    rewrite read_field; [done|]. destruct Hrest as [->|[l ->]]; [by left|right; right; by eexists].
  - destruct (IH ltac:(done) (row ++ [to_list (default EmptyString v)])) as (field & row' & Hr & Hrow).
    exists field, row'. split; [|rewrite Hrow, <- app_assoc; done].
    unfold csv_line in *. change (join_list [comma] (map escapeField (v :: v2 :: values)))
      with (escapeField v ++ [comma] ++ join_list [comma] (map escapeField (v2 :: values))).
    rewrite <- !app_assoc, read_field by (right; left; by eexists). rewrite <- Hr. done.
Qed.

Lemma read_lines (lines : list (list (option string))) :
  lines ≠ [] → (∀ v, v ∈ lines → v ≠ []) →
  read_csv (join_list [CR; LF] (map csv_line lines)) Start [] []
  = map (map (λ v, to_list (default EmptyString v))) lines.
Proof.
  intros Hne Hv. induction lines as [|v lines IH]; [done|].
  assert (v ≠ []) as Hvne by (apply Hv; by left). destruct lines as [|v2 lines].
  - cbn [map join_list]. destruct (read_line v [] [] Hvne) as (field & row' & Hr & Hrow); [by left|].
    rewrite app_nil_r in Hr. rewrite Hr. cbn. by rewrite Hrow.
  - change (join_list [CR; LF] (map csv_line (v :: v2 :: lines)))
      with (csv_line v ++ [CR; LF] ++ join_list [CR; LF] (map csv_line (v2 :: lines))).
    destruct (read_line v ([CR; LF] ++ join_list [CR; LF] (map csv_line (v2 :: lines))) [] Hvne)
      as (field & row' & Hr & Hrow); [right; by eexists|].
    rewrite Hr. change (read_csv ([CR; LF] ++ ?x) Plain field row') with ((row' ++ [field]) :: read_csv x Start [] []).
    rewrite Hrow, IH; [done|done|]. intros u Hu. apply Hv. by right.
Qed.

(** C33: the CSV of an export is RFC 4180 text that reads back exactly: whatever characters
    the values hold (commas, quotes, line breaks), a reader of the RFC recovers the header and
    one record per row with the same values in the same columns, missing values as empty
    fields. *)
Theorem csv_roundtrip {Row : Type} (get : Row → string → option string) (fields : list string)
    (rows : list Row) (Hf : fields ≠ []) :
  fromCsv (toCsv get fields rows)
  = fields :: map (λ row, map (λ f, default EmptyString (get row f)) fields) rows.
Proof.
  unfold fromCsv, toCsv. rewrite to_of_list.
  change (csv_line (map Some fields) :: map (λ row, csv_line (map (get row) fields)) rows)
    with (map csv_line [map Some fields] ++ map (λ row, csv_line (map (get row) fields)) rows).
  rewrite <- (map_map (λ row, map (get row) fields) csv_line), <- map_app, read_lines; [|done|].
  - cbn [app map]. rewrite !map_map. f_equal.
    + rewrite <- (map_id fields) at 2. apply map_ext. intros f. apply of_to_list.
    + apply map_ext. intros row. rewrite !map_map. apply map_ext. intros f. apply of_to_list.
  - assert (∀ (A B : Type) (f : A → B) (l : list A), l ≠ [] → map f l ≠ []) as Hm by by intros A B f [].
    intros v [->|Hv]%elem_of_cons; [by apply Hm|].
    apply list_elem_of_In, in_map_iff in Hv as (row & <- & _). by apply Hm.
Qed.
End Csv.

(** ** Witnesses *)
Module AmountExamples.

Lemma amount_roundtrip_witness :
  Amount.minorUnitsToDecimal (-1234567) 7 = "-0.1234567"%string ∧
  Amount.decimalToMinorUnits "-0.1234567" 7 = Ret (-1234567).
Proof. split; [vm_compute; reflexivity|]. apply (Amount.amount_roundtrip (-1234567) 7). lia. Defined.

Lemma csv_roundtrip_witness :
  Csv.fromCsv (Csv.toCsv (λ (row : string) f, if String.eqb f "a" then Some row else None) ["a"; "b"]%string
    [(str1 quote +:+ "x, y")%string; EmptyString])
  = [["a"; "b"]; [(str1 quote +:+ "x, y"); ""]; [""; ""]]%string.
Proof.
  apply (Csv.csv_roundtrip (λ (row : string) f, if String.eqb f "a" then Some row else None) ["a"; "b"]%string). discriminate.
Defined.
End AmountExamples.
