(* ===== verification/Documents.v ===== *)
(** * Regulatory documents ([compliance/fatf.ts], [compliance/investor-report.ts])

    The FATF Travel Rule records of a set of invoices, and an investor's portfolio report. *)
From S2P Require Import Prelude Js Schema Errors Amount.
Import Amount.
Open Scope Z_scope.

(** ** [fatf.ts] *)
Module Fatf.

Inductive FatfTransactionType := FINANCING | REPAYMENT.

#[global] Instance FatfTransactionType_eq : EqDecision FatfTransactionType.
Proof. solve_decision. Defined.

Definition type_name (t : FatfTransactionType) : string :=
  match t with FINANCING => "FINANCING" | REPAYMENT => "REPAYMENT" end.

Record FatfRecord := mkFatfRecord {
  transactionRef : string;
  invoiceOnchainId : string;
  transactionType : FatfTransactionType;
  transactionDate : string;
  ledgerSequence : option Z;
  invoiceStatus : string;
  originatorAccount : string;
  originatorName : option string;
  beneficiaryAccount : string;
  beneficiaryName : option string;
  amountMinorUnits : string;
  amountDecimal : string;
  assetCode : string;
  kycStatus : string }.

Definition FATF_FIELDS : list string :=
  ["transactionRef"; "invoiceOnchainId"; "transactionType"; "transactionDate"; "ledgerSequence";
   "invoiceStatus"; "originatorAccount"; "originatorName"; "beneficiaryAccount"; "beneficiaryName";
   "amountMinorUnits"; "amountDecimal"; "assetCode"; "kycStatus"]%string.

Record FatfBuildOptions := mkOptions {
  thresholdMinorUnits : Z;
  defaultAssetCode : string;
  assetDecimals : option Z;
  rangeStart : option Z;
  rangeEnd : option Z }.

Definition withinRange (date : Z) (start_ end_ : option Z) : bool :=
  if match start_ with Some s => date <? s | None => false end then false
  else if match end_ with Some e => e <? date | None => false end then false
  else true.

Definition record (invoice : Invoice) (type : FatfTransactionType) (date : Z) (ledger : option Z)
    (originator beneficiary : string) (amount : Z) (assetCode : string) (decimals : Z) : FatfRecord :=
  {| transactionRef := (Z_to_string (inv_onchainId invoice) +:+ ":" +:+ type_name type)%string;
     invoiceOnchainId := Z_to_string (inv_onchainId invoice);
     transactionType := type; transactionDate := toISOString date; ledgerSequence := ledger;
     invoiceStatus := InvoiceStatus_name (inv_status invoice);
     originatorAccount := originator; originatorName := None;
     beneficiaryAccount := beneficiary; beneficiaryName := None;
     amountMinorUnits := Z_to_string amount; amountDecimal := minorUnitsToDecimal amount decimals;
     assetCode := assetCode; kycStatus := "UNAVAILABLE" |}.

(** The records that one iteration of the loop pushes. *)
Definition records_of (options : FatfBuildOptions) (decimals : Z) (invoice : Invoice) : list FatfRecord :=
  if negb (truthy_opt (inv_investor invoice)) then []
  else
    let investor := default EmptyString (inv_investor invoice) in
    let assetCode := default (defaultAssetCode options) (inv_assetCode invoice) in
    let financedAmount := default (inv_faceValue invoice) (inv_fundedAmount invoice) in
    let financedDate := inv_createdAt invoice in
    (if (thresholdMinorUnits options <=? financedAmount)
        && withinRange financedDate (rangeStart options) (rangeEnd options)
     then [record invoice FINANCING financedDate None investor (inv_farmer invoice) financedAmount assetCode decimals]
     else []) ++
    (if bool_decide (inv_status invoice = REPAID) then
       let repaidAmount := default (inv_faceValue invoice) (inv_repaidAmount invoice) in
       let repaidDate := default (inv_updatedAt invoice) (inv_settledAt invoice) in
       if (thresholdMinorUnits options <=? repaidAmount)
          && withinRange repaidDate (rangeStart options) (rangeEnd options)
       then [record invoice REPAYMENT repaidDate (inv_settledLedger invoice) (inv_farmer invoice) investor
               repaidAmount assetCode decimals]
       else []
     else []).

Definition buildFatfRecords (invoices : list Invoice) (options : FatfBuildOptions) : list FatfRecord :=
  let decimals := default DEFAULT_ASSET_DECIMALS (assetDecimals options) in
  flat_map (records_of options decimals) invoices.

(** *** Specification: the value transfers of an invoice *)

Record Transfer := mkTransfer {
  tr_type : FatfTransactionType; tr_date : Z; tr_ledger : option Z;
  tr_originator : string; tr_beneficiary : string; tr_amount : Z }.

(** An investor other than the empty string financed the farmer at the invoice's creation,
    for the recorded price or else the face value; a REPAID invoice was repaid to the
    investor, for the recorded amount or else the face value. *)
Inductive transfer_of (i : Invoice) : Transfer → Prop :=
| financing investor :
    inv_investor i = Some investor → investor ≠ EmptyString →
    transfer_of i (mkTransfer FINANCING (inv_createdAt i) None investor (inv_farmer i)
                     (default (inv_faceValue i) (inv_fundedAmount i)))
| repayment investor :
    inv_investor i = Some investor → investor ≠ EmptyString → inv_status i = REPAID →
    transfer_of i (mkTransfer REPAYMENT (default (inv_updatedAt i) (inv_settledAt i)) (inv_settledLedger i)
                     (inv_farmer i) investor (default (inv_faceValue i) (inv_repaidAmount i))).

(** At or above the threshold and, where a bound is given, within the range (inclusive). *)
Definition reportable (o : FatfBuildOptions) (t : Transfer) : Prop :=
  thresholdMinorUnits o <= tr_amount t ∧
  (∀ s, rangeStart o = Some s → s <= tr_date t) ∧ (∀ e, rangeEnd o = Some e → tr_date t <= e).

Definition record_of (o : FatfBuildOptions) (i : Invoice) (t : Transfer) : FatfRecord :=
  record i (tr_type t) (tr_date t) (tr_ledger t) (tr_originator t) (tr_beneficiary t) (tr_amount t)
    (default (defaultAssetCode o) (inv_assetCode i)) (default DEFAULT_ASSET_DECIMALS (assetDecimals o)).

Lemma withinRange_spec (date : Z) (s e : option Z) :
  withinRange date s e = true ↔ (∀ x, s = Some x → x <= date) ∧ (∀ x, e = Some x → date <= x).
Proof.
  unfold withinRange. split.
  - destruct s as [s|], e as [e|]; repeat case_match; bool_to_prop; intros ?; try done; naive_solver lia.
  - intros [H1 H2]. destruct s as [s|], e as [e|]; repeat case_match; bool_to_prop; try done;
      try specialize (H1 _ eq_refl); try specialize (H2 _ eq_refl); lia.
Qed.

Lemma truthy_opt_true (o : option string) :
  truthy_opt o = true ↔ ∃ s, o = Some s ∧ s ≠ EmptyString.
Proof.
  unfold truthy_opt, truthy. destruct o as [s|]; [|split; [done|by intros (? & ? & _)]].
  rewrite negb_true_iff, String.eqb_neq. split; [by exists s|]. by intros (? & [= ->] & ?).
Qed.

Lemma elem_of_records_of (o : FatfBuildOptions) (i : Invoice) (r : FatfRecord) :
  r ∈ records_of o (default DEFAULT_ASSET_DECIMALS (assetDecimals o)) i ↔
  ∃ t, transfer_of i t ∧ reportable o t ∧ r = record_of o i t.
Proof.
  unfold records_of. destruct (truthy_opt (inv_investor i)) eqn:Ht; cbn [negb].
  2: { split; [intros H; by apply elem_of_nil in H|]. intros (t & Htr & _). exfalso.
       assert (truthy_opt (inv_investor i) = true) by (apply truthy_opt_true; inversion Htr; eauto). congruence. }
  apply truthy_opt_true in Ht as (investor & Hi & Hne). rewrite Hi. change (default EmptyString (Some investor)) with investor.
  rewrite elem_of_app. split.
  - intros [H|H].
    + destruct (_ && _) eqn:E; [|by apply elem_of_nil in H]. apply list_elem_of_singleton in H as ->.
      apply andb_true_iff in E as [E1%Z.leb_le E2%withinRange_spec].
      eexists. split; [by eapply financing|]. split; [|done]. split; [done|exact E2].
    + case_bool_decide as Hs; [|by apply elem_of_nil in H].
      destruct (_ && _) eqn:E; [|by apply elem_of_nil in H]. apply list_elem_of_singleton in H as ->.
      apply andb_true_iff in E as [E1%Z.leb_le E2%withinRange_spec].
      eexists. split; [by eapply repayment|]. split; [|done]. split; [done|exact E2].
  - intros (t & Htr & (H1 & H2) & ->). destruct Htr as [inv' Hi' _|inv' Hi' _ Hs]; simplify_eq; cbn in H1, H2.
    + left. apply Z.leb_le in H1. apply withinRange_spec in H2. rewrite H1, H2. cbn. by left.
    + right. rewrite bool_decide_true by done. apply Z.leb_le in H1. apply withinRange_spec in H2.
      rewrite H1, H2. cbn. by left.
Qed.

(** The Travel Rule export is sound and complete: it contains a record exactly for every
    value transfer of the given invoices (the financing of each invoice with an investor, and
    the repayment of each REPAID one) whose amount reaches the threshold and whose date lies
    in the requested range, and each record describes its transfer. *)
Theorem fatf_sound_complete (invoices : list Invoice) (options : FatfBuildOptions) (r : FatfRecord) :
  r ∈ buildFatfRecords invoices options ↔
  ∃ i t, i ∈ invoices ∧ transfer_of i t ∧ reportable options t ∧ r = record_of options i t.
Proof.
  unfold buildFatfRecords. rewrite list_elem_of_In, in_flat_map. setoid_rewrite <- list_elem_of_In.
  setoid_rewrite elem_of_records_of. naive_solver.
Qed.

Lemma transactionRef_inj (i j : Invoice) (t t' : FatfTransactionType) :
  (Z_to_string (inv_onchainId i) +:+ ":" +:+ type_name t)%string
  = (Z_to_string (inv_onchainId j) +:+ ":" +:+ type_name t')%string →
  inv_onchainId i = inv_onchainId j ∧ t = t'.
Proof.
  intros H. apply (f_equal (split ":")) in H. unfold split in H. rewrite !to_list_app in H.
  assert (∀ n, ":"%char ∉ to_list (Z_to_string n)) as Hno.
  { intros n Hin. apply Z_to_string_chars in Hin as [?|?]; done. }
  cbn [to_list app] in H. rewrite !split_list_app in H by done. cbn in H. injection H as H1 H2.
  rewrite !of_to_list in H1. split; [by apply Z_to_string_inj|]. by destruct t, t'.
Qed.

(** The transaction references of an export are pairwise distinct when the invoices have
    distinct on-chain ids, so a reference identifies one transfer. *)
Theorem fatf_refs_unique (invoices : list Invoice) (options : FatfBuildOptions)
    (Hids : NoDup (map inv_onchainId invoices)) :
  NoDup (map transactionRef (buildFatfRecords invoices options)).
Proof.
  unfold buildFatfRecords. generalize (default DEFAULT_ASSET_DECIMALS (assetDecimals options)) as dec. intros dec.
  assert (∀ i r, r ∈ records_of options dec i → transactionRef r
    = (Z_to_string (inv_onchainId i) +:+ ":" +:+ type_name (transactionType r))%string) as Href.
  { intros i r. unfold records_of. repeat case_match; cbn; set_unfold; naive_solver. }
  induction invoices as [|i l IH]; [constructor|]. cbn in Hids |- *. inversion Hids as [|? ? Hnin Hnd]; subst.
  rewrite map_app. apply NoDup_app. split; [|split; [|by apply IH]].
  - unfold records_of. repeat case_match; cbn; repeat constructor; set_unfold; try tauto.
    intros [Hr|[]]. by apply (transactionRef_inj i i FINANCING REPAYMENT) in Hr as [_ ?].
  - intros x Hx Hy. apply list_elem_of_In, in_map_iff in Hx as (r & <- & Hr), Hy as (r' & Hrr & Hr').
    rewrite <- list_elem_of_In in Hr. apply in_flat_map in Hr' as (j & Hj & Hr').
    rewrite <- list_elem_of_In in Hr'. rewrite <- list_elem_of_In in Hj. rewrite (Href i r Hr), (Href j r' Hr') in Hrr.
    apply transactionRef_inj in Hrr as [Hij _]. apply Hnin. rewrite <- Hij. by apply list_elem_of_fmap_2.
Qed.
End Fatf.

(** ** [investor-report.ts] *)
Module InvestorReport.

Record InvestorPosition := mkPosition {
  p_invoiceOnchainId : string;
  p_status : string;
  p_farmer : string;
  p_assetCode : string;
  p_faceValueMinorUnits : string;
  p_costBasisMinorUnits : string;
  p_proceedsMinorUnits : option string;
  p_realizedPnlMinorUnits : option string;
  p_unrealizedValueMinorUnits : option string;
  p_fundedAt : string;
  p_settledAt : option string }.

Definition INVESTOR_POSITION_FIELDS : list string :=
  ["invoiceOnchainId"; "status"; "farmer"; "assetCode"; "faceValueMinorUnits"; "costBasisMinorUnits";
   "proceedsMinorUnits"; "realizedPnlMinorUnits"; "unrealizedValueMinorUnits"; "fundedAt"; "settledAt"]%string.

Record Money := mkMoney { minorUnits : string; decimal : string }.

Record InvestorReportSummary := mkSummary {
  totalInvoices : Z; fundedCount : Z; repaidCount : Z; defaultedCount : Z;
  totalFaceValue : Money; totalCostBasis : Money; realizedProceeds : Money; realizedPnl : Money;
  outstandingCostBasis : Money; defaultedCostBasis : Money; unrealizedValue : Money }.

Record InvestorReportDoc := mkReport {
  investor : string; assetCode : string; positions : list InvestorPosition; summary : InvestorReportSummary }.

Record InvestorReportOptions := mkReportOptions { o_defaultAssetCode : string; o_assetDecimals : option Z }.

Definition costBasis (invoice : Invoice) : Z := default (inv_faceValue invoice) (inv_fundedAmount invoice).

(** The loop variables of [buildInvestorReport]. *)
Record Totals := mkTotals {
  t_funded : Z; t_repaid : Z; t_defaulted : Z; t_faceValue : Z; t_costBasis : Z; t_proceeds : Z;
  t_realizedPnl : Z; t_outstanding : Z; t_defaultedBasis : Z; t_unrealized : Z;
  t_positions : list InvestorPosition }.

Definition no_totals : Totals := mkTotals 0 0 0 0 0 0 0 0 0 0 [].

(** [proceeds], [positionRealizedPnl] and [positionUnrealized] after the [switch]. *)
Definition position_figures (invoice : Invoice) : option Z * option Z * option Z :=
  let basis := costBasis invoice in
  match inv_status invoice with
  | REPAID => let proceeds := default (inv_faceValue invoice) (inv_repaidAmount invoice) in
              (Some proceeds, Some (proceeds - basis), None)
  | DEFAULTED => (Some 0, Some (- basis), None)
  | FUNDED => (None, None, Some (inv_faceValue invoice - basis))
  | PENDING => (None, None, None)
  end.

Definition position (options : InvestorReportOptions) (invoice : Invoice) : InvestorPosition :=
  let '(proceeds, pnl, unrealized) := position_figures invoice in
  {| p_invoiceOnchainId := Z_to_string (inv_onchainId invoice);
     p_status := InvoiceStatus_name (inv_status invoice); p_farmer := inv_farmer invoice;
     p_assetCode := default (o_defaultAssetCode options) (inv_assetCode invoice);
     p_faceValueMinorUnits := Z_to_string (inv_faceValue invoice);
     p_costBasisMinorUnits := Z_to_string (costBasis invoice);
     p_proceedsMinorUnits := Z_to_string <$> proceeds;
     p_realizedPnlMinorUnits := Z_to_string <$> pnl;
     p_unrealizedValueMinorUnits := Z_to_string <$> unrealized;
     p_fundedAt := toISOString (inv_createdAt invoice);
     p_settledAt := toISOString <$> inv_settledAt invoice |}.

(** One iteration of the loop. *)
Definition add_invoice (who : string) (options : InvestorReportOptions) (t : Totals) (i : Invoice) : Totals :=
  if negb (bool_decide (inv_investor i = Some who)) then t
  else
    let basis := costBasis i in
    let '(proceeds, pnl, unrealized) := position_figures i in
    {| t_funded := t_funded t + (if bool_decide (inv_status i = FUNDED) then 1 else 0);
       t_repaid := t_repaid t + (if bool_decide (inv_status i = REPAID) then 1 else 0);
       t_defaulted := t_defaulted t + (if bool_decide (inv_status i = DEFAULTED) then 1 else 0);
       t_faceValue := t_faceValue t + inv_faceValue i;
       t_costBasis := t_costBasis t + basis;
       t_proceeds := t_proceeds t + (if bool_decide (inv_status i = REPAID) then default 0 proceeds else 0);
       t_realizedPnl := t_realizedPnl t + default 0 pnl;
       t_outstanding := t_outstanding t + (if bool_decide (inv_status i = FUNDED) then basis else 0);
       t_defaultedBasis := t_defaultedBasis t + (if bool_decide (inv_status i = DEFAULTED) then basis else 0);
       t_unrealized := t_unrealized t + default 0 unrealized;
       t_positions := t_positions t ++ [position options i] |}.

Definition totals (who : string) (options : InvestorReportOptions) (invoices : list Invoice) : Totals :=
  fold_left (add_invoice who options) invoices no_totals.

Definition money (decimals value : Z) : Money :=
  mkMoney (Z_to_string value) (minorUnitsToDecimal value decimals).

Definition buildInvestorReport (who : string) (invoices : list Invoice) (options : InvestorReportOptions)
    : InvestorReportDoc :=
  let money := money (default DEFAULT_ASSET_DECIMALS (o_assetDecimals options)) in
  let t := totals who options invoices in
  {| investor := who; assetCode := o_defaultAssetCode options; positions := t_positions t;
     summary := {| totalInvoices := Z.of_nat (length (t_positions t));
                   fundedCount := t_funded t; repaidCount := t_repaid t; defaultedCount := t_defaulted t;
                   totalFaceValue := money (t_faceValue t); totalCostBasis := money (t_costBasis t);
                   realizedProceeds := money (t_proceeds t); realizedPnl := money (t_realizedPnl t);
                   outstandingCostBasis := money (t_outstanding t);
                   defaultedCostBasis := money (t_defaultedBasis t);
                   unrealizedValue := money (t_unrealized t) |} |}.

(** *** Specification: sums over the investor's invoices *)

Definition mine (who : string) (invoices : list Invoice) : list Invoice :=
  List.filter (λ i, bool_decide (inv_investor i = Some who)) invoices.

Definition in_status (s : InvoiceStatus) (invoices : list Invoice) : list Invoice :=
  List.filter (λ i, bool_decide (inv_status i = s)) invoices.

Definition proceeds_of (i : Invoice) : Z := default (inv_faceValue i) (inv_repaidAmount i).

(** The report of a list of invoices [l], all of the investor. *)
Definition expected (options : InvestorReportOptions) (l : list Invoice) : Totals :=
  {| t_funded := Z.of_nat (length (in_status FUNDED l));
     t_repaid := Z.of_nat (length (in_status REPAID l));
     t_defaulted := Z.of_nat (length (in_status DEFAULTED l));
     t_faceValue := sum_Z inv_faceValue l;
     t_costBasis := sum_Z costBasis l;
     t_proceeds := sum_Z proceeds_of (in_status REPAID l);
     t_realizedPnl := sum_Z proceeds_of (in_status REPAID l) - sum_Z costBasis (in_status REPAID l)
                      - sum_Z costBasis (in_status DEFAULTED l);
     t_outstanding := sum_Z costBasis (in_status FUNDED l);
     t_defaultedBasis := sum_Z costBasis (in_status DEFAULTED l);
     t_unrealized := sum_Z inv_faceValue (in_status FUNDED l) - sum_Z costBasis (in_status FUNDED l);
     t_positions := map (position options) l |}.

Lemma in_status_snoc (s : InvoiceStatus) (l : list Invoice) (i : Invoice) :
  in_status s (l ++ [i]) = in_status s l ++ (if bool_decide (inv_status i = s) then [i] else []).
Proof. unfold in_status. rewrite List.filter_app. cbn. by destruct (bool_decide _). Qed.

Lemma totals_expected (who : string) (options : InvestorReportOptions) (invoices : list Invoice) :
  totals who options invoices = expected options (mine who invoices).
Proof.
  unfold totals. induction invoices as [|i l IH] using rev_ind; [done|].
  rewrite fold_left_app, IH. cbn [fold_left]. unfold mine. rewrite List.filter_app. cbn [List.filter].
  fold (mine who l). unfold add_invoice. case_bool_decide; cbn [negb]; [|by rewrite app_nil_r].
  unfold expected. cbn. rewrite !in_status_snoc, !sum_Z_app, !length_app, map_app, Nat2Z.inj_add.
  unfold position_figures.
  unfold proceeds_of.
  destruct (inv_status i) eqn:Hs; repeat (case_bool_decide; try done); f_equal; cbn; lia.
Qed.

Lemma sum_by_status (f : Invoice → Z) (l : list Invoice) :
  sum_Z f l = sum_Z f (in_status FUNDED l) + sum_Z f (in_status DEFAULTED l)
    + sum_Z f (in_status REPAID l) + sum_Z f (in_status PENDING l).
Proof.
  induction l as [|i k IH]; [done|]. unfold in_status in *. cbn.
  destruct (inv_status i) eqn:Hs; repeat (case_bool_decide; try done); cbn; unfold sum_Z in *; lia.
Qed.

Lemma length_sum_Z (k : list Invoice) : Z.of_nat (length k) = sum_Z (λ _, 1) k.
Proof. induction k as [|i k IH]; cbn; [done|]. unfold sum_Z in *. lia. Qed.

End InvestorReport.

(** ** Witnesses *)
Module DocumentExamples.
Import Fatf.

Definition financed_ex : Invoice :=
  mkInvoice 1 42 REPAID 1000 "GF" (Some "GI"%string) None None (Some 9) (Some 5000) (Some 900) (Some 1000) None 1000 2000.

Lemma fatf_refs_unique_witness :
  map transactionRef (buildFatfRecords [financed_ex] (mkOptions 900 "USDC" None None None))
    = ["42:FINANCING"; "42:REPAYMENT"]%string ∧
  NoDup (map transactionRef (buildFatfRecords [financed_ex] (mkOptions 900 "USDC" None None None))).
Proof.
  split; [vm_compute; reflexivity|].
  apply (fatf_refs_unique [financed_ex] (mkOptions 900 "USDC" None None None)). cbn. repeat constructor. set_solver.
Defined.
End DocumentExamples.
