(* ===== verification/Compliance.v ===== *)
(** * Regulatory exports ([compliance/signing.ts], [compliance/export-signing.service.ts],
    [compliance/compliance.config.ts], [compliance/compliance.service.ts],
    [compliance/compliance.controller.ts])

    Inline exports, the life cycle of export jobs, and who may read what.  The documents
    themselves are built in Documents.v.  Ed25519 (the Stellar SDK), SHA-256 and the parsing
    of date strings are parameters. *)
From S2P Require Import Prelude Js Schema Errors Prisma PrismaService Interfaces Auth Amount Documents.
Open Scope Z_scope.

(** ** [JSON.stringify(value, null, 2)] *)
Module Json.

Inductive json :=
| Null
| Num (n : Z)
| Str (s : string)
| Arr (l : list json)
| Obj (fields : list (string * json)).

Definition hex_lower (n : Z) : ascii :=
  ascii_of_N (Z.to_N (if n <? 10 then n + 48 else n + 87)).

Definition backslash : ascii := ascii_of_N 92.

Definition escape_char (c : ascii) : list ascii :=
  let n := code c in
  if (n =? 34) || (n =? 92) then [backslash; c]
  else if n =? 8 then [backslash; "b"%char]
  else if n =? 9 then [backslash; "t"%char]
  else if n =? 10 then [backslash; "n"%char]
  else if n =? 12 then [backslash; "f"%char]
  else if n =? 13 then [backslash; "r"%char]
  else if n <? 32 then [backslash; "u"%char; "0"%char; "0"%char; hex_lower (n / 16); hex_lower (n mod 16)]
  else [c].

Definition quoted (s : string) : string :=
  of_list (quote :: flat_map escape_char (to_list s) ++ [quote]).

Definition newline (indent : nat) : string := of_list (LF :: replicate indent " "%char).

Fixpoint stringify (indent : nat) (v : json) : string :=
  match v with
  | Null => "null"
  | Num n => Z_to_string n
  | Str s => quoted s
  | Arr [] => "[]"
  | Arr l => "[" +:+ newline (indent + 2)
             +:+ join ("," +:+ newline (indent + 2)) (map (stringify (indent + 2)) l)
             +:+ newline indent +:+ "]"
  | Obj [] => "{}"
  | Obj l => "{" +:+ newline (indent + 2)
             +:+ join ("," +:+ newline (indent + 2))
                  (map (λ '(k, x), quoted k +:+ ": " +:+ stringify (indent + 2) x) l)
             +:+ newline indent +:+ "}"
  end%string.

Definition nullable (s : option string) : json := from_option Str Null s.

(** [row[field]] as the argument of [escapeField] (the rows have strings, numbers and nulls). *)
Definition cell (fields : list (string * json)) (key : string) : option string :=
  match List.find (λ '(k, _), String.eqb k key) fields with
  | Some (_, Str s) => Some s
  | Some (_, Num n) => Some (Z_to_string n)
  | _ => None
  end.

Example stringify_ex : stringify 0 (Obj [("a", Num 1); ("b", Arr [Str "x"; Null])]%string)
  = of_list (["{"; LF; " "; " "; quote; "a"; quote; ":"; " "; "1"; ","; LF; " "; " "; quote; "b"; quote; ":"; " "; "[";
     LF; " "; " "; " "; " "; quote; "x"; quote; ","; LF; " "; " "; " "; " "; "n"; "u"; "l"; "l"; LF; " "; " "; "]"; LF; "}"]%char).
Proof. vm_compute. reflexivity. Qed.
End Json.

(** [Buffer.byteLength(s, 'utf8')] of a string of characters below 256 *)
Definition utf8_length (s : string) : Z :=
  sum_Z (λ c, if code c <? 128 then 1 else 2) (to_list s).

(** The [Keypair] of the Stellar SDK; signatures are in Base64, as the code keeps them. *)
Class Ed25519 := {
  Keypair : Type;
  Keypair_fromSecret : string → outcome exn Keypair;
  Keypair_publicKey : Keypair → string;
  (** [keypair.sign(data).toString('base64')] *)
  Keypair_sign : Keypair → string → string;
  (** [Keypair.fromPublicKey(key).verify(data, Buffer.from(signature, 'base64'))] *)
  Keypair_verify : string → string → string → outcome exn bool }.

(** A key pair accepts its own signatures. *)
Class Ed25519Laws `{!Ed25519} := {
  verify_own_signature : ∀ k data, Keypair_verify (Keypair_publicKey k) data (Keypair_sign k data) = Ret true }.

(** ** [signing.ts] *)
Module Signing.
Section signing.
Context {CR : Crypto} {ED : Ed25519}.

Definition SIGNATURE_ALGORITHM : string := "ed25519".
Definition DIGEST_ALGORITHM : string := "sha256".

Record IntegrityProof := mkProof {
  digestAlgorithm : string;
  sha256 : string;
  signatureAlgorithm : string;
  signature : string;
  signerPublicKey : string }.

Definition sha256Hex (data : string) : string := sha256_hex data.

Definition signContent (keypair : Keypair) (data : string) : IntegrityProof :=
  {| digestAlgorithm := DIGEST_ALGORITHM; sha256 := sha256Hex data;
     signatureAlgorithm := SIGNATURE_ALGORITHM; signature := Keypair_sign keypair data;
     signerPublicKey := Keypair_publicKey keypair |}.

Definition verifyContent (signer data proof_sha256 proof_signature : string) : bool :=
  if negb (String.eqb (sha256Hex data) proof_sha256) then false
  else match Keypair_verify signer data proof_signature with Ret b => b | Throw _ => false end.

Record LoadedSigningKey := mkLoaded { keypair : Keypair; ephemeral : bool }.

(** [random] is what [Keypair.random()] returns. *)
Definition loadSigningKey (configuredSecret : option string) (random : Keypair) : outcome exn LoadedSigningKey :=
  let secret := trim <$> configuredSecret in
  if truthy_opt secret then
    match Keypair_fromSecret (default EmptyString secret) with
    | Ret k => Ret (mkLoaded k false)
    | Throw e => Throw e
    end
  else Ret (mkLoaded random true).

Lemma verify_signContent `{!Ed25519Laws} (k : Keypair) (data : string) :
  verifyContent (signerPublicKey (signContent k data)) data (sha256 (signContent k data))
    (signature (signContent k data)) = true.
Proof. unfold verifyContent. cbn. by rewrite String.eqb_refl, verify_own_signature. Qed.
End signing.
End Signing.

(** ** [compliance.config.ts] *)
Module ComplianceConfig.
Record ComplianceConfig := mkConfig {
  schemaVersion : string;
  assetCode : string;
  assetDecimals : Z;
  defaultThresholdDecimal : string }.

(** The constructor; [COMPLIANCE_ASSET_DECIMALS] is an integer when it is set. *)
Definition new (COMPLIANCE_ASSET_CODE : option string) (COMPLIANCE_ASSET_DECIMALS : option Z)
    (FATF_TRAVEL_RULE_THRESHOLD : option string) : ComplianceConfig :=
  {| schemaVersion := "1.0"; assetCode := default "USDC"%string COMPLIANCE_ASSET_CODE;
     assetDecimals := default Amount.DEFAULT_ASSET_DECIMALS COMPLIANCE_ASSET_DECIMALS;
     defaultThresholdDecimal := default "1000"%string FATF_TRAVEL_RULE_THRESHOLD |}.
End ComplianceConfig.

(** [new Date(raw).getTime()], [None] for an invalid date. *)
Class DateParser := { Date_parse : string → option Z }.

(** ** [compliance.service.ts] *)
Module ComplianceService.

Record RawExportQuery := mkQuery {
  q_format : option string;
  q_threshold : option string;
  q_since : option string;
  q_until : option string;
  q_subject : option string;
  q_async : option string }.

Record InlineExport := mkExport {
  filename : string;
  contentType : string;
  content : string;
  recordCount : Z;
  byteLength : Z;
  integrity : Signing.IntegrityProof }.

Record JobSummary := mkJobSummary {
  js_id : string;
  js_type : ExportType;
  js_format : ExportFormat;
  js_status : ExportJobStatus;
  js_requestedBy : string;
  js_subject : option string;
  js_recordCount : option Z;
  js_byteLength : option Z;
  js_contentType : option string;
  js_integrity : option Signing.IntegrityProof;
  js_error : option string;
  js_createdAt : string;
  js_startedAt : option string;
  js_completedAt : option string;
  js_downloadUrl : option string }.

Record TransactionParams := mkTransactionParams {
  tp_format : ExportFormat;
  tp_subject : option string;
  tp_threshold : Z;
  tp_rangeStart : option Z;
  tp_rangeEnd : option Z }.

Record InvestorParams := mkInvestorParams { ip_format : ExportFormat; ip_subject : string }.

Definition ExportType_name (t : ExportType) : string :=
  match t with TRANSACTIONS => "TRANSACTIONS" | INVESTOR_REPORT => "INVESTOR_REPORT" end.

(** *** Access scoping and parameters *)

Definition resolveTransactionSubject (principal : Principal.Principal) (requested : option string)
    : outcome exn (option string) :=
  if Principal.isAdmin principal then
    Ret (if truthy_opt requested then requested else None)
  else if truthy_opt requested && negb (bool_decide (requested = Some (Principal.walletAddress principal)))
  then Throw (ForbiddenException "You may only export your own transaction data")
  else Ret (Some (Principal.walletAddress principal)).

Definition resolveInvestorSubject (principal : Principal.Principal) (requested : option string)
    : outcome exn string :=
  if Principal.isAdmin principal then
    if negb (truthy_opt requested)
    then Throw (BadRequestException "subject (investor wallet) is required for admin investor reports")
    else Ret (default EmptyString requested)
  else if truthy_opt requested && negb (bool_decide (requested = Some (Principal.walletAddress principal)))
  then Throw (ForbiddenException "You may only export your own report")
  else Ret (Principal.walletAddress principal).

Definition parseFormat (raw : option string) : outcome exn ExportFormat :=
  let value := toLowerCase (default "json"%string raw) in
  if String.eqb value "json" then Ret JSON
  else if String.eqb value "csv" then Ret CSV
  else Throw (BadRequestException ("Unsupported format: " +:+ default EmptyString raw)%string).

Definition parseDate `{!DateParser} (raw : option string) (field : string) : outcome exn (option Z) :=
  match raw with
  | None => Ret None
  | Some r =>
      if String.eqb r "" then Ret None
      else match Date_parse r with
           | None => Throw (BadRequestException ("Invalid " +:+ field +:+ " date: " +:+ r)%string)
           | Some date => Ret (Some date)
           end
  end.

(** Sequencing of pure steps that may throw. *)
Definition and_then {A B : Type} (o : outcome exn A) (f : A → outcome exn B) : outcome exn B :=
  match o with Ret a => f a | Throw e => Throw e end.

Definition parse_threshold (value : string) (decimals : Z) : outcome exn Z :=
  match Amount.decimalToMinorUnits value decimals with
  | Ret n => if n <? 0 then Throw (BadRequestException "threshold must not be negative") else Ret n
  | Throw err => Throw (BadRequestException (message err))
  end.

Definition parseTransactionParams `{!DateParser} (config : ComplianceConfig.ComplianceConfig)
    (principal : Principal.Principal) (query : RawExportQuery) : outcome exn TransactionParams :=
  and_then (parseFormat (q_format query)) (λ format,
  and_then (resolveTransactionSubject principal (q_subject query)) (λ subject,
  and_then (parse_threshold (default (ComplianceConfig.defaultThresholdDecimal config) (q_threshold query))
              (ComplianceConfig.assetDecimals config)) (λ thresholdMinorUnits,
  and_then (parseDate (q_since query) "since") (λ rangeStart,
  and_then (parseDate (q_until query) "until") (λ rangeEnd,
  Ret (mkTransactionParams format subject thresholdMinorUnits rangeStart rangeEnd)))))).

Definition parseInvestorParams (principal : Principal.Principal) (query : RawExportQuery)
    : outcome exn InvestorParams :=
  and_then (parseFormat (q_format query)) (λ format,
  and_then (resolveInvestorSubject principal (q_subject query)) (λ subject,
  Ret (mkInvestorParams format subject))).

(** *** Documents *)
Section documents.
Context {CR : Crypto} {ED : Ed25519}.
Variable config : ComplianceConfig.ComplianceConfig.

Definition fatf_json (r : Fatf.FatfRecord) : list (string * Json.json) :=
  [("transactionRef", Json.Str (Fatf.transactionRef r));
   ("invoiceOnchainId", Json.Str (Fatf.invoiceOnchainId r));
   ("transactionType", Json.Str (Fatf.type_name (Fatf.transactionType r)));
   ("transactionDate", Json.Str (Fatf.transactionDate r));
   ("ledgerSequence", from_option Json.Num Json.Null (Fatf.ledgerSequence r));
   ("invoiceStatus", Json.Str (Fatf.invoiceStatus r));
   ("originatorAccount", Json.Str (Fatf.originatorAccount r));
   ("originatorName", Json.nullable (Fatf.originatorName r));
   ("beneficiaryAccount", Json.Str (Fatf.beneficiaryAccount r));
   ("beneficiaryName", Json.nullable (Fatf.beneficiaryName r));
   ("amountMinorUnits", Json.Str (Fatf.amountMinorUnits r));
   ("amountDecimal", Json.Str (Fatf.amountDecimal r));
   ("assetCode", Json.Str (Fatf.assetCode r));
   ("kycStatus", Json.Str (Fatf.kycStatus r))]%string.

Definition position_json (p : InvestorReport.InvestorPosition) : list (string * Json.json) :=
  [("invoiceOnchainId", Json.Str (InvestorReport.p_invoiceOnchainId p));
   ("status", Json.Str (InvestorReport.p_status p));
   ("farmer", Json.Str (InvestorReport.p_farmer p));
   ("assetCode", Json.Str (InvestorReport.p_assetCode p));
   ("faceValueMinorUnits", Json.Str (InvestorReport.p_faceValueMinorUnits p));
   ("costBasisMinorUnits", Json.Str (InvestorReport.p_costBasisMinorUnits p));
   ("proceedsMinorUnits", Json.nullable (InvestorReport.p_proceedsMinorUnits p));
   ("realizedPnlMinorUnits", Json.nullable (InvestorReport.p_realizedPnlMinorUnits p));
   ("unrealizedValueMinorUnits", Json.nullable (InvestorReport.p_unrealizedValueMinorUnits p));
   ("fundedAt", Json.Str (InvestorReport.p_fundedAt p));
   ("settledAt", Json.nullable (InvestorReport.p_settledAt p))]%string.

Definition money_json (m : InvestorReport.Money) : Json.json :=
  Json.Obj [("minorUnits", Json.Str (InvestorReport.minorUnits m)); ("decimal", Json.Str (InvestorReport.decimal m))]%string.

Definition report_json (r : InvestorReport.InvestorReportDoc) : Json.json :=
  let s := InvestorReport.summary r in
  Json.Obj [("investor", Json.Str (InvestorReport.investor r)); ("assetCode", Json.Str (InvestorReport.assetCode r));
    ("positions", Json.Arr (map (λ p, Json.Obj (position_json p)) (InvestorReport.positions r)));
    ("summary", Json.Obj
      [("totalInvoices", Json.Num (InvestorReport.totalInvoices s)); ("fundedCount", Json.Num (InvestorReport.fundedCount s));
       ("repaidCount", Json.Num (InvestorReport.repaidCount s)); ("defaultedCount", Json.Num (InvestorReport.defaultedCount s));
       ("totalFaceValue", money_json (InvestorReport.totalFaceValue s)); ("totalCostBasis", money_json (InvestorReport.totalCostBasis s));
       ("realizedProceeds", money_json (InvestorReport.realizedProceeds s)); ("realizedPnl", money_json (InvestorReport.realizedPnl s));
       ("outstandingCostBasis", money_json (InvestorReport.outstandingCostBasis s));
       ("defaultedCostBasis", money_json (InvestorReport.defaultedCostBasis s));
       ("unrealizedValue", money_json (InvestorReport.unrealizedValue s))])]%string.

Definition asset_json : Json.json :=
  Json.Obj [("code", Json.Str (ComplianceConfig.assetCode config)); ("decimals", Json.Num (ComplianceConfig.assetDecimals config))]%string.

Definition fatf_records (params : TransactionParams) (invoices : list Invoice) : list Fatf.FatfRecord :=
  Fatf.buildFatfRecords invoices
    (Fatf.mkOptions (tp_threshold params) (ComplianceConfig.assetCode config) (Some (ComplianceConfig.assetDecimals config))
       (tp_rangeStart params) (tp_rangeEnd params)).

(** The JSON document of [buildTransactionsExport], generated at [now]. *)
Definition transactions_json (params : TransactionParams) (now : Z) (records : list Fatf.FatfRecord) : Json.json :=
  Json.Obj [("schemaVersion", Json.Str (ComplianceConfig.schemaVersion config));
    ("exportType", Json.Str (ExportType_name TRANSACTIONS)); ("generatedAt", Json.Str (toISOString now));
    ("asset", asset_json);
    ("threshold", Json.Obj [("minorUnits", Json.Str (Z_to_string (tp_threshold params)));
       ("decimal", Json.Str (Amount.minorUnitsToDecimal (tp_threshold params) (ComplianceConfig.assetDecimals config)))]);
    ("scope", Json.Obj [("subject", Json.nullable (tp_subject params));
       ("rangeStart", Json.nullable (toISOString <$> tp_rangeStart params));
       ("rangeEnd", Json.nullable (toISOString <$> tp_rangeEnd params))]);
    ("recordCount", Json.Num (Z.of_nat (length records)));
    ("records", Json.Arr (map (λ r, Json.Obj (fatf_json r)) records))]%string.

(** [content] and [contentType] of the two builders *)
Definition transactions_document (params : TransactionParams) (now : Z) (records : list Fatf.FatfRecord) : string * string :=
  match tp_format params with
  | CSV => (Csv.toCsv (λ r, Json.cell (fatf_json r)) Fatf.FATF_FIELDS records, "text/csv"%string)
  | JSON => (Json.stringify 0 (transactions_json params now records), "application/json"%string)
  end.

Definition investor_report (params : InvestorParams) (invoices : list Invoice) : InvestorReport.InvestorReportDoc :=
  InvestorReport.buildInvestorReport (ip_subject params) invoices
    (InvestorReport.mkReportOptions (ComplianceConfig.assetCode config) (Some (ComplianceConfig.assetDecimals config))).

Definition investor_document (params : InvestorParams) (now : Z) (report : InvestorReport.InvestorReportDoc) : string * string :=
  match ip_format params with
  | CSV => (Csv.toCsv (λ p, Json.cell (position_json p)) InvestorReport.INVESTOR_POSITION_FIELDS
              (InvestorReport.positions report), "text/csv"%string)
  | JSON => (Json.stringify 0 (Json.Obj
      [("schemaVersion", Json.Str (ComplianceConfig.schemaVersion config));
       ("exportType", Json.Str (ExportType_name INVESTOR_REPORT)); ("generatedAt", Json.Str (toISOString now));
       ("asset", asset_json); ("scope", Json.Obj [("subject", Json.Str (ip_subject params))]);
       ("report", report_json report)]), "application/json")%string
  end.

Definition finalize (keypair : Keypair) (content contentType : string) (recordCount : Z) (filename : string) : InlineExport :=
  {| filename := filename; contentType := contentType; content := content; recordCount := recordCount;
     byteLength := utf8_length content; integrity := Signing.signContent keypair content |}.
End documents.

(** *** The service *)
Section service.
Context {W : Type} `{!Prisma W} `{!Clock W} {CR : Crypto} {ED : Ed25519} `{!DateParser}.
Variable h : PrismaService.handle.
Variable config : ComplianceConfig.ComplianceConfig.
Variable keypair : Keypair.

Definition filenameFor (type : ExportType) (format : ExportFormat) (subject : option string) : M exn W string :=
  let ext := match format with CSV => "csv" | JSON => "json" end%string in
  let base := match type with TRANSACTIONS => "transactions-export" | INVESTOR_REPORT => "investor-report" end%string in
  let scope := (if truthy_opt subject then "-" +:+ default EmptyString subject else "-all")%string in
  now ← date_now;
  mret (base +:+ scope +:+ "-" +:+ slice_to 10 (toISOString now) +:+ "." +:+ ext)%string.

(** [new Date().toISOString()] is evaluated for JSON documents only. *)
Definition generated_at (format : ExportFormat) : M exn W Z :=
  match format with JSON => date_now | CSV => mret 0 end.

(** [where: params.subject ? { OR: [{ farmer }, { investor }] } : {}] *)
Definition party_to (subject : option string) (i : Invoice) : bool :=
  if truthy_opt subject
  then bool_decide (Some (inv_farmer i) = subject) || bool_decide (inv_investor i = subject)
  else true.

Definition buildTransactionsExport (params : TransactionParams) : M exn W InlineExport :=
  invoices ← PrismaService.via h PrismaService.m_invoice
    (find_many (party_to (tp_subject params)) inv_onchainId);
  let records := fatf_records config params invoices in
  now ← generated_at (tp_format params);
  let document := transactions_document config params now records in
  filename ← filenameFor TRANSACTIONS (tp_format params) (tp_subject params);
  mret (finalize keypair document.1 document.2 (Z.of_nat (length records)) filename).

Definition buildInvestorExport (params : InvestorParams) : M exn W InlineExport :=
  invoices ← PrismaService.via h PrismaService.m_invoice
    (find_many (λ i, bool_decide (inv_investor i = Some (ip_subject params))) inv_onchainId);
  let report := investor_report config params invoices in
  now ← generated_at (ip_format params);
  let document := investor_document config params now report in
  filename ← filenameFor INVESTOR_REPORT (ip_format params) (Some (ip_subject params));
  mret (finalize keypair document.1 document.2 (Z.of_nat (length (InvestorReport.positions report))) filename).

Definition exportTransactionsInline (principal : Principal.Principal) (query : RawExportQuery) : M exn W InlineExport :=
  params ← AccessGuard.of_outcome (parseTransactionParams config principal query);
  buildTransactionsExport params.

Definition exportInvestorReportInline (principal : Principal.Principal) (query : RawExportQuery) : M exn W InlineExport :=
  params ← AccessGuard.of_outcome (parseInvestorParams principal query);
  buildInvestorExport params.

(** [exportJob.create({ data })]; the other columns have their defaults. *)
Definition new_job (type : ExportType) (format : ExportFormat) (principal : Principal.Principal)
    (subject threshold : option string) (rangeStart rangeEnd : option Z) (g : gen) : ExportJob :=
  {| job_id := g_id g; job_type := type; job_format := format; job_status := J_PENDING;
     job_requestedBy := Principal.walletAddress principal; job_requesterRole := Principal.role principal;
     job_subject := subject; job_thresholdMinorUnits := threshold;
     job_rangeStart := rangeStart; job_rangeEnd := rangeEnd; job_recordCount := None; job_byteLength := None;
     job_sha256 := None; job_signature := None; job_signerPublicKey := None; job_content := None;
     job_contentType := None; job_error := None; job_createdAt := g_now g;
     job_startedAt := None; job_completedAt := None |}.

Definition toJobSummary (job : ExportJob) : JobSummary :=
  let completed := bool_decide (job_status job = J_COMPLETED) in
  {| js_id := job_id job; js_type := job_type job; js_format := job_format job; js_status := job_status job;
     js_requestedBy := job_requestedBy job; js_subject := job_subject job;
     js_recordCount := job_recordCount job; js_byteLength := job_byteLength job;
     js_contentType := job_contentType job;
     js_integrity := if completed && truthy_opt (job_sha256 job) && truthy_opt (job_signature job)
                        && truthy_opt (job_signerPublicKey job)
                     then Some (Signing.mkProof "sha256" (default EmptyString (job_sha256 job)) "ed25519"
                                  (default EmptyString (job_signature job))
                                  (default EmptyString (job_signerPublicKey job)))
                     else None;
     js_error := job_error job; js_createdAt := toISOString (job_createdAt job);
     js_startedAt := toISOString <$> job_startedAt job;
     js_completedAt := toISOString <$> job_completedAt job;
     js_downloadUrl := if completed
                       then Some ("/compliance/exports/jobs/" +:+ job_id job +:+ "/download")%string
                       else None |}.

(** The job is also handed to [setImmediate]: [processJob] runs later, detached. *)
Definition enqueueTransactionsExport (principal : Principal.Principal) (query : RawExportQuery) : M exn W JobSummary :=
  params ← AccessGuard.of_outcome (parseTransactionParams config principal query);
  job ← PrismaService.via h PrismaService.m_exportJob
    (create (new_job TRANSACTIONS (tp_format params) principal (tp_subject params)
       (Some (Amount.minorUnitsToDecimal (tp_threshold params) (ComplianceConfig.assetDecimals config)))
       (tp_rangeStart params) (tp_rangeEnd params)));
  mret (toJobSummary job).

Definition enqueueInvestorReportExport (principal : Principal.Principal) (query : RawExportQuery) : M exn W JobSummary :=
  params ← AccessGuard.of_outcome (parseInvestorParams principal query);
  job ← PrismaService.via h PrismaService.m_exportJob
    (create (new_job INVESTOR_REPORT (ip_format params) principal (Some (ip_subject params)) None None None));
  mret (toJobSummary job).

Definition job_not_found (jobId : string) : exn :=
  NotFoundException ("Export job " +:+ jobId +:+ " not found")%string.

Definition has_id (jobId : string) (j : ExportJob) : bool := String.eqb (job_id j) jobId.

Definition loadAuthorizedJob (principal : Principal.Principal) (jobId : string) : M exn W ExportJob :=
  job ← PrismaService.via h PrismaService.m_exportJob (find_unique (has_id jobId));
  match job with
  | None => throw (job_not_found jobId)
  | Some job =>
      if negb (Principal.isAdmin principal)
         && negb (String.eqb (job_requestedBy job) (Principal.walletAddress principal))
      then throw (job_not_found jobId)
      else mret job
  end.

Definition getJob (principal : Principal.Principal) (jobId : string) : M exn W JobSummary :=
  job ← loadAuthorizedJob principal jobId;
  mret (toJobSummary job).

Definition downloadJob (principal : Principal.Principal) (jobId : string) : M exn W InlineExport :=
  job ← loadAuthorizedJob principal jobId;
  if negb (bool_decide (job_status job = J_COMPLETED)) || negb (truthy_opt (job_content job))
  then throw (BadRequestException ("Export " +:+ jobId +:+ " is not ready (status: "
                +:+ ExportJobStatus_name (job_status job) +:+ ")")%string)
  else
    let content := default EmptyString (job_content job) in
    filename ← filenameFor (job_type job) (job_format job) (job_subject job);
    mret {| filename := filename;
            contentType := default "application/octet-stream"%string (job_contentType job);
            content := content; recordCount := default 0 (job_recordCount job);
            byteLength := default (utf8_length content) (job_byteLength job);
            integrity := Signing.mkProof "sha256" (default EmptyString (job_sha256 job)) "ed25519"
              (default EmptyString (job_signature job)) (default EmptyString (job_signerPublicKey job)) |}.

(** The [data] of the three updates of [processJob]. *)
Definition start_job (now : Z) (j : ExportJob) : ExportJob :=
  {| job_id := job_id j; job_type := job_type j; job_format := job_format j; job_status := J_PROCESSING;
     job_requestedBy := job_requestedBy j; job_requesterRole := job_requesterRole j; job_subject := job_subject j;
     job_thresholdMinorUnits := job_thresholdMinorUnits j; job_rangeStart := job_rangeStart j;
     job_rangeEnd := job_rangeEnd j; job_recordCount := job_recordCount j; job_byteLength := job_byteLength j;
     job_sha256 := job_sha256 j; job_signature := job_signature j; job_signerPublicKey := job_signerPublicKey j;
     job_content := job_content j; job_contentType := job_contentType j; job_error := job_error j;
     job_createdAt := job_createdAt j; job_startedAt := Some now; job_completedAt := job_completedAt j |}.

Definition complete_job (now : Z) (built : InlineExport) (j : ExportJob) : ExportJob :=
  {| job_id := job_id j; job_type := job_type j; job_format := job_format j; job_status := J_COMPLETED;
     job_requestedBy := job_requestedBy j; job_requesterRole := job_requesterRole j; job_subject := job_subject j;
     job_thresholdMinorUnits := job_thresholdMinorUnits j; job_rangeStart := job_rangeStart j;
     job_rangeEnd := job_rangeEnd j; job_recordCount := Some (recordCount built);
     job_byteLength := Some (byteLength built); job_sha256 := Some (Signing.sha256 (integrity built));
     job_signature := Some (Signing.signature (integrity built));
     job_signerPublicKey := Some (Signing.signerPublicKey (integrity built));
     job_content := Some (content built); job_contentType := Some (contentType built); job_error := job_error j;
     job_createdAt := job_createdAt j; job_startedAt := job_startedAt j; job_completedAt := Some now |}.

Definition fail_job (now : Z) (error : string) (j : ExportJob) : ExportJob :=
  {| job_id := job_id j; job_type := job_type j; job_format := job_format j; job_status := J_FAILED;
     job_requestedBy := job_requestedBy j; job_requesterRole := job_requesterRole j; job_subject := job_subject j;
     job_thresholdMinorUnits := job_thresholdMinorUnits j; job_rangeStart := job_rangeStart j;
     job_rangeEnd := job_rangeEnd j; job_recordCount := job_recordCount j; job_byteLength := job_byteLength j;
     job_sha256 := job_sha256 j; job_signature := job_signature j; job_signerPublicKey := job_signerPublicKey j;
     job_content := job_content j; job_contentType := job_contentType j; job_error := Some error;
     job_createdAt := job_createdAt j; job_startedAt := job_startedAt j; job_completedAt := Some now |}.

(** The parameters that the job was enqueued with. *)
Definition job_threshold (job : ExportJob) : outcome exn Z :=
  if truthy_opt (job_thresholdMinorUnits job)
  then Amount.decimalToMinorUnits (default EmptyString (job_thresholdMinorUnits job)) (ComplianceConfig.assetDecimals config)
  else Ret 0.

Definition build_job (job : ExportJob) : M exn W InlineExport :=
  match job_type job with
  | TRANSACTIONS =>
      threshold ← AccessGuard.of_outcome (job_threshold job);
      buildTransactionsExport (mkTransactionParams (job_format job) (job_subject job) threshold
                                 (job_rangeStart job) (job_rangeEnd job))
  | INVESTOR_REPORT =>
      buildInvestorExport (mkInvestorParams (job_format job) (default EmptyString (job_subject job)))
  end.

Definition processJob (jobId : string) : M exn W unit :=
  job ← PrismaService.via h PrismaService.m_exportJob (find_unique (has_id jobId));
  match job with
  | None => mret tt
  | Some job =>
      if negb (bool_decide (job_status job = J_PENDING)) then mret tt
      else
        started ← date_now;
        _ ← PrismaService.via h PrismaService.m_exportJob (update (has_id jobId) (λ _, start_job started));
        try_catch
          (built ← build_job job;
           finished ← date_now;
           _ ← PrismaService.via h PrismaService.m_exportJob (update (has_id jobId) (λ _, complete_job finished built));
           mret tt)
          (λ err,
           failed ← date_now;
           _ ← PrismaService.via h PrismaService.m_exportJob (update (has_id jobId) (λ _, fail_job failed (message err)));
           mret tt)
  end.

(** *** Lemmas *)
Context `{!PrismaLaws W} `{!ClockLaws W} `{!Ed25519Laws}.

(** What the signature and the digest of an export promise its reader. *)
Definition verifiable (e : InlineExport) : Prop :=
  byteLength e = utf8_length (content e) ∧
  Signing.signerPublicKey (integrity e) = Keypair_publicKey keypair ∧
  Signing.verifyContent (Signing.signerPublicKey (integrity e)) (content e)
    (Signing.sha256 (integrity e)) (Signing.signature (integrity e)) = true.

Lemma finalize_verifiable (c t f : string) (n : Z) : verifiable (finalize keypair c t n f).
Proof. repeat split. apply Signing.verify_signContent. Qed.

Lemma wp_filenameFor (type : ExportType) (format : ExportFormat) (subject : option string)
    (Φ : outcome exn string → W → Prop) (w : W) :
  (∀ f w', commits w w' (tables w) → Φ (Ret f) w') → wp (filenameFor type format subject) Φ w.
Proof. intros Hk. unfold filenameFor. wp_step. wp_op. wp_step. by apply Hk. Qed.

Lemma wp_generated_at (format : ExportFormat) (Φ : outcome exn Z → W → Prop) (w : W) :
  (∀ t w', commits w w' (tables w) → Φ (Ret t) w') → wp (generated_at format) Φ w.
Proof.
  intros Hk. destruct format; cbn.
  - wp_op. by apply Hk.
  - apply wp_ret, Hk. by split.
Qed.

Lemma commits_trans (w0 w1 w2 : W) (d : db) :
  commits w0 w1 (tables w0) → commits w1 w2 d → commits w0 w2 d.
Proof. intros [? ?] [? ?]. split; auto. Qed.

Lemma wp_buildTransactionsExport (params : TransactionParams) (Φ : outcome exn InlineExport → W → Prop) (w : W) :
  PrismaService.m_invoice ∈ h →
  (∀ l now f w', commits w w' (tables w) →
     l ≡ₚ List.filter (party_to (tp_subject params)) (rows (tables w)) → Sorted (key_le inv_onchainId) l →
     let records := fatf_records config params l in
     let document := transactions_document config params now records in
     Φ (Ret (finalize keypair document.1 document.2 (Z.of_nat (length records)) f)) w') →
  (∀ e w', refuses w w' False → Φ (Throw e) w') → wp (buildTransactionsExport params) Φ w.
Proof.
  intros Hh Hok Hno. unfold buildTransactionsExport. wp_step. rewrite PrismaService.via_in by done.
  wp_op; [|by apply Hno]. cbv zeta. wp_step. apply wp_generated_at. intros. cbv zeta. wp_step.
  apply wp_filenameFor. intros. wp_step. eapply Hok; [|done..].
  destruct_and?; repeat match goal with H : commits _ _ _ |- _ => destruct H end. split; [congruence|auto].
Qed.

Lemma wp_buildInvestorExport (params : InvestorParams) (Φ : outcome exn InlineExport → W → Prop) (w : W) :
  PrismaService.m_invoice ∈ h →
  (∀ l now f w', commits w w' (tables w) →
     l ≡ₚ List.filter (λ i, bool_decide (inv_investor i = Some (ip_subject params))) (rows (tables w)) →
     Sorted (key_le inv_onchainId) l →
     let report := investor_report config params l in
     let document := investor_document config params now report in
     Φ (Ret (finalize keypair document.1 document.2 (Z.of_nat (length (InvestorReport.positions report))) f)) w') →
  (∀ e w', refuses w w' False → Φ (Throw e) w') → wp (buildInvestorExport params) Φ w.
Proof.
  intros Hh Hok Hno. unfold buildInvestorExport. wp_step. rewrite PrismaService.via_in by done.
  wp_op; [|by apply Hno]. cbv zeta. wp_step. apply wp_generated_at. intros. cbv zeta. wp_step.
  apply wp_filenameFor. intros. wp_step. eapply Hok; [|done..].
  destruct_and?; repeat match goal with H : commits _ _ _ |- _ => destruct H end. split; [congruence|auto].
Qed.

(** Every request error is a 400 or a 403. *)
Definition client_error (e : exn) : Prop := ∃ msg, e = BadRequestException msg ∨ e = ForbiddenException msg.

Lemma client_error_bad_request (msg : string) : client_error (BadRequestException msg).
Proof. by exists msg; left. Qed.

Lemma client_error_forbidden (msg : string) : client_error (ForbiddenException msg).
Proof. by exists msg; right. Qed.

Definition throws_only {A : Type} (P : exn → Prop) (o : outcome exn A) : Prop :=
  match o with Ret _ => True | Throw e => P e end.

Lemma throws_only_and_then {A B : Type} (P : exn → Prop) (o : outcome exn A) (f : A → outcome exn B) :
  throws_only P o → (∀ a, throws_only P (f a)) → throws_only P (and_then o f).
Proof. intros Ho Hf. destruct o; cbn; auto. Qed.

Lemma parseFormat_throws (raw : option string) : throws_only client_error (parseFormat raw).
Proof. unfold parseFormat. repeat case_match; cbn; auto using client_error_bad_request. Qed.

Lemma parseDate_throws (raw : option string) (field : string) : throws_only client_error (parseDate raw field).
Proof. unfold parseDate. repeat case_match; cbn; auto using client_error_bad_request. Qed.

Lemma parse_threshold_throws (value : string) (d : Z) : throws_only client_error (parse_threshold value d).
Proof. unfold parse_threshold. repeat case_match; cbn; auto using client_error_bad_request. Qed.

Lemma resolveTransactionSubject_throws (p : Principal.Principal) (r : option string) :
  throws_only client_error (resolveTransactionSubject p r).
Proof. unfold resolveTransactionSubject. repeat case_match; cbn; auto using client_error_forbidden. Qed.

Lemma resolveInvestorSubject_throws (p : Principal.Principal) (r : option string) :
  throws_only client_error (resolveInvestorSubject p r).
Proof.
  unfold resolveInvestorSubject. repeat case_match; cbn; auto using client_error_forbidden, client_error_bad_request.
Qed.

Lemma parseTransactionParams_throws (p : Principal.Principal) (q : RawExportQuery) :
  throws_only client_error (parseTransactionParams config p q).
Proof.
  repeat (apply throws_only_and_then; [|intros ?]); auto using parseFormat_throws, parseDate_throws,
    parse_threshold_throws, resolveTransactionSubject_throws; done.
Qed.

Lemma parseInvestorParams_throws (p : Principal.Principal) (q : RawExportQuery) :
  throws_only client_error (parseInvestorParams p q).
Proof.
  repeat (apply throws_only_and_then; [|intros ?]); auto using parseFormat_throws, resolveInvestorSubject_throws; done.
Qed.

(** A caller who is not an administrator is pinned to the own wallet. *)
Lemma parseTransactionParams_scope (p : Principal.Principal) (q : RawExportQuery) (params : TransactionParams) :
  Principal.isAdmin p = false → parseTransactionParams config p q = Ret params →
  tp_subject params = Some (Principal.walletAddress p) ∧
  (truthy_opt (q_subject q) = true → q_subject q = Some (Principal.walletAddress p)).
Proof.
  intros Ha. unfold parseTransactionParams, and_then, resolveTransactionSubject. rewrite Ha.
  intros Hp. repeat case_match; simplify_eq; cbn. bool_to_prop. split; [done|]. intros Ht. by destruct_or?; bool_to_prop; [congruence|].
Qed.

Lemma parseInvestorParams_scope (p : Principal.Principal) (q : RawExportQuery) (params : InvestorParams) :
  Principal.isAdmin p = false → parseInvestorParams p q = Ret params →
  ip_subject params = Principal.walletAddress p ∧
  (truthy_opt (q_subject q) = true → q_subject q = Some (Principal.walletAddress p)).
Proof.
  intros Ha. unfold parseInvestorParams, and_then, resolveInvestorSubject. rewrite Ha.
  intros Hp. repeat case_match; simplify_eq; cbn. bool_to_prop. split; [done|]. intros Ht. by destruct_or?; bool_to_prop; [congruence|].
Qed.

(** The parties of a record are the two parties of an invoice that has an investor. *)
Lemma fatf_records_parties (params : TransactionParams) (l : list Invoice) (r : Fatf.FatfRecord) :
  r ∈ fatf_records config params l → ∃ i investor, i ∈ l ∧ inv_investor i = Some investor ∧
    ((Fatf.originatorAccount r = investor ∧ Fatf.beneficiaryAccount r = inv_farmer i) ∨
     (Fatf.originatorAccount r = inv_farmer i ∧ Fatf.beneficiaryAccount r = investor)).
Proof.
  unfold fatf_records, Fatf.buildFatfRecords. rewrite list_elem_of_In, in_flat_map. intros (i & Hi & Hr).
  exists i. unfold Fatf.records_of in Hr. destruct (inv_investor i) as [investor|]; [|done]. exists investor.
  split; [by apply list_elem_of_In|]. split; [done|]. destruct (truthy_opt _); [|done]. cbn [negb] in Hr.
  apply in_app_iff in Hr as [Hr|Hr]; repeat case_match; cbn in Hr; destruct_or?; subst; cbn; auto; done.
Qed.

(** C31: an export that is returned to the caller can be checked by anyone: its length is that of
    its UTF-8 text, the SHA-256 digest is that of the text and the Ed25519 signature is valid
    for the server's key.  Exports change nothing in the database, and while the database is
    reachable they fail only with a 400 or a 403. *)
Theorem exports_verifiable (principal : Principal.Principal) (query : RawExportQuery) (w : W)
    (Hinvoice : PrismaService.m_invoice ∈ h) :
  let checked (r : outcome exn InlineExport) w' :=
    tables w' = tables w ∧
    match r with Ret e => verifiable e | Throw err => up w → client_error err end in
  wp (exportTransactionsInline principal query) checked w ∧
  wp (exportInvestorReportInline principal query) checked w.
Proof.
  intros checked. split; [unfold exportTransactionsInline|unfold exportInvestorReportInline]; apply wp_bind.
  - pose proof (parseTransactionParams_throws principal query) as Ht.
    destruct (parseTransactionParams _ _ _) as [params|e]; cbn [AccessGuard.of_outcome]; [apply wp_ret|by apply wp_throw].
    apply wp_buildTransactionsExport; [done|..]; intros; wp_tables; (split; [done|]).
    + apply finalize_verifiable.
    + intros Hup. exfalso. naive_solver.
  - pose proof (parseInvestorParams_throws principal query) as Ht.
    destruct (parseInvestorParams _ _) as [params|e]; cbn [AccessGuard.of_outcome]; [apply wp_ret|by apply wp_throw].
    apply wp_buildInvestorExport; [done|..]; intros; wp_tables; (split; [done|]).
    + apply finalize_verifiable.
    + intros Hup. exfalso. naive_solver.
Qed.

(** C23: a caller who is not an administrator only ever receives documents about the own wallet:
    a transactions export renders exactly the records of the invoices where the wallet is the
    farmer or the investor, and each record has the wallet as originator or beneficiary; an
    investor report is the report on that wallet; and naming another subject is refused. *)
Theorem export_scope (principal : Principal.Principal) (query : RawExportQuery) (w : W)
    (Hinvoice : PrismaService.m_invoice ∈ h) (Hrole : Principal.isAdmin principal = false)
    (Hwallet : truthy (Principal.walletAddress principal) = true) :
  let wallet := Principal.walletAddress principal in
  let own := truthy_opt (q_subject query) = true → q_subject query = Some wallet in
  wp (exportTransactionsInline principal query) (λ r _,
    match r with
    | Throw _ => True
    | Ret e => own ∧ ∃ params l now,
        l ≡ₚ List.filter (λ i, bool_decide (inv_farmer i = wallet) || bool_decide (inv_investor i = Some wallet))
               (rows (tables w)) ∧
        (content e, contentType e) = transactions_document config params now (fatf_records config params l) ∧
        ∀ x, x ∈ fatf_records config params l → Fatf.originatorAccount x = wallet ∨ Fatf.beneficiaryAccount x = wallet
    end) w ∧
  wp (exportInvestorReportInline principal query) (λ r _,
    match r with
    | Throw _ => True
    | Ret e => own ∧ ∃ params l now, ip_subject params = wallet ∧
        l ≡ₚ List.filter (λ i, bool_decide (inv_investor i = Some wallet)) (rows (tables w)) ∧
        (content e, contentType e) = investor_document config params now (investor_report config params l)
    end) w.
Proof.
  intros wallet own. split; [unfold exportTransactionsInline|unfold exportInvestorReportInline]; apply wp_bind.
  - destruct (parseTransactionParams _ _ _) as [params|e] eqn:Hp; cbn [AccessGuard.of_outcome]; [apply wp_ret|by apply wp_throw].
    apply parseTransactionParams_scope in Hp as [Hs Hown]; [|done].
    apply wp_buildTransactionsExport; [done|intros l now f w' _ Hl _ records document|done]. split; [done|].
    assert (l ≡ₚ List.filter (λ i, bool_decide (inv_farmer i = wallet) || bool_decide (inv_investor i = Some wallet))
              (rows (tables w))) as Hl'.
    { rewrite Hl, Hs. erewrite List.filter_ext; [done|]. intros i. unfold party_to. cbn. rewrite Hwallet. f_equal.
      apply bool_decide_ext. split; [by intros [=]|by intros ->]. }
    exists params, l, now. split; [done|]. split; [symmetry; apply surjective_pairing|].
    intros x (i & investor & Hi & Hinv & Hparties)%fatf_records_parties. rewrite Hl', list_elem_of_In, filter_In in Hi.
    destruct Hi as [_ Hi]. apply orb_true_iff in Hi. rewrite !bool_decide_eq_true in Hi. naive_solver congruence.
  - destruct (parseInvestorParams _ _) as [params|e] eqn:Hp; cbn [AccessGuard.of_outcome]; [apply wp_ret|by apply wp_throw].
    apply parseInvestorParams_scope in Hp as [Hs Hown]; [|done].
    apply wp_buildInvestorExport; [done|intros l now f w' _ Hl _ report document|done]. split; [done|].
    exists params, l, now. rewrite Hs in Hl. split; [done|]. split; [done|]. symmetry; apply surjective_pairing.
Qed.

(** The document that a job asks for, over the invoices of the database [d]. *)
Definition built_for (job : ExportJob) (d : db) (e : InlineExport) : Prop :=
  ∃ l now f, Sorted (key_le inv_onchainId) l ∧
  match job_type job with
  | TRANSACTIONS => ∃ threshold, job_threshold job = Ret threshold ∧
      let params := mkTransactionParams (job_format job) (job_subject job) threshold (job_rangeStart job) (job_rangeEnd job) in
      let records := fatf_records config params l in
      let document := transactions_document config params now records in
      l ≡ₚ List.filter (party_to (job_subject job)) (rows d) ∧
      e = finalize keypair document.1 document.2 (Z.of_nat (length records)) f
  | INVESTOR_REPORT =>
      let params := mkInvestorParams (job_format job) (default EmptyString (job_subject job)) in
      let report := investor_report config params l in
      let document := investor_document config params now report in
      l ≡ₚ List.filter (λ i, bool_decide (inv_investor i = Some (ip_subject params))) (rows d) ∧
      e = finalize keypair document.1 document.2 (Z.of_nat (length (InvestorReport.positions report))) f
  end.

Lemma toCsv_truthy {Row : Type} (get : Row → string → option string) (f : string) (fields : list string) (rows : list Row) :
  truthy f = true → truthy (Csv.toCsv get (f :: fields) rows) = true.
Proof.
  intros Hf. assert (∀ l : list ascii, l ≠ [] → truthy (of_list l) = true) as Hne by (by intros [|]).
  assert (∀ sep x l, x ≠ [] → Csv.join_list sep (x :: l) ≠ []) as Hj by (by intros ? [|] [|]).
  apply Hne, Hj. unfold Csv.csv_line. cbn [map]. apply Hj. unfold Csv.escapeField.
  destruct f as [|c f]; [done|]. cbn [to_list]. by destruct (Csv.needs_quotes _).
Qed.

Lemma built_for_ok (job : ExportJob) (d : db) (e : InlineExport) :
  built_for job d e → verifiable e ∧ truthy (content e) = true.
Proof.
  intros (l & now & f & _ & H3). destruct (job_type job).
  - destruct H3 as (t & _ & _ & ->). split; [apply finalize_verifiable|]. cbn [finalize content].
    unfold transactions_document. cbn [tp_format]. destruct (job_format job); [done|]. by apply toCsv_truthy.
  - destruct H3 as (_ & ->). split; [apply finalize_verifiable|]. cbn [finalize content].
    unfold investor_document. cbn [ip_format]. destruct (job_format job); [done|]. by apply toCsv_truthy.
Qed.

(** Building the document of a job fails, with the database up, only for a malformed threshold. *)
Lemma wp_build_job (job : ExportJob) (Φ : outcome exn InlineExport → W → Prop) (w : W) :
  PrismaService.m_invoice ∈ h →
  (∀ e w', commits w w' (tables w) → built_for job (tables w) e → Φ (Ret e) w') →
  (∀ e w', refuses w w' (job_type job = TRANSACTIONS ∧ job_threshold job = Throw e) → Φ (Throw e) w') →
  wp (build_job job) Φ w.
Proof.
  intros Hh Hok Hno. unfold build_job. destruct (job_type job) eqn:Ht.
  - apply wp_bind. destruct (job_threshold job) as [t|e] eqn:Hj; cbn [AccessGuard.of_outcome].
    + apply wp_ret, wp_buildTransactionsExport; [done|..].
      * intros l now f w' Hc Hl Hs records document. apply Hok; [done|]. exists l, now, f. rewrite Ht. eauto.
      * intros e w' [? Hr]. apply Hno. split; [done|]. intros Hup. by destruct (Hr Hup).
    + apply wp_throw, Hno. by split.
  - apply wp_buildInvestorExport; [done|..].
    + intros l now f w' Hc Hl Hs records document. apply Hok; [done|]. exists l, now, f. rewrite Ht. eauto.
    + intros e w' [? Hr]. apply Hno. split; [done|]. intros Hup. by destruct (Hr Hup).
Qed.

(** The rows with an identifier are overwritten with the final state of the job. *)
Definition job_done (jobId : string) (f : ExportJob → ExportJob) (d : db) : db :=
  set_rows (map_if (has_id jobId) f (rows d)) d.

Lemma map_if_map_if {R : Type} (p : R → bool) (f g : R → R) (l : list R) :
  (∀ r, p r = true → p (f r) = true) → map_if p g (map_if p f l) = map_if p (λ r, g (f r)) l.
Proof.
  intros Hp. unfold map_if. rewrite map_map. apply map_ext. intros r. destruct (p r) eqn:E; [by rewrite (Hp r E)|by rewrite E].
Qed.

Lemma job_done_done (jobId : string) (f g : ExportJob → ExportJob) (d : db) :
  (∀ j, job_id (f j) = job_id j) → job_done jobId g (job_done jobId f d) = job_done jobId (λ j, g (f j)) d.
Proof.
  intros Hf. unfold job_done. rewrite rows_set_rows, set_rows_set_rows, map_if_map_if; [done|].
  intros r. unfold has_id. by rewrite Hf.
Qed.

(** An update of the job by a function that keeps its identifier. *)
Lemma wp_update_job (jobId : string) (f : ExportJob → ExportJob) (Φ : outcome exn ExportJob → W → Prop) (w : W) :
  (∀ j, job_id (f j) = job_id j) →
  (∀ r w', commits w w' (job_done jobId f (tables w)) → Φ (Ret r) w') →
  (∀ e w', refuses w w' (existsb (has_id jobId) (rows (tables w)) = false) → Φ (Throw e) w') →
  wp (update (has_id jobId) (λ _, f)) Φ w.
Proof.
  intros Hf Hok Hno. apply wp_update; intros.
  - by apply Hok.
  - apply Hno. unfold refuses in *. destruct_and?. split; [done|]. intros Hup.
    match goal with H : up w → _ |- _ => destruct (H Hup) as [[?|(g & r & _ & Hk)] ?] end; [done|].
    unfold same_keys in Hk. cbn in Hk. by rewrite Hf, String.eqb_refl in Hk.
Qed.

Lemma existsb_has_id (jobId : string) (f : ExportJob → ExportJob) (d : db) (j : ExportJob) :
  (∀ j, job_id (f j) = job_id j) → j ∈ rows d → has_id jobId j = true →
  existsb (has_id jobId) (rows (job_done jobId f d)) = true.
Proof.
  intros Hf Hj Hid. apply existsb_exists. exists (f j). unfold job_done. rewrite rows_set_rows.
  split; [|unfold has_id in *; by rewrite Hf]. unfold map_if. apply in_map_iff. exists j. rewrite Hid.
  split; [done|by apply list_elem_of_In].
Qed.

(** The part of [processJob] after the job has been marked as PROCESSING. *)
Definition run_job (jobId : string) (job : ExportJob) : M exn W unit :=
  try_catch
    (built ← build_job job;
     finished ← date_now;
     _ ← PrismaService.via h PrismaService.m_exportJob (update (has_id jobId) (λ _, complete_job finished built));
     mret tt)
    (λ err,
     failed ← date_now;
     _ ← PrismaService.via h PrismaService.m_exportJob (update (has_id jobId) (λ _, fail_job failed (message err)));
     mret tt).

Lemma wp_run_job (jobId : string) (job : ExportJob) (w : W) :
  PrismaService.m_invoice ∈ h → PrismaService.m_exportJob ∈ h → up w →
  existsb (has_id jobId) (rows (tables w)) = true →
  wp (run_job jobId job) (λ r w', r = Ret tt ∧ up w' ∧ ∃ finished,
    (∃ built, built_for job (tables w) built ∧
       tables w' = job_done jobId (complete_job finished built) (tables w)) ∨
    (∃ err, job_type job = TRANSACTIONS ∧ job_threshold job = Throw err ∧
       tables w' = job_done jobId (fail_job finished (message err)) (tables w))) w.
Proof.
  intros Hi Hj Hup Hex. unfold run_job. apply wp_try, wp_bind, wp_build_job; [done|..].
  - intros built w1 [H1 H1up] Hb. wp_step. wp_op. wp_step. rewrite PrismaService.via_in by done.
    destruct H2 as [H2 H2up]. apply wp_update_job; [done|..].
    + intros r w3 [H3 H3up]. wp_step. split; [done|]. split; [auto|]. exists t. left. exists built.
      split; [done|]. by rewrite H3, H2, H1.
    + intros e w3 [_ Hr]. destruct (Hr ltac:(auto)) as [Hn _]. by rewrite H2, H1, Hex in Hn.
  - intros e w1 [H1 Hr]. destruct (Hr Hup) as [[Ht He] H1up]. wp_step. wp_op. wp_step.
    destruct H2 as [H2 H2up]. rewrite PrismaService.via_in by done. apply wp_update_job; [done|..].
    + intros r w3 [H3 H3up]. wp_step. split; [done|]. split; [auto|]. exists t. right. exists e.
      split; [done|]. split; [done|]. by rewrite H3, H2, H1.
    + intros e' w3 [_ Hr']. destruct (Hr' ltac:(auto)) as [Hn _]. by rewrite H2, H1, Hex in Hn.
Qed.


Definition may_see (principal : Principal.Principal) (j : ExportJob) : bool :=
  Principal.isAdmin principal || String.eqb (job_requestedBy j) (Principal.walletAddress principal).

Lemma wp_loadAuthorizedJob (principal : Principal.Principal) (jobId : string)
    (Φ : outcome exn ExportJob → W → Prop) (w : W) :
  PrismaService.m_exportJob ∈ h → up w →
  (∀ j w', commits w w' (tables w) → j ∈ rows (tables w) → job_id j = jobId → may_see principal j = true →
     Φ (Ret j) w') →
  (∀ w', commits w w' (tables w) →
     (existsb (has_id jobId) (rows (tables w)) = false ∨
      ∃ j, j ∈ rows (tables w) ∧ job_id j = jobId ∧ may_see principal j = false) →
     Φ (Throw (job_not_found jobId)) w') →
  wp (loadAuthorizedJob principal jobId) Φ w.
Proof.
  intros Hh Hup Hok Hno. unfold loadAuthorizedJob. wp_step. rewrite PrismaService.via_in by done. apply wp_find_unique.
  - intros j w1 Hc Hin Hid. assert (job_id j = jobId) by by apply String.eqb_eq. cbn.
    rewrite <- negb_orb. fold (may_see principal j). destruct (may_see principal j) eqn:Hs; cbn [negb].
    + apply wp_ret. by apply Hok.
    + apply wp_throw, Hno; [done|]. right. by exists j.
  - intros w1 Hc Hn. apply wp_throw, Hno; [done|by left].
  - intros e w1 [_ Hr]. by destruct (Hr Hup).
Qed.

(** The download of a finished job is the stored document: same text, type and count, with a
    digest and signature that verify; only the wallet that requested it and administrators
    get it, and to everybody else the job looks exactly like one that does not exist. *)
Theorem download_access (principal : Principal.Principal) (jobId : string) (job : ExportJob) (w : W)
    (Hjob : PrismaService.m_exportJob ∈ h) (Hup : up w)
    (Hunique : ∀ j, j ∈ rows (tables w) → job_id j = jobId → j = job) :
  if may_see principal job then
    ∀ built finished j0, job ∈ rows (tables w) → job_id job = jobId →
      verifiable built → truthy (content built) = true → job = complete_job finished built j0 →
      wp (downloadJob principal jobId) (λ r w', tables w' = tables w ∧ ∃ e, r = Ret e ∧
        content e = content built ∧ contentType e = contentType built ∧ recordCount e = recordCount built ∧
        verifiable e) w
  else
    wp (downloadJob principal jobId) (λ r w', tables w' = tables w ∧ r = Throw (job_not_found jobId)) w ∧
    wp (getJob principal jobId) (λ r w', tables w' = tables w ∧ r = Throw (job_not_found jobId)) w.
Proof.
  destruct (may_see principal job) eqn:Hs.
  - intros built finished j0 Hin Hid (Hlen & Hkey & Hver) Htext Hj. unfold downloadJob. apply wp_bind.
    apply wp_loadAuthorizedJob; [done|done|..].
    + intros j w1 [H1 _] Hinj Hidj _. rewrite (Hunique j Hinj Hidj), Hj. cbn. rewrite bool_decide_true, Htext by done.
      cbn. wp_step. apply wp_filenameFor. intros f w2 [H2 _]. wp_step. split; [congruence|]. eexists. split; [done|].
      by repeat split.
    + intros w1 _ [Hn|(j & Hinj & Hidj & Hno)].
      * rewrite existsb_false_forall in Hn. specialize (Hn job Hin). unfold has_id in Hn.
        by rewrite Hid, String.eqb_refl in Hn.
      * rewrite (Hunique j Hinj Hidj) in Hno. congruence.
  - split; [unfold downloadJob|unfold getJob]; apply wp_bind; apply wp_loadAuthorizedJob; try done.
    + intros j w1 _ Hin Hid Hm. rewrite (Hunique j Hin Hid) in Hm. congruence.
    + by intros w1 [? _].
    + intros j w1 _ Hin Hid Hm. rewrite (Hunique j Hin Hid) in Hm. congruence.
    + by intros w1 [? _].
Qed.

(** The handle that [PrismaService] provides has no [exportJob]: every job operation fails. *)
Lemma jobs_injected (principal : Principal.Principal) (jobId : string) (w : W) :
  PrismaService.m_exportJob ∉ h →
  ∃ msg, processJob jobId w = (Throw (TypeError msg), w) ∧
    (getJob principal jobId w = (Throw (TypeError msg), w)) ∧
    (downloadJob principal jobId w = (Throw (TypeError msg), w)).
Proof.
  intros Hh. eexists. unfold processJob, getJob, downloadJob, loadAuthorizedJob, PrismaService.via.
  rewrite bool_decide_false by done. done.
Qed.
End service.

(** The injected handle is such a handle: polling, downloading and processing jobs all throw. *)
Lemma jobs_injected_surface {W : Type} `{!Prisma W} `{!Clock W} {CR : Crypto} {ED : Ed25519}
    (config : ComplianceConfig.ComplianceConfig) (keypair : Keypair)
    (principal : Principal.Principal) (jobId : string) (w : W) :
  ∃ msg, processJob PrismaService.surface config keypair jobId w = (Throw (TypeError msg), w) ∧
    (getJob PrismaService.surface principal jobId w = (Throw (TypeError msg), w)) ∧
    (downloadJob PrismaService.surface principal jobId w = (Throw (TypeError msg), w)).
Proof. apply jobs_injected. apply (bool_decide_unpack _). vm_compute. exact I. Qed.
End ComplianceService.

(** ** [compliance.controller.ts] *)
Module ComplianceController.
Import ComplianceService.

(** The response that a handler leaves: the status, the headers in order, and the body (the text
    that was sent, or the object that Nest serializes). *)
Record Response := mkResponse {
  status : Z;
  headers : list (string * string);
  body : string + JobSummary }.

Definition isAsync (query : RawExportQuery) : bool :=
  String.eqb (toLowerCase (default "undefined"%string (q_async query))) "true".

Definition sendInline (result : InlineExport) : Response :=
  mkResponse 200
    [("Content-Type", contentType result);
     ("Content-Disposition", "attachment; filename=" +:+ str1 quote +:+ filename result +:+ str1 quote);
     ("X-Export-Digest-Algorithm", Signing.digestAlgorithm (integrity result));
     ("X-Export-Sha256", Signing.sha256 (integrity result));
     ("X-Export-Signature-Algorithm", Signing.signatureAlgorithm (integrity result));
     ("X-Export-Signature", Signing.signature (integrity result));
     ("X-Export-Signer", Signing.signerPublicKey (integrity result))]%string
    (inl (content result)).

Definition accepted (job : JobSummary) : Response :=
  mkResponse 202 [("Location", "/compliance/exports/jobs/" +:+ js_id job)]%string (inr job).

Section controller.
Context {W : Type} `{!Prisma W} `{!Clock W} {CR : Crypto} {ED : Ed25519} `{!DateParser}.
Variable h : PrismaService.handle.
Variable config : ComplianceConfig.ComplianceConfig.
Variable keypair : Keypair.

Definition transactions (principal : Principal.Principal) (query : RawExportQuery) : M exn W Response :=
  if isAsync query then
    job ← enqueueTransactionsExport h config principal query;
    mret (accepted job)
  else
    result ← exportTransactionsInline h config keypair principal query;
    mret (sendInline result).

Definition investorReport (principal : Principal.Principal) (query : RawExportQuery) : M exn W Response :=
  if isAsync query then
    job ← enqueueInvestorReportExport h principal query;
    mret (accepted job)
  else
    result ← exportInvestorReportInline h config keypair principal query;
    mret (sendInline result).

Definition getJob (principal : Principal.Principal) (id : string) : M exn W Response :=
  job ← ComplianceService.getJob h principal id;
  mret (mkResponse 200 [] (inr job)).

Definition download (principal : Principal.Principal) (id : string) : M exn W Response :=
  result ← downloadJob h principal id;
  mret (sendInline result).
End controller.
End ComplianceController.

(** ** Witnesses *)
Module ComplianceExamples.
Import ComplianceService.

(** A key pair that signs by naming itself; dates are their number of milliseconds. *)
#[local] Instance toy_ed25519 : Ed25519 := {|
  Keypair := string;
  Keypair_fromSecret := λ s, Ret s;
  Keypair_publicKey := λ k, k;
  Keypair_sign := λ k d, (k +:+ "|" +:+ d)%string;
  Keypair_verify := λ k d s, Ret (String.eqb s (k +:+ "|" +:+ d)%string) |}.

#[local] Instance toy_ed25519_laws : Ed25519Laws.
Proof. split. intros k d. cbn. by rewrite String.eqb_refl. Qed.

#[local] Existing Instance toy_crypto.

#[local] Instance toy_dates : DateParser := {| Date_parse := BigInt_of_string |}.

Definition cfg : ComplianceConfig.ComplianceConfig := ComplianceConfig.new None None None.

Definition key : Keypair := "GKEY"%string.

Definition investor_ex : Principal.Principal := Principal.mkPrincipal "7" "GI" "investor".

Definition stranger_ex : Principal.Principal := Principal.mkPrincipal "8" "GX" "investor".

Definition query_ex : RawExportQuery := mkQuery (Some "csv") (Some "0.00001") None None None None.

Definition job_ex : ExportJob :=
  new_job INVESTOR_REPORT CSV investor_ex (Some "GI"%string) None None None (mkGen "j1" 1 50).

Definition w_ex : mem :=
  mkMem (set_rows [job_ex] (set_rows [DocumentExamples.financed_ex] empty_db)) 1000 1 [].

Definition w_done : mem := (processJob PrismaService.full_surface cfg key "j1" w_ex).2.

Lemma has_invoice : PrismaService.m_invoice ∈ PrismaService.full_surface.
Proof. apply (bool_decide_unpack _). vm_compute. exact I. Defined.

Lemma has_jobs : PrismaService.m_exportJob ∈ PrismaService.full_surface.
Proof. apply (bool_decide_unpack _). vm_compute. exact I. Defined.

Lemma exports_verifiable_witness :
  (∃ e, (exportTransactionsInline PrismaService.full_surface cfg key investor_ex query_ex w_ex).1 = Ret e
        ∧ recordCount e = 2) ∧
  wp (exportTransactionsInline PrismaService.full_surface cfg key investor_ex query_ex)
    (λ r w', tables w' = tables w_ex ∧
       match r with Ret e => verifiable key e | Throw err => up w_ex → client_error err end) w_ex.
Proof.
  split; [eexists; split; vm_compute; reflexivity|].
  exact (proj1 (exports_verifiable PrismaService.full_surface cfg key investor_ex query_ex w_ex has_invoice)).
Defined.

Lemma export_scope_witness :
  (∃ e, (exportInvestorReportInline PrismaService.full_surface cfg key investor_ex query_ex w_ex).1 = Ret e) ∧
  wp (exportInvestorReportInline PrismaService.full_surface cfg key investor_ex query_ex) (λ r _,
    match r with
    | Throw _ => True
    | Ret e => (truthy_opt (q_subject query_ex) = true → q_subject query_ex = Some "GI"%string) ∧
        ∃ params l now, ip_subject params = "GI"%string ∧
        l ≡ₚ List.filter (λ i, bool_decide (inv_investor i = Some "GI"%string)) (rows (tables w_ex)) ∧
        (content e, contentType e) = investor_document cfg params now (investor_report cfg params l)
    end) w_ex.
Proof.
  split; [eexists; vm_compute; reflexivity|].
  exact (proj2 (export_scope PrismaService.full_surface cfg key investor_ex query_ex w_ex has_invoice eq_refl eq_refl)).
Defined.


Lemma download_access_witness :
  (∃ e, (downloadJob PrismaService.full_surface investor_ex "j1" w_done).1 = Ret e) ∧
  wp (downloadJob PrismaService.full_surface stranger_ex "j1")
    (λ r w', tables w' = tables w_ex ∧ r = Throw (job_not_found "j1")) w_ex.
Proof.
  split; [eexists; vm_compute; reflexivity|].
  refine (proj1 (download_access PrismaService.full_surface key stranger_ex "j1" job_ex w_ex has_jobs eq_refl _)).
  intros j Hj _. by apply list_elem_of_singleton in Hj.
Defined.
End ComplianceExamples.
