(* ===== verification/ExportJobs.v ===== *)
(** * Export jobs that run next to each other ([compliance/compliance.service.ts])

    [processJob] runs detached, once for each job that is enqueued, on the instance that took the
    request.  Here any number of jobs and instances interleave with each other, with the rest of
    the backend and with instances that crash.  The life of a job is specified as a small machine
    ([job_step]); every piece of every job is a step of it, or none. *)
From S2P Require Import Prelude Threads Js Schema Errors Prisma PrismaService Interfaces Auth Amount Documents Compliance.
From stdpp Require Import relations.
Import ComplianceService.
Open Scope Z_scope.

Module ExportJobs.

Section threads.
Context {W : Type} `{!Prisma W} `{!Clock W} {CR : Crypto} {ED : Ed25519}.
Variable h : PrismaService.handle.
Variable config : ComplianceConfig.ComplianceConfig.
Variable keypair : Keypair.

(** The [update] of the row of a job, with the clock read just before it *)
Definition put_job (jobId : string) (data : Z → ExportJob → ExportJob) : M exn W unit :=
  now ← date_now;
  _ ← PrismaService.via h PrismaService.m_exportJob (update (has_id jobId) (λ _, data now));
  mret tt.

Definition set_job (place jobId : string) (data : Z → ExportJob → ExportJob) : thread exn W unit :=
  await_at place (put_job jobId data).

Definition processJob_ (jobId : string) : thread exn W unit :=
  job ← await_at "find" (PrismaService.via h PrismaService.m_exportJob (find_unique (has_id jobId)));
  match job with
  | None => mret tt
  | Some job =>
      if negb (bool_decide (job_status job = J_PENDING)) then mret tt
      else
        _ ← set_job "start" jobId start_job;
        try_
          (built ← await_at "build" (build_job h config keypair job);
           set_job "complete" jobId (λ now, complete_job now built))
          (λ err, set_job "fail" jobId (λ now, fail_job now (message err)))
  end.

(** The thread is the method. *)
Lemma processJob_cuts (jobId : string) : cuts (processJob_ jobId) (processJob h config keypair jobId).
Proof.
  unfold processJob_, processJob. apply cuts_bind; [auto with cuts|]. intros [job|]; [|apply cuts_ret].
  destruct (negb _); [apply cuts_ret|].
  apply (cuts_ext _ (put_job jobId start_job ≫= λ _,
    try_catch (build_job h config keypair job ≫= λ built, put_job jobId (λ now, complete_job now built))
              (λ err, put_job jobId (λ now, fail_job now (message err))))); [unfold set_job; auto with cuts|].
  intros w. unfold put_job. rewrite bind_assoc. apply bind_ext. intros started w1. by rewrite bind_assoc.
Qed.
End threads.

(** *** The life of a job *)

Section life.
Context {CR : Crypto} {ED : Ed25519}.
Variable config : ComplianceConfig.ComplianceConfig.
Variable keypair : Keypair.
(** what is known of the invoices of the database at all times *)
Variable Seen : list Invoice → Prop.

(** The document of the job, signed, from one snapshot of the invoices *)
Definition deliverable (j : ExportJob) (built : InlineExport) : Prop :=
  ∃ d, Seen (rows d) ∧ built_for config keypair j d built.

Inductive job_step : ExportJob → ExportJob → Prop :=
| job_starts j now : job_status j = J_PENDING → job_step j (start_job now j)
| job_completes j now built :
    job_status j = J_PROCESSING → deliverable j built → job_step j (complete_job now built j)
| job_fails j now error : job_status j = J_PROCESSING → job_step j (fail_job now error j).

(** COMPLETED and FAILED are final. *)
Lemma job_step_final (j j' : ExportJob) :
  job_status j = J_COMPLETED ∨ job_status j = J_FAILED → rtc job_step j j' → j' = j.
Proof. intros Hj H. destruct H as [|? ? ? Hs _]; [done|]. destruct Hs, Hj; congruence. Qed.

(** What a job was asked for does not change. *)
Definition order (j : ExportJob) :=
  (job_id j, job_type j, job_format j, job_requestedBy j, job_subject j, job_thresholdMinorUnits j, (job_rangeStart j, job_rangeEnd j)).

Lemma job_step_order (j j' : ExportJob) : rtc job_step j j' → order j' = order j.
Proof. induction 1 as [|j1 j2 j3 Hs _ IH]; [done|]. rewrite IH. by destruct Hs. Qed.

Lemma built_for_order (j j' : ExportJob) (d : db) (built : InlineExport) :
  order j' = order j → built_for config keypair j d built → built_for config keypair j' d built.
Proof.
  intros [= _ Ht Hf _ Hs Hth Hr1 Hr2]. unfold built_for, job_threshold. by rewrite Ht, Hf, Hs, Hth, Hr1, Hr2.
Qed.

(** A finished job that has its document *)
Definition delivered (j : ExportJob) : Prop := ∃ j0 now built, j = complete_job now built j0 ∧ deliverable j built.

Section inv.
Context {W : Type} `{!Prisma W}.

(** How far a run of [processJob] has come, with the row that it has found, or that it has marked *)
Inductive stage := Queued | Found (j : ExportJob) | Running (j : ExportJob) | Done.

Definition at_stage (p : stage) (j : ExportJob) : Prop :=
  match p with
  | Queued => job_status j = J_PENDING
  | Found k => j = k ∧ job_status j = J_PENDING
  | Running k => j = k ∧ job_status j = J_PROCESSING
  | Done => True
  end.

Definition may_be_at (place : string) (p : stage) : Prop :=
  if String.eqb place "find" then p = Queued
  else if String.eqb place "start" then ∃ k, p = Found k else ∃ k, p = Running k.

(** The jobs that no thread works on *)
Variable orphans : list ExportJob.

Definition jobs_inv (w : W) (ls : list (string * stage)) : Prop :=
  (NoDup (job_id <$> rows (tables w)) ∧ NoDup ls.*1) ∧ Seen (rows (tables w)) ∧
  (∀ j, j ∈ rows (tables w) → job_status j = J_COMPLETED → delivered j) ∧
  (∀ id p, (id, p) ∈ ls → ∃ j, j ∈ rows (tables w) ∧ job_id j = id ∧ at_stage p j) ∧
  (∀ j, j ∈ orphans → j ∈ rows (tables w) ∧ job_id j ∉ ls.*1).

(** Every job goes on along the machine, and none is lost. *)
Definition goes_on (w w' : W) : Prop :=
  ∀ j : ExportJob, j ∈ rows (tables w) → ∃ j', j' ∈ rows (tables w') ∧ rtc job_step j j'.

#[global] Instance goes_on_preorder : PreOrder goes_on.
Proof.
  split; [intros w j Hj; by exists j|]. intros w1 w2 w3 H12 H23 j Hj.
  destruct (H12 j Hj) as (j2 & Hj2 & Hs2). destruct (H23 j2 Hj2) as (j3 & Hj3 & Hs3). exists j3. split; [done|]. by etransitivity.
Qed.

Lemma jobs_inv_frame (w w' : W) ls :
  rows (R:=ExportJob) (tables w') = rows (tables w) → Seen (rows (tables w')) → jobs_inv w ls → goes_on w w' ∧ jobs_inv w' ls.
Proof.
  intros Hr Hs (H1 & _ & H3). split; [intros j Hj; exists j; by rewrite Hr|]. unfold jobs_inv. by rewrite Hr.
Qed.

Lemma jobs_inv_drop (w : W) ls1 bp ls2 : jobs_inv w (ls1 ++ bp :: ls2) → jobs_inv w (ls1 ++ ls2).
Proof.
  intros ([H1 H1'] & H2 & H3 & H4 & H5). rewrite fmap_app, fmap_cons in *. split; [split; [done|]|].
  - rewrite fmap_app. eapply sublist_NoDup; [exact H1'|]. by apply sublist_app, sublist_cons.
  - split; [done|]. split; [done|]. rewrite fmap_app. split; [intros id p Hp; apply H4; set_solver|].
    intros j Hj. destruct (H5 j Hj). split; [done|]. set_solver.
Qed.

(** A run that has seen its row, or is over *)
Lemma jobs_inv_stage (w : W) ls1 id p p' ls2 :
  (∀ j, j ∈ rows (tables w) → job_id j = id → at_stage p j → at_stage p' j) →
  jobs_inv w (ls1 ++ (id, p) :: ls2) → jobs_inv w (ls1 ++ (id, p') :: ls2).
Proof.
  intros Hp (H1 & H2 & H3 & H4 & H5). rewrite fmap_app in *. split; [by rewrite fmap_app|]. split; [done|]. split; [done|].
  rewrite fmap_app. split; [|done].
  intros id' q [Hq|[[= -> ->]|Hq]%elem_of_cons]%elem_of_app; [apply H4; set_solver| |apply H4; set_solver].
  destruct (H4 id p) as (j & Hj & Hid & Hat); [set_solver|]. exists j. auto.
Qed.

(** One step of one job *)
Lemma jobs_inv_step (w w' : W) ls1 id p p' ls2 (j : ExportJob) (f : ExportJob → ExportJob) :
  jobs_inv w (ls1 ++ (id, p) :: ls2) → j ∈ rows (tables w) → job_id j = id →
  tables w' = job_done id f (tables w) → (∀ i, job_id (f i) = job_id i) → job_step j (f j) →
  (job_status (f j) = J_COMPLETED → delivered (f j)) → at_stage p' (f j) →
  goes_on w w' ∧ jobs_inv w' (ls1 ++ (id, p') :: ls2).
Proof.
  intros ([H1 H1'] & H2 & H3 & H4 & H5) Hj Hid Ht Hf Hstep Hdel Hat.
  assert (rows (R:=ExportJob) (tables w') = map_if (has_id id) f (rows (tables w))) as Hr by (by rewrite Ht).
  assert (∀ i, i ∈ rows (tables w) → has_id id i = true → i = j) as Hone.
  { intros i Hi Hh%String.eqb_eq. apply (fmap_unique job_id _ _ _ H1 Hi Hj). congruence. }
  assert (∀ i, i ∈ rows (tables w) → job_id i ≠ id → i ∈ rows (tables w')) as Hother.
  { intros i Hi Hne. rewrite Hr. apply elem_of_map_if. exists i. split; [done|]. unfold has_id. by rewrite (proj2 (String.eqb_neq _ _) Hne). }
  assert (f j ∈ rows (tables w')) as Hfj.
  { rewrite Hr. apply elem_of_map_if. exists j. split; [done|]. unfold has_id. by rewrite (proj2 (String.eqb_eq _ _) Hid). }
  split; [|split; [split|split; [|split; [|split]]]].
  - intros i Hi. destruct (decide (job_id i = id)) as [He|Hne]; [|exists i; split; [by apply Hother|done]].
    rewrite (Hone i Hi) by (by apply String.eqb_eq). exists (f j). split; [done|]. by apply rtc_once.
  - by rewrite Hr, map_if_key.
  - by rewrite fmap_app, fmap_cons in *.
  - by rewrite Ht.
  - intros i Hi. rewrite Hr in Hi. apply elem_of_map_if in Hi as (i0 & Hi0 & ->).
    destruct (has_id id i0) eqn:E; [by rewrite (Hone i0 Hi0 E)|by apply H3].
  - rewrite fmap_app, fmap_cons in H1'. cbn in H1'. apply NoDup_app in H1' as (_ & N1 & [N2 _]%NoDup_cons).
    intros id' q [Hq|[[= -> ->]|Hq]%elem_of_cons]%elem_of_app; [|exists (f j); rewrite Hf; auto|].
    all: destruct (H4 id' q) as (i & Hi & Hii & Hq'); [set_solver|]; exists i; split; [|done]; apply Hother; [done|]; rewrite Hii; intros ->.
    + apply (N1 id); [|by left]. apply list_elem_of_fmap. by exists (id, q).
    + apply N2. apply list_elem_of_fmap. by exists (id, q).
  - intros i Hi. destruct (H5 i Hi) as [Hi' Hl]. rewrite fmap_app, fmap_cons in *. split; [|done]. apply Hother; [done|]. set_solver.
Qed.

(** A new job and its run *)
Lemma jobs_inv_new (w w' : W) ls (j : ExportJob) :
  jobs_inv w ls → existsb (conflict j) (rows (tables w)) = false → job_status j = J_PENDING →
  tables w' = set_rows (rows (tables w) ++ [j]) (tables w) →
  goes_on w w' ∧ jobs_inv w' (ls ++ [(job_id j, Queued)]).
Proof.
  intros ([H1 H1'] & H2 & H3 & H4 & H5) Hc Hp Ht. rewrite existsb_false_forall in Hc.
  assert (rows (R:=ExportJob) (tables w') = rows (tables w) ++ [j]) as Hr by (by rewrite Ht).
  assert (∀ i, i ∈ rows (tables w) → job_id i ≠ job_id j) as Hnew.
  { intros i Hi He. specialize (Hc i Hi). cbn in Hc. by rewrite He, String.eqb_refl in Hc. }
  assert (job_id j ∉ ls.*1) as Hfresh.
  { intros ([id p] & Heq & Hp')%list_elem_of_fmap. destruct (H4 id p Hp') as (i & Hi & Hid & _). apply (Hnew i Hi). cbn in Heq. congruence. }
  split; [intros i Hi; exists i; rewrite Hr; set_solver|]. unfold jobs_inv. rewrite Hr, !fmap_app. cbn. split; [split|split; [|split; [|split]]].
  - apply NoDup_app. split; [done|]. split; [|apply NoDup_singleton]. intros x (i & Hx & Hi)%list_elem_of_fmap Hx'%list_elem_of_singleton.
    apply (Hnew i Hi). congruence.
  - apply NoDup_app. split; [done|]. split; [|apply NoDup_singleton]. intros x Hx ->%list_elem_of_singleton. done.
  - by rewrite Ht.
  - intros i [Hi| ->%list_elem_of_singleton]%elem_of_app Hs; [by apply H3|congruence].
  - intros id p [Hq|[= -> ->]%list_elem_of_singleton]%elem_of_app; [|exists j; set_solver].
    destruct (H4 id p Hq) as (i & Hi & Hrest). exists i. set_solver.
  - intros i Hi. destruct (H5 i Hi) as [Hi' Hl]. split; [set_solver|].
    intros [Hx|Hx%list_elem_of_singleton]%elem_of_app; [done|]. by apply (Hnew i).
Qed.
End inv.
End life.

(** *** The pool *)
Section proofs.
Context {W : Type} `{!Prisma W} `{!Clock W} {CR : Crypto} {ED : Ed25519} `{!DateParser}
  `{!PrismaLaws W} `{!ClockLaws W} `{!Ed25519Laws}.
Variable h : PrismaService.handle.
Variable config : ComplianceConfig.ComplianceConfig.
Variable keypair : Keypair.
Variable Seen : list Invoice → Prop.
Hypothesis Hinvoice : PrismaService.m_invoice ∈ h.

#[local] Abbreviation step_ := (job_step config keypair Seen).
#[local] Abbreviation inv_ := (jobs_inv config keypair Seen).
#[local] Abbreviation goes_on_ := (goes_on config keypair Seen).
#[local] Abbreviation any := (λ _ _, True).

Section jobs.
Variable orphans : list ExportJob.
#[local] Abbreviation safe_ := (safe (inv_ orphans) goes_on_ may_be_at).

Lemma wp_put_job (id : string) (data : Z → ExportJob → ExportJob) (Φ : outcome exn unit → W → Prop) (w : W) :
  (∀ now j, job_id (data now j) = job_id j) →
  (∀ now w', tables w' = job_done id (data now) (tables w) → Φ (Ret tt) w') →
  (∀ e w', tables w' = tables w → Φ (Throw e) w') → wp (put_job h id data) Φ w.
Proof.
  intros Hid Hok Hno. unfold put_job. apply wp_bind, wp_date_now. intros now w1 [H1 _]. apply wp_bind.
  unfold PrismaService.via. case_bool_decide; [|by apply wp_throw, Hno].
  apply wp_update_job; [done|intros r w2 [Hw _]; apply wp_ret, (Hok now)|intros e w2 [Hw _]; apply Hno]; congruence.
Qed.

(** The update of the row of a run, as one step of its job *)
Lemma safe_set_job (place id : string) (data : Z → ExportJob → ExportJob) (p : stage) (j : ExportJob) (next : ExportJob → stage)
    (Q : outcome exn unit → stage → Prop) :
  may_be_at place p → (∀ i, at_stage p i → i = j) → (∀ now i, job_id (data now i) = job_id i) →
  (∀ now, at_stage p j → step_ j (data now j) ∧ (job_status (data now j) = J_COMPLETED → delivered config keypair Seen (data now j)) ∧
          at_stage (next (data now j)) (data now j)) →
  (∀ now, Q (Ret tt) (next (data now j))) → (∀ e, Q (Throw e) p) → safe_ Q id (set_job h place id data) p.
Proof.
  intros Hp Hj Hid Hstep Hok Hno. apply safe_await_at; [done|]. intros w ls1 ls2 HI.
  pose proof HI as (_ & HS & _ & H4 & _). destruct (H4 id p) as (i & Hi & Hii & Hat); [set_solver|].
  pose proof (Hj i Hat) as ->. apply wp_put_job; [done|..].
  - intros now w' Ht. destruct (Hstep now Hat) as (Hs & Hd & Hn).
    destruct (jobs_inv_step config keypair Seen orphans w w' ls1 id p (next (data now j)) ls2 j (data now)) as [HG HI']; [done..|].
    split; [done|]. by exists (next (data now j)).
  - intros e w' Ht. destruct (jobs_inv_frame config keypair Seen orphans w w' (ls1 ++ (id, p) :: ls2)) as [HG HI']; [by rewrite Ht..|done|].
    split; [done|]. by exists p.
Qed.

Lemma safe_find_job (id : string) :
  safe_ (λ r p, match r with Ret (Some j) => p = Found j | _ => True end) id
    (await_at "find" (PrismaService.via h PrismaService.m_exportJob (find_unique (has_id id)))) Queued.
Proof.
  apply safe_await_at; [done|]. intros w ls1 ls2 HI. pose proof HI as ([H1 _] & HS & _ & H4 & _).
  assert (∀ w', tables w' = tables w → goes_on_ w w' ∧ inv_ orphans w' (ls1 ++ (id, Queued) :: ls2)) as Hframe.
  { intros w' Ht. apply jobs_inv_frame; [by rewrite Ht..|done]. }
  unfold PrismaService.via. case_bool_decide; [|by apply wp_throw; split; [apply Hframe|exists Queued; split; [apply Hframe|]]].
  apply wp_find_unique; unfold commits, refuses.
  - intros j w' [Ht _] Hj Hh%String.eqb_eq. destruct (Hframe w' Ht) as [HG HI']. split; [done|]. exists (Found j). split; [|done].
    eapply jobs_inv_stage; [|exact HI']. rewrite Ht. intros i Hi Hid Hs. split; [|done]. apply (fmap_unique job_id _ _ _ H1 Hi Hj). congruence.
  - intros w' [Ht _] _. split; [by apply Hframe|]. exists Queued. by split; [apply Hframe|].
  - intros e w' [Ht _]. split; [by apply Hframe|]. exists Queued. by split; [apply Hframe|].
Qed.

(** The document is built from the invoices of one moment. *)
Lemma safe_build (id : string) (job k : ExportJob) :
  order k = order job →
  safe_ (λ r p, p = Running k ∧ match r with Ret built => deliverable config keypair Seen k built | Throw _ => True end) id
    (await_at "build" (build_job h config keypair job)) (Running k).
Proof.
  intros Hk. apply safe_await_at; [by exists k|]. intros w ls1 ls2 HI. pose proof HI as (_ & HS & _).
  assert (∀ w', tables w' = tables w → goes_on_ w w' ∧ inv_ orphans w' (ls1 ++ (id, Running k) :: ls2)) as Hframe.
  { intros w' Ht. apply jobs_inv_frame; [by rewrite Ht..|done]. }
  apply wp_build_job; [apply _..|done| |].
  - intros built w' [Ht _] Hb. split; [by apply Hframe|]. exists (Running k). split; [by apply Hframe|]. split; [done|].
    exists (tables w). split; [done|]. by eapply built_for_order.
  - intros e w' [Ht _]. split; [by apply Hframe|]. exists (Running k). by split; [apply Hframe|].
Qed.

Lemma safe_processJob (id : string) : safe_ any id (processJob_ h config keypair id) Queued.
Proof.
  unfold processJob_. apply safe_bind. eapply safe_mono; [apply safe_find_job|]. intros [[job|]|e] p Hp; [|done..]. subst p.
  destruct (negb _); [done|]. apply safe_bind.
  eapply (safe_mono _ _ _ (λ r p, match r with Ret _ => ∃ k, p = Running k ∧ order k = order job ∧ job_status k = J_PROCESSING | Throw _ => True end)).
  { apply (safe_set_job _ _ _ _ job Running); [by exists job|by intros i []|done| |intros now; by eexists|done].
    intros now [_ Hs]. split; [by apply job_starts|]. by split. }
  intros [[]|e] p Hp; [|done]. destruct Hp as (k & -> & Hk & Hks). apply safe_try, safe_bind. eapply safe_mono; [by apply safe_build|].
  intros [built|e] p [-> Hb].
  - apply (safe_set_job _ _ _ _ k (λ _, Done)); [by exists k|by intros i []|done| |done|].
    + intros now _. split; [by apply job_completes|]. split; [|done]. intros _. by exists k, now, built.
    + intros e. apply (safe_set_job _ _ _ _ k (λ _, Done)); [by exists k|by intros i []|done| |done..].
      intros now _. split; [by apply job_fails|]. by split.
  - apply (safe_set_job _ _ _ _ k (λ _, Done)); [by exists k|by intros i []|done| |done..].
    intros now _. split; [by apply job_fails|]. by split.
Qed.

(** *** What starts runs, and what else happens *)

Inductive entry := Transactions (principal : Principal.Principal) (query : RawExportQuery)
  | Report (principal : Principal.Principal) (query : RawExportQuery) | Elsewhere.

(** The run of a job that was enqueued: [scheduleJob] *)
Definition scheduled (r : outcome exn JobSummary) : list (string * thread exn W unit) :=
  match r with Ret job => [(js_id job, processJob_ h config keypair (js_id job))] | Throw _ => [] end.

Inductive jobs_enter : entry → W → list (string * thread exn W unit) → W → Prop :=
| transactions_enqueued principal query w r w' :
    enqueueTransactionsExport h config principal query w = (r, w') → jobs_enter (Transactions principal query) w (scheduled r) w'
| report_enqueued principal query w r w' :
    enqueueInvestorReportExport h principal query w = (r, w') → jobs_enter (Report principal query) w (scheduled r) w'
| elsewhere_runs w w' :
    rows (R:=ExportJob) (tables w') = rows (tables w) → Seen (rows (tables w')) → jobs_enter Elsewhere w [] w'.

#[local] Abbreviation minds_ := (minds (E:=exn) (A:=unit) (inv_ orphans) goes_on_ may_be_at any).

Definition grows (ls : list (string * stage)) (new : list (string * thread exn W unit)) (w w' : W) : Prop :=
  goes_on_ w w' ∧ ∃ news, inv_ orphans w' (ls ++ news) ∧ Forall2 minds_ new news.

Lemma grows_nothing (ls : list (string * stage)) (w w' : W) :
  rows (R:=ExportJob) (tables w') = rows (tables w) → Seen (rows (tables w')) → inv_ orphans w ls → grows ls [] w w'.
Proof.
  intros Hj HS HI. destruct (jobs_inv_frame config keypair Seen orphans w w' ls Hj HS HI) as [HG HI'].
  split; [done|]. exists []. by rewrite app_nil_r.
Qed.

Lemma wp_enqueue (mk : gen → ExportJob) (ls : list (string * stage)) (w : W) :
  (∀ g, job_status (mk g) = J_PENDING) → inv_ orphans w ls →
  wp (job ← PrismaService.via h PrismaService.m_exportJob (create mk); mret (toJobSummary job))
    (λ r w', grows ls (scheduled r) w w') w.
Proof.
  intros Hmk HI. pose proof HI as (_ & HS & _). apply wp_bind. unfold PrismaService.via.
  case_bool_decide; [|by apply wp_throw, grows_nothing]. apply wp_create.
  - intros g w1 [Ht _] Hc _. apply wp_ret.
    destruct (jobs_inv_new config keypair Seen orphans w w1 ls (mk g)) as [HG HI']; [done..|]. split; [done|].
    exists [(job_id (mk g), Queued)]. split; [done|]. constructor; [|constructor]. split; [done|]. apply safe_processJob.
  - intros e w1 [Ht _]. apply grows_nothing; by rewrite ?Ht.
Qed.

Lemma jobs_entries_ok : entries_ok jobs_enter (inv_ orphans) goes_on_ may_be_at any any.
Proof.
  intros e ts w new w' ls _ HI _ He. change (grows ls new w w'). pose proof HI as (_ & HS & _).
  destruct He as [p q w r w' Hr|p q w r w' Hr|w w' Hj HS']; [| |by apply grows_nothing].
  - unfold enqueueTransactionsExport in Hr. destruct (parseTransactionParams config p q) as [params|e];
      [|injection Hr as <- <-; by apply grows_nothing].
    eapply (wp_run _ (λ r w', grows ls (scheduled r) w w')); [|exact Hr]. by apply wp_enqueue.
  - unfold enqueueInvestorReportExport in Hr. destruct (parseInvestorParams p q) as [params|e];
      [|injection Hr as <- <-; by apply grows_nothing].
    eapply (wp_run _ (λ r w', grows ls (scheduled r) w w')); [|exact Hr]. by apply wp_enqueue.
Qed.

(** The invariant of every run that starts without a run of [processJob] *)
Lemma jobs_inv_reached (w : W) (c : pool (E:=exn) (W:=W) (A:=unit) (B:=string)) :
  NoDup (job_id <$> rows (tables w)) → Seen (rows (tables w)) →
  (∀ j, j ∈ rows (tables w) → job_status j = J_COMPLETED → delivered config keypair Seen j) →
  (∀ j, j ∈ orphans → j ∈ rows (tables w)) →
  run (pool_step jobs_enter) any ([], w) c → pool_inv (inv_ orphans) goes_on_ may_be_at any c.
Proof.
  intros Hn HS Hd Ho Hrun.
  apply (pool_sound _ _ _ _ _ _ _ _ jobs_entries_ok (crashes_any _ _ (jobs_inv_drop config keypair Seen orphans)) Hrun).
  apply pool_inv_empty. split; [split; [done|constructor]|]. split; [done|]. split; [done|].
  split; [intros id p Hp; by apply elem_of_nil in Hp|]. intros j Hj. split; [by apply Ho|apply not_elem_of_nil].
Qed.
End jobs.

#[local] Abbreviation jobs_run := (run (pool_step jobs_enter) any).

(** C25: any number of export jobs run on any number of instances, cut at their awaits and interleaved
    with each other, with the rest of the backend and with instances that crash.  No job is lost,
    and each goes along its life, PENDING, PROCESSING, then COMPLETED or FAILED, which are final,
    without a change to what it was asked for; a job that is COMPLETED has the signed document of
    its own parameters, over one snapshot of the invoices (whatever is true of the invoices at all
    times is true of the snapshot); and never do two runs work on one job. *)
Theorem jobs_follow_their_life (w : W) (c c' : pool (E:=exn) (W:=W) (A:=unit) (B:=string)) :
  NoDup (job_id <$> rows (tables w)) → Seen (rows (tables w)) →
  (∀ j, j ∈ rows (tables w) → job_status j = J_COMPLETED → delivered config keypair Seen j) →
  jobs_run ([], w) c → jobs_run c c' →
  (∀ j, j ∈ rows (tables c.2) → ∃ j', j' ∈ rows (tables c'.2) ∧ rtc step_ j j' ∧ order j' = order j ∧
     (job_status j = J_COMPLETED ∨ job_status j = J_FAILED → j' = j)) ∧
  (∀ j, j ∈ rows (tables c'.2) → job_status j = J_COMPLETED → delivered config keypair Seen j) ∧
  NoDup c'.1.*1.
Proof.
  intros Hn HS Hd H01 H12. pose proof (jobs_inv_reached [] w c Hn HS Hd ltac:(set_solver) H01) as Hinv.
  destruct (pool_sound _ _ _ _ _ _ _ _ (jobs_entries_ok []) (crashes_any _ _ (jobs_inv_drop config keypair Seen [])) H12 Hinv)
    as [(ls & ([_ Hl] & _ & H3 & _) & Hm) HG].
  split; [|split; [done|]].
  - intros j Hj. destruct (HG j Hj) as (j' & Hj' & Hs). exists j'. split; [done|]. split; [done|].
    split; [by eapply job_step_order|]. intros Hf. by eapply job_step_final.
  - by rewrite (minds_labels _ _ _ _ _ _ Hm).
Qed.

(** Nothing resumes a job: what is in the table when no run is under way (after a restart), PENDING
    or PROCESSING as it may be, stays as it is for ever. *)
Theorem restart_strands (w : W) (c : pool (E:=exn) (W:=W) (A:=unit) (B:=string)) (j : ExportJob) :
  NoDup (job_id <$> rows (tables w)) → Seen (rows (tables w)) →
  (∀ j, j ∈ rows (tables w) → job_status j = J_COMPLETED → delivered config keypair Seen j) →
  jobs_run ([], w) c → j ∈ rows (tables w) → j ∈ rows (tables c.2).
Proof.
  intros Hn HS Hd Hrun Hj. destruct (jobs_inv_reached (rows (tables w)) w c Hn HS Hd) as (ls & (_ & _ & _ & _ & H5) & _); [done..|].
  by apply H5.
Qed.
End proofs.
End ExportJobs.

(** ** Runs *)
Module ExportJobExamples.
Import ExportJobs ComplianceExamples.
#[local] Abbreviation run := Prelude.run.

#[local] Existing Instance toy_ed25519.
#[local] Existing Instance toy_ed25519_laws.
#[local] Existing Instance toy_crypto.
#[local] Existing Instance toy_dates.

Definition invoices_ex : list Invoice := [DocumentExamples.financed_ex].

Definition start_ex : mem := mkMem (set_rows invoices_ex empty_db) 1000 1 [].

Definition Seen_ex (l : list Invoice) : Prop := l = invoices_ex.

#[local] Abbreviation jobs := (pool (E:=exn) (W:=mem) (A:=unit) (B:=string)).
#[local] Abbreviation step_ := (pool_step (jobs_enter PrismaService.full_surface cfg key Seen_ex)).

Definition enqueue (query : RawExportQuery) (c : jobs) : jobs :=
  let '(r, w') := enqueueTransactionsExport PrismaService.full_surface cfg investor_ex query c.2 in
  (c.1 ++ scheduled PrismaService.full_surface cfg key r, w').

Lemma enqueue_run (query : RawExportQuery) (c : jobs) : run step_ (λ _ _, True) c (enqueue query c).
Proof.
  unfold enqueue. destruct (enqueueTransactionsExport _ _ _ _ c.2) as [r w'] eqn:E. destruct c as [ts w].
  eapply run_more; [apply run_none|done|]. apply (step_enter _ (Transactions investor_ex query)). by apply transactions_enqueued.
Qed.

(** Two jobs are under way; the second one has a format of its own. *)
Definition queued_ex : jobs := enqueue (mkQuery (Some "json"%string) None None None None None) (enqueue query_ex ([], start_ex)).
Definition finished_ex : jobs := Nat.iter 3 (advance 1) (Nat.iter 3 (advance 0) (advance 1 (advance 0 queued_ex))).

Definition view (w : mem) : list (ExportJobStatus * ExportFormat * option Z) :=
  map (λ j, (job_status j, job_format j, job_recordCount j)) (rows (m_db w)).

Lemma queued_run : run step_ (λ _ _, True) ([], start_ex) queued_ex.
Proof. eapply run_trans; apply enqueue_run. Qed.

Lemma jobs_follow_their_life_witness :
  view queued_ex.2 = [(J_PENDING, CSV, None); (J_PENDING, JSON, None)] ∧
  view finished_ex.2 = [(J_COMPLETED, CSV, Some 2); (J_COMPLETED, JSON, Some 0)] ∧
  ∀ j, j ∈ rows (tables finished_ex.2) → delivered cfg key Seen_ex j.
Proof.
  split; [vm_compute; reflexivity|]. split; [vm_compute; reflexivity|]. intros j Hj.
  refine (proj1 (proj2 (jobs_follow_their_life PrismaService.full_surface cfg key Seen_ex has_invoice start_ex queued_ex finished_ex
    _ _ _ _ _)) j Hj _).
  - constructor.
  - done.
  - intros i Hi. by apply elem_of_nil in Hi.
  - apply queued_run.
  - eapply run_trans; [by apply advance_run|]. eapply run_trans; [by apply advance_run|].
    eapply run_trans; [by apply (advances_run _ _ 3 0)|by apply (advances_run _ _ 3 1)].
  - assert (Forall (λ j, job_status j = J_COMPLETED) (rows (tables finished_ex.2))) as H by (vm_compute; repeat constructor).
    rewrite Forall_forall in H. by apply H.
Defined.

(** The instance restarts while the first job is PROCESSING: the job is stranded. *)
Definition restarted_ex : jobs := ([], (Nat.iter 2 (advance 0) queued_ex).2).

Lemma restart_strands_ex (c : jobs) (j : ExportJob) :
  run step_ (λ _ _, True) restarted_ex c → j ∈ rows (tables restarted_ex.2) →
  view restarted_ex.2 = [(J_PROCESSING, CSV, None); (J_PENDING, JSON, None)] ∧ j ∈ rows (tables c.2).
Proof.
  intros Hc Hj. split; [vm_compute; reflexivity|].
  apply (restart_strands PrismaService.full_surface cfg key Seen_ex has_invoice restarted_ex.2 c j); [| | |done..].
  - apply (bool_decide_unpack _). vm_compute. exact I.
  - done.
  - assert (Forall (λ j, job_status j ≠ J_COMPLETED) (rows (tables restarted_ex.2))) as H by (vm_compute; repeat constructor; done).
    rewrite Forall_forall in H. intros i Hi Hs. by destruct (H i Hi).
Qed.
End ExportJobExamples.
