(* ===== verification/RateLimit.v ===== *)
(** * Rate limiting ([common/rate-limiter.service.ts], [common/rate-limit.middleware.ts])

    The sliding-window script that Redis runs atomically, the service around it, and the
    middleware that picks the counters of a request.  Redis is modelled by the commands that
    the script uses: a sorted set per key, with the time at which the key expires. *)
From S2P Require Import Prelude Js Errors.
From stdpp Require Import gmap strings.
Open Scope Z_scope.

(** ** The sorted set of a key *)
Module SortedSet.

(** Scores with their members, which are distinct. *)
Definition zset := list (Z * string).

Record entry := mkEntry { members : zset; expires_at : Z }.

(** The members of a key at a time; a key is gone once its time has come. *)
Definition visible (now : Z) (e : option entry) : zset :=
  match e with Some e => if expires_at e <=? now then [] else members e | None => [] end.

(** [ZREMRANGEBYSCORE key -inf hi], [ZCOUNT key lo hi], [ZADD key score member] *)
Definition zremrangebyscore (hi : Z) (s : zset) : zset := List.filter (λ x, hi <? x.1) s.
Definition zcount (lo hi : Z) (s : zset) : Z := count_if (λ x, (lo <=? x.1) && (x.1 <=? hi)) s.
Definition zadd (score : Z) (member : string) (s : zset) : zset :=
  List.filter (λ x, negb (String.eqb x.2 member)) s ++ [(score, member)].

(** The score of [ZRANGE key 0 0 WITHSCORES]: the least one. *)
Definition zrange_first (s : zset) : option Z :=
  match s with [] => None | x :: s' => Some (foldr (λ y, Z.min y.1) x.1 s') end.
End SortedSet.

(** ** [rate-limiter.service.ts] *)
Module RateLimiterService.
Import SortedSet.

Record RateLimitConfig := mkConfig { windowMs : Z; maxRequests : Z; keyPrefix : string }.

Record RateLimitResult := mkResult {
  allowed : bool; current : Z; limit : Z; resetAt : Z; retryAfter : option Z }.

(** [SLIDING_WINDOW_SCRIPT]; the key is the sorted set [e], the script ends with a new one. *)
Definition SLIDING_WINDOW_SCRIPT (e : option entry) (now window_ms max_requests ttl_seconds : Z) (member : string)
    : (Z * Z * Z * Z) * option entry :=
  let window_start := now - window_ms in
  let pruned := zremrangebyscore (window_start - 1) (visible now e) in
  let current := zcount window_start now pruned in
  if current <? max_requests
  then ((1, current + 1, now + window_ms, 0), Some (mkEntry (zadd now member pruned) (now + 1000 * ttl_seconds)))
  else
    let oldest_score := default now (zrange_first pruned) in
    ((0, current, oldest_score + window_ms, 1),
     match e with Some e => Some (mkEntry pruned (expires_at e)) | None => None end).

(** [initializeConfigs]: the settings, or their defaults (integers). *)
Record Settings := mkSettings {
  RATE_LIMIT_IP_REQUESTS : option Z; RATE_LIMIT_IP_WINDOW_MS : option Z;
  RATE_LIMIT_USER_REQUESTS : option Z; RATE_LIMIT_USER_WINDOW_MS : option Z;
  RATE_LIMIT_WALLET_REQUESTS : option Z; RATE_LIMIT_WALLET_WINDOW_MS : option Z;
  RATE_LIMIT_OPERATION_REQUESTS : option Z; RATE_LIMIT_OPERATION_WINDOW_MS : option Z }.

Definition configs (s : Settings) : gmap string RateLimitConfig :=
  <["operation" := mkConfig (default 60000 (RATE_LIMIT_OPERATION_WINDOW_MS s)) (default 10 (RATE_LIMIT_OPERATION_REQUESTS s)) "rl:op:"]>
  (<["wallet" := mkConfig (default 60000 (RATE_LIMIT_WALLET_WINDOW_MS s)) (default 30 (RATE_LIMIT_WALLET_REQUESTS s)) "rl:wallet:"]>
  (<["user" := mkConfig (default 60000 (RATE_LIMIT_USER_WINDOW_MS s)) (default 1000 (RATE_LIMIT_USER_REQUESTS s)) "rl:user:"]>
  (<["ip" := mkConfig (default 60000 (RATE_LIMIT_IP_WINDOW_MS s)) (default 100 (RATE_LIMIT_IP_REQUESTS s)) "rl:ip:"]> ∅)))%string.

(** What a call finds: [Date.now()], the random suffix of the member, whether Redis answers. *)
Record Env := mkEnv { env_now : Z; env_random : string; env_reachable : bool }.

Notation store := (gmap string entry).

Definition member_of (env : Env) : string := (Z_to_string (env_now env) +:+ "-" +:+ env_random env)%string.

Definition checkLimit (config : gmap string RateLimitConfig) (identifier type : string) (env : Env) (redis : store)
    : outcome exn RateLimitResult * store :=
  match config !! type with
  | None => (Throw (JsError ("Unknown rate limit type: " +:+ type)%string), redis)
  | Some cfg =>
      let key := (keyPrefix cfg +:+ identifier)%string in
      let now := env_now env in
      if env_reachable env then
        let '((verdict, current, resetAt, _), e) :=
          SLIDING_WINDOW_SCRIPT (redis !! key) now (windowMs cfg) (maxRequests cfg)
            (ceil_div (windowMs cfg) 1000 + 1) (member_of env) in
        let allowed := verdict =? 1 in
        (Ret (mkResult allowed current (maxRequests cfg) resetAt
                (if allowed then None else Some (Z.max 1 (ceil_div (resetAt - now) 1000)))),
         partial_alter (λ _, e) key redis)
      else (Ret (mkResult true 0 (maxRequests cfg) now None), redis)
  end.

(** Successive calls for one identifier. *)
Fixpoint serve (config : gmap string RateLimitConfig) (identifier type : string) (envs : list Env) (redis : store)
    : list (outcome exn RateLimitResult) :=
  match envs with
  | [] => []
  | env :: envs' => let '(r, redis') := checkLimit config identifier type env redis in
                    r :: serve config identifier type envs' redis'
  end.

Definition is_allowed (r : outcome exn RateLimitResult) : bool :=
  match r with Ret r => allowed r | Throw _ => false end.

(** *** Specification: a log of the admitted requests

    A request is admitted when fewer than [max] admitted ones lie in the window that ends
    with it; [log] has the times of those admitted so far. *)
Definition in_window (window now t : Z) : bool := (now - window <=? t) && (t <=? now).

Fixpoint reference (window max : Z) (log times : list Z) : list bool :=
  match times with
  | [] => []
  | now :: times' =>
      let ok := count_if (in_window window now) log <? max in
      ok :: reference window max (if ok then now :: log else log) times'
  end.

(** The times of the admitted requests. *)
Definition admitted (times : list Z) (verdicts : list bool) : list Z :=
  map fst (List.filter snd (zip times verdicts)).

(** *** Lemmas *)

(** The times after [hi]. *)
Definition live (hi : Z) (l : list Z) : list Z := List.filter (λ t, hi <? t) l.
Arguments live : simpl never.

Definition scores (s : zset) : list Z := map fst s.

Arguments scores : simpl never.

Lemma scores_app (s k : zset) : scores (s ++ k) = scores s ++ scores k.
Proof. apply map_app. Qed.

Lemma live_app (hi : Z) (l k : list Z) : live hi (l ++ k) = live hi l ++ live hi k.
Proof. apply List.filter_app. Qed.

Lemma scores_prune (hi : Z) (s : zset) : scores (zremrangebyscore hi s) = live hi (scores s).
Proof.
  unfold scores, live, zremrangebyscore. induction s as [|x s IH]; cbn; [done|].
  unfold live in *. cbn. destruct (hi <? x.1); cbn; by rewrite IH.
Qed.

Lemma live_live (hi hi' : Z) (l : list Z) : hi <= hi' → live hi' (live hi l) = live hi' l.
Proof. intros H. apply filter_filter_imp. intros t Ht. bool_to_prop. apply Z.ltb_lt. lia. Qed.

Lemma live_nil (hi : Z) (l : list Z) : (∀ t, t ∈ l → t <= hi) → live hi l = [].
Proof.
  unfold live. induction l as [|t l IH]; intros H; cbn; [done|]. rewrite (proj2 (Z.ltb_ge _ _)) by (apply H; set_solver).
  apply IH. set_solver.
Qed.

#[global] Instance live_perm (hi : Z) : Proper (Permutation ==> Permutation) (live hi).
Proof.
  intros l k H. unfold live. induction H; cbn.
  - done.
  - by destruct (_ <? _); [constructor|].
  - destruct (hi <? x), (hi <? y); try done; constructor.
  - by etrans.
Qed.

Lemma count_window (w now : Z) (l : list Z) :
  (∀ t, t ∈ l → t <= now) → count_if (in_window w now) l = Z.of_nat (length (live (now - w - 1) l)).
Proof.
  unfold count_if, live, in_window. intros H. f_equal. f_equal. induction l as [|t l IH]; cbn; [done|].
  rewrite (proj2 (Z.leb_le t now)), andb_true_r by (apply H; set_solver).
  rewrite IH by set_solver. destruct (Z.leb_spec (now - w) t), (Z.ltb_spec (now - w - 1) t); try done; lia.
Qed.

(** A member that is new does not replace another. *)
Lemma zadd_new (score : Z) (m : string) (s : zset) : (∀ x, x ∈ s → x.2 ≠ m) → zadd score m s = s ++ [(score, m)].
Proof.
  intros H. unfold zadd. f_equal. induction s as [|x s IH]; cbn; [done|].
  rewrite (proj2 (String.eqb_neq _ _)) by (apply H; set_solver). cbn. f_equal. apply IH. set_solver.
Qed.

Lemma elem_of_visible (now : Z) (e : option entry) (x : Z * string) :
  x ∈ visible now e → ∃ e', e = Some e' ∧ x ∈ members e'.
Proof. destruct e as [e|]; cbn; [destruct (_ <=? _)|]; set_solver. Qed.

Lemma zcount_scores (w now : Z) (s : zset) : zcount (now - w) now s = count_if (in_window w now) (scores s).
Proof.
  unfold zcount, scores, count_if, in_window. f_equal. induction s as [|x s IH]; cbn; [done|].
  destruct (_ && _); cbn; lia.
Qed.

(** The set of a key agrees, from time [last] on, with the log of the admitted requests. *)
Record agrees (w last : Z) (used : list string) (e : option entry) (log : list Z) : Prop := {
  agrees_past : ∀ t, t ∈ log → t <= last;
  agrees_used : ∀ e' x, e = Some e' → x ∈ members e' → x.2 ∈ used;
  agrees_live : ∀ now, last <= now →
    live (now - w - 1) (scores (visible now e)) ≡ₚ live (now - w - 1) log }.

Lemma agrees_script (w max last now : Z) (used : list string) (m : string) (e : option entry) (log : list Z) :
  0 <= w → last <= now → m ∉ used → agrees w last used e log →
  let ok := count_if (in_window w now) log <? max in
  let '((verdict, current, _, _), e') := SLIDING_WINDOW_SCRIPT e now w max (ceil_div w 1000 + 1) m in
  (verdict =? 1) = ok ∧ (current = count_if (in_window w now) log + (if ok then 1 else 0)) ∧
  agrees w now (m :: used) e' (if ok then now :: log else log).
Proof.
  intros Hw Hlast Hm [Hpast Hused Hlive] ok. unfold SLIDING_WINDOW_SCRIPT. cbv zeta.
  set (pruned := zremrangebyscore (now - w - 1) (visible now e)).
  assert (scores pruned ≡ₚ live (now - w - 1) log) as Hp by (unfold pruned; rewrite scores_prune; by apply Hlive).
  assert (zcount (now - w) now pruned = count_if (in_window w now) log) as Hcount.
  { rewrite zcount_scores, (count_window w now log), (count_window w now (scores pruned)).
    - by rewrite Hp, live_live by lia.
    - intros t. rewrite Hp. unfold live. rewrite elem_of_filter_b.
      intros [Ht _]. specialize (Hpast t Ht). lia.
    - intros t Ht. specialize (Hpast t Ht). lia. }
  rewrite Hcount. unfold ok. destruct (Z.ltb_spec (count_if (in_window w now) log) max) as [Hok|Hok]; cbn.
  - split; [done|]. split; [done|].
    assert (∀ x, x ∈ pruned → x.2 ∈ used) as Hpu.
    { intros x. unfold pruned, zremrangebyscore. rewrite elem_of_filter_b.
      intros [Hx _]. apply elem_of_visible in Hx as (e' & -> & Hx). by eapply Hused. }
    rewrite zadd_new by (intros x Hx Heq; apply Hm; rewrite <- Heq; by apply Hpu).
    split.
    + intros t. rewrite elem_of_cons. intros [->|Ht]; [lia|]. specialize (Hpast t Ht). lia.
    + intros e' x [= <-]. cbn. rewrite elem_of_app, list_elem_of_singleton. intros [Hx| ->]; [right; by apply Hpu|left].
    + intros now' Hnow'. cbn. pose proof (Z.div_mod (- w) 1000 ltac:(lia)). pose proof (Z.mod_pos_bound (- w) 1000 ltac:(lia)).
      unfold ceil_div. destruct (Z.leb_spec (now + 1000 * (- (- w / 1000) + 1)) now') as [Hexp|Hexp].
      * rewrite (live_nil _ (now :: log)); [done|]. intros t. rewrite elem_of_cons.
        intros [->|Ht]; [lia|]. specialize (Hpast t Ht). lia.
      * rewrite scores_app, Hp, live_app, live_live by lia. change (scores [(now, m)]) with [now].
        rewrite (live_app _ [now] log : live _ (now :: log) = _). apply Permutation_app_comm.
  - split; [done|]. split; [lia|]. split.
    + intros t Ht. specialize (Hpast t Ht). lia.
    + intros e' x He Hx. right. destruct e as [e|]; [|done]. injection He as <-. cbn in Hx.
      unfold pruned, zremrangebyscore in Hx. rewrite elem_of_filter_b in Hx.
      destruct Hx as [Hx _]. apply (elem_of_visible now (Some e)) in Hx as (e' & [= <-] & Hx). by eapply Hused.
    + intros now' Hnow'. rewrite <- Hlive by lia. destruct e as [e|]; [|done]. cbn [visible expires_at members].
      destruct (Z.leb_spec (expires_at e) now') as [He|He]; [done|].
      unfold pruned. rewrite scores_prune, live_live by lia. cbn [visible]. by rewrite (proj2 (Z.leb_gt _ _)) by lia.
Qed.

Lemma checkLimit_agrees (config : gmap string RateLimitConfig) (cfg : RateLimitConfig) (identifier type : string)
    (env : Env) (redis : store) (last : Z) (used : list string) (log : list Z) :
  let key := (keyPrefix cfg +:+ identifier)%string in
  let ok := count_if (in_window (windowMs cfg) (env_now env)) log <? maxRequests cfg in
  config !! type = Some cfg → 0 <= windowMs cfg → env_reachable env = true → last <= env_now env →
  member_of env ∉ used → agrees (windowMs cfg) last used (redis !! key) log →
  is_allowed (checkLimit config identifier type env redis).1 = ok ∧
  agrees (windowMs cfg) (env_now env) (member_of env :: used)
    ((checkLimit config identifier type env redis).2 !! key) (if ok then env_now env :: log else log).
Proof.
  intros key ok Hcfg Hw Hr Hlast Hm Ha. unfold checkLimit. rewrite Hcfg, Hr.
  pose proof (agrees_script (windowMs cfg) (maxRequests cfg) last (env_now env) used (member_of env)
    (redis !! key) log Hw Hlast Hm Ha) as Hs. fold key.
  destruct (SLIDING_WINDOW_SCRIPT _ _ _ _ _ _) as [[[[verdict cur] reset] d] e']. destruct Hs as (Hv & _ & Hs').
  cbn [fst snd is_allowed allowed]. split; [done|]. by rewrite lookup_partial_alter_eq.
Qed.

Lemma serve_reference (config : gmap string RateLimitConfig) (cfg : RateLimitConfig) (identifier type : string)
    (envs : list Env) (redis : store) (last : Z) (used : list string) (log : list Z) :
  config !! type = Some cfg → 0 <= windowMs cfg → Forall (λ env, env_reachable env = true) envs →
  StronglySorted Z.le (last :: map env_now envs) → NoDup (map member_of envs) →
  (∀ m, m ∈ used → m ∉ map member_of envs) →
  agrees (windowMs cfg) last used (redis !! (keyPrefix cfg +:+ identifier)%string) log →
  map is_allowed (serve config identifier type envs redis)
    = reference (windowMs cfg) (maxRequests cfg) log (map env_now envs).
Proof.
  intros Hcfg Hw. revert redis last used log.
  induction envs as [|env envs IH]; intros redis last used log Hr Hs Hn Hu Ha; cbn; [done|].
  inversion Hr as [|? ? Hr1 Hr2]; subst. inversion Hs as [|? ? Hs1 Hs2]; subst. inversion Hn as [|? ? Hn1 Hn2]; subst.
  assert (last <= env_now env) as Hlast by (rewrite Forall_forall in Hs2; apply Hs2; cbn; set_solver).
  assert (member_of env ∉ used) as Hm by (intros Hin; apply (Hu _ Hin); cbn; set_solver).
  destruct (checkLimit_agrees config cfg identifier type env redis last used log Hcfg Hw Hr1 Hlast Hm Ha) as [Hv Ha'].
  destruct (checkLimit config identifier type env redis) as [r redis']. cbn in Hv, Ha'. cbn [map]. rewrite Hv. f_equal.
  eapply IH; [done|exact Hs1|done| |exact Ha'].
  intros m [->|Hin]%elem_of_cons; [done|]. specialize (Hu m Hin). cbn in Hu. set_solver.
Qed.

Lemma count_if_le {A : Type} (p q : A → bool) (l : list A) :
  (∀ a, a ∈ l → p a = true → q a = true) → count_if p l <= count_if q l.
Proof.
  unfold count_if. induction l as [|a l IH]; intros H; cbn; [done|].
  assert (∀ a, a ∈ l → p a = true → q a = true) as H' by (intros; apply H; set_solver).
  specialize (IH H'). destruct (p a) eqn:Hp; [rewrite (H a) by (done || set_solver); cbn; lia|].
  destruct (q a); cbn; lia.
Qed.

Lemma count_if_cons {A : Type} (p : A → bool) (a : A) (l : list A) :
  count_if p (a :: l) = (if p a then 1 else 0) + count_if p l.
Proof. unfold count_if. cbn. destruct (p a); cbn; lia. Qed.

(** The reference never admits more than [max] requests in any window. *)
Lemma reference_bound (w max last : Z) (times log : list Z) :
  (∀ t, t ∈ log → t <= last) → StronglySorted Z.le (last :: times) →
  (∀ t, count_if (in_window w t) log <= Z.max 0 max) →
  ∀ t, count_if (in_window w t) (admitted times (reference w max log times)) + count_if (in_window w t) log <= Z.max 0 max.
Proof.
  revert last log. induction times as [|now times IH]; intros last log Hlog Hs Hb t; cbn; [by apply Hb|].
  inversion Hs as [|? ? Hs1 Hs2]; subst.
  assert (last <= now) as Hlast by (rewrite Forall_forall in Hs2; apply Hs2; set_solver).
  unfold admitted. cbn. destruct (Z.ltb_spec (count_if (in_window w now) log) max) as [Hok|Hok]; cbn.
  - fold (admitted times (reference w max (now :: log) times)). rewrite count_if_cons.
    specialize (IH now (now :: log)). rewrite <- (IH ltac:(intros x [->|Hx]%elem_of_cons; [lia|specialize (Hlog x Hx); lia]) Hs1) with (t := t).
    + rewrite count_if_cons. lia.
    + intros t'. rewrite count_if_cons. destruct (in_window w t' now) eqn:Hin; [|apply Hb].
      unfold in_window in Hin. bool_to_prop.
      assert (count_if (in_window w t') log <= count_if (in_window w now) log); [|lia].
      apply count_if_le. intros x Hx Hxin. unfold in_window in *. bool_to_prop. specialize (Hlog x Hx).
      apply andb_true_iff. split; apply Z.leb_le; lia.
  - fold (admitted times (reference w max log times)). apply (IH now); [|done..].
    intros x Hx. specialize (Hlog x Hx). lia.
Qed.

End RateLimiterService.

(** ** [rate-limit.middleware.ts] *)
Module RateLimitMiddleware.
Import RateLimiterService.

Definition WALLET_ENDPOINTS : list (string * string) :=
  [("POST", "/financing-pool/fund"); ("POST", "/settlement/settle")]%string.

(** [userId] and [walletAddress] of the request, of [req.user], or of a token's payload. *)
Record Identity := mkIdentity { userId : option string; walletAddress : option string }.

Record Request := mkRequest {
  method : string; path : string;
  x_forwarded_for : option string; authorization : option string; remoteAddress : option string;
  req_identity : Identity; req_user : Identity }.

(** [a ?? b] *)
Definition coalesce {A : Type} (a b : option A) : option A := match a with Some _ => a | None => b end.

Definition getClientIp (req : Request) : string :=
  match x_forwarded_for req with
  | Some forwarded => trim (default EmptyString (head (Js.split "," forwarded)))
  | None => if truthy_opt (remoteAddress req) then default EmptyString (remoteAddress req) else "unknown"
  end.

Definition getBearerToken (req : Request) : option string :=
  match authorization req with
  | None => None
  | Some authorization =>
      match Js.split " " authorization with
      | scheme :: token :: _ =>
          if String.eqb (toLowerCase scheme) "bearer" && truthy token then Some token else None
      | _ => None
      end
  end.

(** [verify] is the token check of the JWT service with the secret of the vault, when both are
    injected; its failures are caught. *)
Definition resolveIdentity (verify : option (string → outcome exn Identity)) (req : Request) : Identity :=
  let user := coalesce (userId (req_identity req)) (userId (req_user req)) in
  let wallet := coalesce (walletAddress (req_identity req)) (walletAddress (req_user req)) in
  match getBearerToken req, verify with
  | Some token, Some verify =>
      if negb (truthy_opt user) || negb (truthy_opt wallet) then
        match verify token with
        | Ret payload => mkIdentity (coalesce user (userId payload)) (coalesce wallet (walletAddress payload))
        | Throw _ => mkIdentity user wallet
        end
      else mkIdentity user wallet
  | _, _ => mkIdentity user wallet
  end.

(** [req.path.replace(/^\/api(?=\/|$)/, '')] *)
Definition strip_api (path : string) : string :=
  if startsWith path "/api" then
    let rest := slice_from 4 path in
    if String.eqb rest "" || startsWith rest "/" then rest else path
  else path.

Definition isWalletEndpoint (req : Request) : bool :=
  let p := strip_api (path req) in
  existsb (λ '(m, e), String.eqb m (method req) && (String.eqb p e || startsWith p (e +:+ "/")%string)) WALLET_ENDPOINTS.

Definition capitalize (s : string) : string :=
  match to_list s with [] => s | c :: l => of_list (upper_char c :: l) end.

(** The headers set so far, and the store of Redis. *)
Definition state : Type := list (string * string) * gmap string SortedSet.entry.

Definition applyHeaders (tier : string) (result : RateLimitResult) : list (string * string) :=
  let prefix := ("X-RateLimit-" +:+ capitalize tier)%string in
  [(prefix +:+ "-Limit", Z_to_string (limit result));
   (prefix +:+ "-Remaining", Z_to_string (Z.max 0 (limit result - current result)));
   (prefix +:+ "-Reset", Z_to_string (ceil_div (resetAt result) 1000))]%string.

Definition set_headers (headers : list (string * string)) : M exn state unit :=
  λ st, (Ret tt, (st.1 ++ headers, st.2)).

Definition reject (env : Env) (result : RateLimitResult) (tier : string) : M exn state unit :=
  let retryAfter := default (Z.max 1 (ceil_div (resetAt result - env_now env) 1000)) (retryAfter result) in
  set_headers [("Retry-After", Z_to_string retryAfter); ("X-RateLimit-Tier", tier)]%string ≫= λ _,
  throw (HttpException 429 (tier +:+ " rate limit exceeded. Retry after " +:+ Z_to_string retryAfter +:+ " second"
    +:+ (if (retryAfter =? 1)%Z then "" else "s") +:+ ".")%string).

Section middleware.
Variable config : gmap string RateLimitConfig.
Variable enableRateLimit : bool.
Variable verify : option (string → outcome exn Identity).

(** One counter: check, headers, rejection. *)
Definition tier (identifier type name : string) (env : Env) : M exn state unit :=
  result ← (λ st, let '(r, redis) := checkLimit config identifier type env st.2 in (r, (st.1, redis)));
  set_headers (applyHeaders type result) ≫= λ _,
  if allowed result then mret tt else reject env result name.

(** [env1] and [env2] are what the first and the second check find; [Ret] is [next()]. *)
Definition use (req : Request) (env1 env2 : Env) : M exn state unit :=
  if negb enableRateLimit then mret tt
  else
    let clientIp := getClientIp req in
    let identity := resolveIdentity verify req in
    try_catch
      ((if truthy_opt (userId identity)
        then tier (default EmptyString (userId identity)) "user" "user" env1
        else tier clientIp "ip" "IP" env1) ≫= λ _,
       if isWalletEndpoint req && truthy_opt (walletAddress identity)
       then tier (default EmptyString (walletAddress identity)) "wallet" "wallet" env2
       else mret tt)
      (λ error, if is_http error then throw error else mret tt).
End middleware.

(** *** Lemmas *)

(** A refusal tells how long to wait, at least a second. *)
Lemma denied_retryAfter (config : gmap string RateLimitConfig) (identifier type : string) (env : Env)
    (redis : gmap string SortedSet.entry) (r : RateLimitResult) :
  (checkLimit config identifier type env redis).1 = Ret r → allowed r = false →
  ∃ n, retryAfter r = Some n ∧ 1 <= n.
Proof.
  unfold checkLimit. destruct (config !! type); [|done]. destruct (env_reachable env); [|by intros [= <-]].
  destruct (SLIDING_WINDOW_SCRIPT _ _ _ _ _ _) as [[[[v c] reset] d] e]. intros [= <-]. cbn. intros ->.
  eexists. split; [done|]. lia.
Qed.

(** A refused request: 429, and a header with a wait of at least one second. *)
Definition refused (o : outcome exn unit * state) : Prop :=
  ∃ n msg, 1 <= n ∧ o.1 = Throw (HttpException 429 msg) ∧ ("Retry-After"%string, Z_to_string n) ∈ o.2.1.

Lemma configs_defined (s : Settings) (type : string) :
  type ∈ ["ip"; "user"; "wallet"; "operation"]%string → is_Some (configs s !! type).
Proof.
  intros H. unfold configs. repeat (apply elem_of_cons in H as [->|H]; [by vm_compute; eauto|]). by apply elem_of_nil in H.
Qed.

(** One tier: passes or refuses as the service says, and leaves its store. *)
Lemma tier_spec (s : Settings) (identifier type name : string) (env : Env) (st : state) :
  type ∈ ["ip"; "user"; "wallet"; "operation"]%string →
  let verdict := checkLimit (configs s) identifier type env st.2 in
  let run := tier (configs s) identifier type name env st in
  run.2.2 = verdict.2 ∧ if is_allowed verdict.1 then run.1 = Ret tt else refused run.
Proof.
  intros Htype verdict run. unfold run, tier, mbind, M_bind, set_headers. fold verdict.
  destruct verdict as [[r|e] redis] eqn:Hv; cbn.
  - destruct (allowed r) eqn:Ha; cbn; [done|]. split; [done|].
    destruct (denied_retryAfter (configs s) identifier type env st.2 r) as (n & Hn & Hpos).
    { unfold verdict in Hv. by rewrite Hv. } { done. }
    unfold refused, reject, mbind, M_bind, set_headers, throw. cbn. rewrite Hn. cbn.
    exists n. eexists. split; [done|]. split; [done|]. set_solver.
  - exfalso. destruct (configs_defined s type Htype) as [cfg Hcfg]. unfold verdict, checkLimit in Hv. rewrite Hcfg in Hv.
    destruct (env_reachable env); [|done]. by destruct (SLIDING_WINDOW_SCRIPT _ _ _ _ _ _) as [[[[? ?] ?] ?] ?].
Qed.

(** The middleware charges exactly the counters that apply.  A request with a user is counted
    under that user and otherwise under its IP address; only if that passes, and only on the
    two wallet endpoints, it is also counted under its wallet; it is passed on exactly when
    every counter it is charged to admits it, and refused with a 429 that names a wait of at
    least one second otherwise. *)
Theorem use_charges_counters (s : Settings) (verify : option (string → outcome exn Identity)) (req : Request)
    (env1 env2 : Env) (st : state) :
  let identity := resolveIdentity verify req in
  let first := match userId identity with
               | Some u => if truthy u then ("user"%string, u) else ("ip"%string, getClientIp req)
               | None => ("ip"%string, getClientIp req) end in
  let charged := checkLimit (configs s) first.2 first.1 env1 st.2 in
  let run := use (configs s) true verify req env1 env2 st in
  if negb (is_allowed charged.1) then refused run ∧ run.2.2 = charged.2
  else if isWalletEndpoint req && truthy_opt (walletAddress identity) then
    let charged' := checkLimit (configs s) (default EmptyString (walletAddress identity)) "wallet" env2 charged.2 in
    run.2.2 = charged'.2 ∧ (if is_allowed charged'.1 then run.1 = Ret tt else refused run)
  else run.1 = Ret tt ∧ run.2.2 = charged.2.
Proof.
  intros identity first charged run.
  assert ((if truthy_opt (userId identity)
           then tier (configs s) (default EmptyString (userId identity)) "user" "user" env1
           else tier (configs s) (getClientIp req) "ip" "IP" env1)
          = tier (configs s) first.2 first.1 (if truthy_opt (userId identity) then "user" else "IP") env1) as Htier.
  { unfold first. destruct (userId identity) as [u|]; cbn; [by destruct (truthy u)|done]. }
  assert (first.1 ∈ ["ip"; "user"; "wallet"; "operation"]%string) as Hin.
  { unfold first. repeat case_match; set_solver. }
  pose proof (tier_spec s first.2 first.1 (if truthy_opt (userId identity) then "user" else "IP") env1 st Hin) as [Hst Hr].
  fold charged in Hst, Hr. unfold run, use. cbn [negb]. fold identity. rewrite Htier. unfold try_catch, mbind, M_bind.
  destruct (tier (configs s) first.2 first.1 _ env1 st) as [r1 st1]. cbn in Hst, Hr.
  destruct (is_allowed charged.1); cbn [negb].
  - subst r1. destruct (isWalletEndpoint req && truthy_opt (walletAddress identity)); [|done].
    pose proof (tier_spec s (default EmptyString (walletAddress identity)) "wallet" "wallet" env2 st1 ltac:(set_solver)) as [Hst2 Hr2].
    rewrite Hst in Hst2, Hr2. destruct (tier _ _ "wallet" _ env2 st1) as [r2 st2]. cbn in Hst2, Hr2.
    destruct (is_allowed _).
    + by subst r2.
    + destruct Hr2 as (n & msg & Hn & Hr2 & Hh). cbn in Hr2. subst r2. cbn. split; [done|]. by exists n, msg.
  - destruct Hr as (n & msg & Hn & Hr & Hh). cbn in Hr. subst r1. cbn. split; [by exists n, msg|done].
Qed.
End RateLimitMiddleware.

(** ** Examples *)
Module RateLimitExamples.
Import RateLimiterService.

Definition settings_ex : Settings := mkSettings (Some 1) (Some 1000) None None None None None None.

Definition at_time (now : Z) (random : string) : Env := mkEnv now random true.

Definition envs_ex : list Env := [at_time 0 "a"; at_time 500 "b"; at_time 1001 "c"].


(** A client that waits exactly as long as [Retry-After] says can be refused again: the request
    that fills the window still counts when it is [windowMs] old. *)
Lemma retry_after_is_early :
  serve (configs settings_ex) "1.2.3.4" "ip" [at_time 0 "a"; at_time 0 "b"; at_time 1000 "c"] ∅
  = [Ret (mkResult true 1 1 1000 None); Ret (mkResult false 1 1 1000 (Some 1));
     Ret (mkResult false 1 1 1000 (Some 1))].
Proof. vm_compute. reflexivity. Qed.
End RateLimitExamples.
