(* ===== verification/LoadTest.v ===== *)
(** * The load test of the rate limits ([src/backend/load-tests/rate-limiting.k6.js])

    The script's bursts, run against the middleware of RateLimit.v: what its metrics end up at.
    The runner (k6) is left out but for its loop over requests; [seen_as] is the spelling under
    which its HTTP client stores the name of a header. *)
From S2P Require Import Prelude Js Errors RateLimit.
From stdpp Require Import gmap strings.
Import SortedSet RateLimiterService RateLimitMiddleware.
Open Scope Z_scope.

Module RateLimitingLoadTest.

(** ** Numbers *)

Definition IP_LIMIT (s : Settings) : Z := default 100 (RATE_LIMIT_IP_REQUESTS s).
Definition USER_LIMIT (s : Settings) : Z := default 1000 (RATE_LIMIT_USER_REQUESTS s).
Definition WALLET_LIMIT (s : Settings) : Z := default 30 (RATE_LIMIT_WALLET_REQUESTS s).

(** [Math.ceil(limit * 1.5)] *)
Definition burst (limit : Z) : Z := ceil_div (3 * limit) 2.

(** [toFixed(4)] of a fraction, in ten-thousandths *)
Definition toFixed4 (num den : Z) : Z := (20000 * num + den) / (2 * den).

(** The bounds of a threshold: [(burst - limit) / burst], less and plus 0.05 *)
Definition lower (limit : Z) : Z :=
  toFixed4 (Z.max 0 (20 * (burst limit - limit) - burst limit)) (20 * burst limit).
Definition upper (limit : Z) : Z :=
  toFixed4 (Z.min (20 * burst limit) (20 * (burst limit - limit) + burst limit)) (20 * burst limit).

(** A [Rate]: how many of the values added were true, and how many were added *)
Record Rate := mkRate { hits : Z; total : Z }.

Definition add (b : bool) (r : Rate) : Rate := mkRate (hits r + if b then 1 else 0) (total r + 1).

(** [rate>=lower] and [rate<=upper] *)
Definition meets (limit : Z) (r : Rate) : bool :=
  (lower limit * total r <=? 10000 * hits r) && (10000 * hits r <=? upper limit * total r).

Record Metrics := mkMetrics {
  ip_rate_limited : Rate; user_rate_limited : Rate; wallet_rate_limited : Rate;
  non_429_error : Rate; missing_ratelimit_headers : Z }.

(** ** Requests *)

Record Response := mkResponse { status : Z; headers : list (string * string) }.

Definition no_one : Identity := mkIdentity None None.

Definition ip_request (vu : string) : Request :=
  mkRequest "GET" "/health" (Some ("198.51.100." +:+ vu)%string) None None no_one no_one.
Definition user_request (vu token : string) : Request :=
  mkRequest "GET" "/api/invoices" (Some ("203.0.113." +:+ vu)%string) (Some ("Bearer " +:+ token)%string) None no_one no_one.
Definition fund_request (vu token : string) : Request :=
  mkRequest "POST" "/api/financing-pool/fund" (Some ("192.0.2." +:+ vu)%string) (Some ("Bearer " +:+ token)%string) None no_one no_one.
Definition settle_request (vu token : string) : Request :=
  mkRequest "POST" "/api/settlement/settle" (Some ("192.0.2." +:+ vu)%string) (Some ("Bearer " +:+ token)%string) None no_one no_one.

Section test.
Variable s : Settings.
Variable verify : option (string → outcome exn Identity).
(** the status with which the backend answers a request that the middleware passes on *)
Variable app : Request → Z.
Variable seen_as : string → string.

Definition respond (req : Request) (env : Env * Env) (redis : store) : Response * store :=
  match use (configs s) true verify req env.1 env.2 ([], redis) with
  | (Ret _, (hs, redis')) => (mkResponse (app req) hs, redis')
  | (Throw (HttpException code _), (hs, redis')) => (mkResponse code hs, redis')
  | (Throw _, (hs, redis')) => (mkResponse 500 hs, redis')
  end.

(** Requests one after the other, each with what it finds *)
Fixpoint send_each (reqs : list (Request * (Env * Env))) (redis : store) : list Response * store :=
  match reqs with
  | [] => ([], redis)
  | (req, env) :: reqs' =>
      let '(r, redis') := respond req env redis in
      let '(rs, redis'') := send_each reqs' redis' in
      (r :: rs, redis'')
  end.

(** The same request in a loop *)
Definition send_all (req : Request) (envs : list (Env * Env)) (redis : store) : list Response * store :=
  send_each (map (pair req) envs) redis.

(** ['name' in r.headers] and [r.headers['name'] || ''] *)
Definition header (name : string) (r : Response) : option string :=
  option_map snd (List.find (λ h, String.eqb (seen_as h.1) name) (headers r)).
Definition has (name : string) (r : Response) : bool := match header name r with Some _ => true | None => false end.

Definition is429 (r : Response) : bool := status r =? 429.

Definition includes (l : list Z) (n : Z) : bool := existsb (Z.eqb n) l.

(** *** The checks of each group *)

Definition ip_checks (r : Response) : list bool :=
  [(status r =? 200) || (status r =? 429); has "x-ratelimit-ip-limit" r; negb (is429 r) || has "retry-after" r;
   negb (is429 r) || String.eqb (toLowerCase (default EmptyString (header "x-ratelimit-tier" r))) "ip"].

Definition user_checks (r : Response) : list bool :=
  [includes [200; 401; 429] (status r); is429 r || has "x-ratelimit-user-limit" r; negb (is429 r) || has "retry-after" r;
   negb (is429 r) ||
     let text := default EmptyString (header "retry-after" r) in
     match parseInt (if truthy text then text else "0") with Some val => 0 <? val | None => false end].

Definition wallet_checks (r : Response) : list bool :=
  [includes [200; 201; 400; 401; 429] (status r); has "x-ratelimit-wallet-limit" r; negb (is429 r) || has "retry-after" r;
   negb (is429 r) || String.eqb (toLowerCase (default EmptyString (header "x-ratelimit-tier" r))) "wallet"].

Definition settle_checks (r : Response) : list bool :=
  [includes [200; 201; 400; 401; 429] (status r); negb (is429 r) || has "retry-after" r].

(** *** What each group records of a response *)

Definition ip_response (m : Metrics) (r : Response) : Metrics :=
  mkMetrics (add (is429 r) (ip_rate_limited m)) (user_rate_limited m) (wallet_rate_limited m)
    (add (negb (status r =? 200) && negb (is429 r)) (non_429_error m))
    (missing_ratelimit_headers m + if negb (has "x-ratelimit-ip-limit" r) && negb (is429 r) then 1 else 0).

Definition user_response (m : Metrics) (r : Response) : Metrics :=
  mkMetrics (ip_rate_limited m) (add (is429 r) (user_rate_limited m)) (wallet_rate_limited m)
    (add (negb (includes [200; 401] (status r)) && negb (is429 r)) (non_429_error m)) (missing_ratelimit_headers m).

Definition wallet_response (m : Metrics) (r : Response) : Metrics :=
  mkMetrics (ip_rate_limited m) (user_rate_limited m) (add (is429 r) (wallet_rate_limited m))
    (add (negb (includes [200; 201; 400; 401] (status r)) && negb (is429 r)) (non_429_error m))
    (missing_ratelimit_headers m + if negb (has "x-ratelimit-wallet-limit" r) && (status r =? 200) then 1 else 0).

Definition settle_response (m : Metrics) (r : Response) : Metrics :=
  mkMetrics (ip_rate_limited m) (user_rate_limited m) (wallet_rate_limited m)
    (add (negb (includes [200; 201; 400; 401] (status r)) && negb (is429 r)) (non_429_error m)) (missing_ratelimit_headers m).

(** What the requests of the four groups find, in order *)
Record Times := mkTimes {
  ip_times : list (Env * Env); user_times : list (Env * Env);
  fund_times : list (Env * Env); settle_times : list (Env * Env) }.

Definition empty_metrics : Metrics := mkMetrics (mkRate 0 0) (mkRate 0 0) (mkRate 0 0) (mkRate 0 0) 0.

(** The default function: the one iteration of a virtual user *)
Definition iteration (vu token : string) (t : Times) (redis : store) : Metrics * store :=
  let '(ips, redis1) := send_all (ip_request vu) (ip_times t) redis in
  let '(users, redis2) := send_all (user_request vu token) (user_times t) redis1 in
  let '(funds, redis3) := send_all (fund_request vu token) (fund_times t) redis2 in
  let '(settles, redis4) := send_all (settle_request vu token) (settle_times t) redis3 in
  (fold_left settle_response settles (fold_left wallet_response funds
     (fold_left user_response users (fold_left ip_response ips empty_metrics))), redis4).
End test.

(** *** A burst against the reference limiter *)

Lemma count_if_all {A : Type} (p : A → bool) (l : list A) : (∀ a, a ∈ l → p a = true) → count_if p l = Z.of_nat (length l).
Proof.
  induction l as [|a l IH]; intros H; [done|]. rewrite count_if_cons, (H a), IH by set_solver. cbn [length]. lia.
Qed.

(** Within one window, the requests up to the limit are admitted and the others are not. *)
Lemma reference_burst (w max a : Z) (log times : list Z) :
  (∀ t, t ∈ log ++ times → a <= t <= a + w) → StronglySorted Z.le times → (∀ t t', t ∈ log → t' ∈ times → t <= t') →
  let k := Z.to_nat (max - Z.of_nat (length log)) in
  reference w max log times = replicate (Nat.min (length times) k) true ++ replicate (length times - k) false.
Proof.
  revert log. induction times as [|now times IH]; intros log Hin Hs Hle k; [done|]. inversion Hs as [|? ? Hs1 Hs2]; subst.
  assert (count_if (in_window w now) log = Z.of_nat (length log)) as Hc.
  { apply count_if_all. intros t Ht. unfold in_window.
    pose proof (Hin t ltac:(set_solver)). pose proof (Hin now ltac:(set_solver)). pose proof (Hle t now Ht ltac:(set_solver)).
    apply andb_true_iff. split; apply Z.leb_le; lia. }
  cbn [reference]. rewrite Hc. destruct (Z.ltb_spec (Z.of_nat (length log)) max) as [Hok|Hok].
  - rewrite IH; [|set_solver|done|].
    + assert (k = S (Z.to_nat (max - Z.of_nat (length (now :: log))))) as -> by (unfold k; cbn; lia). done.
    + intros t t' [->|Ht]%elem_of_cons Ht'; [by rewrite Forall_forall in Hs2; apply Hs2|by apply Hle; [|set_solver]].
  - rewrite IH; [|set_solver|done|set_solver]. assert (k = 0%nat) as Hk by (unfold k; lia). unfold k in *. rewrite Hk, !Nat.min_0_r, !Nat.sub_0_r. done.
Qed.

Lemma last_cons' {A : Type} (x d : A) (l : list A) : List.last (x :: l) d = List.last l x.
Proof. revert x d. induction l as [|y l IH]; intros x d; [done|]. change (List.last (y :: l) d = List.last (y :: l) x). by rewrite !IH. Qed.

(** The log at the end *)
Fixpoint reference_log (w max : Z) (log times : list Z) : list Z :=
  match times with
  | [] => log
  | now :: times' => reference_log w max (if count_if (in_window w now) log <? max then now :: log else log) times'
  end.

Lemma reference_log_spec (w max : Z) (log times : list Z) :
  (∀ t, t ∈ reference_log w max log times → t ∈ log ++ times) ∧
  length (reference_log w max log times) = (length log + length (List.filter id (reference w max log times)))%nat.
Proof.
  revert log. induction times as [|now times IH]; intros log; cbn; [split; [set_solver|lia]|].
  destruct (count_if (in_window w now) log <? max); destruct (IH (now :: log)) as [H1 H2], (IH log) as [H3 H4].
  - split; [intros t Ht; specialize (H1 t Ht); set_solver|]. cbn in *. lia.
  - split; [intros t Ht; specialize (H3 t Ht); set_solver|]. cbn in *. lia.
Qed.

Lemma filter_replicate (n m : nat) : length (List.filter id (replicate n true ++ replicate m false)) = n.
Proof. induction n as [|n IH]; cbn; [by induction m|by rewrite IH]. Qed.

Section proofs.
Variable s : Settings.
Variable verify : option (string → outcome exn Identity).
Variable app : Request → Z.

(** The counter that a request is charged to first *)
Definition first_tier (req : Request) : string * string :=
  match userId (resolveIdentity verify req) with
  | Some u => if truthy u then ("user", u)%string else ("ip"%string, getClientIp req)
  | None => ("ip"%string, getClientIp req)
  end.

(** Its answer, on either verdict *)
Lemma respond_first (req : Request) (env : Env * Env) (redis : store) :
  isWalletEndpoint req && truthy_opt (walletAddress (resolveIdentity verify req)) = false ∨
    is_allowed (checkLimit (configs s) (first_tier req).2 (first_tier req).1 env.1 redis).1 = false →
  let charged := checkLimit (configs s) (first_tier req).2 (first_tier req).1 env.1 redis in
  let r := respond s verify app req env redis in
  r.2 = charged.2 ∧ status r.1 = if is_allowed charged.1 then app req else 429.
Proof.
  intros Hone charged r. pose proof (use_charges_counters s verify req env.1 env.2 ([], redis)) as H. cbv zeta in H.
  change (match userId (resolveIdentity verify req) with
          | Some u => if truthy u then ("user"%string, u) else ("ip"%string, getClientIp req)
          | None => ("ip"%string, getClientIp req) end) with (first_tier req) in H.
  cbn [snd] in H. fold charged in H, Hone. unfold r, respond. destruct (is_allowed charged.1); cbn [negb] in H.
  - destruct Hone as [Hone|Hone]; [|done]. rewrite Hone in H. destruct H as [H1 H2].
    destruct (use _ _ _ _ _ _ _) as [o [hs redis']]. cbn in H1, H2. by subst o redis'.
  - destruct H as [(n & msg & _ & H1 & _) H2]. destruct (use _ _ _ _ _ _ _) as [o [hs redis']]. cbn in H1, H2. by subst o redis'.
Qed.

Definition one_tier (req : Request) : Prop :=
  isWalletEndpoint req && truthy_opt (walletAddress (resolveIdentity verify req)) = false.

Definition members_of (envs : list (Env * Env)) : list string := map (λ e, member_of e.1) envs.
Definition times_of (envs : list (Env * Env)) : list Z := map (λ e, env_now e.1) envs.

(** Requests that are charged to one counter first are answered as the reference says; they leave
    its key in agreement with the reference and the other keys as they were. *)
Lemma send_each_reference (type identifier : string) (cfg : RateLimitConfig) (reqs : list (Request * (Env * Env)))
    (redis : store) (last : Z) (used : list string) (log : list Z) :
  let key := (keyPrefix cfg +:+ identifier)%string in
  let envs := reqs.*2 in
  (∀ req, req ∈ reqs.*1 → first_tier req = (type, identifier)) → configs s !! type = Some cfg → 0 <= windowMs cfg →
  (∀ req, req ∈ reqs.*1 → one_tier req) ∨ (∀ t, t ∈ times_of envs → maxRequests cfg <= count_if (in_window (windowMs cfg) t) log) →
  Forall (λ env, env_reachable env.1 = true) envs → StronglySorted Z.le (last :: times_of envs) →
  NoDup (members_of envs ++ used) → agrees (windowMs cfg) last used (redis !! key) log →
  let sent := send_each s verify app reqs redis in
  map status sent.1 = zip_with (λ re (ok : bool), if ok then app re.1 else 429) reqs
                        (reference (windowMs cfg) (maxRequests cfg) log (times_of envs)) ∧
  agrees (windowMs cfg) (List.last (times_of envs) last) (rev (members_of envs) ++ used) (sent.2 !! key)
    (reference_log (windowMs cfg) (maxRequests cfg) log (times_of envs)) ∧
  ∀ key', key' ≠ key → sent.2 !! key' = redis !! key'.
Proof.
  intros key envs Hfirst Hcfg Hw. revert redis last used log. unfold envs. clear envs.
  induction reqs as [|[req env] reqs IH]; intros redis last used log Hone Hr Hs Hn Ha; [done|].
  cbn [fmap list_fmap] in *. inversion Hr as [|? ? Hr1 Hr2]; subst. inversion Hs as [|? ? Hs1 Hs2]; subst. cbn in Hn. apply NoDup_cons in Hn as [Hn1 Hn2].
  assert (last <= env_now env.1) as Hlast by (rewrite Forall_forall in Hs2; apply Hs2; cbn; set_solver).
  destruct (checkLimit_agrees (configs s) cfg identifier type env.1 redis last used log Hcfg Hw Hr1 Hlast ltac:(set_solver) Ha) as [Hv Ha'].
  pose proof (respond_first req env redis) as Hresp. rewrite (Hfirst req) in Hresp by (by left). cbn [fst snd] in Hresp. rewrite Hv in Hresp.
  assert (∀ key', key' ≠ key → (checkLimit (configs s) identifier type env.1 redis).2 !! key' = redis !! key') as Hother.
  { intros key' Hk. unfold checkLimit. rewrite Hcfg, Hr1. destruct (SLIDING_WINDOW_SCRIPT _ _ _ _ _ _) as [[[[v c] r] d] e].
    cbn. by rewrite lookup_partial_alter_ne. }
  assert (one_tier req ∨ count_if (in_window (windowMs cfg) (env_now env.1)) log <? maxRequests cfg = false) as Hnow.
  { destruct Hone as [Hone|Hone]; [left; apply Hone; by left|right]. apply Z.ltb_ge, Hone. by left. }
  specialize (Hresp Hnow) as [H1 H2]. cbn [send_each]. destruct (respond s verify app req env redis) as [r redis1]. cbn in H1, H2. subst redis1.
  set (ok := count_if (in_window (windowMs cfg) (env_now env.1)) log <? maxRequests cfg) in *.
  specialize (IH (λ req' Hreq, Hfirst req' (list_elem_of_further _ _ _ Hreq)) (checkLimit (configs s) identifier type env.1 redis).2
    (env_now env.1) (member_of env.1 :: used) (if ok then env_now env.1 :: log else log)).
  destruct (send_each s verify app reqs _) as [rs redis2]. cbn in IH. destruct IH as (I1 & I2 & I3); [|done|done| |exact Ha'|].
  - destruct Hone as [Hone|Hone]; [left; intros req' Hreq; apply Hone; by right|right]. destruct Hnow as [Hnow|Hnow].
    + intros t Ht. destruct ok; [|apply Hone; by right]. rewrite count_if_cons. pose proof (Hone t ltac:(by right)). by destruct (in_window _ _ _); lia.
    + rewrite Hnow. intros t Ht. apply Hone. by right.
  - rewrite NoDup_app in Hn2 |- *. destruct Hn2 as (N1 & N2 & N3). split; [done|]. split; [|apply NoDup_cons; set_solver].
    intros m Hm [->|Hin]%elem_of_cons; [set_solver|by apply (N2 m)].
  - unfold times_of, members_of. rewrite !map_cons. fold (times_of reqs.*2) (members_of reqs.*2). rewrite last_cons'.
    cbn [map zip_with reference reference_log rev fst snd].
    fold ok. rewrite H2, I1, <- app_assoc. split; [done|]. split; [exact I2|].
    intros key' Hk. by rewrite I3, Hother.
Qed.

Lemma reference_length (w max : Z) (log times : list Z) : length (reference w max log times) = length times.
Proof. revert log. induction times as [|now times IH]; intros log; [done|]. cbn. by rewrite IH. Qed.

(** A burst of one request *)
Lemma send_all_reference (req : Request) (type identifier : string) (cfg : RateLimitConfig) (envs : list (Env * Env))
    (redis : store) (last : Z) (used : list string) (log : list Z) :
  let key := (keyPrefix cfg +:+ identifier)%string in
  first_tier req = (type, identifier) → configs s !! type = Some cfg → 0 <= windowMs cfg →
  one_tier req ∨ (∀ t, t ∈ times_of envs → maxRequests cfg <= count_if (in_window (windowMs cfg) t) log) →
  Forall (λ env, env_reachable env.1 = true) envs → StronglySorted Z.le (last :: times_of envs) →
  NoDup (members_of envs ++ used) → agrees (windowMs cfg) last used (redis !! key) log →
  let sent := send_all s verify app req envs redis in
  map status sent.1 = map (λ ok : bool, if ok then app req else 429) (reference (windowMs cfg) (maxRequests cfg) log (times_of envs)) ∧
  agrees (windowMs cfg) (List.last (times_of envs) last) (rev (members_of envs) ++ used) (sent.2 !! key)
    (reference_log (windowMs cfg) (maxRequests cfg) log (times_of envs)) ∧
  ∀ key', key' ≠ key → sent.2 !! key' = redis !! key'.
Proof.
  intros key Hfirst Hcfg Hw Hone Hr Hs Hn Ha sent.
  assert ((map (pair req) envs).*2 = envs) as H2 by (rewrite <- list_fmap_compose; apply list_fmap_id).
  assert (∀ req', req' ∈ (map (pair req) envs).*1 → req' = req) as H1.
  { intros req' (re & -> & (env & -> & _)%list_elem_of_fmap)%list_elem_of_fmap. done. }
  destruct (send_each_reference type identifier cfg (map (pair req) envs) redis last used log) as (E1 & E2 & E3);
    rewrite ?H2; try done; [by intros req' ->%H1|destruct Hone as [Hone|Hone]; [left; by intros req' ->%H1|by right]|].
  rewrite H2 in E1, E2. split; [|done]. unfold sent, send_all. rewrite E1.
  pose proof (reference_length (windowMs cfg) (maxRequests cfg) log (times_of envs)) as Hlen. unfold times_of in Hlen at 2. rewrite length_map in Hlen.
  clear E1. revert Hlen. generalize (reference (windowMs cfg) (maxRequests cfg) log (times_of envs)). clear.
  induction envs as [|env envs IH]; intros [|ok l]; cbn; try done. intros [= Hl]. by rewrite IH.
Qed.
End proofs.

(** *** Rates *)

Lemma burst_bounds (limit : Z) : 1 <= limit → limit < burst limit <= 2 * limit.
Proof. intros H. unfold burst, ceil_div. pose proof (Z.div_mod (- (3 * limit)) 2). pose proof (Z.mod_pos_bound (- (3 * limit)) 2). lia. Qed.

(** The rate that is predicted passes the threshold, *)
Lemma meets_exact (limit : Z) : 1 <= limit → meets limit (mkRate (burst limit - limit) (burst limit)) = true.
Proof.
  intros H. pose proof (burst_bounds limit H) as Hb. unfold meets, lower, upper, toFixed4. cbn [hits total].
  set (b := burst limit) in *. apply andb_true_iff. split; apply Z.leb_le.
  - destruct (Z.max_spec 0 (20 * (b - limit) - b)) as [[_ ->]|[_ ->]].
    + pose proof (Z.mul_div_le (20000 * (20 * (b - limit) - b) + 20 * b) (2 * (20 * b)) ltac:(lia)). nia.
    + rewrite Z.div_small by lia. lia.
  - rewrite Z.min_r by lia.
    pose proof (Z.mul_succ_div_gt (20000 * (20 * (b - limit) + b) + 20 * b) (2 * (20 * b)) ltac:(lia)). nia.
Qed.

(** and that every request is refused does not. *)
Lemma meets_none (limit : Z) : 1 <= limit → meets limit (mkRate (burst limit) (burst limit)) = false.
Proof.
  intros H. pose proof (burst_bounds limit H) as Hb. unfold meets, upper, toFixed4. cbn [hits total].
  set (b := burst limit) in *. apply andb_false_iff. right. apply Z.leb_gt. rewrite Z.min_r by lia.
  pose proof (Z.mul_div_le (20000 * (20 * (b - limit) + b) + 20 * b) (2 * (20 * b)) ltac:(lia)). nia.
Qed.

Definition count429 (rs : list Response) : Z := count_if is429 rs.

(** What a group adds up to *)
Ltac sum_up f :=
  let r := fresh "r" in let rs := fresh "rs" in let IH := fresh "IH" in let m := fresh "m" in
  intros m; cbv zeta; revert m;
  match goal with rs0 : list Response |- _ => induction rs0 as [|r rs IH] end; intros m;
  [by destruct m as [[] [] [] ? ?]; cbn; rewrite ?Z.add_0_r
  |cbn [fold_left]; destruct (IH (f m r)) as (-> & -> & ->); unfold count429; rewrite ?count_if_cons; cbn; repeat split; f_equal; lia].

Lemma ip_responses (seen_as : string → string) (rs : list Response) : ∀ m : Metrics,
  let m' := fold_left (ip_response seen_as) rs m in
  ip_rate_limited m' = mkRate (hits (ip_rate_limited m) + count429 rs) (total (ip_rate_limited m) + Z.of_nat (length rs)) ∧
  user_rate_limited m' = user_rate_limited m ∧ wallet_rate_limited m' = wallet_rate_limited m.
Proof. sum_up (ip_response seen_as). Qed.

Lemma user_responses (rs : list Response) : ∀ m : Metrics,
  let m' := fold_left user_response rs m in
  ip_rate_limited m' = ip_rate_limited m ∧
  user_rate_limited m' = mkRate (hits (user_rate_limited m) + count429 rs) (total (user_rate_limited m) + Z.of_nat (length rs)) ∧
  wallet_rate_limited m' = wallet_rate_limited m.
Proof. sum_up user_response. Qed.

Lemma wallet_responses (seen_as : string → string) (rs : list Response) : ∀ m : Metrics,
  let m' := fold_left (wallet_response seen_as) rs m in
  ip_rate_limited m' = ip_rate_limited m ∧ user_rate_limited m' = user_rate_limited m ∧
  wallet_rate_limited m' = mkRate (hits (wallet_rate_limited m) + count429 rs) (total (wallet_rate_limited m) + Z.of_nat (length rs)).
Proof. sum_up (wallet_response seen_as). Qed.

Lemma settle_responses (rs : list Response) : ∀ m : Metrics,
  let m' := fold_left settle_response rs m in
  ip_rate_limited m' = ip_rate_limited m ∧ user_rate_limited m' = user_rate_limited m ∧ wallet_rate_limited m' = wallet_rate_limited m.
Proof. sum_up settle_response. Qed.

Lemma count429_verdicts (answer : Z) (verdicts : list bool) (rs : list Response) :
  answer ≠ 429 → map status rs = map (λ ok : bool, if ok then answer else 429) verdicts →
  count429 rs = count_if negb verdicts ∧ length rs = length verdicts.
Proof.
  intros Ha. revert verdicts. induction rs as [|r rs IH]; intros [|ok verdicts]; cbn; try done. intros [= Hr Hrs].
  destruct (IH verdicts Hrs) as [IH1 IH2]. unfold count429 in *. rewrite !count_if_cons, IH1, IH2. split; [|done].
  unfold is429. rewrite Hr. destruct ok; cbn; [|done]. by rewrite (proj2 (Z.eqb_neq _ _)).
Qed.

Lemma count_burst (n m : nat) : count_if negb (replicate n true ++ replicate m false) = Z.of_nat m.
Proof.
  induction n as [|n IH]; cbn [replicate app]; [|by rewrite count_if_cons, IH].
  induction m as [|m IH]; [done|]. cbn [replicate app] in *. rewrite count_if_cons, IH. cbn. lia.
Qed.

Section bursts.
Variable s : Settings.
Variable verify : option (string → outcome exn Identity).
Variable app : Request → Z.

(** Redis answers, and the requests come one after the other with members of their own. *)
Definition orderly (envs : list (Env * Env)) : Prop :=
  Forall (λ env, env_reachable env.1 = true) envs ∧ StronglySorted Z.le (times_of envs) ∧ NoDup (members_of envs).

Definition within (from window : Z) (envs : list (Env * Env)) : Prop := ∀ t, t ∈ times_of envs → from <= t <= from + window.

Lemma burst_group (req : Request) (type identifier : string) (cfg : RateLimitConfig) (envs : list (Env * Env)) (redis : store) (from : Z) :
  let key := (keyPrefix cfg +:+ identifier)%string in
  first_tier verify req = (type, identifier) → configs s !! type = Some cfg → one_tier verify req → app req ≠ 429 →
  0 <= windowMs cfg → 1 <= maxRequests cfg → redis !! key = None → orderly envs → within from (windowMs cfg) envs →
  Z.of_nat (length envs) = burst (maxRequests cfg) →
  let sent := send_all s verify app req envs redis in
  count429 sent.1 = burst (maxRequests cfg) - maxRequests cfg ∧ Z.of_nat (length sent.1) = burst (maxRequests cfg) ∧
  (∃ log, agrees (windowMs cfg) (List.last (times_of envs) from) (rev (members_of envs)) (sent.2 !! key) log ∧
     Z.of_nat (length log) = maxRequests cfg ∧ ∀ t, t ∈ log → t ∈ times_of envs) ∧
  ∀ key', key' ≠ key → sent.2 !! key' = redis !! key'.
Proof.
  intros key Hfirst Hcfg Hone Happ Hw Hmax Hfresh (Hr & Hs & Hn) Hin Hlen sent. pose proof (burst_bounds _ Hmax) as Hb.
  destruct (send_all_reference s verify app req type identifier cfg envs redis from [] []) as (H1 & H2 & H3); [done|done|done|by left|done| | | |].
  - constructor; [done|]. rewrite Forall_forall. intros t Ht. by apply Hin.
  - by rewrite app_nil_r.
  - fold key. rewrite Hfresh. split; [set_solver|done|done].
  - pose proof (reference_burst (windowMs cfg) (maxRequests cfg) from [] (times_of envs) Hin Hs ltac:(set_solver)) as Href.
    assert (length (times_of envs) = length envs) as Htl by apply length_map. cbv zeta in Href. rewrite Htl in Href. cbn [length] in Href.
    destruct (count429_verdicts _ _ _ Happ H1) as [Hc Hl]. rewrite Href in Hc, Hl. rewrite count_burst in Hc.
    rewrite length_app, !length_replicate in Hl. fold sent in Hc, Hl. split; [lia|]. split; [lia|]. split; [|exact H3].
    pose proof (reference_log_spec (windowMs cfg) (maxRequests cfg) [] (times_of envs)) as [Hlog Hloglen].
    eexists. split; [rewrite app_nil_r in H2; exact H2|]. split; [|exact Hlog]. rewrite Hloglen, Href, filter_replicate. cbn. lia.
Qed.

Definition ip_config : RateLimitConfig := mkConfig (default 60000 (RATE_LIMIT_IP_WINDOW_MS s)) (IP_LIMIT s) "rl:ip:".
Definition user_config : RateLimitConfig := mkConfig (default 60000 (RATE_LIMIT_USER_WINDOW_MS s)) (USER_LIMIT s) "rl:user:".

Lemma last_in {A : Type} (d : A) (l : list A) : List.last l d = d ∨ List.last l d ∈ l.
Proof.
  destruct l as [|x l]; [by left|right]. revert x d. induction l as [|y l IH]; intros x d; [by left|].
  rewrite last_cons'. right. apply IH.
Qed.

(** After the user's burst, in the same window, every request with the token is refused by the
    user's counter. *)
Lemma refused_after (req : Request) (u : string) (users envs : list (Env * Env)) (redis : store) (from : Z) (log : list Z) :
  let cfg := user_config in
  first_tier verify req = ("user"%string, u) → app req ≠ 429 → 0 <= windowMs cfg →
  agrees (windowMs cfg) (List.last (times_of users) from) (rev (members_of users)) (redis !! (keyPrefix cfg +:+ u)%string) log →
  Z.of_nat (length log) = maxRequests cfg → (∀ t, t ∈ log → t ∈ times_of users) →
  orderly (users ++ envs) → within from (windowMs cfg) (users ++ envs) →
  let sent := send_all s verify app req envs redis in
  count429 sent.1 = Z.of_nat (length envs) ∧ length sent.1 = length envs.
Proof.
  intros cfg Hfirst Happ Hw Ha Hlen Hlog (Hr & Hs & Hn) Hin. unfold orderly, within, times_of, members_of in *. rewrite map_app in Hs, Hn, Hin.
  fold (times_of users) (times_of envs) in *. fold (members_of users) (members_of envs) in *.
  assert (∀ t t', t ∈ log → t' ∈ times_of envs → t <= t') as Hle.
  { intros t t' Ht Ht'. eapply (StronglySorted_app_1_elem_of Z.le); eauto. }
  assert (∀ t, t ∈ times_of envs → count_if (in_window (windowMs cfg) t) log = maxRequests cfg) as Hfull.
  { intros t Ht. rewrite count_if_all; [done|]. intros t' Ht'. unfold in_window. pose proof (Hle t' t Ht' Ht).
    pose proof (Hin t' ltac:(apply elem_of_app; left; by apply Hlog)). pose proof (Hin t ltac:(set_solver)).
    apply andb_true_iff. split; apply Z.leb_le; lia. }
  destruct (send_all_reference s verify app req "user" u cfg envs redis (List.last (times_of users) from) (rev (members_of users)) log)
    as (H1 & _); [done|done|done| | | | |exact Ha|].
  - right. intros t Ht. by rewrite Hfull.
  - rewrite Forall_app in Hr. tauto.
  - constructor; [by eapply StronglySorted_app_1_r|]. rewrite Forall_forall. intros t Ht.
    destruct (last_in from (times_of users)) as [->|Hl]; [apply Hin; set_solver|by eapply (StronglySorted_app_1_elem_of Z.le)].
  - rewrite <- (Permutation_rev (members_of users)), Permutation_app_comm. exact Hn.
  - rewrite (reference_burst _ _ from) in H1; [|intros t Ht; apply Hin; set_solver|by eapply StronglySorted_app_1_r|done].
    assert (Z.to_nat (maxRequests cfg - Z.of_nat (length log)) = 0%nat) as Hk by lia. rewrite Hk, Nat.min_0_r, Nat.sub_0_r in H1.
    destruct (count429_verdicts _ _ _ Happ H1) as [Hc Hl]. rewrite count_burst in Hc. unfold times_of in Hc, Hl. rewrite length_map in Hc.
    cbn in Hl. rewrite length_replicate, length_map in Hl. done.
Qed.

(** The load test's own criterion, of one virtual user whose groups run within a window.  On
    counters that are fresh, the bursts of the anonymous requests and of the user are refused
    exactly as often as the test predicts, one and a half times the limit less the limit, and both
    pass their thresholds.  The burst on the funding endpoint comes after the user's own, so the
    user's counter refuses all of it, and its threshold fails: with settings that admit at least
    one request the test as a whole cannot pass. *)
Theorem load_test_verdict (seen_as : string → string) (vu token u : string) (wallet : option string) (t : Times) (redis : store) (from_ip from_user : Z) :
  resolveIdentity verify (user_request vu token) = mkIdentity (Some u) wallet → truthy u = true →
  (∀ req, app req ≠ 429) →
  1 <= IP_LIMIT s → 1 <= USER_LIMIT s → 1 <= WALLET_LIMIT s → 0 <= windowMs ip_config → 0 <= windowMs user_config →
  redis !! ("rl:ip:" +:+ getClientIp (ip_request vu))%string = None → redis !! ("rl:user:" +:+ u)%string = None →
  orderly (ip_times t) → within from_ip (windowMs ip_config) (ip_times t) → Z.of_nat (length (ip_times t)) = burst (IP_LIMIT s) →
  orderly (user_times t ++ fund_times t) → within from_user (windowMs user_config) (user_times t ++ fund_times t) →
  Z.of_nat (length (user_times t)) = burst (USER_LIMIT s) → Z.of_nat (length (fund_times t)) = burst (WALLET_LIMIT s) →
  let m := (iteration s verify app seen_as vu token t redis).1 in
  ip_rate_limited m = mkRate (burst (IP_LIMIT s) - IP_LIMIT s) (burst (IP_LIMIT s)) ∧ meets (IP_LIMIT s) (ip_rate_limited m) = true ∧
  user_rate_limited m = mkRate (burst (USER_LIMIT s) - USER_LIMIT s) (burst (USER_LIMIT s)) ∧ meets (USER_LIMIT s) (user_rate_limited m) = true ∧
  wallet_rate_limited m = mkRate (burst (WALLET_LIMIT s)) (burst (WALLET_LIMIT s)) ∧ meets (WALLET_LIMIT s) (wallet_rate_limited m) = false.
Proof.
  intros Hid Hu Happ Hil Hul Hwl Hiw Huw Hifresh Hufresh Hio Hiin Hin Huo Huin Hun Hfn m.
  assert (first_tier verify (user_request vu token) = ("user"%string, u)) as Hfu by (unfold first_tier; rewrite Hid; cbn; by rewrite Hu).
  assert (first_tier verify (fund_request vu token) = ("user"%string, u)) as Hff.
  { unfold first_tier. change (resolveIdentity verify (fund_request vu token)) with (resolveIdentity verify (user_request vu token)).
    rewrite Hid. cbn. by rewrite Hu. }
  unfold m, iteration.
  pose proof (burst_group (ip_request vu) "ip" (getClientIp (ip_request vu)) ip_config (ip_times t) redis from_ip
    eq_refl eq_refl eq_refl (Happ _) Hiw Hil Hifresh Hio Hiin Hin) as (I1 & I2 & _ & I4).
  destruct (send_all s verify app (ip_request vu) (ip_times t) redis) as [ips redis1]. cbn [fst snd] in I1, I2, I4.
  assert (orderly (user_times t)) as Huo'.
  { destruct Huo as (H1 & H2 & H3). unfold orderly, times_of, members_of in *. rewrite map_app in H2, H3. rewrite Forall_app in H1.
    apply NoDup_app in H3. split; [tauto|]. split; [by eapply StronglySorted_app_1_l|tauto]. }
  assert (within from_user (windowMs user_config) (user_times t)) as Huin'.
  { intros x Hx. apply Huin. unfold times_of. rewrite map_app. set_solver. }
  pose proof (burst_group (user_request vu token) "user" u user_config (user_times t) redis1 from_user
    Hfu eq_refl eq_refl (Happ _) Huw Hul ltac:(rewrite I4; [exact Hufresh|done]) Huo' Huin' Hun) as (U1 & U2 & (log & U3 & U4 & U5) & _).
  destruct (send_all s verify app (user_request vu token) (user_times t) redis1) as [users redis2]. cbn [fst snd] in U1, U2, U3.
  pose proof (refused_after (fund_request vu token) u (user_times t) (fund_times t) redis2 from_user log Hff (Happ _) Huw U3 U4 U5 Huo Huin) as [F1 F2].
  destruct (send_all s verify app (fund_request vu token) (fund_times t) redis2) as [funds redis3]. cbn [fst snd] in F1, F2.
  destruct (send_all s verify app (settle_request vu token) (settle_times t) redis3) as [settles redis4]. cbn [fst].
  destruct (settle_responses settles (fold_left (wallet_response seen_as) funds (fold_left user_response users (fold_left (ip_response seen_as) ips empty_metrics)))) as (-> & -> & ->).
  destruct (wallet_responses seen_as funds (fold_left user_response users (fold_left (ip_response seen_as) ips empty_metrics))) as (-> & -> & ->).
  destruct (user_responses users (fold_left (ip_response seen_as) ips empty_metrics)) as (-> & -> & ->).
  destruct (ip_responses seen_as ips empty_metrics) as (-> & -> & ->). cbn [empty_metrics hits total ip_rate_limited user_rate_limited wallet_rate_limited].
  rewrite !Z.add_0_l, I1, I2, U1, U2, F1, F2, Hfn. cbn [maxRequests ip_config user_config].
  split; [done|]. split; [by apply meets_exact|]. split; [done|]. split; [by apply meets_exact|]. split; [done|by apply meets_none].
Qed.
End bursts.
End RateLimitingLoadTest.

(** ** Example *)
Module LoadTestExamples.
Import RateLimitingLoadTest.

(** Limits of two, four and two requests *)
Definition settings_ex : Settings := mkSettings (Some 2) (Some 1000) (Some 4) (Some 1000) (Some 2) None None None.

Definition verify_ex : option (string → outcome exn Identity) := Some (λ token, Ret (mkIdentity (Some token) (Some "GA"%string))).

(** [n] requests from [from] on, one per millisecond *)
Definition envs_ex (from : Z) (n : Z) : list (Env * Env) :=
  map (λ i, (mkEnv (from + i) "x" true, mkEnv (from + i) "y" true)) (seqZ 0 n).

Definition times_ex : Times := mkTimes (envs_ex 0 3) (envs_ex 10 6) (envs_ex 20 3) (envs_ex 30 3).

(** A backend that answers 200, seen through a client that lower-cases the names of headers *)
Definition metrics_ex : Metrics :=
  (iteration settings_ex verify_ex (λ _, 200) toLowerCase "1" "alice" times_ex ∅).1.

Lemma load_test_verdict_witness :
  metrics_ex = mkMetrics (mkRate 1 3) (mkRate 2 6) (mkRate 3 3) (mkRate 0 15) 0 ∧
  meets 2 (ip_rate_limited metrics_ex) = true ∧ meets 2 (wallet_rate_limited metrics_ex) = false.
Proof.
  split; [vm_compute; reflexivity|].
  destruct (load_test_verdict settings_ex verify_ex (λ _, 200) toLowerCase "1" "alice" "alice" (Some "GA"%string) times_ex ∅ 0 10)
    as (_ & Hip & _ & _ & _ & Hwallet);
    [vm_compute; reflexivity|vm_compute; reflexivity|done|cbn; lia..|reflexivity|reflexivity| | |vm_compute; reflexivity| | |vm_compute; reflexivity|vm_compute; reflexivity|].
  - split; [repeat constructor|]. split; apply (bool_decide_unpack _); vm_compute; exact I.
  - unfold within. apply Forall_forall, (bool_decide_unpack _). vm_compute. exact I.
  - split; [repeat constructor|]. split; apply (bool_decide_unpack _); vm_compute; exact I.
  - unfold within. apply Forall_forall, (bool_decide_unpack _). vm_compute. exact I.
  - split; [exact Hip|exact Hwallet].
Defined.
End LoadTestExamples.
