(* ===== verification/CircuitBreaker.v ===== *)
(** * The circuit breaker ([common/circuit-breaker.service.ts])

    The state of a circuit, the transitions that a call makes before and after it runs, and
    [execute].  Calls overlap freely: what a circuit goes through is any sequence of their
    transitions, and the invariant is proved for every such sequence. *)
From S2P Require Import Prelude Js Errors Schema Prisma.
From stdpp Require Import gmap strings.
Open Scope Z_scope.

Module CircuitBreakerService.

Inductive CircuitState := CLOSED | OPEN | HALF_OPEN.

#[global] Instance CircuitState_eq : EqDecision CircuitState.
Proof. solve_decision. Defined.

Record CircuitBreakerConfig := mkConfig {
  failureThreshold : Z;
  resetTimeoutMs : Z;
  successThresholdHalfOpen : Z;
  timeWindowMs : Z;
  stalenessFailureThreshold : Z }.

(** The constructor: [configService.get(...) || default], as integers. *)
Definition config (FAILURE_THRESHOLD RESET_TIMEOUT_MS SUCCESS_THRESHOLD TIME_WINDOW_MS STALENESS_FAILURE_THRESHOLD : option Z)
    : CircuitBreakerConfig :=
  {| failureThreshold := default 5 FAILURE_THRESHOLD; resetTimeoutMs := default 60000 RESET_TIMEOUT_MS;
     successThresholdHalfOpen := default 2 SUCCESS_THRESHOLD; timeWindowMs := default 10000 TIME_WINDOW_MS;
     stalenessFailureThreshold := default 3 STALENESS_FAILURE_THRESHOLD |}.

Record Circuit := mkCircuit {
  state : CircuitState;
  failures : Z;
  successes : Z;
  lastFailureTime : option Z;
  nextAttemptTime : option Z;
  consecutiveStalenessFailures : Z }.

(** The object that [getOrCreateCircuit] creates. *)
Definition new_circuit : Circuit := mkCircuit CLOSED 0 0 None None 0.

(** ** The transitions of a circuit *)

(** [circuit.nextAttemptTime && now >= circuit.nextAttemptTime] *)
Definition may_attempt (c : Circuit) (now : Z) : bool :=
  match nextAttemptTime c with Some t => negb (t =? 0) && (t <=? now) | None => false end.

(** Before the call: whether it is admitted. *)
Definition enter (c : Circuit) (now : Z) : bool * Circuit :=
  match state c with
  | OPEN =>
      if may_attempt c now
      then (true, mkCircuit HALF_OPEN 0 0 (lastFailureTime c) (nextAttemptTime c) 0)
      else (false, c)
  | _ => (true, c)
  end.

(** After a call that succeeded. *)
Definition on_success (cfg : CircuitBreakerConfig) (c : Circuit) : Circuit :=
  match state c with
  | HALF_OPEN =>
      let successes' := successes c + 1 in
      if successThresholdHalfOpen cfg <=? successes'
      then mkCircuit CLOSED 0 0 (lastFailureTime c) (nextAttemptTime c) 0
      else mkCircuit HALF_OPEN (failures c) successes' (lastFailureTime c) (nextAttemptTime c) 0
  | CLOSED => mkCircuit CLOSED 0 (successes c) (lastFailureTime c) (nextAttemptTime c) 0
  | OPEN => mkCircuit OPEN (failures c) (successes c) (lastFailureTime c) (nextAttemptTime c) 0
  end.

(** After a call that failed at [now]: the counters, ... *)
Definition count_failure (isStaleness : bool) (now : Z) (c : Circuit) : Circuit :=
  mkCircuit (state c) (failures c + 1) (successes c) (Some now) (nextAttemptTime c)
    (if isStaleness then consecutiveStalenessFailures c + 1 else 0).

(** ... whether the circuit trips with these counters, ... *)
Definition trips (cfg : CircuitBreakerConfig) (isStaleness : bool) (c : Circuit) : bool :=
  match state c with
  | HALF_OPEN => true
  | CLOSED =>
      if isStaleness && (stalenessFailureThreshold cfg <=? consecutiveStalenessFailures c) then true
      else failureThreshold cfg <=? failures c
  | OPEN => false
  end.

(** ... and the tripped circuit, the clock being [now] again. *)
Definition trip (cfg : CircuitBreakerConfig) (now : Z) (c : Circuit) : Circuit :=
  mkCircuit OPEN (failures c) (successes c) (lastFailureTime c) (Some (now + resetTimeoutMs cfg))
    (consecutiveStalenessFailures c).

Definition on_failure (cfg : CircuitBreakerConfig) (c : Circuit) (isStaleness : bool) (now now' : Z) : Circuit :=
  let counted := count_failure isStaleness now c in
  if trips cfg isStaleness counted then trip cfg now' counted else counted.

(** [delete circuit.nextAttemptTime] *)
Definition reset_circuit (c : Circuit) : Circuit := mkCircuit CLOSED 0 0 (lastFailureTime c) None 0.

(** ** The service

    [circuits] is the map of the service; its entries are shared objects that are never
    replaced, so reading the entry again after [await fn()] reads the same object. *)
Class Circuits (W : Type) := {
  circuits : W → gmap string Circuit;
  set_circuits : gmap string Circuit → W → W;
  circuits_set : ∀ m w, circuits (set_circuits m w) = m }.

Section service.
Context {W : Type} `{!Circuits W} `{!Clock W}.
Variable cfg : CircuitBreakerConfig.

Definition getOrCreateCircuit (name : string) : M exn W Circuit := λ w,
  match circuits w !! name with
  | Some c => (Ret c, w)
  | None => (Ret new_circuit, set_circuits (<[name := new_circuit]> (circuits w)) w)
  end.

Definition modify (name : string) (f : Circuit → Circuit) : M exn W unit := λ w,
  (Ret tt, set_circuits (alter f name (circuits w)) w).

(** [Date.now()] is read only when the circuit is open. *)
Definition admission (name : string) : M exn W bool :=
  circuit ← getOrCreateCircuit name;
  match state circuit with
  | OPEN =>
      now ← date_now;
      let '(ok, circuit') := enter circuit now in
      modify name (λ _, circuit') ≫= λ _, mret ok
  | _ => mret true
  end.

Definition execute {A : Type} (name : string) (fn : M exn W A) (fallback : option (M exn W A))
    (isStalenessError : option (exn → bool)) : M exn W A :=
  ok ← admission name;
  if negb ok then
    match fallback with
    | Some fallback => fallback
    | None => throw (ServiceUnavailableException ("Circuit breaker " +:+ name +:+ " is OPEN")%string)
    end
  else
    try_catch
      (result ← fn;
       modify name (on_success cfg) ≫= λ _, mret result)
      (λ error,
       let isStaleness := match isStalenessError with Some f => f error | None => false end in
       now ← date_now;
       modify name (count_failure isStaleness now) ≫= λ _,
       circuit ← getOrCreateCircuit name;
       (if trips cfg isStaleness circuit
        then now' ← date_now; modify name (trip cfg now')
        else mret tt) ≫= λ _,
       match fallback with
       | Some fallback => fallback
       | None => throw error
       end).

Definition getState (name : string) : M exn W CircuitState :=
  circuit ← getOrCreateCircuit name; mret (state circuit).

Definition reset (name : string) : M exn W unit :=
  getOrCreateCircuit name ≫= λ _, modify name reset_circuit.
End service.

(** ** Every interleaving of calls

    The transitions of overlapping calls, in any order. *)
Inductive step (cfg : CircuitBreakerConfig) : Circuit → Circuit → Prop :=
| step_enter c now : step cfg c (enter c now).2
| step_success c : step cfg c (on_success cfg c)
| step_failure c isStaleness now now' : step cfg c (on_failure cfg c isStaleness now now')
| step_reset c : step cfg c (reset_circuit c).

Inductive reachable (cfg : CircuitBreakerConfig) : Circuit → Prop :=
| reachable_new : reachable cfg new_circuit
| reachable_step c c' : reachable cfg c → step cfg c c' → reachable cfg c'.

(** What the state of a circuit says about its counters. *)
Definition consistent (cfg : CircuitBreakerConfig) (c : Circuit) : Prop :=
  0 <= failures c ∧ 0 <= successes c ∧ 0 <= consecutiveStalenessFailures c ∧
  match state c with
  | CLOSED => failures c < failureThreshold cfg ∧ consecutiveStalenessFailures c < stalenessFailureThreshold cfg
  | HALF_OPEN => successes c < successThresholdHalfOpen cfg
  | OPEN => is_Some (nextAttemptTime c)
  end.

Lemma enter_consistent (cfg : CircuitBreakerConfig) (c : Circuit) (now : Z) :
  1 <= successThresholdHalfOpen cfg → consistent cfg c → consistent cfg (enter c now).2.
Proof.
  unfold consistent, enter. destruct c as [[] f s l n k]; cbn; try tauto.
  intros H (? & ? & ? & ?). destruct (may_attempt _ _); cbn; [repeat split; lia|tauto].
Qed.

Lemma on_success_consistent (cfg : CircuitBreakerConfig) (c : Circuit) :
  1 <= failureThreshold cfg → 1 <= stalenessFailureThreshold cfg → consistent cfg c → consistent cfg (on_success cfg c).
Proof.
  unfold consistent, on_success. destruct c as [[] f s l n k]; cbn; intros H H' (? & ? & ? & ?).
  - repeat split; lia.
  - repeat split; [lia|lia|lia|done].
  - destruct (Z.leb_spec (successThresholdHalfOpen cfg) (s + 1)); cbn; repeat split; lia.
Qed.

Lemma on_failure_consistent (cfg : CircuitBreakerConfig) (c : Circuit) (b : bool) (now now' : Z) :
  1 <= stalenessFailureThreshold cfg → consistent cfg c → consistent cfg (on_failure cfg c b now now').
Proof.
  unfold consistent, on_failure, trips. destruct c as [[] f s l n k]; cbn; intros H' (? & ? & ? & ?).
  - destruct b; cbn; [destruct (Z.leb_spec (stalenessFailureThreshold cfg) (k + 1)); cbn; [repeat split; eauto; lia|]|];
      destruct (Z.leb_spec (failureThreshold cfg) (f + 1)); cbn; repeat split; eauto; lia.
  - destruct b; repeat split; eauto; lia.
  - destruct b; repeat split; eauto; lia.
Qed.

(** C32: a circuit stays consistent however calls and manual resets overlap, a call that finishes late
    included: while it is CLOSED fewer failures (and fewer consecutive staleness failures) than
    the threshold are counted, while it is HALF_OPEN fewer successes than needed to close, and
    an OPEN circuit always has a time for its next attempt. *)
Theorem breaker_consistent (cfg : CircuitBreakerConfig) (c : Circuit)
    (Hf : 1 <= failureThreshold cfg) (Hs : 1 <= successThresholdHalfOpen cfg)
    (Hk : 1 <= stalenessFailureThreshold cfg) (Hreach : reachable cfg c) :
  consistent cfg c.
Proof.
  induction Hreach as [|c c' _ IH Hstep]; [unfold consistent; cbn; repeat split; lia|].
  destruct Hstep.
  - by apply enter_consistent.
  - by apply on_success_consistent.
  - by apply on_failure_consistent.
  - unfold consistent. cbn. repeat split; lia.
Qed.

(** ** What [execute] does *)

Lemma alter_insert_eq (f : Circuit → Circuit) (k : string) (m : gmap string Circuit) (c : Circuit) :
  m !! k = Some c → alter f k m = <[k := f c]> m.
Proof.
  intros Hc. apply map_eq. intros i. destruct (decide (i = k)) as [->|Hi].
  - by rewrite lookup_alter_eq, lookup_insert_eq, Hc.
  - by rewrite lookup_alter_ne, lookup_insert_ne by done.
Qed.

(** Reading the clock does not touch the circuits. *)
Class CircuitsLaws (W : Type) `{!Circuits W} `{!Clock W} := {
  circuits_clock : ∀ w, circuits (clock w).2 = circuits w }.

Section execute_laws.
Context {W : Type} `{!Circuits W} `{!Clock W} `{!CircuitsLaws W}.
Variable cfg : CircuitBreakerConfig.
Implicit Types w : W.

(** The circuit of a name, as [getOrCreateCircuit] returns it. *)
Definition circuit_of (name : string) (w : W) : Circuit := default new_circuit (circuits w !! name).

Lemma admission_spec (name : string) (w : W) :
  ∃ w1, admission name w = (Ret (enter (circuit_of name w) (clock w).1).1, w1) ∧
    circuits w1 = <[name := (enter (circuit_of name w) (clock w).1).2]> (circuits w).
Proof.
  unfold admission, circuit_of, mbind, M_bind, getOrCreateCircuit, enter.
  destruct (circuits w !! name) as [c|] eqn:Hc; cbn.
  - destruct (state c) eqn:Hs; cbn.
    + exists w. by rewrite insert_id.
    + unfold modify, date_now. destruct (may_attempt c (clock w).1); cbn;
        (eexists; split; [done|]); by rewrite circuits_set, circuits_clock, (alter_insert_eq _ _ _ c).
    + exists w. by rewrite insert_id.
  - eexists. split; [done|]. by rewrite circuits_set.
Qed.

(** A call through the breaker runs the function exactly when the circuit admits it; a refused call
    never reaches the function and answers with the fallback or a 503.  A success is returned
    and counted as one success, a failure is counted as one failure (of the kind the caller
    says), and is answered by the fallback or rethrown unchanged. *)
Theorem execute_spec {A : Type} (name : string) (w : W) :
  let entered := enter (circuit_of name w) (clock w).1 in
  ∃ w1, circuits w1 = <[name := entered.2]> (circuits w) ∧
  ∀ (fn : M exn W A) (fallback : option (M exn W A)) (isStalenessError : option (exn → bool)),
    let answer (e : exn) w' := match fallback with Some f => f w' | None => (Throw e, w') end in
    let run := execute cfg name fn fallback isStalenessError w in
    if entered.1 then
      match fn w1 with
      | (Ret a, w2) => run.1 = Ret a ∧ circuits run.2 = alter (on_success cfg) name (circuits w2)
      | (Throw e, w2) => is_Some (circuits w2 !! name) →
          ∃ t t' w3, run = answer e w3 ∧
            circuits w3 = alter (λ c, on_failure cfg c (match isStalenessError with Some f => f e | None => false end) t t')
                            name (circuits w2)
      end
    else run = answer (ServiceUnavailableException ("Circuit breaker " +:+ name +:+ " is OPEN")%string) w1.
Proof.
  intros entered. destruct (admission_spec name w) as (w1 & Had & Hw1). fold entered in Had, Hw1.
  exists w1. split; [done|]. intros fn fallback isStalenessError answer run.
  unfold run, execute, mbind, M_bind. rewrite Had. destruct entered.1; cbn [negb]; [|by destruct fallback].
  unfold try_catch. destruct (fn w1) as [[a|e] w2].
  - cbn. by rewrite circuits_set.
  - intros [c Hc]. set (b := match isStalenessError with Some f => f e | None => false end).
    unfold date_now at 1, modify at 1, getOrCreateCircuit. cbn.
    rewrite circuits_set, circuits_clock, lookup_alter_eq, Hc. cbn.
    destruct (trips cfg b (count_failure b (clock w2).1 c)) eqn:Htrip; cbn.
    + eexists (clock w2).1, _, _. split; [by destruct fallback|]. repeat (rewrite circuits_set || rewrite circuits_clock).
      rewrite !(alter_insert_eq _ _ (circuits w2) c) by done.
      rewrite (alter_insert_eq _ _ _ (count_failure b (clock w2).1 c)) by apply lookup_insert_eq.
      rewrite insert_insert_eq. unfold on_failure. by rewrite Htrip.
    + eexists (clock w2).1, 0, _. split; [by destruct fallback|]. repeat (rewrite circuits_set || rewrite circuits_clock).
      rewrite !(alter_insert_eq _ _ (circuits w2) c) by done. unfold on_failure. by rewrite Htrip.
Qed.
End execute_laws.
End CircuitBreakerService.

(** ** Examples *)
Module CircuitBreakerExamples.
Import CircuitBreakerService.

(** The circuits and a clock that does not move by itself. *)
Record world := mkWorld { w_circuits : gmap string Circuit; w_now : Z }.

#[local] Instance world_circuits : Circuits world := {|
  circuits := w_circuits; set_circuits := λ m w, mkWorld m (w_now w); circuits_set := λ m w, eq_refl |}.

#[local] Instance world_clock : Clock world := {| clock := λ w, (w_now w, w) |}.

#[local] Instance world_laws : CircuitsLaws world.
Proof. by split. Qed.

Definition cfg_ex : CircuitBreakerConfig := config (Some 2) (Some 1000) None None None.

Definition failing : M exn world Z := throw (JsError "down").

Definition twice : M exn world Z :=
  try_catch (execute cfg_ex "rpc" failing None None) (λ _, execute cfg_ex "rpc" failing None None).

Definition tripped : world := (twice (mkWorld ∅ 5)).2.

(** Two failures open the circuit; after the reset timeout two successes close it. *)
Lemma trip_and_recover :
  state (circuit_of "rpc" tripped) = OPEN ∧ nextAttemptTime (circuit_of "rpc" tripped) = Some 1005 ∧
  (execute cfg_ex "rpc" (mret 1) None None (mkWorld (w_circuits tripped) 1004)).1
    = Throw (ServiceUnavailableException "Circuit breaker rpc is OPEN") ∧
  let w1 := (execute cfg_ex "rpc" (mret 1) None None (mkWorld (w_circuits tripped) 1005)).2 in
  state (circuit_of "rpc" w1) = HALF_OPEN ∧
  state (circuit_of "rpc" (execute cfg_ex "rpc" (mret 1) None None w1).2) = CLOSED.
Proof. vm_compute. repeat split. Qed.

Lemma breaker_consistent_witness :
  consistent cfg_ex (on_failure cfg_ex (on_failure cfg_ex new_circuit false 5 5) false 5 5) ∧
  state (on_failure cfg_ex (on_failure cfg_ex new_circuit false 5 5) false 5 5) = OPEN.
Proof.
  split; [|vm_compute; reflexivity]. apply breaker_consistent; [cbn; lia|cbn; lia|cbn; lia|].
  eapply reachable_step; [|apply step_failure]. eapply reachable_step; [|apply step_failure]. constructor.
Defined.

Lemma execute_spec_witness :
  ∃ w1, circuits w1 = <["rpc"%string := new_circuit]> ∅ ∧
    (execute cfg_ex "rpc" (mret 1) None None (mkWorld ∅ 5)).1 = Ret 1.
Proof.
  destruct (execute_spec (A:=Z) cfg_ex "rpc" (mkWorld ∅ 5)) as (w1 & Hw1 & Hrun).
  exists w1. split; [exact Hw1|]. exact (proj1 (Hrun (mret 1) None None)).
Defined.
End CircuitBreakerExamples.
