(* ===== verification/Idempotency.v ===== *)
(** * Idempotency keys ([common/idempotency.interceptor.ts],
    [common/idempotency-cleanup.service.ts], [common/redis.service.ts])

    The interceptor that runs the handler of a POST request at most once per key and user,
    the cache in front of it, and the periodic cleanup.  The Redis client, SHA-256 and the
    JSON text of cached records are parameters. *)
From S2P Require Import Prelude Js Schema Errors Prisma PrismaService Interfaces.
Open Scope Z_scope.

(** [IdempotencyRecord]; [response] is the JSON text of the response, [None] for [undefined] and [null]. *)
Record IdempotencyRecord := mkRecord {
  rec_response : option string;
  rec_statusCode : Z;
  rec_userId : string;
  rec_bodyHash : string;
  rec_createdAt : Z }.

(** The commands of the Redis client that the service uses. *)
Class RedisClient (W : Type) := {
  client_get : string → M exn W (option string);
  client_set : string → string → M exn W unit;
  client_setEx : string → Z → string → M exn W unit;
  (** [SET key value EX ttl NX]: whether the answer is "OK" *)
  client_set_nx : string → string → Z → M exn W bool;
  client_del : string → M exn W unit;
  client_ttl : string → M exn W Z }.

(** Redis is another server: its commands do not change the database, and their errors are
    not HTTP exceptions. *)
Definition elsewhere {W A : Type} `{!Prisma W} (m : M exn W A) : Prop :=
  ∀ w, match m w with
       | (Ret _, w') => commits w w' (tables w)
       | (Throw e, w') => commits w w' (tables w) ∧ is_http e = false
       end.

Class RedisClientLaws (W : Type) `{!Prisma W} `{!RedisClient W} := {
  client_get_law : ∀ key, elsewhere (client_get key);
  client_set_nx_law : ∀ key value ttl, elsewhere (client_set_nx key value ttl) }.

(** [JSON.stringify] and [JSON.parse] of cached records. *)
Class RecordCodec := {
  stringify_record : IdempotencyRecord → string;
  parse_record : string → option IdempotencyRecord }.

(** ** [redis.service.ts] *)
Module RedisService.
Section service.
Context {W : Type} `{!RedisClient W} {RC : RecordCodec}.

Definition get (key : string) : M exn W (option IdempotencyRecord) :=
  value ← client_get key;
  match value with
  | None => mret None
  | Some v => if truthy v then mret (parse_record v) else mret None
  end.

Definition set (key : string) (value : IdempotencyRecord) (ttlSeconds : option Z) : M exn W unit :=
  let serialized := stringify_record value in
  match ttlSeconds with
  | Some ttl => if negb (ttl =? 0) then client_setEx key ttl serialized else client_set key serialized
  | None => client_set key serialized
  end.

Definition setIfNotExists (key : string) (value : IdempotencyRecord) (ttlSeconds : Z) : M exn W bool :=
  client_set_nx key (stringify_record value) ttlSeconds.

Definition delete (key : string) : M exn W unit := client_del key.

Definition exists_ (key : string) : M exn W bool :=
  result ← client_get key;
  mret (bool_decide (is_Some result)).

Definition getTTL (key : string) : M exn W Z := client_ttl key.
End service.
End RedisService.

(** ** [idempotency.interceptor.ts] *)
Module IdempotencyInterceptor.

(** A request: [req.user]'s [userId] and [sub], and the JSON text of the body. *)
Record Request := mkRequest {
  method : string;
  path : string;
  idempotency_key : option string;
  user_userId : option string;
  user_sub : option string;
  body : option string }.

(** What the client gets: the handler's response, or a stored one with the header
    [X-Idempotent-Replayed]. *)
Inductive Reply :=
| Handled (statusCode : Z) (data : option string)
| Replayed (statusCode : Z) (data : option string).

Definition is_hex (c : ascii) : bool :=
  is_digit c || existsb (Z.eqb (code (lower_char c))) [97; 98; 99; 100; 101; 102].

(** [uuidRegex] *)
Definition is_uuid (s : string) : bool :=
  match map to_list (split "-" s) with
  | [a; b; c; d; e] =>
      bool_decide (map length [a; b; c; d; e] = [8; 4; 4; 4; 12]%nat) && forallb is_hex (a ++ b ++ c ++ d ++ e)
  | _ => false
  end.

Definition user_of (req : Request) : string :=
  match user_userId req, user_sub req with
  | Some u, _ => u
  | None, Some s => s
  | None, None => "anonymous"
  end.

Definition hashBody {CR : Crypto} (body : option string) : string := sha256_hex (default "{}"%string body).

Definition cacheKey (userId key : string) : string := ("idempotency:" +:+ userId +:+ ":" +:+ key)%string.

Definition different_body : exn := ConflictException "Idempotency key already used with a different request body".

Definition in_progress : exn :=
  ConflictException "A concurrent request with the same Idempotency-Key is in progress. Retry after the first request completes.".

Section interceptor.
Context {W : Type} `{!Prisma W} `{!Clock W} `{!RedisClient W} {RC : RecordCodec} {CR : Crypto}.
Variable h : PrismaService.handle.
Variable ttlSeconds : Z.
Variable lockOwner : string.

Definition replayFromCache (cached : IdempotencyRecord) (userId bodyHash : string) : M exn W Reply :=
  if negb (String.eqb (rec_userId cached) userId)
  then throw (ForbiddenException "Idempotency key belongs to a different user")
  else if negb (String.eqb (rec_bodyHash cached) bodyHash) then throw different_body
  else mret (Replayed (rec_statusCode cached) (rec_response cached)).

(** The fast path: a reply from Redis, if it has one. *)
Definition from_cache (key userId bodyHash : string) : M exn W (option Reply) :=
  try_catch
    (cached ← RedisService.get (cacheKey userId key);
     match cached with
     | Some record => reply ← replayFromCache record userId bodyHash; mret (Some reply)
     | None => mret None
     end)
    (λ redisErr, if is_http redisErr then throw redisErr else mret None).

(** [where: { key_userId: { key, userId } }] *)
Definition same_key (key userId : string) (r : IdempotencyKey) : bool :=
  String.eqb (ik_key r) key && String.eqb (ik_userId r) userId.

(** A row that is already there: conflict or replay. *)
Definition from_row (existing : IdempotencyKey) (bodyHash : string) : M exn W Reply :=
  if negb (String.eqb (ik_bodyHash existing) bodyHash) then throw different_body
  else if bool_decide (is_Some (ik_lockedAt existing)) then throw in_progress
  else mret (Replayed (ik_statusCode existing) (Some (ik_responseBody existing))).

Definition new_row (req : Request) (key userId bodyHash : string) (lockedAt expiresAt : Z) (g : gen) : IdempotencyKey :=
  {| ik_id := g_id g; ik_key := key; ik_userId := userId; ik_bodyHash := bodyHash; ik_statusCode := 0;
     ik_responseBody := "{}"; ik_requestPath := (method req +:+ " " +:+ path req)%string;
     ik_lockedAt := Some lockedAt; ik_lockOwner := Some lockOwner; ik_expiresAt := expiresAt;
     ik_createdAt := g_now g; ik_updatedAt := g_now g |}.

(** Take the lock by inserting the row. *)
Definition acquire (req : Request) (key userId bodyHash : string) : M exn W IdempotencyKey :=
  now ← date_now;
  let expiresAt := now + ttlSeconds * 1000 in
  try_catch
    (lockedAt ← date_now;
     PrismaService.via h PrismaService.m_idempotencyKey (create (new_row req key userId bodyHash lockedAt expiresAt)))
    (λ createErr, if is_unique_violation createErr then throw in_progress else throw createErr).

(** Everything before the handler: a reply without running it, or the row that locks the key. *)
Definition claim_key (req : Request) (key : string) : M exn W (Reply + IdempotencyKey) :=
  let userId := user_of req in
  let bodyHash := hashBody (body req) in
  cached ← from_cache key userId bodyHash;
  match cached with
  | Some reply => mret (inl reply)
  | None =>
      existing ← PrismaService.via h PrismaService.m_idempotencyKey (find_unique (same_key key userId));
      match existing with
      | Some row => reply ← from_row row bodyHash; mret (inl reply)
      | None => row ← acquire req key userId bodyHash; mret (inr row)
      end
  end.

(** [data: { statusCode, responseBody: data ?? {}, lockedAt: null, lockOwner: null }] *)
Definition completed (statusCode : Z) (data : option string) (g : gen) (r : IdempotencyKey) : IdempotencyKey :=
  {| ik_id := ik_id r; ik_key := ik_key r; ik_userId := ik_userId r; ik_bodyHash := ik_bodyHash r;
     ik_statusCode := statusCode; ik_responseBody := default "{}"%string data; ik_requestPath := ik_requestPath r;
     ik_lockedAt := None; ik_lockOwner := None; ik_expiresAt := ik_expiresAt r; ik_createdAt := ik_createdAt r;
     ik_updatedAt := g_now g |}.

(** The [tap] callback: store the response, release the lock, fill the cache. *)
Definition persist (row : IdempotencyKey) (statusCode : Z) (data : option string) : M exn W unit :=
  _ ← PrismaService.via h PrismaService.m_idempotencyKey
        (update (λ r, String.eqb (ik_id r) (ik_id row)) (completed statusCode data));
  createdAt ← date_now;
  let record := mkRecord data statusCode (ik_userId row) (ik_bodyHash row) createdAt in
  try_catch
    (_ ← RedisService.setIfNotExists (cacheKey (ik_userId row) (ik_key row)) record ttlSeconds; mret tt)
    (λ redisErr, mret tt).

(** [intercept].  The response is emitted without awaiting [persist], whose failure is an
    unhandled rejection and does not reach the client. *)
Definition intercept (req : Request) (handler : M exn W (Z * option string)) : M exn W Reply :=
  if negb (String.eqb (method req) "POST") then
    '(statusCode, data) ← handler;
    mret (Handled statusCode data)
  else
    match idempotency_key req with
    | None => throw (BadRequestException "Idempotency-Key header is required for this endpoint")
    | Some key =>
        if negb (truthy key) then throw (BadRequestException "Idempotency-Key header is required for this endpoint")
        else if negb (is_uuid key) then throw (BadRequestException "Idempotency-Key must be a valid UUID")
        else
          admitted ← claim_key req key;
          match admitted with
          | inl reply => mret reply
          | inr row =>
              '(statusCode, data) ← handler;
              try_catch (persist row statusCode data) (λ _, mret tt) ≫= λ _,
              mret (Handled statusCode data)
          end
    end.

(** *** Lemmas *)
Context `{!PrismaLaws W} `{!ClockLaws W} `{!RedisClientLaws W}.

Lemma wp_elsewhere {A : Type} (m : M exn W A) (Φ : outcome exn A → W → Prop) (w : W) :
  elsewhere m → (∀ a w', commits w w' (tables w) → Φ (Ret a) w') →
  (∀ e w', commits w w' (tables w) → is_http e = false → Φ (Throw e) w') → wp m Φ w.
Proof.
  intros Hm Hok Hno. unfold wp. specialize (Hm w). destruct (m w) as [[a|e] w']; cbn; [by apply Hok|].
  destruct Hm. by apply Hno.
Qed.

Lemma RedisService_get_elsewhere (key : string) : elsewhere (RedisService.get key : M exn W _).
Proof.
  intros w. unfold RedisService.get, mbind, M_bind. pose proof (client_get_law key w) as Hg.
  destruct (client_get key w) as [[[v|]|e] w']; cbn; [by destruct (truthy v)|done|done].
Qed.

(** What the fast path answers for a cached record. *)
Definition cached_answer (cached : option IdempotencyRecord) (userId bodyHash : string) : outcome exn (option Reply) :=
  match cached with
  | None => Ret None
  | Some c => if negb (String.eqb (rec_userId c) userId)
              then Throw (ForbiddenException "Idempotency key belongs to a different user")
              else if negb (String.eqb (rec_bodyHash c) bodyHash) then Throw different_body
              else Ret (Some (Replayed (rec_statusCode c) (rec_response c)))
  end.

Lemma wp_from_cache (key userId bodyHash : string) (P : option IdempotencyRecord → Prop)
    (Φ : outcome exn (option Reply) → W → Prop) (w : W) :
  P None → wp (RedisService.get (cacheKey userId key)) (λ r _, match r with Ret c => P c | Throw _ => True end) w →
  (∀ c w', commits w w' (tables w) → P c → Φ (cached_answer c userId bodyHash) w') →
  wp (from_cache key userId bodyHash) Φ w.
Proof.
  intros HP Hget Hk. unfold from_cache. apply wp_try, wp_bind.
  pose proof (RedisService_get_elsewhere (cacheKey userId key) w) as He. unfold wp in Hget |- * at 1.
  destruct (RedisService.get (cacheKey userId key) w) as [[c|e] w']; cbn.
  - specialize (Hk c w' He Hget). destruct c as [c|]; cbn in Hk |- *; [|by apply wp_ret].
    apply wp_bind. unfold replayFromCache. destruct (negb (String.eqb (rec_userId c) userId)).
    { by apply wp_throw, wp_throw. }
    destruct (negb (String.eqb (rec_bodyHash c) bodyHash)); [by apply wp_throw, wp_throw|]. by apply wp_ret, wp_ret.
  - destruct He as [Hc ->]. apply wp_ret. by apply (Hk None).
Qed.

Lemma new_row_same_key (req : Request) (key userId bodyHash : string) (t t' : Z) (g : gen) :
  same_key key userId (new_row req key userId bodyHash t t' g) = true.
Proof. unfold same_key. cbn. by rewrite !String.eqb_refl. Qed.

(** A row with a fresh identifier clashes exactly when its key and user are taken. *)
Lemma new_row_conflict (req : Request) (key userId bodyHash : string) (t t' : Z) (g : gen) (d : db) :
  g_id g ∉ ids d →
  existsb (conflict (new_row req key userId bodyHash t t' g)) (rows d) = existsb (same_key key userId) (rows d).
Proof.
  intros Hg. assert (∀ r, r ∈ rows (R:=IdempotencyKey) d → ik_id r ≠ g_id g) as Hid.
  { intros r Hr He. apply Hg. rewrite <- He. unfold ids. rewrite !elem_of_app. do 6 right.
    by apply list_elem_of_fmap_2. }
  induction (rows (R:=IdempotencyKey) d) as [|r l IH]; cbn [existsb]; [done|].
  rewrite IH by set_solver. f_equal. cbn.
  rewrite (proj2 (String.eqb_neq _ _)) by (intros He; apply (Hid r); [set_solver|by rewrite He]). cbn.
  unfold same_key. by rewrite String.eqb_sym, (String.eqb_sym userId).
Qed.

Lemma wp_acquire (req : Request) (key userId bodyHash : string) (Φ : outcome exn IdempotencyKey → W → Prop) (w : W) :
  PrismaService.m_idempotencyKey ∈ h →
  (∀ t t' g w', let row := new_row req key userId bodyHash t t' g in
     existsb (same_key key userId) (rows (tables w)) = false →
     commits w w' (set_rows (rows (tables w) ++ [row]) (tables w)) → Φ (Ret row) w') →
  (∀ e w', refuses w w' (e = in_progress ∧ existsb (same_key key userId) (rows (tables w)) = true) → Φ (Throw e) w') →
  wp (acquire req key userId bodyHash) Φ w.
Proof.
  intros Hh Hok Hno. unfold acquire. wp_step. apply wp_date_now. intros now w1 [H1 H1up]. cbv zeta.
  apply wp_try, wp_bind, wp_date_now. intros t w2 [H2 H2up]. rewrite PrismaService.via_in by done.
  apply wp_create.
  - intros g w3 [H3 H3up] Hc Hg. rewrite H2, H1 in *. rewrite new_row_conflict in Hc by done.
    apply Hok; [done|]. split; [done|auto].
  - intros e w3 [H3 Hr]. rewrite H2, H1 in *. destruct (is_unique_violation e) eqn:He; apply wp_throw, Hno; (split; [done|]);
      intros Hup; destruct Hr as [(Hu & g & Hg & Hc) Hup3]; auto; [|congruence].
    rewrite new_row_conflict in Hc by done. done.
Qed.

(** The handler of a request is run at most once per key and user.  It is only run after a
    locked row for the key and user has been inserted where there was none; while such a row
    exists, every other request with the key (also one that looked before the row was there
    and loses the race to insert it) gets a conflict or a stored response and changes
    nothing. *)
Theorem claim_once (req : Request) (key : string) (w : W) (Hh : PrismaService.m_idempotencyKey ∈ h) :
  let user := user_of req in
  wp (claim_key req key) (λ r w',
    match r with
    | Ret (inr row) =>
        existsb (same_key key user) (rows (tables w)) = false ∧ same_key key user row = true ∧
        is_Some (ik_lockedAt row) ∧ tables w' = set_rows (rows (tables w) ++ [row]) (tables w)
    | _ => tables w' = tables w
    end) w ∧
  (existsb (same_key key user) (rows (tables w)) = true →
   wp (acquire req key user (hashBody (body req))) (λ r w',
     tables w' = tables w ∧ match r with Ret _ => False | Throw e => up w → e = in_progress end) w).
Proof.
  intros user. split.
  - unfold claim_key. fold user. apply wp_bind.
    apply (wp_from_cache _ _ _ (λ _, True)); [done|unfold wp; by destruct (RedisService.get _ w) as [[] ?]|].
    intros c w1 [H1 H1up] _. destruct (cached_answer c user (hashBody (body req))) as [[reply|]|e]; [by apply wp_ret| |done].
    apply wp_bind. rewrite PrismaService.via_in by done. apply wp_find_unique.
    + intros row w2 [H2 _] _ _. apply wp_bind. unfold from_row.
      repeat case_match; try (apply wp_throw; congruence). apply wp_ret, wp_ret. congruence.
    + intros w2 [H2 _] Hn. apply wp_bind, wp_acquire; [done|..].
      * intros t t' g w3 row Hn' [H3 _]. apply wp_ret. rewrite H2, H1 in *. split; [done|].
        split; [apply new_row_same_key|]. by split.
      * intros e w3 [H3 _]. congruence.
    + intros e w2 [H2 _]. congruence.
  - intros Hex. apply wp_acquire; [done|..].
    + intros t t' g w' row Hn. congruence.
    + intros e w' [Ht Hr]. split; [done|]. intros Hup. by destruct (Hr Hup) as [[-> _] _].
Qed.

Lemma completed_id (s : Z) (d : option string) (g : gen) (r : IdempotencyKey) :
  ik_id (completed s d g r) = ik_id r.
Proof. done. Qed.

Lemma wp_persist (row : IdempotencyKey) (s : Z) (d : option string) (Φ : outcome exn unit → W → Prop) (w : W) :
  PrismaService.m_idempotencyKey ∈ h → up w → row ∈ rows (tables w) →
  (∀ g w', up w' → tables w' = set_rows (map_if (λ r, String.eqb (ik_id r) (ik_id row)) (completed s d g) (rows (tables w))) (tables w) →
     Φ (Ret tt) w') →
  wp (persist row s d) Φ w.
Proof.
  intros Hh Hup Hin Hok. unfold persist. wp_step. rewrite PrismaService.via_in by done. apply wp_update.
  - intros g r w1 _ _ [H1 H1up]. apply wp_bind, wp_date_now. intros t w2 [H2 H2up]. cbv zeta.
    apply wp_try, wp_bind, wp_elsewhere; [apply client_set_nx_law|..].
    + intros b w3 [H3 H3up]. apply wp_ret. apply (Hok g); [auto|congruence].
    + intros e w3 [H3 H3up] _. apply wp_ret. apply (Hok g); [auto|congruence].
  - intros e w1 [_ Hr]. exfalso. destruct (Hr Hup) as [[Hn|(g & r & Hp & Hk)] _].
    + rewrite existsb_false_forall in Hn. specialize (Hn row Hin). by rewrite String.eqb_refl in Hn.
    + unfold same_keys in Hk. cbn in Hk. by rewrite !String.eqb_refl in Hk.
Qed.


(** A handler that fails leaves its row locked, so that the retries of the client are refused
    (until the cleanup removes the row). *)
Lemma failed_handler_keeps_lock (req : Request) (key : string) (err : exn) (w : W) :
  PrismaService.m_idempotencyKey ∈ h → method req = "POST"%string → idempotency_key req = Some key →
  is_uuid key = true → truthy key = true →
  wp (intercept req (throw err)) (λ r w',
    ∀ row, tables w' = set_rows (rows (tables w) ++ [row]) (tables w) → tables w' ≠ tables w →
      r = Throw err ∧ is_Some (ik_lockedAt row)) w.
Proof.
  intros Hh Hm Hk Hu Ht. unfold intercept. rewrite Hm, Hk, Ht, Hu. cbn [negb String.eqb].
  replace (negb (String.eqb "POST" "POST")) with false by done. apply wp_bind.
  unfold claim_key. apply wp_bind. apply (wp_from_cache _ _ _ (λ _, True)); [done|unfold wp; by destruct (RedisService.get _ w) as [[] ?]|].
  intros c w1 [H1 _] _. destruct (cached_answer _ _ _) as [[reply|]|e]; [apply wp_ret, wp_ret; congruence| |congruence].
  apply wp_bind. rewrite PrismaService.via_in by done. apply wp_find_unique.
  - intros row w2 [H2 _] _ _. apply wp_bind. unfold from_row.
    repeat case_match; try (apply wp_throw; congruence). apply wp_ret, wp_ret, wp_ret. congruence.
  - intros w2 [H2 _] _. apply wp_bind, wp_acquire; [done|..].
    + intros t t' g w3 row Hn [H3 _]. apply wp_ret, wp_bind, wp_throw. intros row' Hrow _.
      rewrite H3, H2, H1 in Hrow. apply (f_equal rows) in Hrow. rewrite !rows_set_rows in Hrow.
      apply app_inj_tail in Hrow as [_ <-]. by split.
    + intros e w3 [H3 _]. congruence.
  - intros e w2 [H2 _]. congruence.
Qed.
End interceptor.
End IdempotencyInterceptor.

(** ** [idempotency-cleanup.service.ts] *)
Module IdempotencyCleanupService.
Section service.
Context {W : Type} `{!Prisma W} `{!Clock W}.
Variable h : PrismaService.handle.

Definition deleteExpiredKeys : M exn W Z :=
  now ← date_now;
  PrismaService.via h PrismaService.m_idempotencyKey (delete_many (λ r, ik_expiresAt r <? now)).

Definition is_stale (staleCutoff : Z) (r : IdempotencyKey) : bool :=
  match ik_lockedAt r with Some t => t <? staleCutoff | None => false end.

Definition releaseStaleLocks : M exn W Z :=
  now ← date_now;
  let staleCutoff := now - 5 * 60 * 1000 in
  PrismaService.via h PrismaService.m_idempotencyKey (delete_many (is_stale staleCutoff)).
End service.
End IdempotencyCleanupService.

(** ** Witnesses *)
Module IdempotencyExamples.
Import IdempotencyInterceptor.

(** Redis is down. *)
#[local] Instance no_redis : RedisClient mem := {|
  client_get := λ _, throw (JsError "ECONNREFUSED");
  client_set := λ _ _, throw (JsError "ECONNREFUSED");
  client_setEx := λ _ _ _, throw (JsError "ECONNREFUSED");
  client_set_nx := λ _ _ _, throw (JsError "ECONNREFUSED");
  client_del := λ _, throw (JsError "ECONNREFUSED");
  client_ttl := λ _, throw (JsError "ECONNREFUSED") |}.

#[local] Instance no_redis_laws : RedisClientLaws mem.
Proof. split; intros; intros w; by split. Qed.

#[local] Instance toy_codec : RecordCodec := {| stringify_record := λ r, rec_userId r; parse_record := λ _, None |}.

#[local] Existing Instance toy_crypto.

Definition key_ex : string := "01234567-89ab-cdef-0123-456789abcdef".

Definition req_ex : Request := mkRequest "POST" "/fund" (Some key_ex) (Some "u1"%string) None (Some "{1}"%string).

Definition w_ex : mem := mkMem empty_db 1000 1 [].

Definition run (handler : M exn mem (Z * option string)) : M exn mem Reply :=
  intercept PrismaService.surface 86400 "host:1" req_ex handler.

Definition ok_handler : M exn mem (Z * option string) := mret (201, Some "{2}"%string).

Lemma has_keys : PrismaService.m_idempotencyKey ∈ PrismaService.surface.
Proof. apply (bool_decide_unpack _). vm_compute. exact I. Defined.

(** The second request gets the response of the first; after a failure it gets a conflict. *)
Lemma intercept_ex :
  (run ok_handler w_ex).1 = Ret (Handled 201 (Some "{2}"%string)) ∧
  (run (throw (JsError "again")) (run ok_handler w_ex).2).1 = Ret (Replayed 201 (Some "{2}"%string)) ∧
  (run ok_handler (run (throw (JsError "down")) w_ex).2).1 = Throw in_progress.
Proof. vm_compute. repeat split. Qed.

Definition row_ex : IdempotencyKey := new_row "host:1" req_ex key_ex "u1" (hashBody (body req_ex)) 1000 90000 (mkGen "i1" 1 1000).

Definition w_locked : mem := mkMem (set_rows [row_ex] empty_db) 1000 2 [].

Lemma claim_once_witness :
  existsb (same_key key_ex "u1") (rows (tables w_locked)) = true ∧
  wp (acquire PrismaService.surface 86400 "host:1" req_ex key_ex "u1" (hashBody (body req_ex))) (λ r w',
     tables w' = tables w_locked ∧ match r with Ret _ => False | Throw e => up w_locked → e = in_progress end) w_locked.
Proof.
  split; [vm_compute; reflexivity|].
  exact (proj2 (claim_once PrismaService.surface 86400 "host:1" req_ex key_ex w_locked has_keys) eq_refl).
Defined.

End IdempotencyExamples.
