(* ===== verification/IdempotentRequests.v ===== *)
(** * Concurrent requests with one idempotency key ([common/idempotency.interceptor.ts],
    [common/idempotency-cleanup.service.ts])

    Requests interleaved at their awaits, on any number of instances, with the cleanups and with
    instances that crash: the interceptor of Idempotency.v as a thread.  The handler is any thread
    that leaves the table of keys alone. *)
From S2P Require Import Prelude Threads Js Schema Errors Prisma PrismaService Interfaces Idempotency.
Import IdempotencyInterceptor IdempotencyCleanupService.
Open Scope Z_scope.

Module Requests.

Section threads.
Context {W : Type} `{!Prisma W} `{!Clock W} `{!RedisClient W} {RC : RecordCodec} {CR : Crypto}.
Variable h : PrismaService.handle.
Variable ttlSeconds : Z.
Variable lockOwner : string.

Definition claim_key_ (req : Request) (key : string) : thread exn W (Reply + IdempotencyKey) :=
  let userId := user_of req in
  let bodyHash := hashBody (body req) in
  cached ← await (from_cache key userId bodyHash);
  match cached with
  | Some reply => mret (inl reply)
  | None =>
      existing ← await (PrismaService.via h PrismaService.m_idempotencyKey (find_unique (same_key key userId)));
      match existing with
      | Some row => reply ← await (from_row row bodyHash); mret (inl reply)
      | None => row ← await (acquire h ttlSeconds lockOwner req key userId bodyHash); mret (inr row)
      end
  end.

Definition persist_ (row : IdempotencyKey) (statusCode : Z) (data : option string) : thread exn W unit :=
  _ ← await_at "persist" (PrismaService.via h PrismaService.m_idempotencyKey
        (update (λ r, String.eqb (ik_id r) (ik_id row)) (completed statusCode data)));
  createdAt ← await date_now;
  let record := mkRecord data statusCode (ik_userId row) (ik_bodyHash row) createdAt in
  try_
    (_ ← await (RedisService.setIfNotExists (cacheKey (ik_userId row) (ik_key row)) record ttlSeconds); mret tt)
    (λ redisErr, mret tt).

(** [intercept] of a POST request with a valid key *)
Definition keyed_ (req : Request) (key : string) (handler : thread exn W (Z * option string)) : thread exn W Reply :=
  admitted ← claim_key_ req key;
  match admitted with
  | inl reply => mret reply
  | inr row =>
      '(statusCode, data) ← handler;
      try_ (persist_ row statusCode data) (λ _, mret tt) ≫= λ _,
      mret (Handled statusCode data)
  end.

Definition keyed (req : Request) (key : string) : Prop :=
  method req = "POST"%string ∧ idempotency_key req = Some key ∧ truthy key = true ∧ is_uuid key = true.

(** The thread is the interceptor around the handler. *)
Lemma keyed_cuts (req : Request) (key : string) (handler : thread exn W (Z * option string)) :
  keyed req key →
  cuts (keyed_ req key handler) (intercept h ttlSeconds lockOwner req (run_alone handler)).
Proof.
  intros (Hm & Hk & Ht & Hu) w. unfold intercept. rewrite Hm, Hk, Ht, Hu. cbn [negb]. rewrite String.eqb_refl. cbn [negb].
  revert w. apply cuts_bind.
  - unfold claim_key_, claim_key. apply cuts_bind; [auto with cuts|]. intros [reply|]; [auto with cuts|].
    apply cuts_bind; [auto with cuts|]. intros [row|]; auto with cuts.
  - intros [reply|row]; [auto with cuts|]. apply cuts_bind; [done|]. intros [statusCode data].
    apply cuts_bind; [|auto with cuts]. apply cuts_try; [|auto with cuts]. unfold persist_, persist. auto with cuts.
Qed.
End threads.

(** *** The invariant *)

(** The auxiliary state of a request: it has locked its key with the row that it inserted. *)
Inductive stage := Looking | Locked (row : IdempotencyKey) | Done.

Definition locked (ls : list (Request * stage)) : list IdempotencyKey :=
  omap (λ x : Request * stage, match x.2 with Locked row => Some row | _ => None end) ls.

Definition key_user (row : IdempotencyKey) : string * string := (ik_key row, ik_userId row).

(** The request and the row have the same key and user. *)
Definition for_row (req : Request) (row : IdempotencyKey) : Prop :=
  idempotency_key req = Some (ik_key row) ∧ user_of req = ik_userId row.

(** Running the handler, or storing its response *)
Definition holding (place : string) : bool := String.eqb place "handler" || String.eqb place "persist".

Section inv.
Context {W : Type} `{!Prisma W}.

Definition keys_unique (d : db) : Prop := NoDup (map ik_id (rows d)) ∧ NoDup (map key_user (rows d)).

Definition lock_inv (w : W) (ls : list (Request * stage)) : Prop :=
  keys_unique (tables w) ∧ NoDup (ik_id <$> locked ls) ∧
  ∀ req row, (req, Locked row) ∈ ls → row ∈ rows (tables w) ∧ is_Some (ik_lockedAt row) ∧ for_row req row.

Definition is_locked (p : stage) : bool := match p with Locked _ => true | _ => false end.

Definition may_be_at (place : string) (p : stage) : Prop := holding place = is_locked p.

Definition let_go {A : Type} (r : outcome exn A) (p : stage) : Prop := is_locked p = false.

(** Stored responses that expire at [horizon] or later stay. *)
Definition responses_stay (horizon : Z) (w w' : W) : Prop :=
  ∀ row : IdempotencyKey, row ∈ rows (tables w) → ik_lockedAt row = None → horizon <= ik_expiresAt row → row ∈ rows (tables w').

#[global] Instance responses_stay_preorder (horizon : Z) : PreOrder (responses_stay horizon).
Proof. split; [by intros w row|]. intros w1 w2 w3 H12 H23 row Hr Hl He. apply H23; auto. Qed.

Lemma locked_app ls1 ls2 : locked (ls1 ++ ls2) = locked ls1 ++ locked ls2.
Proof. apply omap_app. Qed.

Lemma lock_inv_drop (w : W) ls1 bp ls2 : lock_inv w (ls1 ++ bp :: ls2) → lock_inv w (ls1 ++ ls2).
Proof.
  intros (H1 & H2 & H3). split; [done|]. split.
  - eapply sublist_NoDup; [exact H2|]. rewrite !locked_app. apply fmap_sublist, sublist_app; [done|].
    destruct bp as [b []]; cbn; [done|by apply sublist_cons|done].
  - intros req row Hr. apply H3. set_solver.
Qed.

(** A stage without a lock may be entered at any time. *)
Lemma lock_inv_unlocked (w : W) ls1 req p p' ls2 :
  (∀ row, p' ≠ Locked row) → lock_inv w (ls1 ++ (req, p) :: ls2) → lock_inv w (ls1 ++ (req, p') :: ls2).
Proof.
  intros Hp H%lock_inv_drop. destruct H as (H1 & H2 & H3). split; [done|]. split.
  - rewrite locked_app in *. cbn. destruct p' as [|row|]; cbn; [done|by destruct (Hp row)|done].
  - intros r row [Hr|[[= -> <-]|Hr]%elem_of_cons]%elem_of_app; [|by destruct (Hp row)|]; apply H3; set_solver.
Qed.

Lemma lock_inv_frame (horizon : Z) (w w' : W) ls :
  rows (R:=IdempotencyKey) (tables w') = rows (tables w) → lock_inv w ls → responses_stay horizon w w' ∧ lock_inv w' ls.
Proof.
  intros Hr (H1 & H2 & H3). split; [intros row; by rewrite Hr|]. unfold lock_inv, keys_unique. by rewrite Hr.
Qed.

(** Inserting a row that conflicts with no other *)
Lemma lock_inv_insert (horizon : Z) (w w' : W) ls1 req p ls2 (row : IdempotencyKey) :
  (∀ r, p ≠ Locked r) → lock_inv w (ls1 ++ (req, p) :: ls2) → existsb (conflict row) (rows (tables w)) = false →
  tables w' = set_rows (rows (tables w) ++ [row]) (tables w) → is_Some (ik_lockedAt row) → for_row req row →
  responses_stay horizon w w' ∧ lock_inv w' (ls1 ++ (req, Locked row) :: ls2).
Proof.
  intros Hp ([H1 H1'] & H2 & H3) Hc Ht Hl Hfor. rewrite existsb_false_forall in Hc.
  assert (∀ r, r ∈ rows (tables w) → ik_id r ≠ ik_id row ∧ key_user r ≠ key_user row) as Hne.
  { intros r Hr. specialize (Hc r Hr). cbn in Hc. apply orb_false_iff in Hc as [Hi Hk]. apply String.eqb_neq in Hi.
    split; [congruence|]. intros [= Ek Eu]. by rewrite Ek, Eu, !String.eqb_refl in Hk. }
  assert (locked (ls1 ++ (req, p) :: ls2) = locked (ls1 ++ ls2)) as Hsame.
  { rewrite !locked_app. cbn. destruct p as [|r|]; [done|by destruct (Hp r)|done]. }
  split; [intros r Hr _ _; rewrite Ht, rows_set_rows; set_solver|]. unfold lock_inv, keys_unique. rewrite Ht, rows_set_rows.
  split; [split|split].
  - rewrite map_app. apply NoDup_app. split; [done|]. split; [|by repeat constructor; set_solver].
    intros k (r & Hk & Hr)%list_elem_of_In%in_map_iff Hs. apply list_elem_of_singleton in Hs. rewrite <- list_elem_of_In in Hr. destruct (Hne r Hr). congruence.
  - rewrite map_app. apply NoDup_app. split; [done|]. split; [|by repeat constructor; set_solver].
    intros k (r & Hk & Hr)%list_elem_of_In%in_map_iff Hs. apply list_elem_of_singleton in Hs. rewrite <- list_elem_of_In in Hr. destruct (Hne r Hr). congruence.
  - assert (ik_id row ∉ ik_id <$> locked (ls1 ++ ls2)) as Hnin.
    { intros (r & He & Hr)%list_elem_of_fmap. rewrite <- Hsame in Hr. apply list_elem_of_omap in Hr as ([q s] & Hq & Hs).
      cbn in Hs. destruct s as [|r'|]; try done. injection Hs as ->. destruct (H3 q r Hq) as (Hr & _). by destruct (Hne r Hr). }
    rewrite Hsame in H2. rewrite locked_app in H2, Hnin |- *. cbn. rewrite fmap_app in H2 |- *. cbn.
    rewrite fmap_app in Hnin. apply NoDup_app in H2 as (N1 & N2 & N3). apply NoDup_app. split; [done|]. split.
    + intros x Hx [->|Hx']%elem_of_cons; [set_solver|by apply (N2 x)].
    + apply NoDup_cons. split; [set_solver|done].
  - intros q r [Hq|[[= -> ->]|Hq]%elem_of_cons]%elem_of_app; [| |].
    2: { split; [set_solver|done]. }
    all: destruct (H3 q r) as (Hr & ?); [set_solver|]; (split; [set_solver|done]).
Qed.

(** Storing the response in the row that is held *)
Lemma lock_inv_complete (horizon : Z) (w w' : W) ls1 req row ls2 (statusCode : Z) (data : option string) (g : gen) :
  lock_inv w (ls1 ++ (req, Locked row) :: ls2) →
  tables w' = set_rows (map_if (λ r, String.eqb (ik_id r) (ik_id row)) (completed statusCode data g) (rows (tables w))) (tables w) →
  responses_stay horizon w w' ∧ lock_inv w' (ls1 ++ (req, Done) :: ls2).
Proof.
  intros ([H1 H1'] & H2 & H3) Ht. destruct (H3 req row) as (Hrow & Hl & _); [set_solver|].
  assert (∀ r, r ∈ rows (tables w) → ik_id r = ik_id row → r = row) as Hid.
  { intros r [i Hi]%list_elem_of_lookup He. apply list_elem_of_lookup in Hrow as [j Hj].
    assert (i = j) as ->; [|congruence]. eapply (NoDup_lookup (ik_id <$> rows (tables w))); [exact H1|..]; rewrite list_lookup_fmap; [by rewrite Hi|rewrite Hj; cbn; by f_equal]. }
  assert (∀ r, r ∈ rows (tables w) → r ≠ row → r ∈ rows (tables w')) as Hother.
  { intros r Hr Hne. rewrite Ht, rows_set_rows. apply elem_of_map_if. exists r. split; [done|].
    destruct (String.eqb (ik_id r) (ik_id row)) eqn:E; [|done]. apply String.eqb_eq in E. by destruct (Hne (Hid r Hr E)). }
  split; [intros r Hr Hnone _; apply Hother; [done|intros ->; rewrite Hnone in Hl; by destruct Hl]|].
  split; [unfold keys_unique; rewrite Ht, rows_set_rows; split|split].
  - unfold map_if. rewrite map_map. replace (map _ (rows (tables w))) with (map ik_id (rows (R:=IdempotencyKey) (tables w))); [done|].
    apply map_ext. intros r. by destruct (String.eqb _ _).
  - unfold map_if. rewrite map_map. replace (map _ (rows (tables w))) with (map key_user (rows (R:=IdempotencyKey) (tables w))); [done|].
    apply map_ext. intros r. by destruct (String.eqb _ _).
  - eapply sublist_NoDup; [exact H2|]. rewrite !locked_app. apply fmap_sublist, sublist_app; [done|]. cbn. by apply sublist_cons.
  - intros q r Hq. assert ((q, Locked r) ∈ ls1 ++ ls2) as Hq' by set_solver.
    destruct (H3 q r) as (Hr & Hrest); [set_solver|]. split; [|done]. apply Hother; [done|]. intros ->.
    rewrite locked_app in H2. cbn in H2. rewrite fmap_app in H2. cbn in H2. apply NoDup_app in H2 as (_ & N2 & [N3 _]%NoDup_cons).
    assert (∀ l, (q, Locked row) ∈ l → ik_id row ∈ ik_id <$> locked l) as Hin.
    { intros l Hl'. apply list_elem_of_fmap_2, list_elem_of_omap. by exists (q, Locked row). }
    apply elem_of_app in Hq' as [Hq'|Hq']; [|by apply N3, Hin]. apply (N2 (ik_id row)); [by apply Hin|by left].
Qed.
End inv.

Section proofs.
Context {W : Type} `{!Prisma W} `{!Clock W} `{!RedisClient W} {RC : RecordCodec} {CR : Crypto}
  `{!PrismaLaws W} `{!ClockLaws W} `{!RedisClientLaws W}.
Variable h : PrismaService.handle.
Variable ttlSeconds : Z.
Variable lockOwner : string.
(** the handler of a request *)
Variable handler : Request → thread exn W (Z * option string).
Variable horizon : Z.

Hypothesis Hhandle : PrismaService.m_idempotencyKey ∈ h.
Hypothesis handler_running : ∀ req, running (handler req).
Hypothesis handler_pieces : ∀ req,
  all_pieces (λ X place m, place = "handler"%string ∧ keeps (rows (R:=IdempotencyKey)) m) (handler req).

#[local] Abbreviation safe_ := (safe lock_inv (responses_stay horizon) may_be_at).

(** A piece that writes no key, after which the request holds what it held or nothing *)
Lemma safe_keeping {C : Type} (Q : outcome exn C → stage → Prop) (req : Request) (place : string) (m : M exn W C) (p : stage) :
  may_be_at place p → keeps (rows (R:=IdempotencyKey)) m → (∀ r, Q r p ∨ Q r Done) → safe_ Q req (await_at place m) p.
Proof.
  intros Hp Hm HQ. apply safe_await_at; [done|]. intros w ls1 ls2 HI. eapply wp_mono; [apply (keeps_wp _ _ _ Hm)|]. intros r w' Hr.
  destruct (lock_inv_frame horizon w w' _ Hr HI) as [HG HI']. split; [done|].
  destruct (HQ r) as [HQr|HQr]; eexists; (split; [|exact HQr]); [done|by eapply lock_inv_unlocked].
Qed.

Lemma keeps_elsewhere {A X : Type} (f : db → X) (m : M exn W A) : elsewhere m → keeps f m.
Proof. intros Hm w. specialize (Hm w). destruct (m w) as [[a|e] w']; cbn; [destruct Hm as [-> _]|destruct Hm as [[-> _] _]]; done. Qed.

Lemma keeps_from_cache (key userId bodyHash : string) : keeps (W:=W) (rows (R:=IdempotencyKey)) (from_cache key userId bodyHash).
Proof.
  unfold from_cache. apply keeps_try; [|intros e; by destruct (is_http e)].
  apply keeps_bind; [apply keeps_elsewhere, RedisService_get_elsewhere|]. intros [c|]; [|done].
  apply keeps_bind; [|done]. unfold replayFromCache. by repeat case_match.
Qed.

Lemma keeps_from_row (row : IdempotencyKey) (bodyHash : string) : keeps (W:=W) (rows (R:=IdempotencyKey)) (from_row row bodyHash).
Proof. unfold from_row. by repeat case_match. Qed.

(** Taking the lock, with what [create] says of the row it inserts *)
Lemma wp_acquire_lock (req : Request) (key : string) (Φ : outcome exn IdempotencyKey → W → Prop) (w : W) :
  (∀ row w', existsb (conflict row) (rows (tables w)) = false → ik_key row = key → ik_userId row = user_of req →
     is_Some (ik_lockedAt row) → tables w' = set_rows (rows (tables w) ++ [row]) (tables w) → Φ (Ret row) w') →
  (∀ e w', tables w' = tables w → Φ (Throw e) w') →
  wp (acquire h ttlSeconds lockOwner req key (user_of req) (hashBody (body req))) Φ w.
Proof.
  intros Hok Hno. unfold acquire. apply wp_bind, wp_date_now. intros now w1 [H1 _]. cbv zeta.
  apply wp_try, wp_bind, wp_date_now. intros t w2 [H2 _]. rewrite PrismaService.via_in by done. apply wp_create.
  - intros g w3 [H3 _] Hc _. rewrite H2, H1 in *. by eapply Hok.
  - intros e w3 [H3 _]. destruct (is_unique_violation e); apply wp_throw, Hno; congruence.
Qed.

Definition claimed (req : Request) (r : outcome exn (Reply + IdempotencyKey)) (p : stage) : Prop :=
  match r with Ret (inr row) => p = Locked row | _ => is_locked p = false end.

Lemma safe_claim (req : Request) (key : string) :
  idempotency_key req = Some key → safe_ (claimed req) req (claim_key_ h ttlSeconds lockOwner req key) Looking.
Proof.
  intros Hk. unfold claim_key_. apply safe_bind, safe_keeping; [done|apply keeps_from_cache|]. intros [[reply|]|e]; left; [done| |done].
  apply safe_bind, safe_keeping; [done|apply PrismaService.keeps_via, keeps_find_unique|]. intros [[row|]|e]; left; [| |done].
  - apply safe_bind, safe_keeping; [done|apply keeps_from_row|]. by intros [reply|e]; left.
  - apply safe_bind, safe_await; [done|]. intros w ls1 ls2 HI. apply wp_acquire_lock.
    + intros row w' Hc Hkey Huser Hl Ht.
      destruct (lock_inv_insert horizon w w' ls1 req Looking ls2 row) as [HG HI']; [done..|by rewrite <- Hkey in Hk|].
      split; [done|]. by exists (Locked row).
    + intros e w' Ht. destruct (lock_inv_frame horizon w w' (ls1 ++ (req, Looking) :: ls2)) as [HG HI']; [by rewrite Ht|done|].
      split; [done|]. by exists Looking.
Qed.

Lemma safe_handler (req : Request) (row : IdempotencyKey) (t : thread exn W (Z * option string)) :
  running t → all_pieces (λ X place m, place = "handler"%string ∧ keeps (rows (R:=IdempotencyKey)) m) t →
  safe_ (λ r p, match r with Ret _ => p = Locked row | Throw _ => p = Done end) req t (Locked row).
Proof.
  induction t as [r|X place m k IH]; intros Hrun Hp; [by destruct (Hrun r)|]. destruct Hp as [[-> Hm] Hk].
  split; [done|]. intros w ls1 ls2 HI. eapply wp_mono; [apply (keeps_wp _ _ _ Hm)|]. intros x w' Hr.
  destruct (lock_inv_frame horizon w w' _ Hr HI) as [HG HI']. split; [done|].
  specialize (IH x). specialize (Hk x). destruct (k x) as [[a|e]|]; [by exists (Locked row)| |].
  - exists Done. split; [by eapply lock_inv_unlocked|done].
  - exists (Locked row). split; [done|]. by apply IH.
Qed.

Lemma safe_persist (req : Request) (row : IdempotencyKey) (statusCode : Z) (data : option string) :
  safe_ (λ _ p, p = Done) req (persist_ h ttlSeconds row statusCode data) (Locked row).
Proof.
  unfold persist_. apply safe_bind, safe_await_at; [done|]. intros w ls1 ls2 HI. rewrite PrismaService.via_in by done.
  apply wp_update.
  - intros g r w' _ _ [Ht _]. destruct (lock_inv_complete horizon w w' ls1 req row ls2 statusCode data g) as [HG HI']; [done..|].
    split; [done|]. exists Done. split; [done|]. apply safe_bind, safe_keeping; [done|apply keeps_date_now|]. intros [t|e]; left; [|done].
    apply safe_try, safe_bind, safe_keeping; [done|apply keeps_elsewhere, client_set_nx_law|]. by intros [b|e]; left.
  - intros e w' [Ht _]. destruct (lock_inv_frame horizon w w' (ls1 ++ (req, Locked row) :: ls2)) as [HG HI']; [by rewrite Ht|done|].
    split; [done|]. exists Done. split; [by eapply lock_inv_unlocked|done].
Qed.

Lemma safe_keyed (req : Request) (key : string) :
  idempotency_key req = Some key → safe_ let_go req (keyed_ h ttlSeconds lockOwner req key (handler req)) Looking.
Proof.
  intros Hk. unfold keyed_. apply safe_bind. eapply safe_mono; [by apply safe_claim|].
  intros [[reply|row]|e] p Hc; [done| |done]. cbn in Hc. subst p. apply safe_bind.
  eapply safe_mono; [by apply safe_handler|]. intros [[statusCode data]|e] p ->; [|done].
  apply safe_bind, safe_try. eapply safe_mono; [apply safe_persist|]. by intros [[]|e] p ->.
Qed.

(** *** The pool *)

Inductive entry := Arrive (req : Request) (key : string) | DeleteExpired | ReleaseStale | Backend.

Inductive request_enter : entry → W → list (Request * thread exn W Reply) → W → Prop :=
| request_arrives req key w :
    keyed req key → request_enter (Arrive req key) w [(req, keyed_ h ttlSeconds lockOwner req key (handler req))] w
| expired_deleted w r w' : deleteExpiredKeys h w = (r, w') → request_enter DeleteExpired w [] w'
| stale_released w r w' : releaseStaleLocks h w = (r, w') → request_enter ReleaseStale w [] w'
| backend_runs w w' : rows (R:=IdempotencyKey) (tables w') = rows (tables w) → request_enter Backend w [] w'.

(** The row of a request that runs its handler, or stores the response *)
Definition in_use (ts : list (Request * thread exn W Reply)) (row : IdempotencyKey) : Prop :=
  ∃ req t place, (req, t) ∈ ts ∧ place_of t = Some place ∧ holding place = true ∧ for_row req row.

(** Handlers take less than five minutes (and less than the time to live): no cleanup runs when the
    row of a request under way is stale or expired.  Responses that expire at the horizon or later
    are not yet expired. *)
Definition prompt (e : pool_event (Entry:=entry)) (c : pool (E:=exn) (W:=W) (A:=Reply) (B:=Request)) : Prop :=
  let now := (clock c.2).1 in
  match e with
  | Enter ReleaseStale => ∀ row, row ∈ rows (tables c.2) → in_use c.1 row → is_stale (now - 5 * 60 * 1000) row = false
  | Enter DeleteExpired => now <= horizon ∧ ∀ row, row ∈ rows (tables c.2) → in_use c.1 row → now <= ik_expiresAt row
  | _ => True
  end.

(** Deleting rows that no request uses and that no stored response is in *)
Lemma lock_inv_delete (w w' : W) ls (p : IdempotencyKey → bool) :
  lock_inv w ls →
  (∀ req row, (req, Locked row) ∈ ls → p row = false) →
  (∀ row, ik_lockedAt row = None → horizon <= ik_expiresAt row → p row = false) →
  tables w' = set_rows (List.filter (λ r, negb (p r)) (rows (tables w))) (tables w) →
  responses_stay horizon w w' ∧ lock_inv w' ls.
Proof.
  intros ([H1 H1'] & H2 & H3) Hheld Hstored Ht.
  assert (∀ r, r ∈ rows (tables w) → p r = false → r ∈ rows (tables w')) as Hin.
  { intros r Hr Hp. rewrite Ht, rows_set_rows, list_elem_of_In, filter_In, <- list_elem_of_In. by rewrite Hp. }
  assert (List.filter (λ r, negb (p r)) (rows (tables w)) `sublist_of` rows (tables w)) as Hsub.
  { clear. induction (rows (R:=IdempotencyKey) (tables w)) as [|r l IH]; [done|]. cbn. destruct (p r); cbn; [by apply sublist_cons|by apply sublist_skip]. }
  split; [intros r Hr Hl He; apply Hin; [done|by apply Hstored]|]. split; [|split; [done|]].
  - unfold keys_unique. rewrite Ht, rows_set_rows. split; [eapply sublist_NoDup; [exact H1|]|eapply sublist_NoDup; [exact H1'|]]; exact (fmap_sublist _ _ _ Hsub).
  - intros req row Hr. destruct (H3 req row Hr) as [? ?]. split; [|done]. apply Hin; [done|by eapply Hheld].
Qed.

(** Both cleanups delete by the time at which they start. *)
Lemma cleanup_ok (expired : Z → IdempotencyKey → bool) (w : W) ls :
  lock_inv w ls →
  (∀ req row, (req, Locked row) ∈ ls → expired (clock w).1 row = false) →
  (∀ row, ik_lockedAt row = None → horizon <= ik_expiresAt row → expired (clock w).1 row = false) →
  wp (now ← date_now; PrismaService.via h PrismaService.m_idempotencyKey (delete_many (expired now)))
     (λ _ w', responses_stay horizon w w' ∧ lock_inv w' ls) w.
Proof.
  intros HI Hheld Hstored. unfold date_now, wp, mbind, M_bind. cbn. pose proof (clock_law w) as [Hc _].
  rewrite PrismaService.via_in by done.
  apply (wp_delete_many (expired (clock w).1) (λ _ w', responses_stay horizon w w' ∧ lock_inv w' ls)).
  - intros w' [Hw' _]. rewrite Hc in Hw'. by eapply lock_inv_delete.
  - intros e w' [Hw' _]. apply lock_inv_frame; [by rewrite Hw', Hc|done].
Qed.

#[local] Abbreviation minds_ := (minds lock_inv (responses_stay horizon) may_be_at let_go).

Lemma locked_in_use ts ls (w : W) req row :
  Forall2 minds_ ts ls → lock_inv w ls → (req, Locked row) ∈ ls → row ∈ rows (tables w) ∧ in_use ts row.
Proof.
  intros Hm (_ & _ & H3) Hin. destruct (H3 req row Hin) as (Hr & _ & Hfor). split; [done|].
  apply list_elem_of_lookup in Hin as [i Hi]. destruct (Forall2_lookup_r _ _ _ _ _ Hm Hi) as ([b t] & Ht & Hb & Hs).
  cbn in Hb, Hs. subst b. destruct t as [r|X place m k]; [done|]. destruct Hs as [Hplace _].
  exists req, (Atom X place m k), place. split; [by eapply list_elem_of_lookup_2|done].
Qed.

Lemma requests_ok : entries_ok request_enter lock_inv (responses_stay horizon) may_be_at let_go prompt.
Proof.
  intros e ts w new w' ls Hm HI Hok He.
  assert (responses_stay horizon w w' ∧ lock_inv w' ls →
    responses_stay horizon w w' ∧ ∃ news, lock_inv w' (ls ++ news) ∧ Forall2 (λ (t : Request * thread exn W Reply) l, minds_ t l) [] news) as Hnone.
  { intros [HG HI']. split; [done|]. exists []. by rewrite app_nil_r. }
  destruct He as [req key w Hk|w r w' Hr|w r w' Hr|w w' Hr].
  - split; [by intros row|]. exists [(req, Looking)]. split.
    + destruct HI as (H1 & H2 & H3). split; [done|]. rewrite locked_app, app_nil_r. split; [done|].
      intros q row [Hq|Hq]%elem_of_app; [by apply H3|]. by apply list_elem_of_singleton in Hq.
    + constructor; [|constructor]. split; [done|]. apply safe_keyed. apply Hk.
  - apply Hnone. cbn in Hok. destruct Hok as [Hnow Huse]. refine (wp_run _ (λ _ w', responses_stay horizon w w' ∧ lock_inv w' ls) _ _ _ _ Hr).
    apply (cleanup_ok (λ now row, ik_expiresAt row <? now)); [done| |].
    + intros q row Hl. destruct (locked_in_use _ _ _ _ _ Hm HI Hl) as [? ?]. apply Z.ltb_ge. by apply Huse.
    + intros row _ Hh. apply Z.ltb_ge. lia.
  - apply Hnone. cbn in Hok. refine (wp_run _ (λ _ w', responses_stay horizon w w' ∧ lock_inv w' ls) _ _ _ _ Hr).
    apply (cleanup_ok (λ now, is_stale (now - 5 * 60 * 1000))); [done| |].
    + intros q row Hl. destruct (locked_in_use _ _ _ _ _ Hm HI Hl) as [? ?]. by apply Hok.
    + intros row Hn _. unfold is_stale. by rewrite Hn.
  - apply Hnone. by apply lock_inv_frame.
Qed.

Lemma locked_position (ls : list (Request * stage)) i j req req' row :
  NoDup (ik_id <$> locked ls) → ls !! i = Some (req, Locked row) → ls !! j = Some (req', Locked row) → i = j.
Proof.
  revert i j. induction ls as [|[b p] ls IH]; intros i j Hn Hi Hj; [by rewrite lookup_nil in Hi|].
  assert (∀ k q, ls !! k = Some (q, Locked row) → ik_id row ∈ ik_id <$> locked ls) as Hin.
  { intros k q Hk. apply list_elem_of_fmap_2, list_elem_of_omap. exists (q, Locked row). split; [by eapply list_elem_of_lookup_2|done]. }
  destruct i as [|i], j as [|j]; cbn in Hi, Hj; try done.
  - injection Hi as -> ->. cbn in Hn. apply NoDup_cons in Hn as [Hnin _]. destruct Hnin. by eapply Hin.
  - injection Hj as -> ->. cbn in Hn. apply NoDup_cons in Hn as [Hnin _]. destruct Hnin. by eapply Hin.
  - f_equal. apply IH; try done. destruct p; cbn in Hn; try done. by apply NoDup_cons in Hn as [_ Hn].
Qed.

(** C9: any number of requests with idempotency keys run on any number of instances, interleaved
    statement by statement, with the cleanups, with the rest of the backend, and with instances
    that crash.  As long as handlers are prompt, two requests with the same key and user never run
    the handler (or store a response) at the same time: the key's row is in the table, and locked,
    from before the handler starts until its response is stored; and a stored response stays, as
    it is, until it expires. *)
Theorem requests_exclusive (w : W) (c c' : pool) :
  keys_unique (tables w) →
  run (pool_step request_enter) prompt ([], w) c → run (pool_step request_enter) prompt c c' →
  (∀ i j req req' t t' place place', c'.1 !! i = Some (req, t) → c'.1 !! j = Some (req', t') →
     place_of t = Some place → holding place = true → place_of t' = Some place' → holding place' = true →
     idempotency_key req = idempotency_key req' → user_of req = user_of req' → i = j) ∧
  (∀ req t, (req, t) ∈ c'.1 → place_of t = Some "handler"%string →
     ∃ row, row ∈ rows (tables c'.2) ∧ for_row req row ∧ is_Some (ik_lockedAt row)) ∧
  responses_stay horizon c.2 c'.2.
Proof.
  intros Hu H01 H12.
  destruct (pool_sound _ _ _ _ _ _ _ _ requests_ok (crashes_any _ _ lock_inv_drop) H01) as [Hinv1 _].
  { apply pool_inv_empty. split; [done|]. split; [constructor|]. intros req row Hr. by apply elem_of_nil in Hr. }
  destruct (pool_sound _ _ _ _ _ _ _ _ requests_ok (crashes_any _ _ lock_inv_drop) H12 Hinv1) as [(ls & HI & Hm) HG].
  pose proof HI as ([H1 H1'] & H2 & H3).
  assert (∀ i req t place, c'.1 !! i = Some (req, t) → place_of t = Some place → holding place = true →
    ∃ row, ls !! i = Some (req, Locked row)) as Hlocked.
  { intros i req t place Hi Hp Hh. destruct (Forall2_lookup_l _ _ _ _ _ Hm Hi) as ([b p] & Hl & Hmi).
    pose proof (minds_alive _ _ _ _ _ _ _ _ Hmi Hp) as Hal. destruct Hmi as [Hb _]. cbn in Hb, Hal. subst b. unfold may_be_at in Hal.
    rewrite Hh in Hal. destruct p as [|row|]; [done|by exists row|done]. }
  split; [|split; [|exact HG]].
  - intros i j req req' t t' place place' Hi Hj Hp Hh Hp' Hh' Hk Hus.
    destruct (Hlocked _ _ _ _ Hi Hp Hh) as [row Hr]. destruct (Hlocked _ _ _ _ Hj Hp' Hh') as [row' Hr'].
    destruct (H3 req row) as (Hin & _ & [Hk1 Hu1]); [by eapply list_elem_of_lookup_2|].
    destruct (H3 req' row') as (Hin' & _ & [Hk2 Hu2]); [by eapply list_elem_of_lookup_2|].
    assert (row = row') as <-; [|by eapply locked_position]. apply list_elem_of_lookup in Hin as [a Ha], Hin' as [b Hb].
    assert (a = b) as ->; [|congruence]. eapply (NoDup_lookup (key_user <$> rows (tables c'.2))); [exact H1'|..]; rewrite list_lookup_fmap; [by rewrite Ha|].
    rewrite Hb. cbn. unfold key_user. f_equal. f_equal; congruence.
  - intros req t [i Hi]%list_elem_of_lookup Hp. destruct (Hlocked _ _ _ _ Hi Hp eq_refl) as [row Hr].
    destruct (H3 req row) as (? & ? & ?); [by eapply list_elem_of_lookup_2|]. by exists row.
Qed.
End proofs.
End Requests.

(** ** Runs *)
Module RequestExamples.
Import Requests IdempotencyExamples.
#[local] Abbreviation run := Prelude.run.

#[local] Existing Instance no_redis.
#[local] Existing Instance no_redis_laws.
#[local] Existing Instance toy_codec.
#[local] Existing Instance toy_crypto.

(** A handler of two pieces *)
Definition handler_ex (req : Request) : thread exn mem (Z * option string) :=
  _ ← await_at "handler" (mret tt); await_at "handler" (mret (201, Some "{2}"%string)).

Lemma handler_ex_running (req : Request) : running (handler_ex req).
Proof. by intros r. Qed.

Lemma handler_ex_pieces (req : Request) :
  all_pieces (λ X place m, place = "handler"%string ∧ keeps (rows (R:=IdempotencyKey)) m) (handler_ex req).
Proof. split; [by split|]. intros [[]|e]; cbn; [|done]. split; [by split|]. by intros [x|e]. Qed.

#[local] Abbreviation requests := (pool (E:=exn) (W:=mem) (A:=Reply) (B:=Request)).
#[local] Abbreviation step_ := (pool_step (request_enter PrismaService.surface 86400 "host:1" handler_ex)).

Definition arrive (req : Request) (c : requests) : requests :=
  (c.1 ++ [(req, keyed_ PrismaService.surface 86400 "host:1" req key_ex (handler_ex req))], c.2).

Lemma arrive_run (req : Request) allowed (c : requests) :
  keyed req key_ex → allowed (Enter (Arrive req key_ex)) c → run step_ allowed c (arrive req c).
Proof. destruct c as [ts w]. intros Hk Ha. eapply run_more; [apply run_none|exact Ha|]. by apply step_enter, request_arrives. Qed.

Lemma req_ex_keyed : keyed req_ex key_ex.
Proof. repeat split; vm_compute; reflexivity. Qed.

(** Two requests with one key look the row up before either has inserted it; the first takes the
    lock, the second runs into the unique constraint. *)
Definition looking_ex : requests := Nat.iter 2 (advance 1) (Nat.iter 2 (advance 0) (arrive req_ex (arrive req_ex ([], w_ex)))).
Definition holding_ex : requests := advance 1 (advance 0 looking_ex).

Definition places (c : requests) : list (option string) := map (λ x, place_of x.2) c.1.

Lemma looking_run allowed :
  (∀ e c, (∀ f, e ≠ Enter f) ∨ e = Enter (Arrive req_ex key_ex) → allowed e c) →
  run step_ allowed ([], w_ex) looking_ex ∧ run step_ allowed looking_ex holding_ex.
Proof.
  intros Ha. split.
  - eapply run_trans; [apply (arrive_run req_ex); [apply req_ex_keyed|apply Ha; by right]|].
    eapply run_trans; [apply (arrive_run req_ex); [apply req_ex_keyed|apply Ha; by right]|].
    eapply run_trans; [apply (advances_run _ _ 2 0)|apply (advances_run _ _ 2 1)]; intros c; apply Ha; by left.
  - eapply run_trans; [apply (advances_run _ _ 1 0)|apply (advances_run _ _ 1 1)]; intros c; apply Ha; by left.
Qed.

Lemma requests_exclusive_witness :
  places looking_ex = [Some ""; Some ""]%string ∧ places holding_ex = [Some "handler"%string; None] ∧
  ∀ req t, (req, t) ∈ holding_ex.1 → place_of t = Some "handler"%string →
     ∃ row, row ∈ rows (tables holding_ex.2) ∧ for_row req row ∧ is_Some (ik_lockedAt row).
Proof.
  split; [vm_compute; reflexivity|]. split; [vm_compute; reflexivity|].
  refine (proj1 (proj2 (requests_exclusive PrismaService.surface 86400 "host:1" handler_ex 90000 has_keys handler_ex_running
    handler_ex_pieces w_ex looking_ex holding_ex _ _ _))).
  - split; constructor.
  - apply looking_run. by intros [[]|i|i] c [H|[=]]; try destruct (H _ eq_refl).
  - apply looking_run. by intros [[]|i|i] c [H|[=]]; try destruct (H _ eq_refl).
Defined.

(** A handler that takes longer than five minutes loses its row to the cleanup, and a second
    request with the same key runs the handler next to it. *)
Definition released_ex : requests :=
  (holding_ex.1, (releaseStaleLocks PrismaService.surface (mkMem (m_db holding_ex.2) (m_now holding_ex.2 + 360000) (m_next holding_ex.2) [])).2).

Definition twice_ex : requests := Nat.iter 3 (advance 2) (arrive req_ex released_ex).

Theorem slow_handler_runs_twice :
  keys_unique (tables w_ex) ∧ run step_ (λ _ _, True) ([], w_ex) twice_ex ∧
  places twice_ex = [Some "handler"; None; Some "handler"]%string ∧
  map (λ x, (idempotency_key x.1, user_of x.1)) twice_ex.1 = repeat (Some key_ex, "u1"%string) 3.
Proof.
  split; [split; constructor|]. split; [|split; vm_compute; reflexivity].
  destruct (looking_run (λ _ _, True)) as [H1 H2]; [done|]. eapply run_trans; [exact H1|]. eapply run_trans; [exact H2|].
  eapply (run_trans _ _ _ released_ex); [|eapply run_trans; [apply (arrive_run req_ex); [apply req_ex_keyed|done]|by apply (advances_run _ _ 3 2)]].
  assert (∀ ts (w w' : mem), request_enter PrismaService.surface 86400 "host:1" handler_ex Backend w [] w' →
    run step_ (λ _ _, True) (ts, w) (ts, (releaseStaleLocks PrismaService.surface w').2)) as Hrel.
  { intros ts w w' Hb. eapply run_more; [eapply run_more; [apply run_none|done|by apply (step_enter _ Backend)]|done|].
    cbn. rewrite !app_nil_r. rewrite <- (app_nil_r ts) at 2. apply (step_enter _ ReleaseStale). by eapply stale_released, surjective_pairing. }
  apply Hrel. by constructor.
Qed.
End RequestExamples.
