(* ===== verification/Oracle.v ===== *)
(** * Oracle monitoring ([oracle-monitor/oracle-monitor.service.ts],
    [oracle-monitor/fallback-strategy.service.ts], [oracle-monitor/oracle-alert.service.ts],
    [oracle-monitor/oracle-monitor.config.ts])

    The polling of price feeds, the fallback mode of the monitor, and the strategy that
    decides on funding.  What the network and the clock answer during a poll is an argument
    of the model; polls are run one after the other, and OraclePolls.v lets them overlap. *)
From S2P Require Import Prelude Js Errors.
From stdpp Require Import gmap strings.
Open Scope Z_scope.

Module OracleTypes.

Inductive FeedStatus := healthy | stale | unknown.
#[global] Instance FeedStatus_eq : EqDecision FeedStatus.
Proof. solve_decision. Defined.

Inductive FallbackMode := none | last_known_good | halt.
#[global] Instance FallbackMode_eq : EqDecision FallbackMode.
Proof. solve_decision. Defined.

Definition FallbackMode_name (m : FallbackMode) : string :=
  match m with none => "none" | last_known_good => "last_known_good" | halt => "halt" end.

Definition FeedStatus_name (s : FeedStatus) : string :=
  match s with healthy => "healthy" | stale => "stale" | unknown => "unknown" end.

Record FeedConfig := mkFeedConfig {
  c_feedId : string; c_name : string; c_contractAddress : string;
  c_stalenessThresholdMs : Z; c_riskPremiumBps : Z }.

(** [lastKnownPrice] is the text that [parseFloat] reads. *)
Record OracleFeed := mkFeed {
  feedId : string;
  name : string;
  contractAddress : string;
  stalenessThresholdMs : Z;
  riskPremiumBps : Z;
  lastKnownPrice : option string;
  lastUpdateLedger : Z;
  lastUpdatedAt : Z;
  status : FeedStatus;
  fallbackActive : bool }.

Record FeedHealthReport := mkReport {
  r_feedId : string; r_name : string; r_status : FeedStatus; r_lastUpdateLedger : Z; r_lastUpdatedAt : string;
  r_stalenessThresholdMs : Z; r_staleMs : Z; r_fallbackActive : bool }.

Inductive AlertType := staleness_breached | price_deviation | fallback_activated | fallback_deactivated.
#[global] Instance AlertType_eq : EqDecision AlertType.
Proof. solve_decision. Defined.

Record OracleAlert := mkAlert {
  a_id : string; a_feedId : string; a_critical : bool; a_type : AlertType; a_message : string;
  a_feed : FeedHealthReport; a_occurredAt : string }.

Record OracleMonitorConfig := mkConfig {
  enabled : bool;
  pollingIntervalMs : Z;
  config_stalenessThresholdMs : Z;
  warningThresholdMs : Z;
  fallbackMode : FallbackMode;
  fallbackRiskPremiumBps : Z;
  maxRiskPremiumBps : Z;
  feeds : list FeedConfig;
  alertWebhookUrl : option string;
  alertCooldownMs : Z;
  maxConsecutiveFailures : Z }.

(** [numberFrom]: an integer setting or its default. *)
Definition numberFrom (value : option Z) (fallback : Z) : Z := default fallback value.

(** The feeds that [parseFeeds] uses when none are configured. *)
Definition default_feeds (XLM_USD USDC_USD : string) : list FeedConfig :=
  [mkFeedConfig "xlm-usd" "XLM/USD Oracle" XLM_USD 300000 500;
   mkFeedConfig "usdc-usd" "USDC/USD Oracle" USDC_USD 300000 200].

(** [loadOracleMonitorConfig] of the settings that are integers, the mode and the feeds. *)
Definition loadOracleMonitorConfig (ENABLED : option string) (POLLING STALENESS WARNING PREMIUM MAX_PREMIUM COOLDOWN MAX_FAILURES : option Z)
    (FALLBACK_MODE : option FallbackMode) (feeds : list FeedConfig) (WEBHOOK : option string) : OracleMonitorConfig :=
  {| enabled := negb (String.eqb (default "true"%string ENABLED) "false");
     pollingIntervalMs := numberFrom POLLING 30000; config_stalenessThresholdMs := numberFrom STALENESS 300000;
     warningThresholdMs := numberFrom WARNING 240000; fallbackMode := default none FALLBACK_MODE;
     fallbackRiskPremiumBps := numberFrom PREMIUM 1000; maxRiskPremiumBps := numberFrom MAX_PREMIUM 5000;
     feeds := feeds; alertWebhookUrl := WEBHOOK; alertCooldownMs := numberFrom COOLDOWN 300000;
     maxConsecutiveFailures := numberFrom MAX_FAILURES 3 |}.
End OracleTypes.

(** ** [fallback-strategy.service.ts] *)
Module FallbackStrategyService.
Import OracleTypes.

Record FallbackState := mkFallbackState {
  f_mode : FallbackMode; f_riskPremiumBps : Z; f_activatedAt : Z; f_reason : string }.

Definition activate (cfg : OracleMonitorConfig) (mode : FallbackMode) (riskPremiumBps : Z) (reason : string) (now : Z)
    (state : option FallbackState) : option FallbackState :=
  match state with
  | Some s => Some s
  | None => Some (mkFallbackState mode (Z.min riskPremiumBps (maxRiskPremiumBps cfg)) now reason)
  end.

Definition deactivate (state : option FallbackState) : option FallbackState := None.

Definition getActiveMode (state : option FallbackState) : FallbackMode := from_option f_mode none state.

Definition getRiskPremiumBps (state : option FallbackState) : Z := from_option f_riskPremiumBps 0 state.

Definition shouldBlockFunding (state : option FallbackState) : bool :=
  match state with Some s => bool_decide (f_mode s = halt) | None => false end.

Definition calculateEffectiveDiscountBps (cfg : OracleMonitorConfig) (state : option FallbackState) (baseDiscountBps : Z) : Z :=
  match state with
  | None => baseDiscountBps
  | Some s => Z.min (baseDiscountBps + f_riskPremiumBps s) (maxRiskPremiumBps cfg)
  end.
End FallbackStrategyService.

(** ** [oracle-alert.service.ts] *)
Module OracleAlertService.
Import OracleTypes.

Definition AlertType_name (t : AlertType) : string :=
  match t with
  | staleness_breached => "staleness_breached"
  | price_deviation => "price_deviation"
  | fallback_activated => "fallback_activated"
  | fallback_deactivated => "fallback_deactivated"
  end.

Definition severity (alert : OracleAlert) : string := if a_critical alert then "critical" else "warning".

Definition number (n : Z) : JsValue := JsNum (Finite n 1).

Definition report_json (r : FeedHealthReport) : JsValue :=
  JsObject [("feedId"%string, JsString (r_feedId r)); ("name"%string, JsString (r_name r));
    ("status"%string, JsString (FeedStatus_name (r_status r))); ("lastUpdateLedger"%string, number (r_lastUpdateLedger r));
    ("lastUpdatedAt"%string, JsString (r_lastUpdatedAt r)); ("stalenessThresholdMs"%string, number (r_stalenessThresholdMs r));
    ("staleMs"%string, number (r_staleMs r)); ("fallbackActive"%string, JsBoolean (r_fallbackActive r))].

(** [formatPayload]: [kind] is [alertWebhookKind], read as the text of its setting. *)
Definition base_payload (alert : OracleAlert) : list (string * JsValue) :=
  [("alertId"%string, JsString (a_id alert)); ("type"%string, JsString (AlertType_name (a_type alert)));
   ("severity"%string, JsString (severity alert)); ("feedId"%string, JsString (a_feedId alert));
   ("message"%string, JsString (a_message alert)); ("occurredAt"%string, JsString (a_occurredAt alert));
   ("feed"%string, report_json (a_feed alert))].

Definition formatPayload (kind : string) (PAGERDUTY_ROUTING_KEY : option string) (alert : OracleAlert) : JsValue :=
  if String.eqb kind "slack" then
    let icon := if a_critical alert then ":rotating_light:"%string else ":warning:"%string in
    let lf := str1 LF in
    JsObject ([("text"%string, JsString (icon +:+ " InvoiceFi Oracle " +:+ severity alert +:+ ": " +:+ a_message alert)%string);
      ("blocks"%string, JsArray [JsObject [("type"%string, JsString "section");
         ("text"%string, JsObject [("type"%string, JsString "mrkdwn");
            ("text"%string, JsString ("*" +:+ AlertType_name (a_type alert) +:+ "*" +:+ lf +:+ "Feed: " +:+ a_feedId alert
               +:+ lf +:+ "Severity: " +:+ severity alert +:+ lf +:+ a_message alert)%string)])]])]
      ++ base_payload alert)
  else if String.eqb kind "pagerduty" then
    JsObject [("routing_key"%string, JsString (if truthy_opt PAGERDUTY_ROUTING_KEY then default EmptyString PAGERDUTY_ROUTING_KEY else EmptyString));
      ("event_action"%string, JsString "trigger"); ("dedup_key"%string, JsString (a_id alert));
      ("payload"%string, JsObject [("summary"%string, JsString (a_message alert)); ("severity"%string, JsString (severity alert));
         ("source"%string, JsString "invoicefi-oracle-monitor"); ("custom_details"%string, JsObject (base_payload alert))])]
  else JsObject (base_payload alert).

(** The test of the cooldown: a recorded time of 0 is falsy. *)
Definition suppressed (cfg : OracleMonitorConfig) (alert : OracleAlert) (now : Z) (sentAt : gmap string Z) : bool :=
  match sentAt !! a_id alert with
  | Some previous => negb (previous =? 0) && (now - previous <? alertCooldownMs cfg)
  | None => false
  end.

(** [response.ok], or an error of [fetch] *)
Definition posted (webhook : outcome exn Z) : bool :=
  match webhook with Ret s => (200 <=? s) && (s <? 300) | Throw _ => false end.

(** [dispatch] at [now]; [webhook] is what posting the alert gives: the HTTP status or an error. *)
Definition dispatch (cfg : OracleMonitorConfig) (alert : OracleAlert) (now : Z) (webhook : outcome exn Z)
    (sentAt : gmap string Z) : bool * gmap string Z :=
  if suppressed cfg alert now sentAt then (false, sentAt)
  else (if truthy_opt (alertWebhookUrl cfg) then posted webhook else true, <[a_id alert := now]> sentAt).
End OracleAlertService.

(** ** [oracle-monitor.service.ts] *)
Module OracleMonitorService.
Import OracleTypes.

(** What the clock and the network answer while one feed is checked: [Date.now()] in
    [fetchLedgerInfo]'s fallback and in [checkFeed], the ledger sequence that Horizon reports
    ([None] when the response has none), the price that the RPC server reports, and the
    clock in [evaluateFeed] and [toHealthReport]. *)
Record FeedInputs := mkFeedInputs {
  i_ledger : outcome exn (option Z);
  i_fallback_now : Z;
  i_now : Z;
  i_price : outcome exn (option string);
  i_eval_now : Z;
  i_report_now : Z }.

Definition fetchLedgerInfo (i : FeedInputs) : Z :=
  match i_ledger i with Ret (Some sequence) => sequence | _ => i_fallback_now i / 6000 end.

Definition fetchOraclePrice (i : FeedInputs) : option string :=
  match i_price i with Ret price => price | Throw _ => None end.

Definition set_status (s : FeedStatus) (f : OracleFeed) : OracleFeed :=
  mkFeed (feedId f) (name f) (contractAddress f) (stalenessThresholdMs f) (riskPremiumBps f) (lastKnownPrice f)
    (lastUpdateLedger f) (lastUpdatedAt f) s (fallbackActive f).

Definition set_fallback (b : bool) (f : OracleFeed) : OracleFeed :=
  mkFeed (feedId f) (name f) (contractAddress f) (stalenessThresholdMs f) (riskPremiumBps f) (lastKnownPrice f)
    (lastUpdateLedger f) (lastUpdatedAt f) (status f) b.

(** What [checkFeed] writes when it has the ledger, and when it has the price: the age is taken
    from the member [lastUpdatedAt] of the feed as it is then. *)
Definition touch (currentLedger now : Z) (f : OracleFeed) : OracleFeed :=
  mkFeed (feedId f) (name f) (contractAddress f) (stalenessThresholdMs f) (riskPremiumBps f) (lastKnownPrice f)
    currentLedger now (status f) (fallbackActive f).

Definition judge (cfg : OracleMonitorConfig) (now : Z) (price : option string) (f : OracleFeed) : OracleFeed :=
  let f := mkFeed (feedId f) (name f) (contractAddress f) (stalenessThresholdMs f) (riskPremiumBps f) price
             (lastUpdateLedger f) (lastUpdatedAt f) (status f) (fallbackActive f) in
  let staleMs := now - lastUpdatedAt f in
  if stalenessThresholdMs f <? staleMs then set_status stale f
  else if warningThresholdMs cfg <? staleMs then set_status stale f
  else set_status healthy f.

(** [checkFeed]: both fetches catch their own errors. *)
Definition checkFeed (cfg : OracleMonitorConfig) (i : FeedInputs) (feed : OracleFeed) : OracleFeed :=
  if negb (truthy (contractAddress feed)) then set_status unknown feed
  else judge cfg (i_now i) (fetchOraclePrice i) (touch (fetchLedgerInfo i) (i_now i) feed).

Definition toHealthReport (now : Z) (feed : OracleFeed) : FeedHealthReport :=
  mkReport (feedId feed) (name feed) (status feed) (lastUpdateLedger feed) (toISOString (lastUpdatedAt feed))
    (stalenessThresholdMs feed) (if bool_decide (status feed = unknown) then 0 else now - lastUpdatedAt feed)
    (fallbackActive feed).

(** [report_now] is the clock of the report.  The second test of [evaluateFeed] sees the flag that the first branch has set. *)
Definition evaluateFeed (now report_now : Z) (feed : OracleFeed) : OracleFeed * list OracleAlert :=
  let staleMs := now - lastUpdatedAt feed in
  let '(feed, alerts) :=
    if bool_decide (status feed = stale) && negb (fallbackActive feed) then
      let feed := set_fallback true feed in
      (feed, [mkAlert ("stale:" +:+ feedId feed +:+ ":" +:+ Z_to_string now) (feedId feed)
                (stalenessThresholdMs feed <? staleMs)%Z staleness_breached
                ("Oracle feed " +:+ str1 quote +:+ name feed +:+ str1 quote +:+ " is stale ("
                 +:+ Z_to_string (round_div staleMs 1000) +:+ "s since last update, threshold: "
                 +:+ Z_to_string (round_div (stalenessThresholdMs feed) 1000) +:+ "s)")
                (toHealthReport report_now feed) (toISOString now)]%string)
    else (feed, []) in
  if bool_decide (status feed = healthy) && fallbackActive feed then
    let feed := set_fallback false feed in
    (feed, alerts ++ [mkAlert ("recovered:" +:+ feedId feed +:+ ":" +:+ Z_to_string now) (feedId feed) false
                        fallback_deactivated
                        ("Oracle feed " +:+ str1 quote +:+ name feed +:+ str1 quote +:+ " recovered, deactivating fallback")
                        (toHealthReport report_now feed) (toISOString now)]%string)
  else (feed, alerts).

(** The state of the monitor, of the strategy and of the alert service. *)
Record Monitor := mkMonitor {
  m_feeds : list OracleFeed;
  m_lastPollAt : option Z;
  m_consecutiveFailures : Z;
  m_fallbackMode : FallbackMode;
  m_fallbackRiskPremiumBps : Z;
  m_strategy : option FallbackStrategyService.FallbackState;
  m_sentAt : gmap string Z }.

(** The constructor and [onModuleInit] (before its first poll). *)
Definition initial_feed (c : FeedConfig) : OracleFeed :=
  mkFeed (c_feedId c) (c_name c) (c_contractAddress c) (c_stalenessThresholdMs c) (c_riskPremiumBps c) None 0 0 unknown false.

(** [this.feeds.set(feedId, feed)]: a [Map] keeps the place of a key that it has. *)
Fixpoint set_feed (feed : OracleFeed) (l : list OracleFeed) : list OracleFeed :=
  match l with
  | [] => [feed]
  | f :: l' => if String.eqb (feedId f) (feedId feed) then feed :: l' else f :: set_feed feed l'
  end.

Definition initial (cfg : OracleMonitorConfig) : Monitor :=
  mkMonitor (if enabled cfg then fold_left (λ l c, set_feed (initial_feed c) l) (feeds cfg) [] else []) None 0 (fallbackMode cfg) 0 None ∅.

(** What a poll finds: the clock (when it starts, when the strategy is activated, and when the
    alert of that is written), the inputs of each feed, and for each alert the clock and the
    answer of the webhook. *)
Record PollInputs := mkPollInputs {
  p_now : Z;
  p_activated : Z;
  p_announced : Z;
  p_feed : string → FeedInputs;
  p_alert : string → Z * outcome exn Z }.

Definition send (cfg : OracleMonitorConfig) (p : PollInputs) (alert : OracleAlert) (sentAt : gmap string Z) : gmap string Z :=
  (OracleAlertService.dispatch cfg alert (p_alert p (a_id alert)).1 (p_alert p (a_id alert)).2 sentAt).2.

(** The alert of [activateFallback] *)
Definition fallback_alert (cfg : OracleMonitorConfig) (message : string) (now : Z) : OracleAlert :=
  mkAlert ("fallback:activate:" +:+ Z_to_string now) "system" true fallback_activated
    ("Fallback mode activated: " +:+ FallbackMode_name (fallbackMode cfg) +:+ ". " +:+ message)%string
    (mkReport "system" "System" stale 0 (toISOString now) 0 0 true) (toISOString now).

(** The assignments of [activateFallback] with the call of the strategy; a mode is a non-empty
    string, so [|| 'last_known_good'] never applies. *)
Definition enter_fallback (cfg : OracleMonitorConfig) (message : string) (now : Z) (m : Monitor) : Monitor :=
  mkMonitor (m_feeds m) (m_lastPollAt m) (m_consecutiveFailures m) (fallbackMode cfg) (fallbackRiskPremiumBps cfg)
    (FallbackStrategyService.activate cfg (fallbackMode cfg) (fallbackRiskPremiumBps cfg) message now (m_strategy m))
    (m_sentAt m).

Definition set_sentAt (sentAt : gmap string Z) (m : Monitor) : Monitor :=
  mkMonitor (m_feeds m) (m_lastPollAt m) (m_consecutiveFailures m) (m_fallbackMode m) (m_fallbackRiskPremiumBps m)
    (m_strategy m) sentAt.

Definition activateFallback (cfg : OracleMonitorConfig) (p : PollInputs) (message : string) (m : Monitor) : Monitor :=
  if negb (bool_decide (m_fallbackMode m = none)) then m
  else
    let m := enter_fallback cfg message (p_activated p) m in
    set_sentAt (send cfg p (fallback_alert cfg message (p_announced p)) (m_sentAt m)) m.

(** One iteration of the loop over the feeds. *)
Definition poll_feed (cfg : OracleMonitorConfig) (p : PollInputs) (feed : OracleFeed) : OracleFeed * list OracleAlert :=
  let i := p_feed p (feedId feed) in evaluateFeed (i_eval_now i) (i_report_now i) (checkFeed cfg i feed).

Definition poll (cfg : OracleMonitorConfig) (p : PollInputs) (m : Monitor) : Monitor :=
  let results := map (poll_feed cfg p) (m_feeds m) in
  let feeds := map fst results in
  let alerts := flat_map snd results in
  let allHealthy := forallb (λ f, bool_decide (status f = healthy)) feeds in
  let consecutiveFailures := if allHealthy then 0 else m_consecutiveFailures m + 1 in
  let m := mkMonitor feeds (Some (p_now p)) consecutiveFailures (m_fallbackMode m) (m_fallbackRiskPremiumBps m)
             (m_strategy m) (m_sentAt m) in
  let m := if (maxConsecutiveFailures cfg <=? consecutiveFailures) && bool_decide (m_fallbackMode m = none)
           then activateFallback cfg p "Multiple oracle feeds stale, activating fallback" m else m in
  set_sentAt (fold_left (λ sentAt alert, send cfg p alert sentAt) alerts (m_sentAt m)) m.

(** [deactivateFallback], which nothing calls. *)
Definition deactivateFallback (m : Monitor) : Monitor :=
  if bool_decide (m_fallbackMode m = none) then m
  else if negb (forallb (λ f, bool_decide (status f = healthy)) (m_feeds m)) then m
  else mkMonitor (m_feeds m) (m_lastPollAt m) 0 none 0 (FallbackStrategyService.deactivate (m_strategy m)) (m_sentAt m).

Inductive HealthStatus := ok | degraded | critical.

(** The [status] of [getHealth]. *)
Definition health_status (m : Monitor) : HealthStatus :=
  let anyStale := existsb (λ f, bool_decide (status f = stale)) (m_feeds m) in
  let status1 := if anyStale || negb (bool_decide (m_fallbackMode m = none)) then degraded else ok in
  if forallb (λ f, bool_decide (status f = stale) || bool_decide (status f = unknown)) (m_feeds m) then critical
  else status1.

Record OracleHealthResponse := mkHealth {
  h_status : HealthStatus;
  h_feeds : list FeedHealthReport;
  h_fallbackMode : FallbackMode;
  h_fallbackRiskPremiumBps : Z;
  h_pollingIntervalMs : Z;
  h_lastPollAt : string;
  h_uptimeSeconds : Z;
  h_alertCooldownMs : Z }.

(** [getHealth]: [now] is the clock (of each report, of a monitor that has not polled, and of the
    uptime). *)
Definition getHealth (cfg : OracleMonitorConfig) (startedAt now : Z) (m : Monitor) : OracleHealthResponse :=
  mkHealth (health_status m) (map (toHealthReport now) (m_feeds m)) (m_fallbackMode m) (m_fallbackRiskPremiumBps m)
    (pollingIntervalMs cfg) (toISOString (default now (m_lastPollAt m))) ((now - startedAt) / 1000) (alertCooldownMs cfg).

(** [onModuleInit] with its first poll: the state and the interval of the timer, if it is
    started; [onModuleDestroy] clears the timer. *)
Definition onModuleInit (cfg : OracleMonitorConfig) (p : PollInputs) : Monitor * option Z :=
  if enabled cfg then (poll cfg p (initial cfg), Some (pollingIntervalMs cfg)) else (initial cfg, None).

Definition onModuleDestroy (timer : option Z) : option Z := None.

(** [forcePoll], also of a monitor that is disabled *)
Definition forcePoll (cfg : OracleMonitorConfig) (p : PollInputs) (m : Monitor) : Monitor := poll cfg p m.

(** A monitor that is disabled, or has no feed, is reported as critical: every one of its no
    feeds is stale. *)
Lemma no_feeds_critical (m : Monitor) : m_feeds m = [] → health_status m = critical.
Proof. unfold health_status. by intros ->. Qed.

(** The states of a monitor: any number of polls, whatever the network answers. *)
Inductive reachable (cfg : OracleMonitorConfig) : Monitor → Prop :=
| reachable_initial : reachable cfg (initial cfg)
| reachable_poll m p : reachable cfg m → reachable cfg (poll cfg p m).

(** *** Lemmas *)

(** The members of a feed that its configuration gives *)
Definition static (f : OracleFeed) :=
  (feedId f, name f, contractAddress f, stalenessThresholdMs f, riskPremiumBps f).

Lemma judge_static (cfg : OracleMonitorConfig) (now : Z) (price : option string) (f : OracleFeed) :
  static (judge cfg now price f) = static f.
Proof. unfold judge. by repeat case_match. Qed.

Lemma checkFeed_static (cfg : OracleMonitorConfig) (i : FeedInputs) (f : OracleFeed) : static (checkFeed cfg i f) = static f.
Proof. unfold checkFeed. case_match; [done|]. by rewrite judge_static. Qed.

Lemma evaluateFeed_static (now report_now : Z) (f : OracleFeed) : static (evaluateFeed now report_now f).1 = static f.
Proof. unfold evaluateFeed. by repeat (case_match; cbn in *; simplify_eq). Qed.

(** The thresholds of a feed and of the configuration are not negative. *)
Definition thresholds_ok (cfg : OracleMonitorConfig) : Prop :=
  0 <= warningThresholdMs cfg ∧ ∀ c, c ∈ feeds cfg → 0 <= c_stalenessThresholdMs c.

Lemma checkFeed_status (cfg : OracleMonitorConfig) (i : FeedInputs) (f : OracleFeed) :
  0 <= warningThresholdMs cfg → 0 <= stalenessThresholdMs f →
  status (checkFeed cfg i f) = if truthy (contractAddress f) then healthy else unknown.
Proof.
  intros Hw Hs. unfold checkFeed, judge, touch. destruct (truthy (contractAddress f)); cbn; [|done]. rewrite Z.sub_diag.
  rewrite !(proj2 (Z.ltb_ge _ _)) by lia. done.
Qed.

Lemma checkFeed_same (cfg : OracleMonitorConfig) (i : FeedInputs) (f : OracleFeed) :
  stalenessThresholdMs (checkFeed cfg i f) = stalenessThresholdMs f ∧
  contractAddress (checkFeed cfg i f) = contractAddress f ∧ fallbackActive (checkFeed cfg i f) = fallbackActive f.
Proof. unfold checkFeed, judge. by repeat (case_match; cbn). Qed.

Lemma evaluateFeed_quiet (now report_now : Z) (f : OracleFeed) :
  status f ≠ stale → fallbackActive f = false → evaluateFeed now report_now f = (f, []).
Proof.
  intros Hs Hf. unfold evaluateFeed. rewrite (bool_decide_false (status f = stale)) by done. cbn.
  by rewrite Hf, andb_false_r.
Qed.

(** What holds of a monitor between polls. *)
Record quiet (cfg : OracleMonitorConfig) (m : Monitor) : Prop := {
  quiet_feeds : ∀ f, f ∈ m_feeds m → 0 <= stalenessThresholdMs f ∧ fallbackActive f = false ∧
    (is_Some (m_lastPollAt m) → status f = if truthy (contractAddress f) then healthy else unknown);
  quiet_mode : m_fallbackMode m = fallbackMode cfg;
  quiet_strategy : FallbackStrategyService.getActiveMode (m_strategy m) = none }.

Lemma elem_of_set_feed (feed f : OracleFeed) (l : list OracleFeed) : f ∈ set_feed feed l → f = feed ∨ f ∈ l.
Proof. induction l as [|x l IH]; cbn; [set_solver|]. destruct (String.eqb _ _); set_solver. Qed.

(** Every feed of a monitor that has just started comes from the configuration. *)
Lemma initial_feeds (cfg : OracleMonitorConfig) (f : OracleFeed) :
  f ∈ m_feeds (initial cfg) → ∃ c, c ∈ feeds cfg ∧ f = initial_feed c.
Proof.
  unfold initial. cbn. destruct (enabled cfg); [|by intros ?%elem_of_nil].
  assert (∀ cs l, f ∈ fold_left (λ l c, set_feed (initial_feed c) l) cs l → f ∈ l ∨ ∃ c, c ∈ cs ∧ f = initial_feed c) as Hgen.
  { induction cs as [|c cs IH]; intros l Hf; [by left|]. apply IH in Hf as [Hf|(c' & Hc & Hf)]; [|right; exists c'; set_solver].
    apply elem_of_set_feed in Hf as [Hf|Hf]; [right; exists c; set_solver|by left]. }
  intros [Hf|Hf]%Hgen; [by apply elem_of_nil in Hf|done].
Qed.

Lemma initial_quiet (cfg : OracleMonitorConfig) : thresholds_ok cfg → quiet cfg (initial cfg).
Proof.
  intros [_ Hs]. split; [|done|done]. intros f (c & Hc & ->)%initial_feeds. cbn. split; [by apply Hs|]. split; [done|]. by intros [? ?].
Qed.

Lemma poll_feed_quiet (cfg : OracleMonitorConfig) (p : PollInputs) (f : OracleFeed) :
  0 <= warningThresholdMs cfg → 0 <= stalenessThresholdMs f → fallbackActive f = false →
  poll_feed cfg p f = (checkFeed cfg (p_feed p (feedId f)) f, []).
Proof.
  intros Hw Hs Hf. unfold poll_feed. apply evaluateFeed_quiet.
  - rewrite checkFeed_status by done. by destruct (truthy _).
  - destruct (checkFeed_same cfg (p_feed p (feedId f)) f) as (_ & _ & ->). done.
Qed.

Lemma poll_quiet (cfg : OracleMonitorConfig) (p : PollInputs) (m : Monitor) :
  0 <= warningThresholdMs cfg → quiet cfg m → quiet cfg (poll cfg p m).
Proof.
  intros Hw [Hf Hm Hst].
  assert (∀ f, f ∈ map fst (map (poll_feed cfg p) (m_feeds m)) → 0 <= stalenessThresholdMs f ∧
    fallbackActive f = false ∧ status f = if truthy (contractAddress f) then healthy else unknown) as Hfeeds.
  { intros f. rewrite map_map, list_elem_of_fmap. intros (g & -> & Hg). destruct (Hf g Hg) as (Hs & Ha & _).
    rewrite poll_feed_quiet by done. cbn. destruct (checkFeed_same cfg (p_feed p (feedId g)) g) as (-> & -> & ->).
    by rewrite checkFeed_status. }
  assert (∀ m', m_feeds m' = map fst (map (poll_feed cfg p) (m_feeds m)) → m_fallbackMode m' = fallbackMode cfg →
    FallbackStrategyService.getActiveMode (m_strategy m') = none → quiet cfg m') as Hq.
  { intros m' H1 H2 H3. split; [|done|done]. intros f. rewrite H1. intros Hin.
    destruct (Hfeeds f Hin) as (? & ? & ?). done. }
  unfold poll. cbv zeta. apply Hq; cbn; (destruct (_ && _) eqn:Ha; cbn; [|done]);
    unfold activateFallback; cbn; (destruct (bool_decide (m_fallbackMode m = none)) eqn:Hn; cbn; [|done]); try done.
  bool_to_prop. unfold FallbackStrategyService.activate. destruct (m_strategy m); [done|]. cbn. congruence.
Qed.

(** The monitor never notices a stale price.  Whatever Horizon and the RPC server answer, in every
    state that polls lead to, a feed with a contract address is healthy after a poll (even when
    no price could be read), a feed without one is unknown, and no feed is ever stale; the mode
    of the monitor stays the configured one, the strategy is never in a mode other than [none],
    and funding is never blocked, also when the configured fallback mode is [halt]. *)
Theorem monitor_never_stale (cfg : OracleMonitorConfig) (m : Monitor) (Hcfg : thresholds_ok cfg)
    (Hreach : reachable cfg m) :
  (∀ f, f ∈ m_feeds m → is_Some (m_lastPollAt m) →
     status f = if truthy (contractAddress f) then healthy else unknown) ∧
  m_fallbackMode m = fallbackMode cfg ∧
  FallbackStrategyService.getActiveMode (m_strategy m) = none ∧
  FallbackStrategyService.shouldBlockFunding (m_strategy m) = false.
Proof.
  assert (quiet cfg m) as [Hf Hm Hst].
  { induction Hreach; [by apply initial_quiet|]. by apply poll_quiet; [apply Hcfg|]. }
  split; [intros f Hin; by apply Hf|]. split; [done|]. split; [done|].
  unfold FallbackStrategyService.shouldBlockFunding, FallbackStrategyService.getActiveMode in *.
  destruct (m_strategy m) as [s|]; [|done]. cbn in Hst. by rewrite Hst.
Qed.
End OracleMonitorService.

(** ** Examples *)
Module OracleExamples.
Import OracleTypes OracleMonitorService.

Definition cfg_ex : OracleMonitorConfig :=
  loadOracleMonitorConfig None None None None None None None (Some 1) (Some halt) (default_feeds "C1" "") None.

(** Nothing answers. *)
Definition inputs_ex (now : Z) : PollInputs :=
  mkPollInputs now now now (λ _, mkFeedInputs (Throw (JsError "down")) now now (Throw (JsError "down")) now now) (λ _, (now, Ret 200)).

Definition polled : Monitor := poll cfg_ex (inputs_ex 2000000) (poll cfg_ex (inputs_ex 1000000) (initial cfg_ex)).

Lemma cfg_ex_ok : thresholds_ok cfg_ex.
Proof.
  split; [cbn; lia|]. intros c Hc. cbn in Hc. repeat (apply elem_of_cons in Hc as [->|Hc]; [cbn; lia|]). by apply elem_of_nil in Hc.
Qed.

Lemma monitor_never_stale_witness :
  map (λ f, (status f, lastKnownPrice f)) (m_feeds polled) = [(healthy, None); (unknown, None)] ∧
  m_consecutiveFailures polled = 2 ∧
  FallbackStrategyService.shouldBlockFunding (m_strategy polled) = false.
Proof.
  split; [vm_compute; reflexivity|]. split; [vm_compute; reflexivity|].
  apply (monitor_never_stale cfg_ex polled).
  - exact cfg_ex_ok.
  - repeat constructor.
Defined.

(** Without a configured fallback mode, the mode that is entered is [none] again: once the
    failures have reached their limit, every poll enters it and sends another alert. *)
Definition unmonitored_ex : OracleMonitorConfig :=
  loadOracleMonitorConfig None None None None None None None (Some 1) None (default_feeds "" "") None.

Lemma fallback_alert_repeats :
  map_to_list (m_sentAt (fold_left (λ m t, poll unmonitored_ex (inputs_ex t) m) [1000; 2000; 3000] (initial unmonitored_ex))) ≡ₚ
  [("fallback:activate:1000", 1000); ("fallback:activate:2000", 2000); ("fallback:activate:3000", 3000)]%string.
Proof. apply (bool_decide_unpack _). vm_compute. exact I. Qed.

(** An active strategy can lower the discount below the one of the invoice: the result is capped,
    the base is not. *)
Lemma effective_discount_below_base :
  FallbackStrategyService.calculateEffectiveDiscountBps cfg_ex
    (FallbackStrategyService.activate cfg_ex last_known_good 1000 "stale" 0 None) 6000 = 5000.
Proof. vm_compute. reflexivity. Qed.
End OracleExamples.
