(* ===== verification/OraclePolls.v ===== *)
(** * Polls that overlap ([oracle-monitor/oracle-monitor.service.ts])

    [setInterval] starts a poll whether or not the last one has ended, and [POST oracle/poll]
    starts more of them: polls of one monitor interleave at their awaits, and they share its feeds,
    which are objects that each of them updates in place.  Oracle.v has the poll that runs alone;
    here it is cut at its awaits, with the clock and the network as a world that any poll reads,
    and the theorem is about any number of polls. *)
From S2P Require Import Prelude Threads Js Errors Prisma Oracle.
From stdpp Require Import gmap strings.
Import OracleTypes OracleMonitorService.
Open Scope Z_scope.

(** The monitor in memory, Horizon's last ledger ([None]: no sequence in the response), the price
    that the RPC server has for an address, and the alert webhook *)
Class OracleWorld (W : Type) := {
  monitor : W → Monitor;
  set_monitor : Monitor → W → W;
  last_ledger : M exn W (option Z);
  get_price : string → M exn W (option string);
  post_alert : OracleAlert → M exn W Z }.

(** The time of a world; a step of the outside leaves the monitor alone, and time does not go back. *)
Class OracleWorldLaws (W : Type) `{!OracleWorld W} `{!Clock W} := {
  time : W → Z;
  set_monitor_law : ∀ m w, monitor (set_monitor m w) = m ∧ time (set_monitor m w) = time w;
  clock_law_ : ∀ w, monitor (clock w).2 = monitor w ∧ time w <= (clock w).1 <= time (clock w).2;
  last_ledger_law : ∀ w, monitor (last_ledger w).2 = monitor w ∧ time w <= time (last_ledger w).2;
  get_price_law : ∀ a w, monitor (get_price a w).2 = monitor w ∧ time w <= time (get_price a w).2;
  post_alert_law : ∀ a w, monitor (post_alert a w).2 = monitor w ∧ time w <= time (post_alert a w).2 }.

Module OraclePolls.

Section threads.
Context {W : Type} `{!OracleWorld W} `{!Clock W}.
Variable cfg : OracleMonitorConfig.

Definition read : M exn W Monitor := λ w, (Ret (monitor w), w).
Definition modify (f : Monitor → Monitor) : M exn W unit := λ w, (Ret tt, set_monitor (f (monitor w)) w).

(** The feed object of an id, which is the one in the map *)
Definition is_feed (id : string) (f : OracleFeed) : bool := String.eqb (feedId f) id.

Definition set_feeds (g : list OracleFeed → list OracleFeed) (m : Monitor) : Monitor :=
  mkMonitor (g (m_feeds m)) (m_lastPollAt m) (m_consecutiveFailures m) (m_fallbackMode m) (m_fallbackRiskPremiumBps m)
    (m_strategy m) (m_sentAt m).

Definition modify_feed (id : string) (g : OracleFeed → OracleFeed) : M exn W unit :=
  modify (set_feeds (map_if (is_feed id) g)).

(** Both fetches catch their own errors. *)
Definition fetchLedgerInfo_ : M exn W Z :=
  try_catch (sequence ← last_ledger;
             match sequence with
             | Some sequence => mret sequence
             | None => throw (JsError "No ledger sequence found in Horizon response")
             end)
            (λ _, now ← date_now; mret (now / 6000)).

Definition fetchOraclePrice_ (contractAddress : string) : M exn W (option string) :=
  try_catch (get_price contractAddress) (λ _, mret None).

(** The assignments between the two fetches; the clock is read once. *)
Definition update_feed (id : string) (currentLedger : Z) : M exn W Z :=
  now ← date_now; _ ← modify_feed id (touch currentLedger now); mret now.

Definition mark_unknown (id : string) : thread exn W unit := await_at "unknown" (modify_feed id (set_status unknown)).

(** [checkFeed]: of the feed it reads only what never changes. *)
Definition checkFeed_ (feed : OracleFeed) : thread exn W unit :=
  if negb (truthy (contractAddress feed)) then mark_unknown (feedId feed)
  else try_
    (currentLedger ← await_at "ledger" fetchLedgerInfo_;
     now ← await_at "update" (update_feed (feedId feed) currentLedger);
     price ← await_at "price" (fetchOraclePrice_ (contractAddress feed));
     await_at "judge" (modify_feed (feedId feed) (judge cfg now price)))
    (λ _, mark_unknown (feedId feed)).

(** [evaluateFeed] and the test of the status, which do not wait *)
Definition evaluate (id : string) : M exn W (list OracleAlert * bool) :=
  m ← read;
  match List.find (is_feed id) (m_feeds m) with
  | None => mret ([], true)
  | Some feed =>
      now ← date_now; report_now ← date_now;
      let '(feed, alerts) := evaluateFeed now report_now feed in
      _ ← modify_feed id (λ _, feed);
      mret (alerts, bool_decide (status feed = healthy))
  end.

(** One round of the loop: [allHealthy] and [alerts] *)
Definition poll_one (s : bool * list OracleAlert) (feed : OracleFeed) : thread exn W (bool * list OracleAlert + Empty_set) :=
  ok ← try_ (_ ← checkFeed_ feed; mret true) (λ _, _ ← mark_unknown (feedId feed); mret false);
  r ← await_at "evaluate" (evaluate (feedId feed));
  mret (inl (s.1 && ok && r.2, s.2 ++ r.1)).

(** [OracleAlertService.dispatch], up to the request and after it; [place] names the caller. *)
Definition record_alert (alert : OracleAlert) : M exn W bool :=
  now ← date_now; m ← read;
  if OracleAlertService.suppressed cfg alert now (m_sentAt m) then mret false
  else _ ← modify (set_sentAt (<[a_id alert := now]> (m_sentAt m))); mret true.

Definition dispatch_ (place : string) (alert : OracleAlert) : thread exn W bool :=
  fresh ← await_at place (record_alert alert);
  if negb fresh then mret false
  else if negb (truthy_opt (alertWebhookUrl cfg)) then mret true
  else try_ (s ← await_at "post" (post_alert alert); mret (OracleAlertService.posted (Ret s))) (λ _, mret false).

Definition set_lastPollAt (now : Z) (m : Monitor) : Monitor :=
  mkMonitor (m_feeds m) (Some now) (m_consecutiveFailures m) (m_fallbackMode m) (m_fallbackRiskPremiumBps m)
    (m_strategy m) (m_sentAt m).

Definition set_failures (n : Z) (m : Monitor) : Monitor :=
  mkMonitor (m_feeds m) (m_lastPollAt m) n (m_fallbackMode m) (m_fallbackRiskPremiumBps m) (m_strategy m) (m_sentAt m).

Definition reason : string := "Multiple oracle feeds stale, activating fallback".

(** The end of the loop up to [await this.fallbackStrategy.activate], whose body does not wait:
    whether the fallback was entered.  The test of [activateFallback] is the one that led to it. *)
Definition conclude (allHealthy : bool) : M exn W bool :=
  m ← read;
  let failures := if allHealthy then 0 else m_consecutiveFailures m + 1 in
  _ ← modify (set_failures failures);
  if (maxConsecutiveFailures cfg <=? failures) && bool_decide (m_fallbackMode m = none)
  then now ← date_now; _ ← modify (enter_fallback cfg reason now); mret true
  else mret false.

Definition start : M exn W (list OracleFeed) := now ← date_now; _ ← modify (set_lastPollAt now); m ← read; mret (m_feeds m).

Definition poll_ : thread exn W unit :=
  feeds ← await_at "start" start;
  s ← each feeds (true, []) poll_one;
  match s with
  | inr no => match (no : Empty_set) with end
  | inl (allHealthy, alerts) =>
      entered ← await_at "conclude" (conclude allHealthy);
      _ ← (if (entered : bool) then
             now ← await_at "announce" date_now;
             _ ← dispatch_ "fallback alert" (fallback_alert cfg reason now); mret tt
           else mret tt);
      _ ← each alerts tt (λ _ alert, _ ← dispatch_ "feed alert" alert; mret (inl tt : unit + Empty_set));
      mret tt
  end.
End threads.

(** *** What every piece guarantees *)

(** A feed later on: the same feed, read no earlier, and healthy for good once it is *)
Record later (f f' : OracleFeed) : Prop := {
  later_static : static f' = static f;
  later_read : lastUpdatedAt f <= lastUpdatedAt f';
  later_healthy : status f = healthy → status f' = healthy }.

#[global] Instance later_preorder : PreOrder later.
Proof.
  split; [by intros f|]. intros f1 f2 f3 [H1 H2 H3] [K1 K2 K3]. split; [congruence|lia|auto].
Qed.

Lemma static_id (f f' : OracleFeed) : static f' = static f → feedId f' = feedId f ∧ contractAddress f' = contractAddress f.
Proof. by intros [= ? ? ? ? ?]. Qed.

Definition addressed (f : OracleFeed) : bool := truthy (contractAddress f).

(** A feed at a time [now] *)
Record feed_ok (cfg : OracleMonitorConfig) (now : Z) (f : OracleFeed) : Prop := {
  ok_threshold : 0 <= stalenessThresholdMs f;
  ok_read : lastUpdatedAt f <= now;
  ok_quiet : fallbackActive f = false;
  ok_status : status f = unknown ∨ status f = healthy ∧ addressed f = true }.

Lemma feedId_static (l : list OracleFeed) : feedId <$> l = (λ s, s.1.1.1.1) <$> (static <$> l).
Proof. by rewrite <- list_fmap_compose. Qed.

Lemma feeds_static (l l' : list OracleFeed) :
  static <$> l = static <$> l' → feedId <$> l = feedId <$> l' ∧ forallb addressed l = forallb addressed l'.
Proof.
  intros H. split; [by rewrite !feedId_static, H|].
  revert l' H. induction l as [|f l IH]; intros [|f' l']; intros [=]; [done|]. cbn. unfold addressed at 1 3. by erewrite IH; [f_equal; f_equal|].
Qed.

(** A feed that is updated where it is *)
Lemma map_if_later (id : string) (g : OracleFeed → OracleFeed) (l : list OracleFeed) :
  (∀ f, f ∈ l → feedId f = id → later f (g f)) → Forall2 later l (map_if (is_feed id) g l).
Proof.
  intros H. unfold map_if. apply Forall2_fmap_r, Forall_Forall2_diag, Forall_forall. intros f Hf. unfold compose, is_feed.
  destruct (String.eqb_spec (feedId f) id) as [He|]; [exact (H f Hf He)|done].
Qed.

Lemma later_statics (l l' : list OracleFeed) : Forall2 later l l' → static <$> l' = static <$> l.
Proof. induction 1 as [|f f' l l' [Hs _ _] _ IH]; [done|]. cbn. by rewrite Hs, IH. Qed.

Section proofs.
Context {W : Type} `{!OracleWorld W} `{!Clock W} `{!OracleWorldLaws W}.
Variable cfg : OracleMonitorConfig.
(** the feeds that the monitor has been started with *)
Variable fs : list OracleFeed.
Hypothesis Hwarning : 0 <= warningThresholdMs cfg.
Hypothesis Hids : NoDup (feedId <$> fs).

Record guarantee (w w' : W) : Prop := {
  time_passes : time w <= time w';
  feeds_go_on : Forall2 later (m_feeds (monitor w)) (m_feeds (monitor w')) }.

#[global] Instance guarantee_preorder : PreOrder guarantee.
Proof.
  split; [intros w; split; [lia|done]|]. intros w1 w2 w3 [H1 H2] [K1 K2]. split; [lia|]. by etransitivity.
Qed.

(** *** The invariant *)

(** A monitor at a time [now] *)
Record monitor_ok (now : Z) (m : Monitor) : Prop := {
  m_static : static <$> m_feeds m = static <$> fs;
  m_ok : ∀ f, f ∈ m_feeds m → feed_ok cfg now f;
  m_failures : forallb addressed fs = true → m_consecutiveFailures m = 0;
  m_mode : m_fallbackMode m = fallbackMode cfg;
  m_none : FallbackStrategyService.getActiveMode (m_strategy m) = none }.

(** What a poll knows: the feeds that it has judged, and the feed that it has just read, with the
    time of that *)
Record knowledge := mkKnowledge { judged : list string; reading : option (string * Z) }.

Record knows (w : W) (p : knowledge) : Prop := {
  knows_judged : ∀ f, f ∈ m_feeds (monitor w) → feedId f ∈ judged p → addressed f = true → status f = healthy;
  knows_read : ∀ f id t, f ∈ m_feeds (monitor w) → reading p = Some (id, t) → feedId f = id → t <= lastUpdatedAt f }.

Lemma knows_stable (w w' : W) (p : knowledge) : guarantee w w' → knows w p → knows w' p.
Proof.
  intros [_ H] [K1 K2]. split.
  - intros f' Hf' Hj Ha. destruct (Forall2_elem_r _ _ _ _ H Hf') as (f & Hf & [Hs _ Hh]). apply static_id in Hs as [He Hc].
    apply Hh, K1; [done|by rewrite <- He|]. unfold addressed in *. by rewrite <- Hc.
  - intros f' id t Hf' Hr He'. destruct (Forall2_elem_r _ _ _ _ H Hf') as (f & Hf & [Hs Ht _]). apply static_id in Hs as [He _].
    etransitivity; [|exact Ht]. apply (K2 f id); congruence.
Qed.

Definition polls_inv (w : W) (ls : list (unit * knowledge)) : Prop :=
  monitor_ok (time w) (monitor w) ∧ ∀ b p, (b, p) ∈ ls → knows w p.

(** No poll ever reaches an alert about a feed. *)
Definition may_be_at (place : string) (p : knowledge) : Prop := place ≠ "feed alert"%string.

#[local] Abbreviation safe_ := (safe polls_inv guarantee may_be_at).

(** One step of one poll *)
Lemma polls_inv_step (w w' : W) ls1 b (p p' : knowledge) ls2 :
  polls_inv w (ls1 ++ (b, p) :: ls2) → guarantee w w' → monitor_ok (time w') (monitor w') → knows w' p' →
  guarantee w w' ∧ polls_inv w' (ls1 ++ (b, p') :: ls2).
Proof.
  intros [_ HK] HG Hm Hp. split; [done|]. split; [done|].
  intros b' q [Hq|[[= -> ->]|Hq]%elem_of_cons]%elem_of_app; [|done|]; apply (knows_stable w w'), (HK b'); set_solver.
Qed.

Lemma monitor_ok_mono (now now' : Z) (m : Monitor) : now <= now' → monitor_ok now m → monitor_ok now' m.
Proof. intros Hn [H1 H2 H3 H4 H5]. split; [done| |done..]. intros f Hf. destruct (H2 f Hf). split; [done|lia|done..]. Qed.

(** Time passes. *)
Lemma polls_inv_same (w w' : W) ls :
  monitor w' = monitor w → time w <= time w' → polls_inv w ls → guarantee w w' ∧ polls_inv w' ls.
Proof.
  intros Hw Ht [Hm HK]. assert (guarantee w w') as HG by (split; [done|by rewrite Hw]). split; [done|]. split.
  - rewrite Hw. by eapply monitor_ok_mono.
  - intros b p Hp. by apply (knows_stable w w'), (HK b).
Qed.

(** The feed of the map that a poll means *)
Lemma feed_of (now : Z) (m : Monitor) (feed f : OracleFeed) :
  monitor_ok now m → static feed ∈ static <$> fs → f ∈ m_feeds m → feedId f = feedId feed → static f = static feed.
Proof.
  intros [Hs _ _ _ _] Hfeed Hf He. eapply (fmap_unique (λ s, s.1.1.1.1) (static <$> fs)); [by rewrite <- feedId_static| |done|done].
  rewrite <- Hs. by apply list_elem_of_fmap_2.
Qed.

(** *** The clock, the network and the memory *)
Section rules.
Context {A : Type}.

Lemma wp_now (Φ : outcome exn Z → W → Prop) (w : W) :
  (∀ t w', monitor w' = monitor w → time w <= t <= time w' → Φ (Ret t) w') → wp date_now Φ w.
Proof. intros H. apply H; apply clock_law_. Qed.

Lemma wp_read (Φ : outcome exn Monitor → W → Prop) (w : W) : Φ (Ret (monitor w)) w → wp read Φ w.
Proof. done. Qed.

Lemma wp_modify (f : Monitor → Monitor) (Φ : outcome exn unit → W → Prop) (w : W) :
  (∀ w', monitor w' = f (monitor w) → time w' = time w → Φ (Ret tt) w') → wp (modify f) Φ w.
Proof. intros H. apply H; apply set_monitor_law. Qed.

(** What only takes time, and what catches its errors besides *)
Definition waits (m : M exn W A) : Prop := ∀ w, monitor (m w).2 = monitor w ∧ time w <= time (m w).2.
Definition returns (m : M exn W A) : Prop := ∀ w, ∃ a, (m w).1 = Ret a.

Lemma wp_waits (m : M exn W A) (Φ : outcome exn A → W → Prop) (w : W) :
  waits m → (∀ w', monitor w' = monitor w → time w <= time w' → Φ (m w).1 w') → wp m Φ w.
Proof. intros Hm H. by apply H; apply Hm. Qed.

Lemma waits_returns (m : M exn W A) :
  (∀ w, wp m (λ r w', monitor w' = monitor w ∧ time w <= time w' ∧ ∃ a, r = Ret a) w) → waits m ∧ returns m.
Proof. intros H. split; intros w; destruct (H w) as (H1 & H2 & H3); [by split|done]. Qed.

Lemma safe_waits (Q : outcome exn A → knowledge → Prop) (b : unit) (place : string) (m : M exn W A) (p : knowledge) :
  waits m → may_be_at place p → (∀ w, Q (m w).1 p) → safe_ Q b (await_at place m) p.
Proof.
  intros Hm Hp HQ. apply safe_await_at; [done|]. intros w ls1 ls2 HI. apply wp_waits; [done|]. intros w' Hw Ht.
  destruct (polls_inv_same w w' _ Hw Ht HI) as [HG HI']. split; [done|]. by exists p.
Qed.

Lemma safe_returns (Q : outcome exn A → knowledge → Prop) (b : unit) (place : string) (m : M exn W A) (p : knowledge) :
  waits m → returns m → may_be_at place p → (∀ a, Q (Ret a) p) → safe_ Q b (await_at place m) p.
Proof. intros Hm Hr Hp HQ. apply safe_waits; [done..|]. intros w. by destruct (Hr w) as [a ->]. Qed.
End rules.

Lemma waits_now : waits date_now.
Proof. intros w. destruct (clock_law_ w). split; [done|]. cbn. lia. Qed.

Lemma ledger_spec : waits fetchLedgerInfo_ ∧ returns fetchLedgerInfo_.
Proof.
  apply waits_returns. intros w. apply wp_try, wp_bind.
  apply wp_waits; [intros w0; apply last_ledger_law|]. intros w1 H1 H2.
  assert (wp (now ← date_now; mret (now / 6000)) (λ r w', monitor w' = monitor w ∧ time w <= time w' ∧ ∃ a, r = Ret a) w1) as Hc.
  { apply wp_bind, wp_now. intros t w2 H3 H4. apply wp_ret. split; [congruence|]. split; [lia|by eexists]. }
  destruct (last_ledger w).1 as [[sequence|]|e]; [apply wp_ret; eauto|by apply wp_throw|done].
Qed.

Lemma price_spec (a : string) : waits (fetchOraclePrice_ a) ∧ returns (fetchOraclePrice_ a).
Proof.
  apply waits_returns. intros w. apply wp_try.
  apply wp_waits; [intros w0; apply get_price_law|]. intros w1 H1 H2. destruct (get_price a w).1; [eauto|apply wp_ret; eauto].
Qed.

(** *** Updates of a feed *)

Lemma ids_distinct (now : Z) (m : Monitor) : monitor_ok now m → NoDup (feedId <$> m_feeds m).
Proof. intros [Hs _ _ _ _]. by rewrite (proj1 (feeds_static _ _ Hs)). Qed.

Lemma wp_modify_feed (id : string) (g : OracleFeed → OracleFeed) (Φ : outcome exn unit → W → Prop) (w : W) :
  monitor_ok (time w) (monitor w) →
  (∀ f, f ∈ m_feeds (monitor w) → feedId f = id → later f (g f) ∧ feed_ok cfg (time w) (g f)) →
  (∀ w', time w' = time w → guarantee w w' → monitor_ok (time w') (monitor w') →
     (∀ f', f' ∈ m_feeds (monitor w') → feedId f' = id → ∃ f, f ∈ m_feeds (monitor w) ∧ feedId f = id ∧ f' = g f) →
     Φ (Ret tt) w') →
  wp (modify_feed id g) Φ w.
Proof.
  intros Hm Hg HΦ. apply wp_modify. intros w' Hw Ht.
  assert (Forall2 later (m_feeds (monitor w)) (m_feeds (monitor w'))) as Hl.
  { rewrite Hw. apply map_if_later. intros f Hf He. by apply Hg. }
  assert (∀ f', f' ∈ m_feeds (monitor w') → ∃ f, f ∈ m_feeds (monitor w) ∧ f' = if is_feed id f then g f else f) as Hin.
  { intros f'. rewrite Hw. by intros ?%elem_of_map_if. }
  apply HΦ; [done|by split; [lia|]| |].
  - destruct Hm as [H1 H2 H3 H4 H5]. split; [by rewrite (later_statics _ _ Hl)| |by rewrite Hw..].
    intros f' (f & Hf & ->)%Hin. rewrite Ht. unfold is_feed. destruct (String.eqb_spec (feedId f) id); [by apply Hg|by apply H2].
  - intros f' (f & Hf & ->)%Hin He. unfold is_feed in *. destruct (String.eqb_spec (feedId f) id); [by exists f|done].
Qed.

Section feed.
Variable b : unit.
Variable feed : OracleFeed.
Hypothesis Hfeed : static feed ∈ static <$> fs.

Lemma meant (now : Z) (m : Monitor) (f : OracleFeed) :
  monitor_ok now m → f ∈ m_feeds m → feedId f = feedId feed → addressed f = addressed feed.
Proof. intros Hm Hf He. pose proof (feed_of now m feed f Hm Hfeed Hf He) as [= _ _ Hc _ _]. unfold addressed. by rewrite Hc. Qed.

(** What a poll knows when it has judged one more feed *)
Definition done_with (p : knowledge) : knowledge := mkKnowledge (feedId feed :: judged p) None.

Lemma knows_done (w w' : W) (p : knowledge) :
  guarantee w w' → knows w p →
  (∀ f', f' ∈ m_feeds (monitor w') → feedId f' = feedId feed → addressed f' = true → status f' = healthy) → knows w' (done_with p).
Proof.
  intros HG HK H. destruct (knows_stable w w' p HG HK) as [K1 _]. split; [|done].
  intros f Hf [He|Hj]%elem_of_cons Ha; [by apply H|by apply K1].
Qed.

Lemma safe_mark_unknown (Q : outcome exn unit → knowledge → Prop) (p : knowledge) :
  addressed feed = false → Q (Ret tt) (done_with p) → safe_ Q b (mark_unknown (feedId feed)) p.
Proof.
  intros Ha HQ. apply safe_await_at; [done|]. intros w ls1 ls2 HI. pose proof HI as [Hm HK].
  apply wp_modify_feed; [done|..].
  - intros f Hf He. destruct (m_ok _ _ Hm f Hf) as [H1 H2 H3 H4]. rewrite (meant _ _ f Hm Hf He), Ha in H4.
    split; [|by split; [| | |left]]. split; [done|done|]. intros Hs. destruct H4 as [|[_ ?]]; congruence.
  - intros w' Ht HG Hm' Hin. edestruct (polls_inv_step w w' ls1 b p (done_with p) ls2 HI HG Hm') as [_ HI'].
    + apply (knows_done w); [done|apply (HK b); set_solver|]. intros f' Hf' He Ha'. by rewrite (meant _ _ f' Hm' Hf' He), Ha in Ha'.
    + split; [done|]. by exists (done_with p).
Qed.

Lemma safe_update (Q : outcome exn Z → knowledge → Prop) (ledger : Z) (p : knowledge) :
  (∀ t, Q (Ret t) (mkKnowledge (judged p) (Some (feedId feed, t)))) →
  safe_ Q b (await_at "update" (update_feed (feedId feed) ledger)) p.
Proof.
  intros HQ. apply safe_await_at; [done|]. intros w ls1 ls2 HI. apply wp_bind, wp_now. intros t w1 Hw1 Ht1.
  destruct (polls_inv_same w w1 _ Hw1 ltac:(lia) HI) as [HG1 HI1]. pose proof HI1 as [Hm1 HK1].
  apply wp_bind, wp_modify_feed; [done|..].
  - intros f Hf _. destruct (m_ok _ _ Hm1 f Hf) as [H1 H2 H3 H4]. rewrite Hw1 in Hf. pose proof (ok_read _ _ _ (m_ok _ _ (proj1 HI) f Hf)) as Hr.
    split; split; cbn; auto; lia.
  - intros w2 Ht2 HG2 Hm2 Hin. apply wp_ret.
    destruct (polls_inv_step w1 w2 ls1 b p (mkKnowledge (judged p) (Some (feedId feed, t))) ls2 HI1 HG2 Hm2) as [_ HI2].
    + assert (knows w2 p) as [K1 _] by (apply (knows_stable w1 w2 p HG2), (HK1 b); set_solver).
      split; [done|]. intros f' id t' Hf' [= <- <-] He. destruct (Hin f' Hf' He) as (f & _ & _ & ->). cbn. lia.
    + split; [by etransitivity|]. eexists. split; [exact HI2|apply HQ].
Qed.

(** A feed that was read no earlier than [now] has an age of at most 0. *)
Lemma judge_healthy (now : Z) (price : option string) (f : OracleFeed) :
  0 <= stalenessThresholdMs f → now <= lastUpdatedAt f → status (judge cfg now price f) = healthy.
Proof. intros H1 H2. unfold judge. cbn. by rewrite !(proj2 (Z.ltb_ge _ _)) by lia. Qed.

Lemma judge_same (now : Z) (price : option string) (f : OracleFeed) :
  lastUpdatedAt (judge cfg now price f) = lastUpdatedAt f ∧ fallbackActive (judge cfg now price f) = fallbackActive f.
Proof. unfold judge. by repeat case_match. Qed.

Lemma safe_judge (Q : outcome exn unit → knowledge → Prop) (now : Z) (price : option string) (p : knowledge) :
  addressed feed = true → reading p = Some (feedId feed, now) → Q (Ret tt) (done_with p) →
  safe_ Q b (await_at "judge" (modify_feed (feedId feed) (judge cfg now price))) p.
Proof.
  intros Ha Hp HQ. apply safe_await_at; [done|]. intros w ls1 ls2 HI. pose proof HI as [Hm HK].
  assert (knows w p) as HKp by (apply (HK b); set_solver).
  assert (∀ f, f ∈ m_feeds (monitor w) → feedId f = feedId feed → status (judge cfg now price f) = healthy) as Hh.
  { intros f Hf He. apply judge_healthy; [apply (m_ok _ _ Hm f Hf)|]. by apply (knows_read _ _ HKp f (feedId feed)). }
  apply wp_modify_feed; [done|..].
  - intros f Hf He. destruct (m_ok _ _ Hm f Hf) as [H1 H2 H3 H4]. destruct (judge_same now price f) as [Hr Hq].
    pose proof (judge_static cfg now price f) as Hs. split; [split; [done|by rewrite Hr|by rewrite Hh]|].
    split; [by injection Hs as _ _ _ -> _|by rewrite Hr|by rewrite Hq|]. right. split; [by apply Hh|].
    apply static_id in Hs as [_ Hc]. unfold addressed. rewrite Hc. change (addressed f = true). by rewrite (meant _ _ f Hm Hf He).
  - intros w' Ht HG Hm' Hin. edestruct (polls_inv_step w w' ls1 b p (done_with p) ls2 HI HG Hm') as [_ HI'].
    + apply (knows_done w); [done|done|]. intros f' Hf' He _. destruct (Hin f' Hf' He) as (f & Hf & Hef & ->). by apply Hh.
    + split; [done|]. by exists (done_with p).
Qed.

(** [checkFeed] never throws, and leaves its feed judged. *)
Lemma safe_checkFeed (Q : outcome exn unit → knowledge → Prop) (p : knowledge) :
  (∀ p', judged p' = feedId feed :: judged p → Q (Ret tt) p') → safe_ Q b (checkFeed_ cfg feed) p.
Proof.
  intros HQ. unfold checkFeed_. destruct (truthy (contractAddress feed)) eqn:Ha; cbn [negb]; [|by apply safe_mark_unknown, HQ].
  destruct ledger_spec, (price_spec (contractAddress feed)).
  apply safe_try, safe_bind, safe_returns; [done..|]. intros ledger. apply safe_bind, safe_update. intros now.
  apply safe_bind, safe_returns; [done..|]. intros price. by apply safe_judge; [| |apply HQ].
Qed.

(** The feed that [evaluateFeed] sees is not stale, so that nothing changes. *)
Lemma safe_evaluate (Q : outcome exn (list OracleAlert * bool) → knowledge → Prop) (p : knowledge) :
  feedId feed ∈ judged p → (∀ ok, (addressed feed = true → ok = true) → Q (Ret ([], ok)) p) →
  safe_ Q b (await_at "evaluate" (evaluate (feedId feed))) p.
Proof.
  intros Hj HQ. apply safe_await_at; [done|]. intros w ls1 ls2 HI. apply wp_bind, wp_read.
  destruct (List.find _ _) as [f|] eqn:Hf; cycle 1.
  { apply wp_ret. split; [done|]. exists p. auto. }
  apply find_some in Hf as [Hf%list_elem_of_In He%String.eqb_eq].
  apply wp_bind, wp_now. intros t1 w1 Hw1 Ht1. apply wp_bind, wp_now. intros t2 w2 Hw2 Ht2. rewrite Hw1 in Hw2.
  destruct (polls_inv_same w w2 _ Hw2 ltac:(lia) HI) as [HG2 HI2]. pose proof HI2 as [Hm2 HK2]. rewrite <- Hw2 in Hf.
  pose proof (m_ok _ _ Hm2 f Hf) as Hok. rewrite evaluateFeed_quiet; [|by destruct (ok_status _ _ _ Hok) as [->|[-> _]]|apply Hok].
  assert (∀ g, g ∈ m_feeds (monitor w2) → feedId g = feedId feed → g = f) as Hone.
  { intros g Hg Heg. eapply (fmap_unique feedId); [by eapply ids_distinct|done..|congruence]. }
  apply wp_bind, wp_modify_feed; [done| |].
  - intros g Hg Heg. by rewrite (Hone g Hg Heg).
  - intros w3 Ht3 HG3 Hm3 _. apply wp_ret.
    edestruct (polls_inv_step w2 w3 ls1 b p p ls2 HI2 HG3 Hm3) as [_ HI3]; [apply (knows_stable w2 w3 p HG3), (HK2 b); set_solver|].
    split; [by etransitivity|]. exists p. split; [done|]. apply HQ. intros Ha. apply bool_decide_eq_true.
    apply (knows_judged _ _ (HK2 b p ltac:(set_solver)) f Hf); [by rewrite He|by rewrite (meant _ _ f Hm2 Hf He)].
Qed.

Lemma safe_poll_one (Q : outcome exn (bool * list OracleAlert + Empty_set) → knowledge → Prop) (s : bool * list OracleAlert) (p : knowledge) :
  (∀ p' ok, judged p' = feedId feed :: judged p → (s.1 = true → addressed feed = true → ok = true) → Q (Ret (inl (ok, s.2))) p') →
  safe_ Q b (poll_one cfg s feed) p.
Proof.
  intros HQ. unfold poll_one. apply safe_bind, safe_try, safe_bind, safe_checkFeed. intros p' Hp'.
  apply safe_bind, safe_evaluate; [rewrite Hp'; by left|]. intros ok Hok. cbn. rewrite app_nil_r, andb_true_r. apply HQ; [done|].
  intros -> Ha. by rewrite Hok.
Qed.
End feed.

(** *** The rest of a poll *)

(** What leaves the feeds alone *)
Lemma polls_inv_feeds (w w' : W) ls :
  m_feeds (monitor w') = m_feeds (monitor w) → time w' = time w → monitor_ok (time w') (monitor w') →
  polls_inv w ls → guarantee w w' ∧ polls_inv w' ls.
Proof.
  intros Hf Ht Hm [_ HK]. assert (guarantee w w') as HG by (split; [lia|by rewrite Hf]). split; [done|]. split; [done|].
  intros b p Hp. by apply (knows_stable w w'), (HK b).
Qed.

Lemma safe_dispatch (Q : outcome exn bool → knowledge → Prop) (b : unit) (place : string) (alert : OracleAlert) (p : knowledge) :
  may_be_at place p → (∀ sent, Q (Ret sent) p) → safe_ Q b (dispatch_ cfg place alert) p.
Proof.
  intros Hp HQ. unfold dispatch_. apply safe_bind, safe_await_at; [done|]. intros w ls1 ls2 HI.
  apply wp_bind, wp_now. intros t w1 Hw1 Ht1. destruct (polls_inv_same w w1 _ Hw1 ltac:(lia) HI) as [HG1 HI1].
  assert (∀ fresh : bool, safe_ Q b (if negb fresh then mret false else if negb (truthy_opt (alertWebhookUrl cfg)) then mret true
    else try_ (s ← await_at "post" (post_alert alert); mret (OracleAlertService.posted (Ret s))) (λ _, mret false)) p) as Hsafe.
  { intros fresh. destruct (negb fresh); [apply HQ|]. destruct (negb _); [apply HQ|]. apply safe_try, safe_bind, safe_waits; [|done|].
    - intros w0. apply post_alert_law.
    - intros w0. destruct (post_alert alert w0).1; apply HQ. }
  apply wp_bind, wp_read. destruct (OracleAlertService.suppressed _ _ _ _); [apply wp_ret; split; [done|]; exists p; by split|].
  apply wp_bind, wp_modify. intros w2 Hw2 Ht2. apply wp_ret. pose proof (proj1 HI1) as [H1 H2 H3 H4 H5].
  destruct (polls_inv_feeds w1 w2 _ ltac:(by rewrite Hw2) Ht2 ltac:(rewrite Hw2, Ht2; by split) HI1) as [HG2 HI2].
  split; [by etransitivity|]. exists p. by split.
Qed.

Lemma safe_conclude_poll (Q : outcome exn bool → knowledge → Prop) (b : unit) (allHealthy : bool) (p : knowledge) :
  (forallb addressed fs = true → allHealthy = true) → (∀ entered, Q (Ret entered) p) →
  safe_ Q b (await_at "conclude" (conclude cfg allHealthy)) p.
Proof.
  intros Hall HQ. apply safe_await_at; [done|]. intros w ls1 ls2 HI. apply wp_bind, wp_read. cbv zeta.
  apply wp_bind, wp_modify. intros w1 Hw1 Ht1. pose proof (proj1 HI) as [H1 H2 H3 H4 H5].
  assert (monitor_ok (time w1) (monitor w1)) as Hm1.
  { rewrite Hw1, Ht1. split; [done..| |done|done]. intros Ha. cbn. by rewrite Hall. }
  destruct (polls_inv_feeds w w1 _ ltac:(by rewrite Hw1) Ht1 Hm1 HI) as [HG1 HI1].
  destruct (_ && _) eqn:E; [|apply wp_ret; split; [done|]; exists p; by split].
  bool_to_prop. apply wp_bind, wp_now. intros t w2 Hw2 Ht2. destruct (polls_inv_same w1 w2 _ Hw2 ltac:(lia) HI1) as [HG2 HI2].
  apply wp_bind, wp_modify. intros w3 Hw3 Ht3. apply wp_ret. pose proof (proj1 HI2) as [K1 K2 K3 K4 K5].
  assert (monitor_ok (time w3) (monitor w3)) as Hm3.
  { rewrite Hw3, Ht3. split; [done..|]. cbn. unfold FallbackStrategyService.activate.
    destruct (m_strategy (monitor w2)) eqn:Es; [done|]. cbn. congruence. }
  destruct (polls_inv_feeds w2 w3 _ ltac:(by rewrite Hw3) Ht3 Hm3 HI2) as [HG3 HI3].
  split; [etransitivity; [exact HG1|]; by etransitivity|]. exists p. by split.
Qed.

Definition ended (r : outcome exn unit) (p : knowledge) : Prop := r = Ret tt ∧ feedId <$> fs ⊆ judged p.

Lemma safe_poll (b : unit) : safe_ ended b (poll_ cfg) (mkKnowledge [] None).
Proof.
  unfold poll_. apply safe_bind, safe_await_at; [done|]. intros w ls1 ls2 HI.
  apply wp_bind, wp_now. intros t w1 Hw1 Ht1. destruct (polls_inv_same w w1 _ Hw1 ltac:(lia) HI) as [HG1 HI1].
  apply wp_bind, wp_modify. intros w2 Hw2 Ht2. pose proof (proj1 HI1) as [H1 H2 H3 H4 H5].
  assert (monitor_ok (time w2) (monitor w2)) as Hm2 by (rewrite Hw2, Ht2; by split).
  destruct (polls_inv_feeds w1 w2 _ ltac:(by rewrite Hw2) Ht2 Hm2 HI1) as [HG2 HI2].
  apply wp_bind, wp_read, wp_ret. split; [by etransitivity|]. exists (mkKnowledge [] None). split; [done|].
  destruct (feeds_static _ _ (m_static _ _ Hm2)) as [Hid Hall]. pose proof (m_static _ _ Hm2) as Hst.
  set (feeds := m_feeds (monitor w2)) in *. clearbody feeds.
  apply safe_bind, (safe_each _ _ _ (λ done s p, s.2 = [] ∧ (forallb addressed done = true → s.1 = true) ∧ feedId <$> done ⊆ judged p)).
  - intros done feed todo s p Hl (Hs & Ha & Hj). apply safe_poll_one; [rewrite <- Hst, Hl; set_solver|].
    intros p' ok Hp' Hok. split; [done|]. rewrite forallb_app, fmap_app, Hp'. cbn. rewrite andb_true_r. split.
    + intros [? ?]%andb_prop. auto.
    + set_solver.
  - intros [allHealthy alerts] p (Hs & Ha & Hj). cbn in Hs, Ha. subst alerts. rewrite Hall in Ha. rewrite Hid in Hj.
    apply safe_bind, safe_conclude_poll; [done|]. intros [|]; apply safe_bind; [|done].
    apply safe_bind, safe_returns; [apply waits_now|by intros w'; eexists|done|]. intros now. by apply safe_bind, safe_dispatch.
  - split; [done|]. split; [done|]. set_solver.
Qed.

(** *** What starts polls, and what else happens *)

(** The first poll, the timer and [forcePoll]; and time, for the network and the rest *)
Inductive entry := Poll | Elsewhere.

Inductive polls_enter : entry → W → list (unit * thread exn W unit) → W → Prop :=
| poll_starts w : polls_enter Poll w [(tt, poll_ cfg)] w
| elsewhere_runs w w' : monitor w' = monitor w → time w <= time w' → polls_enter Elsewhere w [] w'.

#[local] Abbreviation any := (λ _ _, True).

Lemma knows_nothing (w : W) : knows w (mkKnowledge [] None).
Proof. split; [by intros f _ ?%elem_of_nil|done]. Qed.

Lemma polls_entries_ok : entries_ok polls_enter polls_inv guarantee may_be_at ended any.
Proof.
  intros e ts w new w' ls _ HI _ He. destruct He as [w|w w' Hw Ht].
  - split; [done|]. exists [(tt, mkKnowledge [] None)]. split.
    + split; [apply HI|]. intros b p [Hp|[= -> ->]%list_elem_of_singleton]%elem_of_app; [by apply (proj2 HI b)|apply knows_nothing].
    + constructor; [|done]. split; [done|apply safe_poll].
  - destruct (polls_inv_same w w' ls Hw Ht HI) as [HG HI']. split; [done|]. exists []. by rewrite app_nil_r.
Qed.

Lemma polls_inv_drop (w : W) ls1 bp ls2 : polls_inv w (ls1 ++ bp :: ls2) → polls_inv w (ls1 ++ ls2).
Proof. intros [Hm HK]. split; [done|]. intros b p Hp. apply (HK b). set_solver. Qed.
End proofs.

Lemma set_feed_ids (feed : OracleFeed) (l : list OracleFeed) : NoDup (feedId <$> l) → NoDup (feedId <$> set_feed feed l).
Proof.
  induction l as [|f l IH]; cbn; [by intros; apply NoDup_singleton|]. intros [Hn Hl]%NoDup_cons.
  destruct (String.eqb_spec (feedId f) (feedId feed)) as [He|Hne]; cbn; apply NoDup_cons; [by rewrite <- He|].
  split; [|by apply IH]. intros (g & Hg & [->|Hin]%elem_of_set_feed)%list_elem_of_fmap; [done|]. apply Hn.
  rewrite Hg. by apply list_elem_of_fmap_2.
Qed.

Lemma initial_ids (cfg : OracleMonitorConfig) : NoDup (feedId <$> m_feeds (initial cfg)).
Proof.
  unfold initial. cbn. destruct (enabled cfg); [|constructor]. assert (NoDup (feedId <$> ([] : list OracleFeed))) as H by constructor.
  revert H. generalize ([] : list OracleFeed). induction (feeds cfg) as [|c cs IH]; intros l Hl; [done|]. by apply IH, set_feed_ids.
Qed.

Section polls.
Context {W : Type} `{!OracleWorld W} `{!Clock W} `{!OracleWorldLaws W}.
Variable cfg : OracleMonitorConfig.

Lemma initial_ok (now : Z) : thresholds_ok cfg → 0 <= now → monitor_ok cfg (m_feeds (initial cfg)) now (initial cfg).
Proof.
  intros [_ Hs] Hn. split; [done| |done..]. intros f (c & Hc & ->)%initial_feeds. split; cbn; auto.
Qed.

#[local] Abbreviation polls_run := (run (pool_step (polls_enter cfg)) (λ _ _, True)).


(** *** A poll that runs alone is the one of Oracle.v *)

Lemma alone_ledger (Φ : outcome exn Z → W → Prop) (w : W) :
  (∀ (o : outcome exn (option Z)) t w', monitor w' = monitor w → Φ (Ret (match o with Ret (Some sequence) => sequence | _ => t / 6000 end)) w') →
  wp fetchLedgerInfo_ Φ w.
Proof.
  intros H. apply wp_try, wp_bind, wp_waits; [intros w0; apply last_ledger_law|]. intros w1 Hw1 _.
  assert (wp (now ← date_now; mret (now / 6000)) Φ w1) as Hc.
  { apply wp_bind, wp_now. intros t w2 Hw2 _. apply wp_ret, (H (Throw (JsError "")) t). congruence. }
  destruct (last_ledger w).1 as [[n|]|e]; [by apply wp_ret, (H (Ret (Some n)) 0)|by apply wp_throw, Hc|by apply Hc].
Qed.

Lemma alone_price (a : string) (Φ : outcome exn (option string) → W → Prop) (w : W) :
  (∀ (o : outcome exn (option string)) w', monitor w' = monitor w → Φ (Ret (match o with Ret price => price | Throw _ => None end)) w') →
  wp (fetchOraclePrice_ a) Φ w.
Proof.
  intros H. apply wp_try, wp_waits; [intros w0; apply get_price_law|]. intros w1 Hw1 _.
  destruct (get_price a w).1 as [price|e]; [by apply (H (Ret price))|apply wp_ret; by apply (H (Throw e))].
Qed.

Lemma is_feed_static (id : string) (f f' : OracleFeed) : static f' = static f → is_feed id f' = is_feed id f.
Proof. intros [He _]%static_id. unfold is_feed. by rewrite He. Qed.

(** What [checkFeed] does to the feeds *)
Definition checked (id : string) (i : FeedInputs) : Monitor → Monitor := set_feeds (map_if (is_feed id) (checkFeed cfg i)).

Lemma alone_checkFeed (feed : OracleFeed) (w : W) :
  (∀ f, f ∈ m_feeds (monitor w) → feedId f = feedId feed → f = feed) →
  wp (run_alone (checkFeed_ cfg feed)) (λ r w', r = Ret tt ∧ ∃ i, monitor w' = checked (feedId feed) i (monitor w)) w.
Proof.
  intros Hone.
  assert (∀ i g, g feed = checkFeed cfg i feed → set_feeds (map_if (is_feed (feedId feed)) g) (monitor w) = checked (feedId feed) i (monitor w)) as Hg.
  { intros i g He. unfold checked, set_feeds. f_equal. apply map_if_ext. intros f Hf Hid%String.eqb_eq. by rewrite (Hone f Hf Hid). }
  unfold checkFeed_. destruct (truthy (contractAddress feed)) eqn:Ha; cbn [negb].
  - apply wp_alone_try, wp_alone_bind, wp_alone_await, alone_ledger. intros il fb w1 Hw1.
    apply wp_alone_bind, wp_alone_await, wp_bind, wp_now. intros now w2 Hw2 _. apply wp_bind, wp_modify. intros w3 Hw3 _. apply wp_ret.
    apply wp_alone_bind, wp_alone_await, alone_price. intros ip w4 Hw4. apply wp_alone_await, wp_modify. intros w5 Hw5 _. split; [done|].
    exists (mkFeedInputs il fb now ip 0 0). rewrite Hw5, Hw4, Hw3, Hw2, Hw1. rewrite <- (Hg _ (λ f, judge cfg now (match ip with Ret price => price | Throw _ => None end)
      (touch (match il with Ret (Some sequence) => sequence | _ => fb / 6000 end) now f))).
    + unfold set_feeds. f_equal. by apply map_if_compose.
    + unfold checkFeed. by rewrite Ha.
  - apply wp_alone_await, wp_modify. intros w' Hw' _. split; [done|]. exists (mkFeedInputs (Ret None) 0 0 (Ret None) 0 0). rewrite Hw'.
    apply Hg. unfold checkFeed. by rewrite Ha.
Qed.

Lemma alone_poll_one (s : bool * list OracleAlert) (feed : OracleFeed) (w : W) :
  0 <= warningThresholdMs cfg → 0 <= stalenessThresholdMs feed → fallbackActive feed = false →
  feed ∈ m_feeds (monitor w) → (∀ f, f ∈ m_feeds (monitor w) → feedId f = feedId feed → f = feed) →
  wp (run_alone (poll_one cfg s feed)) (λ r w', ∃ i,
    r = Ret (inl (s.1 && bool_decide (status (checkFeed cfg i feed) = healthy), s.2)) ∧
    monitor w' = checked (feedId feed) i (monitor w)) w.
Proof.
  intros Hw Hs Hf Hin Hone. unfold poll_one. apply wp_alone_bind, wp_alone_try, wp_alone_bind.
  eapply wp_mono; [by apply alone_checkFeed|]. intros r w1 (-> & i & Hw1). apply (wp_ret true), wp_alone_bind, wp_alone_await, wp_bind, wp_read.
  assert (∀ f, f ∈ m_feeds (monitor w1) → is_feed (feedId feed) f = true → f = checkFeed cfg i feed) as Hlive.
  { rewrite Hw1. intros f (g & Hg & ->)%elem_of_map_if. destruct (is_feed (feedId feed) g) eqn:E; [|by rewrite E].
    apply String.eqb_eq in E. by rewrite (Hone g Hg E). }
  pose proof (checkFeed_static cfg i feed) as Hst.
  destruct (List.find _ _) as [f|] eqn:E; cycle 1.
  { assert (is_feed (feedId feed) feed = true) as Hid by apply String.eqb_refl.
    assert (checkFeed cfg i feed ∈ m_feeds (monitor w1)) as Hx.
    { rewrite Hw1. apply elem_of_map_if. exists feed. by rewrite Hid. }
    apply list_elem_of_In in Hx. pose proof (find_none _ _ E _ Hx) as Hn. by rewrite (is_feed_static _ _ _ Hst), Hid in Hn. }
  apply find_some in E as [E%list_elem_of_In Eid]. pose proof (Hlive f E Eid) as ->.
  apply wp_bind, wp_now. intros t1 w2 Hw2 _. apply wp_bind, wp_now. intros t2 w3 Hw3 _. rewrite evaluateFeed_quiet.
  - apply wp_bind, wp_modify. intros w4 Hw4 _. apply wp_ret. exists i. cbn. rewrite app_nil_r, andb_true_r. split; [done|].
    rewrite Hw4, Hw3, Hw2, Hw1. unfold checked, set_feeds. f_equal.
    etransitivity; [apply map_if_compose; intros f; apply is_feed_static, checkFeed_static|].
    apply map_if_ext. intros f Hfin Hid%String.eqb_eq. by rewrite (Hone f Hfin Hid).
  - rewrite checkFeed_status by done. by destruct (truthy _).
  - by destruct (checkFeed_same cfg i feed) as (_ & _ & ->).
Qed.

(** The feeds when those with the ids of [done] have been checked *)
Definition checked_of (pf : string → FeedInputs) (done : list OracleFeed) (f : OracleFeed) : OracleFeed :=
  if bool_decide (feedId f ∈ feedId <$> done) then checkFeed cfg (pf (feedId f)) f else f.

Definition all_healthy (pf : string → FeedInputs) (l : list OracleFeed) : bool :=
  forallb (λ f, bool_decide (status (checkFeed cfg (pf (feedId f)) f) = healthy)) l.

Definition also (pf : string → FeedInputs) (id : string) (i : FeedInputs) (x : string) : FeedInputs := if String.eqb x id then i else pf x.

Lemma also_other (pf : string → FeedInputs) (id x : string) (i : FeedInputs) : x ≠ id → also pf id i x = pf x.
Proof. intros H. unfold also. by rewrite (proj2 (String.eqb_neq _ _) H). Qed.

Lemma also_same (pf : string → FeedInputs) (id : string) (i : FeedInputs) : also pf id i id = i.
Proof. unfold also. by rewrite String.eqb_refl. Qed.

Lemma checked_of_more (pf : string → FeedInputs) (done : list OracleFeed) (a f : OracleFeed) (i : FeedInputs) :
  feedId a ∉ feedId <$> done →
  (if is_feed (feedId a) (checked_of pf done f) then checkFeed cfg i (checked_of pf done f) else checked_of pf done f) =
  checked_of (also pf (feedId a) i) (done ++ [a]) f.
Proof.
  intros Ha. assert (static (checked_of pf done f) = static f) as Hst.
  { unfold checked_of. case_bool_decide; [apply checkFeed_static|done]. }
  rewrite (is_feed_static _ _ _ Hst). unfold is_feed, checked_of. destruct (String.eqb_spec (feedId f) (feedId a)) as [He|He].
  - rewrite He, (bool_decide_false _ Ha), bool_decide_true by set_solver. by rewrite also_same.
  - rewrite also_other by done. rewrite (bool_decide_ext (feedId f ∈ feedId <$> done ++ [a]) (feedId f ∈ feedId <$> done)); [done|]. set_solver.
Qed.

Lemma all_healthy_more (pf : string → FeedInputs) (done : list OracleFeed) (a : OracleFeed) (i : FeedInputs) :
  feedId a ∉ feedId <$> done →
  all_healthy pf done && bool_decide (status (checkFeed cfg i a) = healthy) = all_healthy (also pf (feedId a) i) (done ++ [a]).
Proof.
  intros Ha. unfold all_healthy. rewrite forallb_app. cbn. rewrite also_same, andb_true_r. f_equal.
  induction done as [|f done IH]; [done|]. cbn in *. apply not_elem_of_cons in Ha as [Hne Ha]. by rewrite also_other, IH.
Qed.

Lemma alone_loop (m0 : Monitor) (w : W) :
  0 <= warningThresholdMs cfg → NoDup (feedId <$> m_feeds m0) → monitor w = m0 →
  (∀ f, f ∈ m_feeds m0 → 0 <= stalenessThresholdMs f ∧ fallbackActive f = false) →
  wp (run_alone (each (m_feeds m0) (true, []) (poll_one cfg))) (λ r w', ∃ pf,
    r = Ret (inl (all_healthy pf (m_feeds m0), [])) ∧
    monitor w' = set_feeds (map (λ f, checkFeed cfg (pf (feedId f)) f)) m0) w.
Proof.
  intros Hw Hids Hm Hq.
  apply (wp_alone_each (λ done s w', ∃ pf, s = (all_healthy pf done, []) ∧ monitor w' = set_feeds (map (checked_of pf done)) m0)).
  - intros done a todo s w1 Hl (pf & -> & Hw1). assert (feedId a ∉ feedId <$> done) as Ha.
    { rewrite Hl, fmap_app in Hids. apply NoDup_app in Hids as (_ & Hd & _). intros Hin. by apply (Hd _ Hin); left. }
    assert (a ∈ m_feeds m0) as Hain by (rewrite Hl; set_solver).
    assert (∀ f, f ∈ m_feeds (monitor w1) → feedId f = feedId a → f = a) as Hone.
    { rewrite Hw1. intros f (g & -> & Hg)%list_elem_of_fmap He. unfold checked_of in *. case_bool_decide as Hd.
      - pose proof (checkFeed_static cfg (pf (feedId g)) g) as [Hid _]%static_id. by rewrite <- Hid, He in Hd.
      - by eapply (fmap_unique feedId). }
    eapply wp_mono; [apply alone_poll_one; [done|by apply Hq..| |done]|].
    + rewrite Hw1. apply list_elem_of_fmap. exists a. split; [|done]. unfold checked_of. by rewrite bool_decide_false.
    + intros r w2 (i & -> & Hw2). exists (also pf (feedId a) i). cbn. split; [by rewrite all_healthy_more|].
      rewrite Hw2, Hw1. unfold checked, set_feeds. f_equal. cbn. rewrite map_map. apply map_ext. intros f. by apply checked_of_more.
  - intros s w1 (pf & -> & Hw1). exists pf. split; [done|]. rewrite Hw1. unfold set_feeds. f_equal. apply map_ext_in.
    intros f Hf%list_elem_of_In. unfold checked_of. rewrite bool_decide_true; [done|]. by apply list_elem_of_fmap_2.
  - exists (λ _, mkFeedInputs (Ret None) 0 0 (Ret None) 0 0). split; [done|]. rewrite Hm. unfold set_feeds. destruct m0. cbn. f_equal.
    symmetry. etransitivity; [|apply map_id]. apply map_ext. intros f. unfold checked_of. by rewrite bool_decide_false by apply not_elem_of_nil.
Qed.

(** [poll] of Oracle.v, when no feed has an alert *)
Lemma poll_unfold (p : PollInputs) (m : Monitor) :
  0 <= warningThresholdMs cfg → (∀ f, f ∈ m_feeds m → 0 <= stalenessThresholdMs f ∧ fallbackActive f = false) →
  poll cfg p m =
    let failures := if all_healthy (p_feed p) (m_feeds m) then 0 else m_consecutiveFailures m + 1 in
    let m := set_failures failures (set_lastPollAt (p_now p) (set_feeds (map (λ f, checkFeed cfg (p_feed p (feedId f)) f)) m)) in
    if (maxConsecutiveFailures cfg <=? failures) && bool_decide (m_fallbackMode m = none)
    then activateFallback cfg p reason m else m.
Proof.
  intros Hw Hq. unfold poll. rewrite (map_ext_in (poll_feed cfg p) (λ f, (checkFeed cfg (p_feed p (feedId f)) f, []))) by
    (intros f Hf%list_elem_of_In; by apply poll_feed_quiet; [|apply Hq..]).
  rewrite map_map, flat_map_concat_map, map_map. cbn.
  assert (∀ l : list OracleFeed, concat (map (λ _, []) l) = ([] : list OracleAlert)) as -> by (by induction l).
  assert (∀ m, set_sentAt (m_sentAt m) m = m) as Hs by (by intros []). cbn. rewrite Hs. unfold all_healthy.
  assert (∀ l, forallb (λ f, bool_decide (status f = healthy)) (map (λ f, checkFeed cfg (p_feed p (feedId f)) f) l) =
    forallb (λ f, bool_decide (status (checkFeed cfg (p_feed p (feedId f)) f) = healthy)) l) as -> by (induction l as [|f l IH]; [done|]; cbn; by rewrite IH).
  by destruct (_ && _).
Qed.

Lemma alone_dispatch (place : string) (alert : OracleAlert) (w : W) :
  wp (run_alone (dispatch_ cfg place alert)) (λ r w', ∃ now webhook,
    r = Ret (OracleAlertService.dispatch cfg alert now webhook (m_sentAt (monitor w))).1 ∧
    monitor w' = set_sentAt (OracleAlertService.dispatch cfg alert now webhook (m_sentAt (monitor w))).2 (monitor w)) w.
Proof.
  unfold dispatch_. apply wp_alone_bind, wp_alone_await, wp_bind, wp_now. intros t w1 Hw1 _. apply wp_bind, wp_read. rewrite Hw1.
  unfold OracleAlertService.dispatch. destruct (OracleAlertService.suppressed _ _ _ _) eqn:E; [apply wp_ret, (wp_ret false); exists t, (Ret 0)|].
  { rewrite E. split; [done|]. cbn. rewrite Hw1. by destruct (monitor w). }
  apply wp_bind, wp_modify. intros w2 Hw2 _. apply wp_ret. cbn [negb]. rewrite Hw1 in Hw2.
  destruct (truthy_opt (alertWebhookUrl cfg)); cbn [negb]; [|apply (wp_ret true); exists t, (Ret 0); by rewrite E].
  apply wp_alone_try, wp_alone_bind, wp_alone_await, wp_waits; [intros w0; apply post_alert_law|]. intros w3 Hw3 _. rewrite Hw2 in Hw3.
  destruct (post_alert alert w2).1 as [s|e].
  - apply (wp_ret (OracleAlertService.posted (Ret s))). exists t, (Ret s). by rewrite E.
  - apply (wp_ret false). exists t, (Throw e). by rewrite E.
Qed.

(** Left alone, a poll is [poll], for what it has read of the clock and the network. *)
Lemma oracle_poll_alone (w : W) :
  0 <= warningThresholdMs cfg → NoDup (feedId <$> m_feeds (monitor w)) →
  (∀ f, f ∈ m_feeds (monitor w) → 0 <= stalenessThresholdMs f ∧ fallbackActive f = false) →
  wp (run_alone (poll_ cfg)) (λ r w', r = Ret tt ∧ ∃ p, monitor w' = poll cfg p (monitor w)) w.
Proof.
  intros Hw Hids Hq. unfold poll_. apply wp_alone_bind, wp_alone_await, wp_bind, wp_now. intros now w1 Hw1 _.
  apply wp_bind, wp_modify. intros w2 Hw2 _. apply wp_bind, wp_read, wp_ret. rewrite Hw1 in Hw2. rewrite Hw2. cbn [m_feeds set_lastPollAt].
  apply wp_alone_bind. eapply wp_mono; [by apply (alone_loop (set_lastPollAt now (monitor w)))|]. intros r w3 (pf & -> & Hw3).
  apply wp_alone_bind, wp_alone_await, wp_bind, wp_read. cbv zeta. apply wp_bind, wp_modify. intros w4 Hw4 _. rewrite Hw3 in Hw4 |- *.
  set (failures := if all_healthy pf _ then _ else _) in *.
  change (if all_healthy pf _ then _ else _) with (if all_healthy pf (m_feeds (monitor w)) then 0 else m_consecutiveFailures (monitor w) + 1) in (value of failures).
  destruct (_ && _) eqn:E; cycle 1.
  - apply wp_ret, (wp_ret tt). split; [done|]. exists (mkPollInputs now 0 0 pf (λ _, (0, Ret 0))).
    rewrite poll_unfold by done. cbv zeta. cbn in E |- *. fold failures. by rewrite E, Hw4.
  - apply wp_bind, wp_now. intros act w5 Hw5 _. apply wp_bind, wp_modify. intros w6 Hw6 _. apply wp_ret.
    apply wp_alone_bind, wp_alone_bind, wp_alone_await, wp_now. intros ann w7 Hw7 _. apply wp_alone_bind.
    eapply wp_mono; [apply alone_dispatch|]. intros r w8 (t & webhook & -> & Hw8). apply (wp_ret tt), (wp_ret tt). split; [done|].
    exists (mkPollInputs now act ann pf (λ _, (t, webhook))). rewrite poll_unfold by done. cbv zeta. cbn in E |- *. fold failures. rewrite E.
    rewrite Hw8, Hw7, Hw6, Hw5, Hw4. bool_to_prop. unfold activateFallback. cbn. by rewrite bool_decide_true.
Qed.
End polls.
End OraclePolls.

(** ** Runs *)
Module OraclePollExamples.
Import OraclePolls OracleExamples.
#[local] Abbreviation run := Prelude.run.

(** A world whose clock advances at every reading, and whose price is the time *)
Record toy := mkToy { t_monitor : Monitor; t_now : Z }.

#[local] Instance toy_clock : Clock toy := {| clock := λ w, (t_now w, mkToy (t_monitor w) (t_now w + 1)) |}.

#[local] Instance toy_world : OracleWorld toy := {|
  monitor := t_monitor;
  set_monitor m w := mkToy m (t_now w);
  last_ledger := throw (JsError "down");
  get_price _ := λ w, (Ret (Some (Z_to_string (t_now w))), w);
  post_alert _ := mret 200 |}.

#[local] Instance toy_world_laws : OracleWorldLaws toy.
Proof.
  refine {| time := t_now |}; intros; (split; [reflexivity|]); cbn; lia.
Defined.

#[local] Abbreviation polls := (pool (E:=exn) (W:=toy) (A:=unit) (B:=unit)).

Definition begin (c : polls) : polls := (c.1 ++ [(tt, poll_ cfg_ex)], c.2).

Lemma begin_run (c : polls) : run (pool_step (polls_enter cfg_ex)) (λ _ _, True) c (begin c).
Proof.
  destruct c as [ts w]. eapply run_more; [apply run_none|done|]. apply (step_enter _ Poll). apply poll_starts.
Qed.

Definition start_ex : toy := mkToy (initial cfg_ex) 1000000.

Lemma start_time : 0 <= time start_ex.
Proof. change (0 <= 1000000). lia. Qed.

(** The first poll has its price when the second one starts; the second one ends; the first one
    goes on. *)
Definition waiting_ex : polls := Nat.iter 4 (advance 0) (begin ([], start_ex)).
Definition overlap_ex : polls := Nat.iter 9 (advance 1) (begin waiting_ex).
Definition ended_ex : polls := Nat.iter 5 (advance 0) overlap_ex.

Definition view (c : polls) : list (FeedStatus * option string * Z) :=
  map (λ f, (status f, lastKnownPrice f, lastUpdatedAt f)) (m_feeds (t_monitor c.2)).

Lemma overlap_run : run (pool_step (polls_enter cfg_ex)) (λ _ _, True) ([], start_ex) overlap_ex.
Proof.
  apply (run_trans _ _ _ waiting_ex); [apply (run_trans _ _ _ (begin ([], start_ex)))|apply (run_trans _ _ _ (begin waiting_ex))].
  - apply begin_run.
  - exact (advances_run _ _ 4 0 _ (λ _, I)).
  - apply begin_run.
  - exact (advances_run _ _ 9 1 _ (λ _, I)).
Qed.

Lemma ended_run : run (pool_step (polls_enter cfg_ex)) (λ _ _, True) overlap_ex ended_ex.
Proof. exact (advances_run _ _ 5 0 overlap_ex (λ _, I)). Qed.


(** The poll that started first writes its older price over the newer one, under the time of the
    newer reading. *)
Lemma older_price_wins :
  view overlap_ex = [(healthy, Some "1000006", 1000005); (unknown, None, 0)]%string ∧
  view ended_ex = [(healthy, Some "1000003", 1000005); (unknown, None, 0)]%string.
Proof. split; vm_compute; reflexivity. Qed.
End OraclePollExamples.
