(* ===== verification/OracleLoadTest.v ===== *)
(** * The load test of the oracle monitor ([src/backend/load-tests/oracle-monitor.k6.js])

    What the script's checks see of the monitor of Oracle.v, through the two endpoints of
    [oracle-monitor/oracle-monitor.controller.ts], and what its threshold on failed requests sees of
    the middleware of RateLimit.v that stands before them.  The script's type annotations, which
    JavaScript does not have, are left out. *)
From S2P Require Import Prelude Js Errors Auth RateLimit LoadTest Oracle.
From stdpp Require Import gmap strings.
Import OracleTypes OracleMonitorService.
Open Scope Z_scope.

(** ** The endpoints *)
Module OracleMonitorController.

Definition HealthStatus_name (s : HealthStatus) : string :=
  match s with ok => "ok" | degraded => "degraded" | critical => "critical" end.

(** The response of [getHealth], as it is sent *)
Definition health_json (r : OracleHealthResponse) : JsValue :=
  JsObject [("status"%string, JsString (HealthStatus_name (h_status r)));
    ("feeds"%string, JsArray (map OracleAlertService.report_json (h_feeds r)));
    ("fallbackMode"%string, JsString (FallbackMode_name (h_fallbackMode r)));
    ("fallbackRiskPremiumBps"%string, OracleAlertService.number (h_fallbackRiskPremiumBps r));
    ("pollingIntervalMs"%string, OracleAlertService.number (h_pollingIntervalMs r));
    ("lastPollAt"%string, JsString (h_lastPollAt r));
    ("uptimeSeconds"%string, OracleAlertService.number (h_uptimeSeconds r));
    ("alertCooldownMs"%string, OracleAlertService.number (h_alertCooldownMs r))].

Definition getHealth (cfg : OracleMonitorConfig) (startedAt now : Z) (m : Monitor) : Z * JsValue :=
  (200, health_json (OracleMonitorService.getHealth cfg startedAt now m)).

Definition forcePoll (cfg : OracleMonitorConfig) (p : PollInputs) (m : Monitor) : (Z * JsValue) * Monitor :=
  ((200, JsObject [("polled"%string, JsBoolean true)]), OracleMonitorService.forcePoll cfg p m).
End OracleMonitorController.

(** ** The script *)
Module OracleMonitorLoadTest.

(** A response: [body] is what [JSON.parse(r.body)] gives, [None] when it throws. *)
Record Response := mkResponse { status : Z; body : option JsValue; duration : Z }.

Definition is_string (v : JsValue) : bool := match v with JsString _ => true | _ => false end.
Definition is_number (v : JsValue) : bool := match v with JsNum _ => true | _ => false end.
Definition is_array (v : JsValue) : bool := match v with JsArray _ => true | _ => false end.

(** [try { const body = JSON.parse(r.body); return p(body[key]) } catch { return false }] *)
Definition has (key : string) (p : JsValue → bool) (r : Response) : bool :=
  match body r with
  | Some b => match Principal.get b key with Ret v => p v | Throw _ => false end
  | None => false
  end.

Definition health_checks (r : Response) : list bool :=
  [status r =? 200; has "status" is_string r; has "feeds" is_array r; has "fallbackMode" is_string r;
   has "pollingIntervalMs" is_number r; has "uptimeSeconds" is_number r; duration r <? 2000].

Definition poll_checks (r : Response) : list bool :=
  [status r =? 200; has "polled" (λ v, match v with JsBoolean true => true | _ => false end) r].

(** [a && b && ...], and [l.every(p)], where a test may throw *)
Definition and_then (a b : outcome exn bool) : outcome exn bool :=
  match a with Ret true => b | _ => a end.

Fixpoint every (p : JsValue → outcome exn bool) (l : list JsValue) : outcome exn bool :=
  match l with
  | [] => Ret true
  | v :: l' => and_then (p v) (every p l')
  end.

Definition test (v : JsValue) (key : string) (p : JsValue → bool) : outcome exn bool :=
  match Principal.get v key with Ret x => Ret (p x) | Throw e => Throw e end.

Definition feed_fields (f : JsValue) : outcome exn bool :=
  and_then (test f "feedId" js_truthy) (and_then (test f "name" js_truthy) (and_then (test f "status" js_truthy)
    (and_then (test f "lastUpdateLedger" is_number) (and_then (test f "lastUpdatedAt" is_string) (test f "stalenessThresholdMs" is_number))))).

Definition feeds_checked (b : JsValue) : outcome exn bool :=
  match Principal.get b "feeds" with
  | Ret (JsArray l) => every feed_fields l
  | Ret _ => Throw (TypeError "b.feeds.every is not a function")
  | Throw e => Throw e
  end.

Definition known_status (v : JsValue) : bool :=
  match v with JsString s => String.eqb s "ok" || String.eqb s "degraded" || String.eqb s "critical" | _ => false end.

(** The third group; an exception ends the iteration. *)
Definition detail_checks (r : Response) : outcome exn (list (outcome exn bool)) :=
  if status r =? 200 then
    match body r with
    | None => Throw (JsError "Unexpected token")
    | Some b => Ret [test b "status" known_status; feeds_checked b;
                     test b "fallbackRiskPremiumBps" is_number; test b "alertCooldownMs" is_number]
    end
  else Ret [].

(** The default function against the monitor: at [t1], a poll with the inputs [p], and at [t2]; [d1], [d2] and
    [d3] are the durations of the requests. *)
Definition iteration (cfg : OracleMonitorConfig) (startedAt t1 t2 d1 d2 d3 : Z) (p : PollInputs) (m : Monitor)
    : (list bool * list bool * outcome exn (list (outcome exn bool))) * Monitor :=
  let respond (d : Z) (a : Z * JsValue) := mkResponse a.1 (Some a.2) d in
  let first := health_checks (respond d1 (OracleMonitorController.getHealth cfg startedAt t1 m)) in
  let '(answer, m') := OracleMonitorController.forcePoll cfg p m in
  let second := poll_checks (respond d2 answer) in
  let third := detail_checks (respond d3 (OracleMonitorController.getHealth cfg startedAt t2 m')) in
  ((first, second, third), m').

(** *** What the checks see of the monitor *)

Lemma every_true (p : JsValue → outcome exn bool) (l : list JsValue) :
  (∀ v, v ∈ l → p v = Ret true) → every p l = Ret true.
Proof. induction l as [|v l IH]; intros H; [done|]. cbn. rewrite H by (by left). cbn. apply IH. intros u Hu. apply H. by right. Qed.

Lemma feed_fields_report (r : FeedHealthReport) :
  truthy (r_feedId r) = true → truthy (r_name r) = true → feed_fields (OracleAlertService.report_json r) = Ret true.
Proof.
  intros Hi Hn. unfold feed_fields, test. cbn. rewrite Hi. cbn. rewrite Hn. cbn. by destruct (r_status r).
Qed.

(** Feeds keep their names. *)
Definition named (m : Monitor) : Prop := ∀ f, f ∈ m_feeds m → truthy (feedId f) = true ∧ truthy (name f) = true.

Lemma poll_feed_names (cfg : OracleMonitorConfig) (p : PollInputs) (f : OracleFeed) :
  feedId (poll_feed cfg p f).1 = feedId f ∧ name (poll_feed cfg p f).1 = name f.
Proof.
  assert (static (poll_feed cfg p f).1 = static f) as [= -> -> _ _ _]; [|done].
  unfold poll_feed. by rewrite evaluateFeed_static, checkFeed_static.
Qed.

Lemma poll_feeds (cfg : OracleMonitorConfig) (p : PollInputs) (m : Monitor) :
  m_feeds (poll cfg p m) = map (λ f, (poll_feed cfg p f).1) (m_feeds m).
Proof.
  unfold poll. cbv zeta. cbn [m_feeds]. destruct (_ && _); [unfold activateFallback; destruct (negb _)|]; cbn [m_feeds]; by rewrite map_map.
Qed.

Lemma named_poll (cfg : OracleMonitorConfig) (p : PollInputs) (m : Monitor) : named m → named (poll cfg p m).
Proof.
  intros H f. rewrite poll_feeds. intros (g & -> & Hg)%list_elem_of_fmap. destruct (poll_feed_names cfg p g) as [-> ->]. by apply H.
Qed.

(** The load test does not see whether the monitor monitors anything: of a monitor in any state, with any
    configuration (disabled, or without feeds), and whatever the network answers to the poll, every
    check passes as long as the answers come in time and the feeds have names. *)
Theorem checks_always_pass (cfg : OracleMonitorConfig) (startedAt t1 t2 d1 d2 d3 : Z) (p : PollInputs) (m : Monitor) :
  named m → d1 < 2000 →
  (iteration cfg startedAt t1 t2 d1 d2 d3 p m).1 = (repeat true 7, repeat true 2, Ret (repeat (Ret true) 4)).
Proof.
  intros Hm Hd. unfold iteration. cbn -[poll Z.ltb health_checks poll_checks]. f_equal; [f_equal|].
  - unfold health_checks. cbn -[Z.ltb]. by rewrite (proj2 (Z.ltb_lt _ _) Hd).
  - rewrite every_true; [by destruct (health_status _)|]. intros v (r & -> & Hr)%list_elem_of_fmap. apply list_elem_of_fmap in Hr as (f & -> & Hf).
    destruct (named_poll cfg p m Hm f Hf). by apply feed_fields_report.
Qed.

(** *** What the threshold on failed requests sees of the rate limits *)
Import SortedSet RateLimiterService RateLimitMiddleware RateLimitingLoadTest.

(** The requests of the script, all of them from the machine it runs on *)
Definition health_request (address : string) : Request :=
  mkRequest "GET" "/oracle/health" None None (Some address) no_one no_one.
Definition poll_request (address : string) : Request :=
  mkRequest "POST" "/oracle/poll" None None (Some address) no_one no_one.

(** [http_req_failed] counts the answers that are not 2xx or 3xx; the threshold is [rate<0.05]. *)
Definition http_req_failed (rs : list RateLimitingLoadTest.Response) : Rate :=
  mkRate (count_if (λ r, negb ((200 <=? RateLimitingLoadTest.status r) && (RateLimitingLoadTest.status r <? 400))) rs) (Z.of_nat (length rs)).
Definition few_failed (r : Rate) : bool := 20 * hits r <? total r.

Section limits.
Variable s : Settings.
Variable verify : option (string → outcome exn Identity).
Variable app : Request → Z.

Lemma count_failed (reqs : list (Request * (Env * Env))) (verdicts : list bool) (rs : list RateLimitingLoadTest.Response) :
  length verdicts = length reqs →
  map RateLimitingLoadTest.status rs = zip_with (λ re (ok : bool), if ok then app re.1 else 429) reqs verdicts →
  count_if negb verdicts <= hits (http_req_failed rs) ∧ total (http_req_failed rs) = Z.of_nat (length reqs).
Proof.
  unfold http_req_failed. cbn [hits total]. revert reqs verdicts. induction rs as [|r rs IH]; intros [|[req env] reqs] [|ok verdicts]; cbn; try done.
  intros [= Hl] [= Hr Hrs]. destruct (IH reqs verdicts Hl Hrs) as [I1 I2]. rewrite !count_if_cons, Hr. split; [|lia].
  destruct ok; cbn; [destruct (negb _); lia|lia].
Qed.

(** The load test of the oracle monitor cannot meet its own threshold on a backend with its rate
    limits: all its requests come from one address without a token, so that the counter of the
    address refuses all but the first [limit] of a window, whatever the endpoints answer; as soon as
    a window has enough requests for the refused ones to be one in twenty, the threshold fails. *)
Theorem load_is_throttled (address : string) (reqs : list (Request * (Env * Env))) (redis : store) (from : Z) :
  truthy address = true →
  (∀ req, req ∈ reqs.*1 → req = health_request address ∨ req = poll_request address) →
  0 <= windowMs (ip_config s) → 1 <= IP_LIMIT s → redis !! ("rl:ip:" +:+ address)%string = None →
  orderly reqs.*2 → within from (windowMs (ip_config s)) reqs.*2 →
  20 * (Z.of_nat (length reqs) - IP_LIMIT s) >= Z.of_nat (length reqs) →
  let failed := http_req_failed (send_each s verify app reqs redis).1 in
  Z.of_nat (length reqs) - IP_LIMIT s <= hits failed ∧ total failed = Z.of_nat (length reqs) ∧ few_failed failed = false.
Proof.
  intros Ha Hreq Hw Hl Hfresh (Hr & Hs & Hn) Hin Hmany failed.
  assert (∀ req, req ∈ reqs.*1 → first_tier verify req = ("ip"%string, address) ∧ one_tier verify req) as Hreqs.
  { intros req [ -> | -> ]%Hreq; (split; [|done]); unfold first_tier, getClientIp; cbn; by rewrite Ha. }
  destruct (send_each_reference s verify app "ip" address (ip_config s) reqs redis from [] []) as (H1 & _); [| | | | | | | |].
  - intros req Hq. by apply Hreqs.
  - done.
  - done.
  - left. intros req Hq. by apply Hreqs.
  - done.
  - constructor; [done|]. rewrite Forall_forall. intros t Ht. by apply Hin.
  - by rewrite app_nil_r.
  - cbn [keyPrefix ip_config]. rewrite Hfresh. split; [set_solver|done|done].
  - pose proof (reference_burst (windowMs (ip_config s)) (IP_LIMIT s) from [] (times_of reqs.*2) Hin Hs ltac:(set_solver)) as Href.
    cbv zeta in Href. change (maxRequests (ip_config s)) with (IP_LIMIT s) in H1.
    assert (length (times_of reqs.*2) = length reqs) as Ht by (unfold times_of; by rewrite length_map, length_fmap).
    destruct (count_failed _ _ _ ltac:(by rewrite reference_length) H1) as [Hc Htot]. fold failed in Hc, Htot.
    rewrite Href, count_burst, Ht in Hc. cbn [length] in Hc. split; [lia|]. split; [done|]. unfold few_failed. apply Z.ltb_ge. lia.
Qed.
End limits.
End OracleMonitorLoadTest.

(** ** Examples *)
Module OracleLoadTestExamples.
Import OracleMonitorLoadTest OracleExamples RateLimitingLoadTest LoadTestExamples.

(** The network is down and one feed has no contract, and everything passes. *)
Example passes_while_down :
  (OracleMonitorLoadTest.iteration cfg_ex 0 3000000 3000001 5 5 5 (inputs_ex 3000000) polled).1 = (repeat true 7, repeat true 2, Ret (repeat (Ret true) 4)) ∧
  map (λ f, (OracleTypes.status f, lastKnownPrice f)) (m_feeds polled) = [(healthy, None); (unknown, None)].
Proof.
  split; [|vm_compute; reflexivity]. apply checks_always_pass; [|lia]. intros f Hf.
  assert (Forall (λ f, truthy (feedId f) = true ∧ truthy (name f) = true) (m_feeds polled)) as H by (vm_compute; repeat constructor).
  rewrite Forall_forall in H. by apply H.
Qed.

(** A limit of two requests, and the three of one iteration *)
Definition iteration_ex : list (RateLimitMiddleware.Request * (RateLimiterService.Env * RateLimiterService.Env)) :=
  zip [health_request "10.0.0.1"; poll_request "10.0.0.1"; health_request "10.0.0.1"] (envs_ex 0 3).

Lemma load_is_throttled_witness :
  map RateLimitingLoadTest.status (send_each settings_ex None (λ _, 200) iteration_ex ∅).1 = [200; 200; 429] ∧
  few_failed (http_req_failed (send_each settings_ex None (λ _, 200) iteration_ex ∅).1) = false.
Proof.
  split; [vm_compute; reflexivity|].
  refine (proj2 (proj2 (load_is_throttled settings_ex None (λ _, 200) "10.0.0.1" iteration_ex ∅ 0 eq_refl _ _ _ eq_refl _ _ _))).
  - intros req Hr. vm_compute in Hr. repeat (apply elem_of_cons in Hr as [->|Hr]; [first [by left|by right]|]). by apply elem_of_nil in Hr.
  - cbn. lia.
  - cbn. lia.
  - split; [repeat constructor|]. split; apply (bool_decide_unpack _); vm_compute; exact I.
  - unfold within. apply Forall_forall, (bool_decide_unpack _). vm_compute. exact I.
  - by vm_compute.
Defined.
End OracleLoadTestExamples.
