(* ===== verification/Soroban.v ===== *)
(** * Submitting contract calls ([soroban/soroban.service.ts])

    The lazily created signer and sponsor keys, building, simulating, signing, submitting and
    polling one contract invocation, and the mapping of its failures to typed errors.  The
    Stellar SDK and the RPC server are parameters; [submitted] is what the server has
    received, for the specifications. *)
From S2P Require Import Prelude Js Schema Errors Interfaces Auth Vault Compliance.
Open Scope Z_scope.

(** Diagnostic events: [None] for one of an unexpected shape, else its topics and data as
    strings ([None] for a value that cannot be decoded). *)
Definition DiagnosticEvents : Type := list (option (list (option string))).

Inductive Simulation := SimulationSuccess | SimulationError (events : DiagnosticEvents) (error : string).

Inductive SendStatus := SEND_PENDING | SEND_DUPLICATE | SEND_TRY_AGAIN_LATER | SEND_ERROR.
#[export] Instance SendStatus_eq : EqDecision SendStatus.
Proof. solve_decision. Defined.

Record SendResult := mkSendResult { send_status : SendStatus; send_hash : string; send_events : DiagnosticEvents }.

(** A successful transaction comes with what decoding its returned value gives. *)
Inductive PollResult := POLL_SUCCESS (value : outcome exn unit) | POLL_NOT_FOUND | POLL_FAILED (events : DiagnosticEvents).

Class SorobanRpc (W : Type) `{!Ed25519} := {
  Account : Type;
  Contract : Type;
  ScVal : Type;
  Tx : Type;
  (** the constructors of the SDK, which reject malformed input *)
  Contract_new : string → outcome exn Contract;
  Address_fromString : string → outcome exn ScVal;
  i128 : Z → outcome exn ScVal;
  (** the built and timed transaction, signed, and wrapped in a signed fee bump *)
  build : Account → Contract → string → list ScVal → Tx;
  sign : Keypair → Tx → Tx;
  feeBump : Keypair → Tx → Tx;
  (** the requests to the server *)
  getAccount : string → M exn W Account;
  simulateTransaction : Tx → M exn W Simulation;
  prepareTransaction : Tx → M exn W Tx;
  sendTransaction : Tx → M exn W SendResult;
  pollTransaction : string → M exn W PollResult;
  submitted : W → list Tx }.

(** Only [sendTransaction] submits, and it submits its argument, once, if at all. *)
Class SorobanRpcLaws (W : Type) `{!Ed25519} `{!SorobanRpc W} := {
  getAccount_law : ∀ key w, submitted (getAccount key w).2 = submitted w;
  simulate_law : ∀ tx w, submitted (simulateTransaction tx w).2 = submitted w;
  prepare_law : ∀ tx w, submitted (prepareTransaction tx w).2 = submitted w;
  send_law : ∀ tx w, match sendTransaction tx w with
                     | (Ret _, w') => submitted w' = submitted w ++ [tx]
                     | (Throw _, w') => submitted w' = submitted w ∨ submitted w' = submitted w ++ [tx]
                     end;
  poll_law : ∀ hash w, submitted (pollTransaction hash w).2 = submitted w }.

Module SorobanService.

(** ** Error decoding *)

Fixpoint strip_prefix (p l : list ascii) : option (list ascii) :=
  match p, l with
  | [], _ => Some l
  | a :: p', c :: l' => if Ascii.eqb a c then strip_prefix p' l' else None
  | _ :: _, [] => None
  end.

(** The expression [Error\(Contract,\s*#(\d+)\)] at the start of the text. *)
Definition code_at (l : list ascii) : option Z :=
  match strip_prefix (to_list "Error(Contract,") l with
  | None => None
  | Some l1 =>
      match strip_prefix ["#"%char] (drop_while is_space l1) with
      | None => None
      | Some l2 =>
          let digits := take_while is_digit l2 in
          match digits, strip_prefix [")"%char] (drop_while is_digit l2) with
          | _ :: _, Some _ => Some (digits_val digits)
          | _, _ => None
          end
      end
  end.

(** Its first occurrence. *)
Fixpoint first_code (l : list ascii) : option Z :=
  match code_at l with
  | Some n => Some n
  | None => match l with [] => None | _ :: l' => first_code l' end
  end.

Definition extractNumericErrorCode (raw : string) : option Z := first_code (to_list raw).

Definition table (kind : option SorobanContractKind) : Z → option ContractErrorCode :=
  match kind with Some settlement => SETTLEMENT_ERROR_CODES | _ => FINANCING_POOL_ERROR_CODES end.

Definition parseContractError (raw : string) (kind : option SorobanContractKind) : exn :=
  match (n ← extractNumericErrorCode raw; mapped ← table kind n; Some (n, mapped)) with
  | Some (n, mapped) => ContractError mapped ("Contract error #" +:+ Z_to_string n +:+ ": " +:+ raw)%string
  | None =>
      let lower := toLowerCase raw in
      if includes lower "walletsessionexpired" || includes lower "wallet session" || includes lower "session expired"
      then ContractError WalletSessionExpired "Wallet session has expired; reconnect and retry"
      else if includes raw "InsufficientFunds" || includes raw "InsufficientBalance" || includes raw "InsufficientLiquidity"
      then ContractError InsufficientFunds "Wallet balance is insufficient"
      else if includes raw "InvoiceExpired" then ContractError InvoiceExpired "Invoice has passed its expiry timestamp"
      else if includes raw "DuplicateFunding" || includes raw "AlreadyFunded"
      then ContractError DuplicateFunding "Invoice has already been funded"
      else if includes raw "Unauthorized" || includes raw "NotAuthorized"
      then ContractError Unauthorized "Caller is not authorized to perform this action"
      else ContractError InvalidState raw
  end.

(** The values that are defined, joined; the malformed events are skipped. *)
Definition describeDiagnostics (events : DiagnosticEvents) : string :=
  join " | " (map (join " ") (map (omap id) (omap id events))).

Definition wrapTransportError (message_ : string) (cause : exn) : exn :=
  SorobanRpcError (message_ +:+ ": " +:+ message cause)%string.

(** [a || b] of strings *)
Definition or_else (a b : string) : string := if truthy a then a else b.

Definition mapSimulationError (events : DiagnosticEvents) (error : string) (kind : SorobanContractKind) : exn :=
  parseContractError (or_else (describeDiagnostics events) error) (Some kind).

(** ** Keys *)

(** The cached keys of the service. *)
Record Clients `{!Ed25519} := mkClients { signerKeypair : option Keypair; sponsorKeypair : option Keypair }.
Arguments mkClients {_} _ _.

(** [SOROBAN_SIGNING_SECRET], [SOROBAN_SPONSOR_SECRET], and what [Keypair.random()] returns. *)
Record KeyConfig `{!Ed25519} := mkKeyConfig {
  SIGNING_SECRET : option string; SPONSOR_SECRET : option string; random_key : Keypair }.
Arguments mkKeyConfig {_} _ _ _.

(** ** Invocation *)
Section service.
Context {W : Type} {ED : Ed25519} `{!SorobanRpc W}.
Variable config : KeyConfig.

Definition getSignerKeypair (c : Clients) : outcome exn Keypair * Clients :=
  match signerKeypair c with
  | Some k => (Ret k, c)
  | None =>
      match Signing.loadSigningKey (SIGNING_SECRET config) (random_key config) with
      | Throw e => (Throw e, c)
      | Ret loaded =>
          let k := Signing.keypair loaded in
          let sponsorSecret := trim <$> SPONSOR_SECRET config in
          if truthy_opt sponsorSecret then
            match Keypair_fromSecret (default EmptyString sponsorSecret) with
            | Ret sponsor => (Ret k, mkClients (Some k) (Some sponsor))
            | Throw e => (Throw e, mkClients (Some k) (sponsorKeypair c))
            end
          else (Ret k, mkClients (Some k) (sponsorKeypair c))
      end
  end.

Definition guarded {A : Type} (m : M exn W A) (what : string) : M exn W A :=
  try_catch m (λ err, throw (wrapTransportError what err)).

Definition lift {A : Type} (o : outcome exn A) : M exn W A :=
  match o with Ret a => mret a | Throw e => throw e end.

Definition pollForResult (hash : string) (kind : SorobanContractKind) : M exn W string :=
  result ← guarded (pollTransaction hash) "Soroban pollTransaction call failed";
  match result with
  | POLL_SUCCESS value => _ ← lift value; mret hash
  | POLL_NOT_FOUND =>
      throw (SorobanRpcError ("Soroban did not report a final status for transaction " +:+ hash
               +:+ " within the polling window")%string)
  | POLL_FAILED events =>
      throw (parseContractError (or_else (describeDiagnostics events)
               ("Transaction " +:+ hash +:+ " failed on-chain")%string) (Some kind))
  end.

(** With the condition of its call: no sponsor, no wrapping. *)
Definition wrapInFeeBump (sponsor : option Keypair) (signed : Tx) : Tx :=
  match sponsor with Some k => feeBump k signed | None => signed end.

(** [invoke] once the keys are there. *)
Definition submit (signer : Keypair) (sponsor : option Keypair) (contract : Contract) (method : string)
    (args : list ScVal) (kind : SorobanContractKind) : M exn W string :=
  account ← guarded (getAccount (Keypair_publicKey signer)) "Failed to load source account from Soroban RPC";
  let tx := build account contract method args in
  simulation ← guarded (simulateTransaction tx) "Soroban simulateTransaction call failed";
  match simulation with
  | SimulationError events error => throw (mapSimulationError events error kind)
  | SimulationSuccess =>
      prepared ← guarded (prepareTransaction tx) "Soroban prepareTransaction call failed";
      let toSubmit := wrapInFeeBump sponsor (sign signer prepared) in
      sendResult ← guarded (sendTransaction toSubmit) "Soroban sendTransaction call failed";
      if bool_decide (send_status sendResult = SEND_ERROR)
      then throw (parseContractError (or_else (describeDiagnostics (send_events sendResult)) "Transaction rejected: ERROR") (Some kind))
      else pollForResult (send_hash sendResult) kind
  end.

(** The state is the cached keys and the world. *)
Definition invoke (contract : Contract) (method : string) (args : list ScVal) (kind : SorobanContractKind)
    : M exn (Clients * W) string := λ '(c, w),
  match getSignerKeypair c with
  | (Throw e, c') => (Throw e, (c', w))
  | (Ret signer, c') =>
      let '(r, w') := submit signer (sponsorKeypair c') contract method args kind w in (r, (c', w'))
  end.

(** [BigInt(Math.trunc(amount))] *)
Definition BigInt_trunc (amount : JsNumber) : outcome exn Z :=
  match amount with
  | Finite num den => Ret (trunc num den)
  | _ => Throw (JsError "The number cannot be converted to a BigInt because it is not an integer")
  end.

Definition argument {A : Type} (o : outcome exn A) : M exn (Clients * W) A :=
  match o with Ret a => mret a | Throw e => throw e end.

Definition fundInvoice (invoiceContractId investorWallet : string) (amount : JsNumber) : M exn (Clients * W) string :=
  contract ← argument (Contract_new invoiceContractId);
  wallet ← argument (Address_fromString investorWallet);
  n ← argument (BigInt_trunc amount);
  value ← argument (i128 n);
  invoke contract "fund_invoice" [wallet; value] financing_pool.

Definition settleInvoice (invoiceContractId callerWallet : string) : M exn (Clients * W) string :=
  contract ← argument (Contract_new invoiceContractId);
  wallet ← argument (Address_fromString callerWallet);
  invoke contract "settle_invoice" [wallet] settlement.

(** ** Lemmas *)
Context `{!SorobanRpcLaws W}.

(** The errors that a call reports: a typed contract error or a transport error. *)
Definition typed_error (e : exn) : Prop :=
  (∃ code msg, e = ContractError code msg) ∨ (∃ msg, e = SorobanRpcError msg).

Lemma parseContractError_typed (raw : string) (kind : option SorobanContractKind) :
  typed_error (parseContractError raw kind).
Proof. left. unfold parseContractError. repeat case_match; eauto. Qed.

Lemma transport_typed (what : string) (e : exn) : typed_error (wrapTransportError what e).
Proof. right. by eexists. Qed.

Lemma wp_guarded {A : Type} (m : M exn W A) (what : string) (Φ : outcome exn A → W → Prop) (w : W) :
  match m w with
  | (Ret a, w') => Φ (Ret a) w'
  | (Throw e, w') => Φ (Throw (wrapTransportError what e)) w'
  end → wp (guarded m what) Φ w.
Proof. intros Hm. apply wp_try. unfold wp. destruct (m w) as [[a|e] w']; cbn; [done|by apply wp_throw]. Qed.

(** What polling concludes; it submits nothing. *)
Definition polled (hash : string) (r : outcome exn string) (w w' : W) : Prop :=
  submitted w' = submitted w ∧
  match r with
  | Ret hash' => hash' = hash ∧ pollTransaction hash w = (Ret (POLL_SUCCESS (Ret tt)), w')
  | Throw e => typed_error e ∨ pollTransaction hash w = (Ret (POLL_SUCCESS (Throw e)), w')
  end.

Lemma poll_spec (hash : string) (kind : SorobanContractKind) (w : W) :
  wp (pollForResult hash kind) (λ r w', polled hash r w w') w.
Proof.
  unfold pollForResult, polled. apply wp_bind, wp_guarded. pose proof (poll_law hash w) as Hp.
  destruct (pollTransaction hash w) as [[[[[]|e]| |events]|e] w']; cbn in Hp.
  - apply wp_bind, wp_ret, wp_ret. done.
  - apply wp_bind, wp_throw. split; [done|by right].
  - apply wp_throw. split; [done|left; right; by eexists].
  - apply wp_throw. split; [done|left; apply parseContractError_typed].
  - split; [done|left; apply transport_typed].
Qed.

(** The transaction that a call submits: its own, simulated successfully and prepared. *)
Definition own_transaction (signer : Keypair) (sponsor : option Keypair) (contract : Contract) (method : string)
    (args : list ScVal) (tx : Tx) : Prop :=
  ∃ account prepared w1 w2,
    (simulateTransaction (build account contract method args) w1).1 = Ret SimulationSuccess ∧
    (prepareTransaction (build account contract method args) w2).1 = Ret prepared ∧
    tx = wrapInFeeBump sponsor (sign signer prepared).

(** The result of a call that reached the server. *)
Definition concluded (r : outcome exn string) (w w' : W) : Prop :=
  match r with
  | Ret hash => submitted w' ≠ submitted w ∧ ∃ w1, pollTransaction hash w1 = (Ret (POLL_SUCCESS (Ret tt)), w')
  | Throw e => typed_error e ∨ ∃ hash w1, pollTransaction hash w1 = (Ret (POLL_SUCCESS (Throw e)), w')
  end.

Lemma submit_spec (signer : Keypair) (sponsor : option Keypair) (contract : Contract) (method : string)
    (args : list ScVal) (kind : SorobanContractKind) (w : W) :
  wp (submit signer sponsor contract method args kind) (λ r w',
    (submitted w' = submitted w ∨
     ∃ tx, own_transaction signer sponsor contract method args tx ∧ submitted w' = submitted w ++ [tx]) ∧
    concluded r w w') w.
Proof.
  assert (∀ l (tx : Tx), l ++ [tx] ≠ l) as Hne.
  { intros l tx H. apply (f_equal length) in H. rewrite length_app in H. cbn in H. lia. }
  assert (∀ w' e, submitted w' = submitted w → typed_error e →
    (submitted w' = submitted w ∨ ∃ tx, own_transaction signer sponsor contract method args tx ∧
       submitted w' = submitted w ++ [tx]) ∧ concluded (Throw e) w w') as Hearly.
  { intros w' e H He. split; [by left|by left]. }
  unfold submit. apply wp_bind, wp_guarded. pose proof (getAccount_law (Keypair_publicKey signer) w) as Ha.
  destruct (getAccount _ w) as [[account|e] w1]; cbn in Ha; [|apply Hearly; [done|apply transport_typed]].
  cbv zeta. apply wp_bind, wp_guarded. pose proof (simulate_law (build account contract method args) w1) as Hs.
  destruct (simulateTransaction _ w1) as [[[|events error]|e] w2] eqn:Esim; cbn in Hs.
  2: { apply wp_throw, Hearly; [congruence|apply parseContractError_typed]. }
  2: { apply Hearly; [congruence|apply transport_typed]. }
  apply wp_bind, wp_guarded. pose proof (prepare_law (build account contract method args) w2) as Hp.
  destruct (prepareTransaction _ w2) as [[prepared|e] w3] eqn:Eprep; cbn in Hp.
  2: { apply Hearly; [congruence|apply transport_typed]. }
  set (tx := wrapInFeeBump sponsor (sign signer prepared)).
  assert (own_transaction signer sponsor contract method args tx) as Hown.
  { exists account, prepared, w1, w2. by rewrite Esim, Eprep. }
  assert (submitted w3 = submitted w) as H3 by congruence.
  apply wp_bind, wp_guarded. pose proof (send_law tx w3) as Hsend.
  destruct (sendTransaction tx w3) as [[sent|e] w4]; rewrite H3 in Hsend.
  2: { split; [destruct Hsend; eauto|left; apply transport_typed]. }
  case_bool_decide; [apply wp_throw; split; [eauto|left; apply parseContractError_typed]|].
  eapply wp_mono; [apply poll_spec|]. intros r w5 [H5 Hr]. rewrite Hsend in H5. split; [eauto|].
  destruct r as [hash|e]; cbn.
  - destruct Hr as [-> Hr]. split; [rewrite H5; apply Hne|eauto].
  - destruct Hr; [by left|right; eauto].
Qed.


(** A malformed sponsor secret fails only the first call: the signer is cached before the secret is
    read, so that every later call goes on without the sponsor. *)
Lemma sponsor_lost (c : Clients) (loaded : Signing.LoadedSigningKey) (secret : string) (e : exn) :
  signerKeypair c = None → sponsorKeypair c = None →
  Signing.loadSigningKey (SIGNING_SECRET config) (random_key config) = Ret loaded →
  SPONSOR_SECRET config = Some secret → truthy (trim secret) = true → Keypair_fromSecret (trim secret) = Throw e →
  let '(first, c1) := getSignerKeypair c in
  first = Throw e ∧ sponsorKeypair c1 = None ∧ getSignerKeypair c1 = (Ret (Signing.keypair loaded), c1).
Proof.
  intros H1 H2 H3 H4 H5 H6. unfold getSignerKeypair at 1. rewrite H1, H3, H4. cbn [fmap option_fmap option_map truthy_opt default].
  rewrite H5. cbn. rewrite H6. done.
Qed.
End service.

(** ** The numeric codes of the contracts *)

Lemma strip_prefix_app (p l : list ascii) : strip_prefix p (p ++ l) = Some l.
Proof. induction p as [|a p IH]; cbn; [done|]. by rewrite Ascii.eqb_refl. Qed.

Lemma strip_prefix_ne (c a : ascii) (p l : list ascii) : c ≠ a → strip_prefix (c :: p) (a :: l) = None.
Proof. intros H. cbn [strip_prefix]. by rewrite (proj2 (Ascii.eqb_neq c a) H). Qed.

Lemma while_digits (ds l : list ascii) (c : ascii) :
  forallb is_digit ds = true → is_digit c = false →
  take_while is_digit (ds ++ c :: l) = ds ∧ drop_while is_digit (ds ++ c :: l) = c :: l.
Proof.
  intros Hds Hc. induction ds as [|d ds IH]; cbn in *; [by rewrite Hc|].
  apply andb_true_iff in Hds as [-> Hds]. destruct (IH Hds) as [-> ->]. done.
Qed.

Lemma first_code_skip (pre l : list ascii) :
  "E"%char ∉ pre → first_code (pre ++ l) = first_code l.
Proof.
  induction pre as [|a pre IH]; intros H; [done|]. cbn [app first_code].
  assert (code_at (a :: pre ++ l) = None) as ->.
  { unfold code_at. cbn [to_list]. rewrite strip_prefix_ne; [done|]. intros <-. set_solver. }
  apply IH. set_solver.
Qed.

Lemma table_domain (kind : option SorobanContractKind) (n : Z) (code : ContractErrorCode) :
  table kind n = Some code → 0 <= n.
Proof. intros H. destruct n as [|n|n]; [lia|lia|]. by destruct kind as [[]|]. Qed.

Lemma first_code_here (l : list ascii) (n : Z) : code_at l = Some n → first_code l = Some n.
Proof. intros H. destruct l; cbn [first_code]; by rewrite H. Qed.

Lemma code_at_number (n : Z) (post : list ascii) :
  0 <= n → code_at (to_list "Error(Contract, #" ++ nat_digits n ++ to_list ")" ++ post) = Some n.
Proof.
  intros Hn. destruct (nat_digits_spec n Hn) as (Hval & Hall & Hne).
  destruct (while_digits (nat_digits n) post ")"%char Hall eq_refl) as [Ht Hd].
  unfold code_at. change (to_list "Error(Contract, #") with (to_list "Error(Contract," ++ [" "%char; "#"%char]).
  rewrite <- app_assoc, strip_prefix_app.
  change (drop_while is_space ([" "%char; "#"%char] ++ nat_digits n ++ to_list ")" ++ post))
    with (["#"%char] ++ nat_digits n ++ ")"%char :: post).
  rewrite strip_prefix_app, Ht, Hd. change (strip_prefix [")"%char] (")"%char :: post)) with (Some post).
  destruct (nat_digits n) as [|d ds]; [done|]. by rewrite Hval.
Qed.

(** C36: a contract's numeric error code decides the error whatever text surrounds it: a diagnostic with
    the code [#n], which no earlier [E] precedes, is reported as the error that the table of the
    called contract has for [n], even when the words around it name another error. *)
Theorem numeric_code_decides (pre post : string) (kind : option SorobanContractKind) (n : Z)
    (code : ContractErrorCode) (Hn : table kind n = Some code) (Hpre : "E"%char ∉ to_list pre) :
  let raw := (pre +:+ "Error(Contract, #" +:+ Z_to_string n +:+ ")" +:+ post)%string in
  parseContractError raw kind = ContractError code ("Contract error #" +:+ Z_to_string n +:+ ": " +:+ raw)%string.
Proof.
  intros raw. pose proof (table_domain kind n code Hn) as Hpos.
  assert (extractNumericErrorCode raw = Some n) as Hx.
  { unfold extractNumericErrorCode, raw. rewrite !to_list_app, first_code_skip, Z_to_string_nonneg by done.
    apply first_code_here. exact (code_at_number n (to_list post) Hpos). }
  unfold parseContractError. rewrite Hx. cbn. by rewrite Hn.
Qed.

(** ** The oracle methods, which are not implemented *)

(** [submitOraclePrice(...)]: the arguments are only logged. *)
Definition submitOraclePrice {W : Type} : M exn W string :=
  throw (JsError "Not implemented – replace with stellar-sdk call").

Definition getOraclePrice {W : Type} : M exn W (option (Z * Z)) :=
  throw (JsError "Not implemented – replace with stellar-sdk call").

(** ** The URL of the RPC server and the network passphrase *)

Definition LOCAL_STANDALONE_RPC_URL : string := "http://localhost:8000/soroban/rpc".
Definition LOCAL_STANDALONE_PASSPHRASE : string := "Standalone Network ; February 2017".
(** [Networks.PUBLIC] *)
Definition PUBLIC_PASSPHRASE : string := "Public Global Stellar Network ; September 2015".

Section network.
(** The injected Vault service, if any, in its present state, and [ConfigService.get] *)
Variable vault : option VaultState.
Variable config : string → option string.

Definition tryReadVaultStellar : JsValue :=
  match vault with
  | None => JsUndefined
  | Some st => match VaultService.stellar st with Ret v => v | Throw _ => JsUndefined end
  end.

(** [tryReadVaultStellar()?.key] *)
Definition from_vault (key : string) : JsValue := Principal.get_field tryReadVaultStellar key.

Definition from_config (key : string) : JsValue := match config key with Some s => JsString s | None => JsUndefined end.

(** The value that is kept, which is also the one that is returned *)
Definition getRpcUrlSync (rpcUrl : JsValue) : JsValue :=
  if js_truthy rpcUrl then rpcUrl
  else coalesce (from_vault "rpc_url") (coalesce (from_config "SOROBAN_RPC_URL") (JsString LOCAL_STANDALONE_RPC_URL)).

Definition getNetworkPassphrase (networkPassphrase : JsValue) : JsValue :=
  if js_truthy networkPassphrase then networkPassphrase
  else coalesce (from_vault "network_passphrase") (coalesce (from_config "STELLAR_NETWORK_PASSPHRASE")
         (JsString (if bool_decide (config "NODE_ENV" = Some "production"%string) then PUBLIC_PASSPHRASE else LOCAL_STANDALONE_PASSPHRASE))).

(** [new rpc.Server(url, { allowHttp })]; [this.server] and [this.rpcUrl] are the state. *)
Record Server := mkServer { server_url : JsValue; allowHttp : bool }.

(** [serverOverride] is the client that a test injects. *)
Definition getServer (serverOverride : option Server) (this : option Server * JsValue) : outcome exn Server * (option Server * JsValue) :=
  match serverOverride, this.1 with
  | Some s, _ => (Ret s, this)
  | None, Some s => (Ret s, this)
  | None, None =>
      let url := getRpcUrlSync this.2 in
      match url with
      | JsString u => let s := mkServer url (startsWith u "http://") in (Ret s, (Some s, url))
      | _ => (Throw (TypeError "this.getRpcUrlSync(...).startsWith is not a function"), (None, url))
      end
  end.

(** Before the secrets are loaded the configuration decides, or the local default. *)
Lemma from_vault_unloaded (key : string) (st : VaultState) :
  vault = Some st → secrets st = None → from_vault key = JsUndefined.
Proof. intros Hv Hs. unfold from_vault, tryReadVaultStellar, VaultService.stellar, VaultService.accessor, VaultService.requireSecrets. by rewrite Hv, Hs. Qed.
End network.

(** A URL that is asked for before the secrets are loaded is kept, whatever Vault says later. *)
Lemma rpc_url_sticky (st st' : VaultState) (config : string → option string) :
  secrets st = None → (∀ s, config "SOROBAN_RPC_URL"%string = Some s → truthy s = true) →
  let first := getRpcUrlSync (Some st) config JsUndefined in
  first = coalesce (from_config config "SOROBAN_RPC_URL") (JsString LOCAL_STANDALONE_RPC_URL) ∧
  getRpcUrlSync (Some st') config first = first.
Proof.
  intros Hs Hc first. assert (first = coalesce (from_config config "SOROBAN_RPC_URL") (JsString LOCAL_STANDALONE_RPC_URL)) as H.
  { unfold first, getRpcUrlSync. cbn [js_truthy]. by rewrite (from_vault_unloaded (Some st) "rpc_url" st eq_refl Hs). }
  split; [done|]. unfold getRpcUrlSync at 1. rewrite H. unfold from_config.
  destruct (config "SOROBAN_RPC_URL"%string) as [s|] eqn:E; cbn; [|done]. by rewrite (Hc s eq_refl).
Qed.

(** The client is built once: later calls use it whatever Vault and the configuration say then,
    and plain HTTP is allowed exactly when its own URL asks for it. *)
Lemma server_kept (vault vault' : option VaultState) (config config' : string → option string) (rpcUrl : JsValue) (s : Server) (this : option Server * JsValue) :
  getServer vault config None (None, rpcUrl) = (Ret s, this) →
  getServer vault' config' None this = (Ret s, this) ∧
  ∃ u, server_url s = JsString u ∧ getRpcUrlSync vault config rpcUrl = JsString u ∧ (allowHttp s = true ↔ startsWith u "http://" = true).
Proof.
  unfold getServer at 1. cbn [fst snd]. destruct (getRpcUrlSync vault config rpcUrl) as [| |b|u|n|n|l|l] eqn:Hu; try done.
  intros [= <- <-]. split; [done|]. by exists u.
Qed.
End SorobanService.

(** ** Examples *)
Module SorobanExamples.
Import SorobanService.

Lemma numeric_code_decides_witness :
  parseContractError "host: Error(Contract, #7) InsufficientFunds" (Some financing_pool)
  = ContractError DuplicateFunding "Contract error #7: host: Error(Contract, #7) InsufficientFunds".
Proof.
  apply (numeric_code_decides "host: " " InsufficientFunds" (Some financing_pool) 7 DuplicateFunding).
  - reflexivity.
  - apply (bool_decide_unpack _). vm_compute. exact I.
Defined.

#[local] Instance toy_keys : Ed25519 := {|
  Keypair := string;
  Keypair_fromSecret := λ s, if String.prefix "S" s then Ret s else Throw (JsError "invalid secret");
  Keypair_publicKey := λ k, k;
  Keypair_sign := λ k data, (k +:+ data)%string;
  Keypair_verify := λ key data signature, Ret (String.eqb signature (key +:+ data)) |}.

(** A server that accepts everything; its state is the list of submitted transactions. *)
#[local] Instance accepting : SorobanRpc (list string) := {|
  Account := unit; Contract := string; ScVal := string; Tx := string;
  Contract_new := λ s, Ret s; Address_fromString := λ s, Ret s; i128 := λ n, Ret (Z_to_string n);
  build := λ _ c m args, (c +:+ "." +:+ m +:+ "(" +:+ join "," args +:+ ")")%string;
  sign := λ k tx, (tx +:+ "!" +:+ k)%string; feeBump := λ k tx, (tx +:+ "+" +:+ k)%string;
  getAccount := λ _, mret tt; simulateTransaction := λ _, mret SimulationSuccess; prepareTransaction := λ tx, mret tx;
  sendTransaction := λ tx w, (Ret (mkSendResult SEND_PENDING "h1" []), w ++ [tx]);
  pollTransaction := λ _, mret (POLL_SUCCESS (Ret tt)); submitted := λ w, w |}.

#[local] Instance accepting_laws : SorobanRpcLaws (list string).
Proof. by split. Qed.

Definition keys_ex : KeyConfig := mkKeyConfig (Some "S1"%string) (Some " S2 "%string) "R"%string.


(** The sponsor secret is malformed: the first call fails, the second is submitted unsponsored. *)
Example sponsor_lost_ex :
  let call := settleInvoice (mkKeyConfig (Some "S1") (Some "oops") "R")%string "C1" "G1" in
  let first := call (mkClients None None, []) in
  (first.1, call first.2) =
  (Throw (JsError "invalid secret"), (Ret "h1", (mkClients (Some "S1") None, ["C1.settle_invoice(G1)!S1"])))%string.
Proof. vm_compute. reflexivity. Qed.
End SorobanExamples.
