(* ===== verification/Trustline.v ===== *)
(** * Trustline checks ([apps/api/src/trustline/trustline.service.ts],
    [apps/api/src/common/errors/trustline.errors.ts], [common/types/error-codes.ts])

    The check of a wallet's trustline before a transaction, and the classification of contract
    errors by their text.  The Stellar service, which is not part of the sources, is a parameter. *)
From S2P Require Import Prelude Js Schema Errors Prisma Interfaces.
Open Scope Z_scope.

(** ** [trustline.errors.ts], [error-codes.ts] *)

Inductive TrustlineErrorType := MISSING_TRUSTLINE | TRUSTLINE_EXCEEDED | INSUFFICIENT_BALANCE | CONTRACT_ERROR.

#[export] Instance TrustlineErrorType_eq : EqDecision TrustlineErrorType.
Proof. solve_decision. Defined.

Definition getErrorCode (t : TrustlineErrorType) : string :=
  match t with
  | MISSING_TRUSTLINE => "TRUSTLINE_MISSING_001"
  | TRUSTLINE_EXCEEDED => "TRUSTLINE_EXCEEDED_002"
  | INSUFFICIENT_BALANCE => "INSUFFICIENT_BALANCE_003"
  | CONTRACT_ERROR => "CONTRACT_ERROR_004"
  end.

Record TrustlineError := mkTrustlineError {
  te_type : TrustlineErrorType;
  te_message : string;
  te_code : string;
  te_details : list (string * string) }.

(** [new TrustlineError(type, message, details)] *)
Definition new_TrustlineError (t : TrustlineErrorType) (msg : string) (details : list (string * string)) : TrustlineError :=
  mkTrustlineError t msg (getErrorCode t) details.

Record ErrorCodeEntry := mkErrorCodeEntry {
  ec_code : string; ec_type : string; ec_userMessage : string; ec_displayMessage : string; ec_severity : string; ec_action : string }.

Definition ErrorCodeMap : list (string * ErrorCodeEntry) := [
  ("TRUSTLINE_MISSING_001", mkErrorCodeEntry "TRUSTLINE_MISSING_001" "TRUSTLINE_MISSING"
     "Trustline not set for this asset. Please add trustline first." "Trustline Missing" "warning" "ADD_TRUSTLINE");
  ("TRUSTLINE_EXCEEDED_002", mkErrorCodeEntry "TRUSTLINE_EXCEEDED_002" "TRUSTLINE_EXCEEDED"
     "Trustline limit exceeded. Please increase your trustline limit." "Trustline Limit Exceeded" "error" "INCREASE_TRUSTLINE");
  ("INSUFFICIENT_BALANCE_003", mkErrorCodeEntry "INSUFFICIENT_BALANCE_003" "INSUFFICIENT_BALANCE"
     "Insufficient balance. Please add more funds." "Insufficient Balance" "error" "ADD_FUNDS");
  ("CONTRACT_ERROR_004", mkErrorCodeEntry "CONTRACT_ERROR_004" "CONTRACT_ERROR"
     "Contract execution failed. Please try again later." "Transaction Failed" "error" "RETRY")]%string.

(** ** The Stellar service *)

Class StellarService (W : Type) := {
  accountExists : string → M exn W bool;
  (** the [limit] of the trustline of a wallet for an asset and its issuer *)
  getTrustline : string → string → string → M exn W (option string);
  getBalance : string → string → string → M exn W (option string) }.

Module TrustlineService.
Section service.
Context {W : Type} {SS : StellarService W}.

(** [{ valid, error? }]: valid when there is no error *)
Notation Validation := (option TrustlineError) (only parsing).

(** [error.message] of a caught value; a thrown value that is not an [Error] has none. *)
Definition caught_message (e : exn) : string := match e with NonError _ => "undefined" | _ => message e end.

Variables walletAddress assetCode assetIssuer amount : string.

(** The balance is checked when it is a non-empty string. *)
Definition check_balance (amountBigInt : Z) : M exn W Validation :=
  balance ← getBalance walletAddress assetCode assetIssuer;
  match balance with
  | Some balance =>
      if truthy balance then
        b ← BigInt balance;
        if b <? amountBigInt then
          mret (Some (new_TrustlineError INSUFFICIENT_BALANCE
            ("Insufficient balance. Available: " +:+ balance +:+ ". Requested: " +:+ amount)%string
            [("walletAddress", walletAddress); ("balance", balance); ("amount", amount)]%string))
        else mret None
      else mret None
  | None => mret None
  end.

Definition check_limit (limit : string) : M exn W Validation :=
  amountBigInt ← BigInt amount;
  limitBigInt ← BigInt limit;
  if limitBigInt <? amountBigInt then
    mret (Some (new_TrustlineError TRUSTLINE_EXCEEDED
      ("Trustline limit exceeded. Current limit: " +:+ limit +:+ ". Requested amount: " +:+ amount)%string
      [("walletAddress", walletAddress); ("assetCode", assetCode); ("amount", amount); ("limit", limit)]%string))
  else check_balance amountBigInt.

Definition validate_body : M exn W Validation :=
  exists_ ← accountExists walletAddress;
  if negb exists_ then
    mret (Some (new_TrustlineError CONTRACT_ERROR "Account not found" [("walletAddress"%string, walletAddress)]))
  else
    trustline ← getTrustline walletAddress assetCode assetIssuer;
    match trustline with
    | None =>
        mret (Some (new_TrustlineError MISSING_TRUSTLINE "Trustline not set for this asset. Please add trustline first."
          [("walletAddress", walletAddress); ("assetCode", assetCode); ("assetIssuer", assetIssuer)]%string))
    | Some limit => check_limit limit
    end.

Definition validateTrustline : M exn W Validation :=
  try_catch validate_body (λ error,
    mret (Some (new_TrustlineError CONTRACT_ERROR
      ("Failed to validate trustline: " +:+ caught_message error)%string [("error"%string, caught_message error)]))).

(** ** [parseContractError(error)]: [error?.message] and [error?.toString()], when they are strings *)
Definition parseContractError (error_message error_toString : option string) : TrustlineErrorType * string :=
  let errorMessage := if truthy_opt error_message then default EmptyString error_message else default EmptyString error_toString in
  let has := includes errorMessage in
  let rest :=
    if has "balance" || has "insufficient" then (INSUFFICIENT_BALANCE, "Insufficient balance for this transaction.")
    else (CONTRACT_ERROR, "Contract error: " +:+ errorMessage) in
  if has "trustline" || has "Trustline" then
    if has "missing" || has "does not exist" then (MISSING_TRUSTLINE, "Trustline missing for this asset. Please add trustline.")
    else if has "limit" || has "exceed" then (TRUSTLINE_EXCEEDED, "Trustline limit exceeded. Please increase your trustline limit.")
    else rest
  else rest.

(** ** Specification *)

(** The verdict on what the Stellar service answered, [None] for valid *)
Definition verdict (exists_ : bool) (limit balance : option string) : option TrustlineErrorType :=
  if negb exists_ then Some CONTRACT_ERROR
  else
    match limit with
    | None => Some MISSING_TRUSTLINE
    | Some limit =>
        match BigInt_of_string amount, BigInt_of_string limit with
        | Some a, Some l =>
            if l <? a then Some TRUSTLINE_EXCEEDED
            else
              match balance with
              | Some balance =>
                  if truthy balance then
                    match BigInt_of_string balance with
                    | Some b => if b <? a then Some INSUFFICIENT_BALANCE else None
                    | None => Some CONTRACT_ERROR
                    end
                  else None
              | None => None
              end
        | _, _ => Some CONTRACT_ERROR
        end
    end.

(** What the three queries answer, each asked in the world that the previous one left *)
Definition answers (w : W) (exists_ : bool) (limit balance : option string) : Prop :=
  ∃ w1 w2 w3, accountExists walletAddress w = (Ret exists_, w1) ∧
    getTrustline walletAddress assetCode assetIssuer w1 = (Ret limit, w2) ∧
    getBalance walletAddress assetCode assetIssuer w2 = (Ret balance, w3).

(** The check never throws; when the Stellar service answers, its verdict is that of
    the answers: account, trustline, limit and balance in this order, with the code and the type of
    the first test that fails, and text that is not an integer counts as a failed contract. *)
Theorem validate_verdict (w : W) (exists_ : bool) (limit balance : option string) :
  answers w exists_ limit balance →
  ∃ error w', validateTrustline w = (Ret error, w') ∧ te_type <$> error = verdict exists_ limit balance ∧
    ∀ e, error = Some e → te_code e = getErrorCode (te_type e).
Proof.
  intros (w1 & w2 & w3 & H1 & H2 & H3).
  unfold validateTrustline, validate_body, check_limit, check_balance, verdict, try_catch, mbind, M_bind, BigInt.
  rewrite H1. destruct exists_; cbn [negb]; [|do 2 eexists; split; [reflexivity|by split; [|intros ? [= <-]]]].
  rewrite H2. destruct limit as [limit|]; [|do 2 eexists; split; [reflexivity|by split; [|intros ? [= <-]]]].
  destruct (BigInt_of_string amount) as [a|]; cbn; [|do 2 eexists; split; [reflexivity|by split; [|intros ? [= <-]]]].
  destruct (BigInt_of_string limit) as [l|]; cbn; [|do 2 eexists; split; [reflexivity|by split; [|intros ? [= <-]]]].
  destruct (l <? a); [do 2 eexists; split; [reflexivity|by split; [|intros ? [= <-]]]|].
  rewrite H3. destruct balance as [balance|]; [|do 2 eexists; split; [reflexivity|done]].
  destruct (truthy balance); [|do 2 eexists; split; [reflexivity|done]].
  destruct (BigInt_of_string balance) as [b|]; cbn; [|do 2 eexists; split; [reflexivity|by split; [|intros ? [= <-]]]].
  destruct (b <? a); do 2 eexists; (split; [reflexivity|by split; [|intros ? [= <-]]]).
Qed.

(** A failing query is reported as a contract error. *)
Lemma validate_total (w : W) : ∃ error w', validateTrustline w = (Ret error, w').
Proof.
  unfold validateTrustline, try_catch. destruct (validate_body w) as [[e|e] w']; [by exists e, w'|]. by do 2 eexists.
Qed.

Lemma code_map_complete (t : TrustlineErrorType) :
  ∃ entry, (getErrorCode t, entry) ∈ ErrorCodeMap ∧ ec_code entry = getErrorCode t.
Proof. destruct t; eexists; (split; [repeat (apply list_elem_of_here || apply list_elem_of_further)|reflexivity]). Qed.
End service.
End TrustlineService.

Module TrustlineExamples.
#[local] Instance toy_stellar : StellarService unit := {|
  accountExists := λ _, mret true;
  getTrustline := λ _ _ _, mret (Some "1000"%string);
  getBalance := λ _ _ _, mret (Some "0"%string) |}.

(** The unit test of the service calls this case valid: the balance is zero. *)
Lemma validate_verdict_witness :
  ∃ error w', TrustlineService.validateTrustline (W:=unit) "G" "USDC" "I" "100" tt = (Ret error, w') ∧
    te_type <$> error = Some INSUFFICIENT_BALANCE ∧ ∀ e, error = Some e → te_code e = getErrorCode (te_type e).
Proof.
  apply (TrustlineService.validate_verdict "G" "USDC" "I" "100" tt true (Some "1000"%string) (Some "0"%string)).
  exists tt, tt, tt. split; [reflexivity|]. split; reflexivity.
Defined.

(** The amounts of the Stellar network have seven decimals, and are not what [BigInt] reads. *)
Example decimal_amount :
  te_type <$> match (TrustlineService.validateTrustline (W:=unit) "G" "USDC" "I" "100.0000000" tt).1 with
              | Ret error => error | Throw _ => None end = Some CONTRACT_ERROR.
Proof. vm_compute. reflexivity. Qed.
End TrustlineExamples.
