(* ===== verification/PriceFeed.v ===== *)
(** * The oracle price feed ([oracle-price-feed/oracle-price-feed.service.ts])

    The configured feeds, their timers, and the update that fetches a (simulated) market price
    and submits it through the Soroban service.  Timers, randomness and JSON are parameters. *)
From S2P Require Import Prelude Js Double Schema Errors Prisma Soroban.
From Stdlib Require Import SpecFloat.
Open Scope Z_scope.

Record PriceFeedConfig := mkPriceFeedConfig {
  feedId : string;
  pf_name : string;
  assetPair : string;
  oracleContractId : string;
  submitterWallet : string;
  submitterSecretKey : string;
  updateIntervalMs : Z;
  pf_enabled : bool }.

(** [Partial<PriceFeedConfig>]: what one entry of the configuration says *)
Record PartialConfig := mkPartialConfig {
  p_feedId : option string;
  p_name : option string;
  p_assetPair : option string;
  p_oracleContractId : option string;
  p_submitterWallet : option string;
  p_submitterSecretKey : option string;
  p_updateIntervalMs : option Z;
  p_enabled : option bool }.

Record PriceUpdateResult := mkPriceUpdateResult {
  success : bool;
  txHash : option string;
  error : option string;
  submittedPrice : option double;
  timestamp : Z }.

(** [JSON.parse] of the configuration, as an array of partial entries ([None] for [null]) *)
Class FeedConfigParser := { parse_feeds : string → outcome exn (list (option PartialConfig)) }.

(** [Math.random()] *)
Class JsRandom (W : Type) := { Math_random : W → double * W }.

(** [setInterval], [clearInterval] and the intervals that are running *)
Class Intervals (W : Type) := {
  interval : Type;
  interval_eq :: EqDecision interval;
  set_interval : PriceFeedConfig → W → interval * W;
  clear_interval : interval → W → W;
  running : W → list interval }.

Class IntervalsLaws (W : Type) {IV : Intervals W} {JR : JsRandom W} {CL : Clock W} := {
  set_interval_law : ∀ feed w, let '(i, w') := set_interval feed w in i ∉ running w ∧ running w' = running w ++ [i];
  clear_interval_law : ∀ i w, running (clear_interval i w) = List.filter (λ j, negb (bool_decide (j = i))) (running w);
  random_law : ∀ w, running (Math_random w).2 = running w;
  clock_running_law : ∀ w, running (clock w).2 = running w }.

Module OraclePriceFeedService.

(** ** The simulated market price *)

Definition simulatedPrices : list (string * double) :=
  [("XLM/USDC", Double.of_string "0.12"); ("USDC/AQUA", Double.of_string "1.05"); ("XLM/AQUA", Double.of_string "0.10")]%string.

(** The properties that every object has: a function or an object, which is not a number *)
Definition inherited : list string :=
  ["constructor"; "__proto__"; "__defineGetter__"; "__defineSetter__"; "__lookupGetter__"; "__lookupSetter__"; "hasOwnProperty";
   "isPrototypeOf"; "propertyIsEnumerable"; "toLocaleString"; "toString"; "valueOf"]%string.

(** [simulatedPrices[assetPair] || 1.0], as a number *)
Definition basePrice (assetPair : string) : double :=
  match List.find (λ p, String.eqb p.1 assetPair) simulatedPrices with
  | Some (_, price) => price
  | None => if existsb (String.eqb assetPair) inherited then S754_nan else Double.of_Z 1
  end.

Section service.
Context {W : Type} {FP : FeedConfigParser} {JR : JsRandom W} {IV : Intervals W} {CL : Clock W}.
Variable config : string → option string.

(** [feeds] and [updateTimers], a [Map] in insertion order *)
Record Feeds := mkFeeds { feeds : list PriceFeedConfig; updateTimers : list (string * interval (W:=W)) }.

Notation FM := (M exn (Feeds * W)).

Definition getSimulatedPrice (assetPair : string) : M exn W double := λ w,
  let '(r, w') := Math_random w in
  let variation := Double.add (Double.of_Z 1) (Double.mul (Double.sub r (Double.of_string "0.5")) (Double.of_string "0.002")) in
  (Ret (Double.floor (Double.mul (Double.mul (basePrice assetPair) variation) (Double.of_Z 10000))), w').

Definition fetchMarketPrice (assetPair : string) : M exn W (option double) :=
  try_catch (price ← getSimulatedPrice assetPair; mret (Some price)) (λ _, mret None).

(** [new Date()] *)
Definition new_Date : M exn W Z := λ w, let '(now, w') := clock w in (Ret now, w').

Definition failure (error : string) : M exn W PriceUpdateResult :=
  now ← new_Date; mret (mkPriceUpdateResult false None (Some error) None now).

Definition submitPriceUpdate (feed : PriceFeedConfig) : M exn W PriceUpdateResult :=
  try_catch
    (marketPrice ← fetchMarketPrice (assetPair feed);
     match marketPrice with
     | None => failure "Invalid market price fetched: null"
     | Some price =>
         if Double.leb price (Double.of_Z 0) then failure ("Invalid market price fetched: " +:+ Double.to_string price)%string
         else
           hash ← SorobanService.submitOraclePrice;
           now ← new_Date;
           mret (mkPriceUpdateResult true (Some hash) None (Some price) now)
     end)
    (λ err, failure (message err)).

(** ** Configuration *)

(** [s || t] *)
Definition str_or (s : option string) (t : string) : string := if truthy_opt s then default EmptyString s else t.

(** One round of the loop: [None] for an entry that is skipped. *)
Definition load_one (c : PartialConfig) : option PriceFeedConfig :=
  if negb (truthy_opt (p_feedId c)) || negb (truthy_opt (p_assetPair c)) || negb (truthy_opt (p_oracleContractId c)) then None
  else
    let id := default EmptyString (p_feedId c) in
    Some {|
      feedId := id;
      pf_name := str_or (p_name c) id;
      assetPair := default EmptyString (p_assetPair c);
      oracleContractId := default EmptyString (p_oracleContractId c);
      submitterWallet := str_or (p_submitterWallet c) (default EmptyString (config "ORACLE_SUBMITTER_WALLET"));
      submitterSecretKey := str_or (p_submitterSecretKey c) (default EmptyString (config "ORACLE_SUBMITTER_SECRET_KEY"));
      updateIntervalMs := match p_updateIntervalMs c with Some n => if n =? 0 then 60000 else n | None => 60000 end;
      pf_enabled := default true (p_enabled c) |}.

(** The feeds pushed by the loop, which ends at a [null] entry with a [TypeError] that is caught. *)
Fixpoint load_all (configs : list (option PartialConfig)) : list PriceFeedConfig :=
  match configs with
  | [] => []
  | None :: _ => []
  | Some c :: configs' =>
      match load_one c with Some feed => feed :: load_all configs' | None => load_all configs' end
  end.

Definition loadFeedConfigs (old : list PriceFeedConfig) : list PriceFeedConfig :=
  match parse_feeds (default "[]"%string (config "ORACLE_PRICE_FEEDS")) with
  | Throw _ => old
  | Ret configs => old ++ load_all configs
  end.

(** ** Life cycle *)

(** [map.set(key, value)] *)
Fixpoint map_set {A : Type} (key : string) (v : A) (l : list (string * A)) : list (string * A) :=
  match l with
  | [] => [(key, v)]
  | (k, x) :: l' => if String.eqb k key then (k, v) :: l' else (k, x) :: map_set key v l'
  end.

(** Starting one feed; its first update is not awaited, and cannot reject. *)
Definition start_feed (feed : PriceFeedConfig) (timers : list (string * interval)) (w : W) : list (string * interval) * W :=
  if negb (pf_enabled feed) then (timers, w)
  else
    let '(timer, w1) := set_interval feed w in
    (map_set (feedId feed) timer timers, (submitPriceUpdate feed w1).2).

Fixpoint start_feeds (l : list PriceFeedConfig) (timers : list (string * interval)) (w : W) : list (string * interval) * W :=
  match l with
  | [] => (timers, w)
  | feed :: l' => let '(timers', w') := start_feed feed timers w in start_feeds l' timers' w'
  end.

Definition onModuleInit : FM unit := λ '(s, w),
  let fs := loadFeedConfigs (feeds s) in
  let '(timers, w') := start_feeds fs (updateTimers s) w in
  (Ret tt, (mkFeeds fs timers, w')).

Definition onModuleDestroy : FM unit := λ '(s, w),
  (Ret tt, (mkFeeds (feeds s) [], fold_left (λ w '(_, timer), clear_interval timer w) (updateTimers s) w)).

(** ** Accessors *)

Definition getFeeds (s : Feeds) : list PriceFeedConfig := feeds s.

Definition getFeed (id : string) (s : Feeds) : option PriceFeedConfig := List.find (λ f, String.eqb (feedId f) id) (feeds s).

Definition triggerUpdate (id : string) : FM PriceUpdateResult := λ '(s, w),
  match getFeed id s with
  | None => let '(r, w') := failure ("Feed " +:+ id +:+ " not found")%string w in (r, (s, w'))
  | Some feed => let '(r, w') := submitPriceUpdate feed w in (r, (s, w'))
  end.

(** ** Updates *)

(** A result that reports a failure and no price *)
Definition failed (r : outcome exn PriceUpdateResult) : Prop :=
  ∃ err now, r = Ret (mkPriceUpdateResult false None (Some err) None now).

Lemma failure_failed (err : string) (w : W) : failed (failure err w).1.
Proof. unfold failure, new_Date, mbind, M_bind. destruct (clock w) as [now w']. by exists err, now. Qed.

Lemma submit_failed (feed : PriceFeedConfig) (w : W) : failed (submitPriceUpdate feed w).1.
Proof.
  unfold submitPriceUpdate, fetchMarketPrice, getSimulatedPrice, try_catch, mbind, M_bind.
  destruct (Math_random w) as [r w']. cbn -[Double.leb Double.mul Double.floor Double.of_string Double.sub Double.add Double.of_Z].
  set (price := Double.floor _). destruct (Double.leb price (Double.of_Z 0)).
  - pose proof (failure_failed ("Invalid market price fetched: " +:+ Double.to_string price) w') as H. unfold failed in *.
    destruct (failure _ w') as [[r'|e] w1]; [done|]. destruct H as (err & now & H). done.
  - apply failure_failed.
Qed.

(** The Soroban service does not implement the submission of a price: whatever
    the feed, the market and the random numbers, every update, and every triggered one, reports a
    failure, without a transaction and without a price. *)
Theorem price_never_published (id : string) (feed : PriceFeedConfig) (s : Feeds) (w : W) :
  failed (submitPriceUpdate feed w).1 ∧ failed (triggerUpdate id (s, w)).1 ∧ (triggerUpdate id (s, w)).2.1 = s.
Proof.
  split; [apply submit_failed|]. unfold triggerUpdate. destruct (getFeed id s) as [f|].
  - pose proof (submit_failed f w) as H. by destruct (submitPriceUpdate f w).
  - pose proof (failure_failed ("Feed " +:+ id +:+ " not found") w) as H. by destruct (failure _ w).
Qed.

(** ** Feeds *)

(** What the loader guarantees of a feed *)
Definition feed_ok (f : PriceFeedConfig) : Prop :=
  truthy (feedId f) = true ∧ truthy (pf_name f) = true ∧ truthy (assetPair f) = true ∧
  truthy (oracleContractId f) = true ∧ updateIntervalMs f ≠ 0.

Lemma load_one_ok (c : PartialConfig) (f : PriceFeedConfig) : load_one c = Some f → feed_ok f.
Proof.
  unfold load_one. destruct (_ || _) eqn:E; [done|]. intros [= <-]. bool_to_prop.
  destruct (p_feedId c) as [id|]; [|done]. destruct (p_assetPair c); [|done]. destruct (p_oracleContractId c); [|done].
  unfold feed_ok, str_or. cbn in *. split_and!; [done| |done|done|].
  - by destruct (truthy_opt (p_name c)) eqn:En; [destruct (p_name c)|].
  - destruct (p_updateIntervalMs c) as [n|]; [|done]. by destruct (Z.eqb_spec n 0).
Qed.

Lemma loadFeedConfigs_ok (old : list PriceFeedConfig) : Forall feed_ok old → Forall feed_ok (loadFeedConfigs old).
Proof.
  intros H. unfold loadFeedConfigs. destruct (parse_feeds _) as [configs|]; [|done]. apply Forall_app. split; [done|].
  induction configs as [|[c|] configs IH]; cbn; [constructor| |constructor].
  destruct (load_one c) as [f|] eqn:E; [|done]. constructor; [by eapply load_one_ok|done].
Qed.

(** ** Timers *)

Context {IL : IntervalsLaws W}.

Lemma running_submit (feed : PriceFeedConfig) (w : W) : running (submitPriceUpdate feed w).2 = running w.
Proof.
  assert (Hf : ∀ err w, running (failure err w).2 = running w).
  { intros err w1. unfold failure, new_Date, mbind, M_bind. pose proof (clock_running_law w1). by destruct (clock w1). }
  unfold submitPriceUpdate, fetchMarketPrice, getSimulatedPrice, try_catch, mbind, M_bind.
  pose proof (random_law w) as Hr. destruct (Math_random w) as [r w'].
  cbn -[Double.leb Double.mul Double.floor Double.of_string Double.sub Double.add Double.of_Z] in *.
  set (price := Double.floor _). destruct (Double.leb price (Double.of_Z 0)).
  - pose proof (Hf ("Invalid market price fetched: " +:+ Double.to_string price)%string w') as H1.
    destruct (failure _ w') as [[r'|e] w1]; cbn in *; [congruence|]. rewrite Hf. congruence.
  - by rewrite Hf.
Qed.

Lemma map_set_fresh {A : Type} (key : string) (v : A) (l : list (string * A)) :
  key ∉ l.*1 → map_set key v l = l ++ [(key, v)].
Proof.
  induction l as [|[k x] l IH]; cbn; [done|]. intros H. destruct (String.eqb_spec k key) as [->|_]; [set_solver|].
  by rewrite IH by set_solver.
Qed.

(** The identifiers of the feeds that are started *)
Definition started (l : list PriceFeedConfig) : list string := map feedId (List.filter pf_enabled l).

Lemma start_feeds_running (l : list PriceFeedConfig) (base : list interval) (timers timers' : list (string * interval)) (w w' : W) :
  NoDup (timers.*1 ++ started l) → running w = base ++ timers.*2 → (∀ i, i ∈ timers.*2 → i ∉ base) →
  start_feeds l timers w = (timers', w') →
  running w' = base ++ timers'.*2 ∧ ∀ i, i ∈ timers'.*2 → i ∉ base.
Proof.
  revert timers w. induction l as [|f l IH]; intros timers w Hnd Hrun Hfresh H; cbn in H; [by simplify_eq|].
  unfold start_feed in H. destruct (pf_enabled f) eqn:Ef; cbn in H.
  - unfold started in Hnd. cbn [List.filter] in Hnd. rewrite Ef in Hnd. cbn [map] in Hnd.
    pose proof (set_interval_law f w) as Hset. destruct (set_interval f w) as [i w1]. destruct Hset as [Hi Hrun1].
    rewrite map_set_fresh in H.
    2: { apply NoDup_app in Hnd as (_ & Hdis & _). intros Hin. apply (Hdis _ Hin). set_solver. }
    apply IH in H; [done|..].
    + rewrite fmap_app. cbn. by rewrite <- app_assoc.
    + rewrite running_submit, Hrun1, Hrun, fmap_app. cbn. by rewrite <- app_assoc.
    + intros j. rewrite fmap_app, elem_of_app. intros [Hj|Hj]; [by apply Hfresh|]. apply list_elem_of_singleton in Hj as ->.
      rewrite Hrun in Hi. set_solver.
  - apply IH in H; [done|..|done|done]. unfold started in Hnd |- *. cbn [List.filter] in Hnd. by rewrite Ef in Hnd.
Qed.

Lemma clear_all_running (timers : list (string * interval)) (w : W) :
  running (fold_left (λ w '(_, timer), clear_interval timer w) timers w)
  = List.filter (λ j, negb (bool_decide (j ∈ timers.*2))) (running w).
Proof.
  revert w. induction timers as [|[k i] timers IH]; intros w; cbn [fold_left].
  - symmetry. rewrite (List.filter_ext_in _ (λ _, true)), List.filter_true; [done|]. intros j _.
    by rewrite bool_decide_false by apply not_elem_of_nil.
  - rewrite IH, clear_interval_law. induction (running w) as [|j r IHr]; [done|]. cbn [List.filter].
    destruct (decide (j = i)) as [->|Hne].
    + rewrite (bool_decide_true (i = i)), (bool_decide_true (i ∈ _)) by (done || (cbn; set_solver)). cbn. exact IHr.
    + rewrite (bool_decide_false (j = i)) by done. cbn [negb List.filter]. rewrite IHr.
      rewrite (bool_decide_ext (j ∈ ((k, i) :: timers).*2) (j ∈ timers.*2)); [done|]. cbn. set_solver.
Qed.

(** When the enabled feeds have different identifiers, stopping the service
    leaves exactly the intervals that were running before it was started. *)
Theorem destroy_stops_timers (w : W) :
  let feeds0 := loadFeedConfigs [] in
  NoDup (started feeds0) →
  let '(_, s1) := onModuleInit (mkFeeds [] [], w) in
  let '(_, (s2, w2)) := onModuleDestroy s1 in
  updateTimers s2 = [] ∧ feeds s2 = feeds0 ∧ running w2 = running w.
Proof.
  intros feeds0 Hnd. unfold onModuleInit, onModuleDestroy. cbn [feeds updateTimers]. fold feeds0.
  destruct (start_feeds feeds0 [] w) as [timers w1] eqn:E.
  eapply (start_feeds_running _ (running w)) in E as [Hrun Hfresh]; [|done|by rewrite app_nil_r|set_solver].
  cbn [updateTimers feeds]. split_and!; [done..|]. rewrite clear_all_running, Hrun, List.filter_app.
  rewrite (List.filter_ext_in _ (λ _, true) (running w)), List.filter_true.
  2: { intros j Hj. rewrite bool_decide_false; [done|]. intros Hin. apply (Hfresh j Hin). by apply list_elem_of_In. }
  rewrite (List.filter_ext_in _ (λ _, false) timers.*2), List.filter_false; [by rewrite app_nil_r|].
  intros j Hj. rewrite bool_decide_true; [done|]. by apply list_elem_of_In.
Qed.
End service.
End OraclePriceFeedService.

(** ** Concrete runs *)
Module PriceFeedExamples.
Import OraclePriceFeedService.

Definition entry (id : string) : option PartialConfig :=
  Some (mkPartialConfig (Some id) None (Some "XLM/USDC"%string) (Some "C1"%string) None None None None).

(** The configuration is a list of identifiers, separated by commas. *)
#[local] Instance toy_parser : FeedConfigParser := {| parse_feeds := λ s, Ret (map entry (split "," s)) |}.

(** The world is the last identifier given out and the intervals that run. *)
Definition World : Type := (Z * list Z)%type.
#[local] Instance toy_random : JsRandom World := {| Math_random := λ w, (Double.of_string "0.25", w) |}.
#[local] Instance toy_clock : Clock World := {| clock := λ w, (1000, w) |}.
#[local] Instance toy_intervals : Intervals World := {|
  interval := Z;
  set_interval := λ _ w, let i := 1 + foldr Z.max w.1 w.2 in (i, (i, w.2 ++ [i]));
  clear_interval := λ i w, (w.1, List.filter (λ j, negb (bool_decide (j = i))) w.2);
  running := snd |}.

#[local] Instance toy_laws : IntervalsLaws World.
Proof.
  split; [|done..]. intros feed [n l]. cbn. split; [|done].
  assert (∀ j, j ∈ l → j <= foldr Z.max n l) as Hmax.
  { intros j. induction l as [|x l IH]; cbn; [by intros ?%elem_of_nil|].
    intros [->|Hj]%elem_of_cons; [lia|]. specialize (IH Hj). lia. }
  intros H. specialize (Hmax _ H). lia.
Qed.

Definition feeds_config (ids key : string) : option string := if String.eqb key "ORACLE_PRICE_FEEDS" then Some ids else None.

Lemma destroy_stops_timers_witness :
  let '(_, s1) := onModuleInit (W:=World) (feeds_config "a,b") (mkFeeds [] [], (0, [7])) in
  let '(_, (s2, w2)) := onModuleDestroy s1 in
  updateTimers s2 = [] ∧ feeds s2 = loadFeedConfigs (feeds_config "a,b") [] ∧ running (W:=World) w2 = [7].
Proof.
  refine (destroy_stops_timers (W:=World) (feeds_config "a,b") (0, [7]) _).
  apply (bool_decide_unpack _). vm_compute. exact I.
Defined.

(** Two feeds with one identifier: the first timer is overwritten in the map and never cleared. *)
Example duplicate_feed_keeps_running :
  let '(_, s1) := onModuleInit (W:=World) (feeds_config "a,a") (mkFeeds [] [], (0, [])) in
  running (W:=World) (onModuleDestroy s1).2.2 = [1].
Proof. vm_compute. reflexivity. Qed.
End PriceFeedExamples.
