(* ===== verification/Financing.v ===== *)
(** * Funding an invoice ([financing-pool/financing-pool.service.ts],
    [financing-pool/financing-pool.controller.ts])

    The guards, the contract call and the PENDING to FUNDED transition with its audit event.
    What the schema does not have is a parameter: [buyerId] is what reading the property
    [buyerId] of an invoice row gives, and [columns_known] tells whether [fundedAt] and
    [fundedTxHash] are columns (the client rejects an update that names an unknown one). *)
From S2P Require Import Prelude Js Schema Errors Prisma PrismaService Interfaces Auth Invoices Oracle Soroban.
Open Scope Z_scope.

Module FinancingPoolService.

(** [discountRate] is taken in whole basis points, the unit in which the fallback strategy counts
    (the DTO documents a fraction). *)
Record FundInvoiceDto := mkDto { dto_invoiceId : string; dto_amount : JsNumber; dto_discountRate : Z }.

(** The body that the endpoint takes: the [FundInvoiceDto] that [dto/index.ts] exports. *)
Record FundInvoiceRequest := mkRequest { req_invoiceId : string }.

Record FundResponseDto := mkResponse { success : bool; invoiceId : string; txHash : string; response_message : string; fundedAt : Z }.

(** The injected fallback strategy: its configuration and state. *)
Record Fallback := mkFallback {
  fallback_config : OracleTypes.OracleMonitorConfig;
  fallback_state : option FallbackStrategyService.FallbackState }.

(** [BigInt(n)] of a number *)
Definition BigInt_of_number (n : JsNumber) : outcome exn Z :=
  match n with
  | Finite num den => if num mod Z.pos den =? 0 then Ret (num / Z.pos den)
                      else Throw (JsError "The number cannot be converted to a BigInt because it is not an integer")
  | _ => Throw (JsError "The number cannot be converted to a BigInt because it is not an integer")
  end.

Section service.
Context {W : Type} `{!Prisma W} `{!Clock W} `{!Hrtime W}.
Variable h : PrismaService.handle.
Variable fallbackStrategy : option Fallback.
(** [this.soroban.fundInvoice({ invoiceContractId, investorWallet, amount })] *)
Variable soroban_fundInvoice : string → string → JsNumber → M exn W string.
Variable buyerId : Invoice → option string.
Variable columns_known : bool.

(** Reading a property of an [undefined] argument. *)
Definition deref {A : Type} (o : option A) : M exn W A :=
  match o with
  | Some a => mret a
  | None => throw (TypeError "Cannot read properties of undefined")
  end.

Definition blocked : bool :=
  match fallbackStrategy with
  | Some f => FallbackStrategyService.shouldBlockFunding (fallback_state f)
  | None => false
  end.

(** [findUnique({ where: { id: Number(dto.invoiceId) } })]; the client rejects an identifier
    that is not a 32-bit integer (those are exact doubles). *)
Definition Int_of_number (n : JsNumber) : option Z :=
  match n with
  | Finite num den =>
      if (num mod Z.pos den =? 0) && (- 2 ^ 31 <=? num / Z.pos den) && (num / Z.pos den <? 2 ^ 31)
      then Some (num / Z.pos den) else None
  | _ => None
  end.

Definition find_invoice (id : string) : M exn W (option Invoice) :=
  PrismaService.via h PrismaService.m_invoice
    (match Int_of_number (Number_of_string id) with
     | Some n => find_unique (λ i, inv_id i =? n)
     | None => throw (PrismaValidationError "Invalid value for argument id")
     end).

(** Steps 2 to 5 on the invoice. *)
Definition check (userId : option string) (dto : FundInvoiceDto) (invoice : Invoice) : outcome exn Z :=
  if negb (bool_decide (inv_status invoice = PENDING))
  then Throw (ContractError DuplicateFunding "Invoice has already been funded")
  else if negb (bool_decide (buyerId invoice = userId))
  then Throw (ForbiddenException "Only the buyer can fund this invoice")
  else if negb (bool_decide (inv_status invoice = PENDING))
  then Throw (BadRequestException "Invoice must be verified before funding")
  else match BigInt_of_number (dto_amount dto) with
       | Throw e => Throw e
       | Ret amount => if inv_faceValue invoice <? amount
                       then Throw (ContractError InsufficientFunds "Funding amount exceeds invoice value")
                       else Ret amount
       end.

(** Step 6 *)
Definition effectiveDiscountRate (dto : FundInvoiceDto) : Z :=
  match fallbackStrategy with
  | Some f => if bool_decide (FallbackStrategyService.getActiveMode (fallback_state f) = OracleTypes.last_known_good)
              then FallbackStrategyService.calculateEffectiveDiscountBps (fallback_config f) (fallback_state f) (dto_discountRate dto)
              else dto_discountRate dto
  | None => dto_discountRate dto
  end.

(** Step 7: the errors of the contract call. *)
Definition on_chain (invoice : Invoice) (investorWallet : string) (dto : FundInvoiceDto) : M exn W string :=
  try_catch (soroban_fundInvoice (Z_to_string (inv_onchainId invoice)) investorWallet (dto_amount dto))
    (λ error,
     if includes (message error) "revert" then throw (BadRequestException ("Contract reverted: " +:+ message error)%string)
     else throw (SorobanService.parseContractError (message error) None)).

Definition mark_funded (investorWallet : string) (amount discount : Z) (g : gen) (i : Invoice) : Invoice :=
  {| inv_id := inv_id i; inv_onchainId := inv_onchainId i; inv_status := FUNDED;
     inv_faceValue := inv_faceValue i; inv_farmer := inv_farmer i; inv_investor := inv_investor i;
     inv_funder := Some investorWallet; inv_discountPercentage := Some discount;
     inv_settledLedger := inv_settledLedger i; inv_settledAt := inv_settledAt i;
     inv_fundedAmount := Some amount; inv_repaidAmount := inv_repaidAmount i;
     inv_assetCode := inv_assetCode i; inv_createdAt := inv_createdAt i; inv_updatedAt := g_now g |}.

Definition funded_params (invoice : Invoice) (userId : option string) (txHash : string)
    : InvoiceEventService.RecordInvoiceEventParams :=
  InvoiceEventService.mkParams (inv_onchainId invoice) (Some PENDING) FUNDED (default "undefined"%string userId) (Some txHash).

(** Step 8: the callback of [$transaction]; [now] is [fundedAt], which the row has when the column is
    known. *)
Definition fund_tx (invoice : Invoice) (userId : option string) (investorWallet : string) (amount discount : Z)
    (txHash : string) : M exn W (Invoice * Z) :=
  now ← date_now;
  updated ← (if columns_known
             then update (λ i, inv_id i =? inv_id invoice) (mark_funded investorWallet amount discount)
             else throw (PrismaValidationError "Unknown argument fundedAt"));
  _ ← InvoiceEventService.appendInvoiceEvent (funded_params invoice userId txHash);
  mret (updated, now).

Definition fundInvoice (userId : option string) (investorWallet : string) (dto : option FundInvoiceDto) : M exn W FundResponseDto :=
  if blocked then
    _ ← deref dto;
    throw (ServiceUnavailableException "New fundings are temporarily halted due to oracle data staleness. Please retry after oracle feeds recover.")
  else
    dto ← deref dto;
    found ← find_invoice (dto_invoiceId dto);
    match found with
    | None => throw (NotFoundException ("Invoice " +:+ dto_invoiceId dto +:+ " not found")%string)
    | Some invoice =>
        amount ← AccessGuard.of_outcome (check userId dto invoice);
        let discount := effectiveDiscountRate dto in
        txHash ← on_chain invoice investorWallet dto;
        '(updated, now) ← PrismaService.via h PrismaService.m_transaction
          (transaction (fund_tx invoice userId investorWallet amount discount txHash));
        mret (mkResponse true (Z_to_string (inv_id updated)) (SorobanService.or_else txHash "unknown")
                "Invoice funded successfully" now)
    end.

(** [FinancingPoolController.fundInvoice]: the service is called with two arguments, the second
    of which is the invoice id. *)
Definition controller_fundInvoice (userId : option string) (request : FundInvoiceRequest) : M exn W FundResponseDto :=
  fundInvoice userId (req_invoiceId request) None.

(** ** Specification *)

(** The database after the funding of the invoice [i]. *)
Definition funded (i : Invoice) (userId : option string) (investorWallet : string) (amount discount : Z)
    (txHash : string) (d d' : db) : Prop :=
  ∃ g nanos g2,
    d' = set_rows (rows d ++ [InvoiceEventService.new_event (funded_params i userId txHash) nanos g2])
           (set_rows (map_if (λ x, inv_id x =? inv_id i) (mark_funded investorWallet amount discount g) (rows d)) d).

Context `{!PrismaLaws W} `{!ClockLaws W} `{!HrtimeLaws W}.

Lemma check_ok (userId : option string) (dto : FundInvoiceDto) (i : Invoice) (amount : Z) :
  check userId dto i = Ret amount →
  inv_status i = PENDING ∧ buyerId i = userId ∧ BigInt_of_number (dto_amount dto) = Ret amount ∧ amount <= inv_faceValue i.
Proof.
  unfold check. case_bool_decide as H1; [|done]. case_bool_decide as H2; [|done]. cbn.
  destruct (BigInt_of_number _) as [n|]; [|done]. destruct (Z.ltb_spec (inv_faceValue i) n); [done|]. by intros [= <-].
Qed.

Lemma wp_fund_tx (i : Invoice) (userId : option string) (investorWallet : string) (amount discount : Z) (txHash : string)
    (Φ : outcome exn (Invoice * Z) → W → Prop) (w : W) :
  (∀ x t w', columns_known = true → funded i userId investorWallet amount discount txHash (tables w) (tables w') →
     inv_id x = inv_id i → Φ (Ret (x, t)) w') →
  (∀ e w', Φ (Throw e) w') → wp (fund_tx i userId investorWallet amount discount txHash) Φ w.
Proof.
  intros Hok Hno. unfold fund_tx. wp_step. apply wp_date_now. intros t w1 [H1 _]. apply wp_bind.
  destruct columns_known eqn:Hcol; [|apply wp_throw, Hno]. apply wp_update; [|intros; apply Hno].
  intros g r w2 _ Hr [H2 _]. apply wp_bind, InvoiceEventService.wp_appendInvoiceEvent; [|intros; apply Hno].
  intros ms n g2 w3 _ [H3 _]. apply wp_ret, Hok; [done| |cbn; by apply Z.eqb_eq].
  exists g, (ms * 1000000 + n), g2. by rewrite H3, H2, H1.
Qed.

Section atomicity.
(** The contract call runs on another system. *)
Hypothesis chain_elsewhere : ∀ id wallet amount w, tables (soroban_fundInvoice id wallet amount w).2 = tables w.

Lemma fund_spec (userId : option string) (investorWallet : string) (dto : FundInvoiceDto) (w : W) :
  wp (fundInvoice userId investorWallet (Some dto)) (λ r w',
    (tables w' = tables w ∧ ∃ e, r = Throw e) ∨
    (blocked = false ∧ columns_known = true ∧ ∃ i amount hash w1 w2 response,
       i ∈ rows (tables w) ∧ inv_status i = PENDING ∧ buyerId i = userId ∧
       BigInt_of_number (dto_amount dto) = Ret amount ∧ amount <= inv_faceValue i ∧
       soroban_fundInvoice (Z_to_string (inv_onchainId i)) investorWallet (dto_amount dto) w1 = (Ret hash, w2) ∧
       funded i userId investorWallet amount (effectiveDiscountRate dto) hash (tables w) (tables w') ∧
       r = Ret response ∧ invoiceId response = Z_to_string (inv_id i) ∧
       txHash response = SorobanService.or_else hash "unknown")) w.
Proof.
  unfold fundInvoice. destruct blocked; [apply wp_bind, wp_ret, wp_throw; eauto|].
  apply wp_bind, wp_ret, wp_bind. unfold find_invoice, PrismaService.via at 1.
  case_bool_decide; [|apply wp_throw; eauto]. destruct (Int_of_number _); [|apply wp_throw; eauto].
  apply wp_find_unique; [|intros w1 [H1 _] _; apply wp_throw; eauto|intros e w1 [H1 _]; left; eauto].
  intros i w1 [H1 _] Hin Hid. apply wp_bind. destruct (check userId dto i) as [amount|e] eqn:Hc;
    cbn [AccessGuard.of_outcome]; [apply wp_ret|apply wp_throw; eauto]. cbv zeta.
  apply check_ok in Hc as (Hp & Hb & Ha & Hle). apply wp_bind. unfold on_chain. apply wp_try.
  pose proof (chain_elsewhere (Z_to_string (inv_onchainId i)) investorWallet (dto_amount dto) w1) as Hchain.
  unfold wp at 1. destruct (soroban_fundInvoice _ _ _ w1) as [[hash|e] w2] eqn:Esor; cbn in Hchain |- *.
  2: { destruct (includes _ _); apply wp_throw; left; (split; [congruence|eauto]). }
  apply wp_bind. unfold PrismaService.via. case_bool_decide; [|apply wp_throw; left; split; [congruence|eauto]].
  apply wp_transaction.
  - intros e w3 [H3 _]. left. split; [congruence|eauto].
  - intros w0 [Hb0 _]. apply wp_fund_tx.
    + intros x t w3 Hcol Hf Hx. rewrite Hb0, Hchain, H1 in Hf. split.
      * intros w4 [H4 _]. apply wp_ret. right. split; [done|]. split; [done|].
        exists i, amount, hash, w1, w2. eexists. rewrite H4. do 7 (split; [done|]). split; [done|]. cbn. by rewrite Hx.
      * intros e w4 H4 _. left. split; [congruence|eauto].
    + intros e w3 w4 H4 _. left. split; [congruence|eauto].
Qed.

(** C6: funding is all or nothing in the database, and only follows a successful contract call: the
    call returns a response exactly when the PENDING invoice of the authorized buyer, at an
    amount within its face value, was funded on chain under the reported hash and the row and
    its PENDING to FUNDED audit event were committed together; in every other case an error is
    thrown and nothing was written. *)
Theorem fund_all_or_nothing (userId : option string) (investorWallet : string) (dto : FundInvoiceDto) (w : W) :
  wp (fundInvoice userId investorWallet (Some dto)) (λ r w',
    (tables w' = tables w ∧ ∃ e, r = Throw e) ∨
    (blocked = false ∧ columns_known = true ∧ ∃ i amount hash w1 w2 response,
       i ∈ rows (tables w) ∧ inv_status i = PENDING ∧ buyerId i = userId ∧
       BigInt_of_number (dto_amount dto) = Ret amount ∧ amount <= inv_faceValue i ∧
       soroban_fundInvoice (Z_to_string (inv_onchainId i)) investorWallet (dto_amount dto) w1 = (Ret hash, w2) ∧
       funded i userId investorWallet amount (effectiveDiscountRate dto) hash (tables w) (tables w') ∧
       r = Ret response ∧ invoiceId response = Z_to_string (inv_id i) ∧
       txHash response = SorobanService.or_else hash "unknown")) w.
Proof. apply fund_spec. Qed.

(** With the schema of the repository no invoice can be funded: [buyerId] is undefined, so that
    a caller with an identity is refused; and if it were known, the update would fail after
    the contract call because of the unknown columns. *)
Lemma fund_never_succeeds (userId : option string) (investorWallet : string) (dto : FundInvoiceDto) (w : W) :
  (∀ i, buyerId i = None) ∧ is_Some userId ∨ columns_known = false →
  wp (fundInvoice userId investorWallet (Some dto)) (λ r w', tables w' = tables w ∧ ∃ e, r = Throw e) w.
Proof.
  intros Hschema. eapply wp_mono; [apply fund_spec|]. intros r w' [?|(_ & Hcol & i & amount & hash & w1 & w2 & resp & _ & _ & Hb & _)]; [done|].
  destruct Hschema as [[Hn [u Hu]]|Hf]; [|congruence]. rewrite Hn in Hb. congruence.
Qed.

(** The endpoint passes two arguments: it always throws. *)
Lemma endpoint_throws (userId : option string) (request : FundInvoiceRequest) (w : W) :
  controller_fundInvoice userId request w = (Throw (TypeError "Cannot read properties of undefined"), w).
Proof. unfold controller_fundInvoice, fundInvoice. by destruct blocked. Qed.
End atomicity.
End service.
End FinancingPoolService.

(** ** Examples *)
Module FinancingExamples.
Import FinancingPoolService.

(** Invoice 7 waits for funding and invoice 8 is already funded. *)
Definition invoice_ex (n : Z) (status : InvoiceStatus) : Invoice :=
  mkInvoice n (n + 100) status 1000 "GF" None None None None None None None None 0 0.

Definition world_ex : mem := mkMem (set_rows [invoice_ex 7 PENDING; invoice_ex 8 FUNDED] empty_db) 5000 1 [].

Definition chain_ex (id wallet : string) (amount : JsNumber) : M exn mem string :=
  if String.eqb id "107" then mret ("hash-" +:+ id)%string else throw (JsError "HostError: #3").

Definition fund_ex (id : string) (amount : Z) : outcome exn FundResponseDto * mem :=
  fundInvoice PrismaService.full_surface None chain_ex (λ _, Some "buyer"%string) true (Some "buyer"%string) "GINV"
    (Some (mkDto id (Finite amount 1) 150)) world_ex.

Lemma fund_all_or_nothing_witness :
  (fund_ex "7" 900).1 = Ret (mkResponse true "7" "hash-107" "Invoice funded successfully" 5000) ∧
  (∃ i, i ∈ rows (tables world_ex) ∧ inv_status i = PENDING ∧
        funded i (Some "buyer"%string) "GINV" 900 150 "hash-107" (tables world_ex) (tables (fund_ex "7" 900).2)) ∧
  (fund_ex "7" 1001).1 = Throw (ContractError InsufficientFunds "Funding amount exceeds invoice value") ∧
  (fund_ex "8" 900).1 = Throw (ContractError DuplicateFunding "Invoice has already been funded") ∧
  tables (fund_ex "8" 900).2 = tables world_ex.
Proof.
  assert (∀ id wallet amount (w : mem), tables (chain_ex id wallet amount w).2 = tables w) as Hchain.
  { intros id wallet amount w. unfold chain_ex. by destruct (String.eqb id "107"). }
  split; [vm_compute; reflexivity|]. split; [|split; [vm_compute; reflexivity|split; vm_compute; reflexivity]].
  destruct (fund_all_or_nothing PrismaService.full_surface None chain_ex (λ _, Some "buyer"%string) true Hchain
    (Some "buyer"%string) "GINV" (mkDto "7" (Finite 900 1) 150) world_ex)
    as [[_ [e He]]|(_ & _ & i & amount & hash & w1 & w2 & resp & Hi & Hp & _ & Ha & _ & Hh & Hf & Hr & _)].
  - exfalso. vm_compute in He. discriminate He.
  - exists i. split; [exact Hi|]. split; [exact Hp|].
    assert (amount = 900) as -> by (vm_compute in Ha; congruence).
    assert (i = invoice_ex 7 PENDING) as ->.
    { change (i ∈ [invoice_ex 7 PENDING; invoice_ex 8 FUNDED]) in Hi.
      repeat (apply elem_of_cons in Hi as [->|Hi]; [done || discriminate Hp|]). by apply elem_of_nil in Hi. }
    assert (hash = "hash-107"%string) as -> by (vm_compute in Hh; congruence).
    exact Hf.
Defined.
End FinancingExamples.
