(* ===== verification/FundingRequests.v ===== *)
(** * Concurrent funding requests ([financing-pool/financing-pool.service.ts])

    Any number of requests to fund invoices, on any number of instances, cut at their awaits and
    interleaved with each other, with the rest of the backend and with instances that crash.  The
    contract is a parameter, of which one thing is relied on: it funds an invoice once. *)
From S2P Require Import Prelude Threads Js Schema Errors Prisma PrismaService Interfaces Auth Invoices Soroban Settlement Financing.
From stdpp Require Import gmap strings.
Import FinancingPoolService.
Open Scope Z_scope.

Module FundingRequests.

Section threads.
Context {W : Type} `{!Prisma W} `{!Clock W} `{!Hrtime W}.
Variable h : PrismaService.handle.
Variable fallbackStrategy : option Fallback.
Variable soroban_fundInvoice : string → string → JsNumber → M exn W string.
Variable buyerId : Invoice → option string.
Variable columns_known : bool.

Definition deref_ {A : Type} (o : option A) : thread exn W A :=
  match o with
  | Some a => mret a
  | None => throw_ (TypeError "Cannot read properties of undefined")
  end.

Definition on_chain_ (invoice : Invoice) (investorWallet : string) (dto : FundInvoiceDto) : thread exn W string :=
  try_ (await_at "chain" (soroban_fundInvoice (Z_to_string (inv_onchainId invoice)) investorWallet (dto_amount dto)))
    (λ error,
     if includes (message error) "revert" then throw_ (BadRequestException ("Contract reverted: " +:+ message error)%string)
     else throw_ (SorobanService.parseContractError (message error) None)).

Definition record_ (invoice : Invoice) (userId : option string) (investorWallet : string) (amount discount : Z) (txHash : string)
    : thread exn W (Invoice * Z) :=
  await_at "record" (PrismaService.via h PrismaService.m_transaction
    (transaction (fund_tx columns_known invoice userId investorWallet amount discount txHash))).

Definition fundInvoice_ (userId : option string) (investorWallet : string) (dto : option FundInvoiceDto) : thread exn W FundResponseDto :=
  if blocked fallbackStrategy then
    _ ← deref_ dto;
    throw_ (ServiceUnavailableException "New fundings are temporarily halted due to oracle data staleness. Please retry after oracle feeds recover.")
  else
    dto ← deref_ dto;
    found ← await (find_invoice h (dto_invoiceId dto));
    match found with
    | None => throw_ (NotFoundException ("Invoice " +:+ dto_invoiceId dto +:+ " not found")%string)
    | Some invoice =>
        amount ← Stop (check buyerId userId dto invoice);
        let discount := effectiveDiscountRate fallbackStrategy dto in
        txHash ← on_chain_ invoice investorWallet dto;
        '(updated, now) ← record_ invoice userId investorWallet amount discount txHash;
        mret (mkResponse true (Z_to_string (inv_id updated)) (SorobanService.or_else txHash "unknown")
                "Invoice funded successfully" now)
    end.

(** The thread is the method. *)
Lemma fundInvoice_cuts (userId : option string) (investorWallet : string) (dto : option FundInvoiceDto) :
  cuts (fundInvoice_ userId investorWallet dto)
       (fundInvoice h fallbackStrategy soroban_fundInvoice buyerId columns_known userId investorWallet dto).
Proof.
  assert (∀ A (o : option A), cuts (W:=W) (deref_ o) (deref o)) as Hd by (intros A []; done).
  unfold fundInvoice_, fundInvoice. destruct (blocked fallbackStrategy); [apply cuts_bind; [apply Hd|auto with cuts]|].
  apply cuts_bind; [apply Hd|]. intros d. apply cuts_bind; [auto with cuts|]. intros [i|]; [|auto with cuts].
  apply cuts_bind; [by destruct (check _ _ _ _)|]. intros amount. apply cuts_bind.
  - unfold on_chain_, on_chain. apply cuts_try; [auto with cuts|]. intros e. by destruct (includes _ _).
  - intros hash. apply cuts_bind; [apply cuts_await_at|]. intros [x t]. auto with cuts.
Qed.
End threads.

(** *** The invariant *)

(** The auxiliary state of a request: the invoice that it has found, or that it has funded on chain *)
Inductive stage := Looking | Found (i : Invoice) | Chained (i : Invoice).

Definition invoice_of (p : stage) : option Invoice := match p with Looking => None | Found i | Chained i => Some i end.
Definition chained_of (p : stage) : option Z := match p with Chained i => Some (inv_id i) | _ => None end.

Definition may_be_at (place : string) (p : stage) : Prop :=
  if String.eqb place "chain" then ∃ i, p = Found i
  else if String.eqb place "record" then ∃ i, p = Chained i else p = Looking.

(** An audit event of the funding of an invoice *)
Definition funding_event (onchainId : Z) (e : InvoiceEventRow) : bool :=
  (ev_invoiceOnchainId e =? onchainId) && bool_decide (ev_previousStatus e = Some PENDING) && bool_decide (ev_newStatus e = FUNDED).

Definition fundings (onchainId : Z) (d : db) : Z := count_if (funding_event onchainId) (rows d).

(** Two invoices are one: the row that was read, and the row as it is *)
Definition same_invoice (i x : Invoice) : Prop := inv_id x = inv_id i ∧ inv_onchainId x = inv_onchainId i.

Definition audited (d : db) : Prop :=
  ∀ x : Invoice, x ∈ rows d → fundings (inv_onchainId x) d <= 1 ∧ (inv_status x = PENDING → fundings (inv_onchainId x) d = 0).

Definition ids_unique (d : db) : Prop := NoDup (inv_id <$> rows (R:=Invoice) d) ∧ NoDup (inv_onchainId <$> rows (R:=Invoice) d).

Section inv.
Context {W : Type} `{!Prisma W}.
(** The invoices that the contract has funded, by the text of their on-chain id *)
Variable on_ledger : W → gset string.

(** A row leaves PENDING only after the contract funded the invoice. *)
Definition backed (w : W) : Prop :=
  ∀ x : Invoice, x ∈ rows (tables w) → inv_status x ≠ PENDING → Z_to_string (inv_onchainId x) ∈ on_ledger w.

Definition fund_inv (w : W) (ls : list (unit * stage)) : Prop :=
  ids_unique (tables w) ∧ audited (tables w) ∧ backed w ∧
  NoDup (omap (λ l : unit * stage, chained_of l.2) ls) ∧
  ∀ b p i, (b, p) ∈ ls → invoice_of p = Some i → ∃ x, x ∈ rows (tables w) ∧ same_invoice i x ∧
    (p = Chained i → inv_status x = PENDING ∧ Z_to_string (inv_onchainId i) ∈ on_ledger w).

(** Rows that are not PENDING stay so, and REPAID ones REPAID. *)
Definition never_back (w w' : W) : Prop :=
  ∀ x : Invoice, x ∈ rows (tables w) → inv_status x ≠ PENDING →
    ∃ x', x' ∈ rows (tables w') ∧ inv_id x' = inv_id x ∧ inv_status x' ≠ PENDING ∧ (inv_status x = REPAID → inv_status x' = REPAID).

#[global] Instance never_back_preorder : PreOrder never_back.
Proof.
  split; [intros w x Hx Hs; by exists x|]. intros w1 w2 w3 H12 H23 x Hx Hs.
  destruct (H12 x Hx Hs) as (y & Hy & Hi & Hp & Hr). destruct (H23 y Hy Hp) as (z & Hz & Hi' & Hp' & Hr').
  exists z. split; [done|]. split; [congruence|]. split; [done|]. auto.
Qed.

(** A piece that leaves the tables alone, and takes nothing off the ledger *)
Lemma fund_inv_frame (w w' : W) ls :
  tables w' = tables w → on_ledger w ⊆ on_ledger w' → fund_inv w ls → never_back w w' ∧ fund_inv w' ls.
Proof.
  intros Ht Ho (H1 & H2 & H3 & H4 & H5). split; [intros x Hx Hs; exists x; by rewrite Ht|].
  unfold fund_inv, backed. rewrite Ht. split; [done|]. split; [done|]. split; [intros x Hx Hs; by apply Ho, H3|]. split; [done|].
  intros b p i Hp Hi. destruct (H5 b p i Hp Hi) as (x & Hx & Hsame & Hc). exists x. split; [done|]. split; [done|].
  intros Hp'. destruct (Hc Hp'). split; [done|by apply Ho].
Qed.

(** The stage of one request may change to one that is chained no more. *)
Lemma fund_inv_stage (w : W) ls1 b p p' ls2 :
  chained_of p' = None →
  (∀ i, invoice_of p' = Some i → ∃ x, x ∈ rows (tables w) ∧ same_invoice i x) →
  fund_inv w (ls1 ++ (b, p) :: ls2) → fund_inv w (ls1 ++ (b, p') :: ls2).
Proof.
  intros Hc Hi (H1 & H2 & H3 & H4 & H5). split; [done|]. split; [done|]. split; [done|]. split.
  - rewrite omap_app in *. cbn in *. rewrite Hc. eapply sublist_NoDup; [exact H4|]. apply sublist_app; [done|].
    destruct (chained_of p); [by apply sublist_cons|done].
  - intros b' q i [Hq|[[= -> ->]|Hq]%elem_of_cons]%elem_of_app Hqi; [apply (H5 b' q i); [set_solver|done]| |apply (H5 b' q i); [set_solver|done]].
    destruct (Hi i Hqi) as (x & Hx & Hs). exists x. split; [done|]. split; [done|]. intros ->. done.
Qed.

Lemma fund_inv_drop (w : W) (ls1 : list (unit * stage)) bp ls2 : fund_inv w (ls1 ++ bp :: ls2) → fund_inv w (ls1 ++ ls2).
Proof.
  intros (H1 & H2 & H3 & H4 & H5). split; [done|]. split; [done|]. split; [done|]. split.
  - rewrite omap_app in *. cbn in H4. eapply sublist_NoDup; [exact H4|]. apply sublist_app; [done|].
    destruct (chained_of bp.2); [by apply sublist_cons|done].
  - intros b p i Hp. apply (H5 b p i). set_solver.
Qed.

Lemma chained_in (ls : list (unit * stage)) (n : Z) :
  n ∈ omap (λ l : unit * stage, chained_of l.2) ls → ∃ b j, (b, Chained j) ∈ ls ∧ inv_id j = n.
Proof. intros ([b p] & Hp & Hc)%list_elem_of_omap. destruct p as [|j|j]; try done. injection Hc as <-. by exists b, j. Qed.

(** The contract has funded the invoice that the request had found: no one else is funding it. *)
Lemma fund_inv_chained (w w' : W) ls1 b i ls2 :
  fund_inv w (ls1 ++ (b, Found i) :: ls2) → Z_to_string (inv_onchainId i) ∉ on_ledger w →
  tables w' = tables w → on_ledger w' = {[Z_to_string (inv_onchainId i)]} ∪ on_ledger w →
  never_back w w' ∧ fund_inv w' (ls1 ++ (b, Chained i) :: ls2).
Proof.
  intros HI Hnew Ht Ho. destruct (fund_inv_frame w w' _ Ht ltac:(set_solver) HI) as [HG HI']. split; [done|].
  destruct HI as ([N1 N2] & H2 & H3 & H4 & H5). destruct (H5 b (Found i) i ltac:(set_solver) eq_refl) as (x & Hx & [Hx1 Hx2] & _).
  assert (inv_status x = PENDING) as Hpend.
  { destruct (decide (inv_status x = PENDING)) as [?|Hs]; [done|]. destruct Hnew. rewrite <- Hx2. by apply H3. }
  destruct HI' as (I1 & I2 & I3 & I4 & I5). split; [done|]. split; [done|]. split; [done|]. split.
  - assert (∀ j b', (b', Chained j) ∈ ls1 ++ ls2 → inv_id j ≠ inv_id i) as Hne.
    { intros j b' Hj He. destruct (H5 b' (Chained j) j ltac:(set_solver) eq_refl) as (y & Hy & [Hy1 Hy2] & Hc).
      destruct (Hc eq_refl) as [_ Hl]. apply Hnew. rewrite <- Hx2. rewrite <- Hy2 in Hl.
      by rewrite (fmap_unique inv_id _ x y N1 Hx Hy ltac:(congruence)). }
    rewrite omap_app in *. cbn in *. apply NoDup_app in H4 as (M1 & M2 & M3). apply NoDup_app. split; [done|]. split.
    + intros n Hn [->|Hn']%elem_of_cons; [|by apply (M2 n)]. apply chained_in in Hn as (b' & j & Hj & Hid). apply (Hne j b'); [set_solver|done].
    + apply NoDup_cons. split; [|done]. intros (b' & j & Hj & Hid)%chained_in. apply (Hne j b'); [set_solver|done].
  - intros b' p j [Hp|[[= -> ->]|Hp]%elem_of_cons]%elem_of_app Hj; [apply (I5 b' p j); [set_solver|done]| |apply (I5 b' p j); [set_solver|done]].
    injection Hj as <-. exists x. rewrite Ht, Ho. split; [done|]. split; [done|]. intros _. split; [done|set_solver].
Qed.

Lemma count_snoc {A : Type} (p : A → bool) (l : list A) (a : A) : count_if p (l ++ [a]) = count_if p l + if p a then 1 else 0.
Proof. rewrite count_if_app. unfold count_if. cbn. by destruct (p a). Qed.

(** Recording what the contract did, once *)
Lemma fund_inv_recorded (w w' : W) ls1 b i ls2 (userId : option string) (wallet : string) (amount discount : Z) (hash : string) :
  fund_inv w (ls1 ++ (b, Chained i) :: ls2) → funded i userId wallet amount discount hash (tables w) (tables w') →
  on_ledger w ⊆ on_ledger w' → never_back w w' ∧ fund_inv w' (ls1 ++ (b, Looking) :: ls2).
Proof.
  intros ([N1 N2] & H2 & H3 & H4 & H5) (g & nanos & g2 & Ht) Ho.
  destruct (H5 b (Chained i) i ltac:(set_solver) eq_refl) as (x & Hx & [Hx1 Hx2] & Hc). destruct (Hc eq_refl) as [Hpend Hled].
  set (mark := mark_funded wallet amount discount g) in *.
  assert (rows (R:=Invoice) (tables w') = map_if (λ y, inv_id y =? inv_id i) mark (rows (tables w))) as Hr by (by rewrite Ht).
  assert (∀ y : Invoice, y ∈ rows (tables w) → y ≠ x → y ∈ rows (tables w')) as Hother.
  { intros y Hy Hne. rewrite Hr. apply elem_of_map_if. exists y. split; [done|]. destruct (Z.eqb_spec (inv_id y) (inv_id i)) as [He|]; [|done].
    destruct Hne. apply (fmap_unique inv_id _ _ _ N1 Hy Hx). congruence. }
  assert (mark x ∈ rows (tables w')) as Hmark.
  { rewrite Hr. apply elem_of_map_if. exists x. split; [done|]. by rewrite (proj2 (Z.eqb_eq _ _) Hx1). }
  assert (∀ y', y' ∈ rows (R:=Invoice) (tables w') → y' = mark x ∨ y' ∈ rows (tables w) ∧ y' ≠ x) as Hback.
  { intros y' Hy'. rewrite Hr in Hy'. apply elem_of_map_if in Hy' as (y & Hy & ->). destruct (Z.eqb_spec (inv_id y) (inv_id i)) as [He|He].
    - left. f_equal. apply (fmap_unique inv_id _ _ _ N1 Hy Hx). congruence.
    - right. split; [done|]. intros ->. done. }
  assert (∀ n, fundings n (tables w') = fundings n (tables w) + if inv_onchainId i =? n then 1 else 0) as Hf.
  { intros n. unfold fundings. rewrite Ht, rows_set_rows, count_snoc. unfold funding_event at 2. cbn. by rewrite !andb_true_r. }
  split.
  { intros y Hy Hs. exists y. split; [|done]. apply Hother; [done|]. intros ->. done. }
  split; [|split; [|split; [|split]]].
  - unfold ids_unique. by rewrite Hr, !map_if_key.
  - intros y Hy. rewrite Hf. apply Hback in Hy as [->|[Hy Hne]].
    + cbn. destruct (H2 x Hx) as [_ H0]. rewrite (H0 Hpend), Hx2, Z.eqb_refl. split; [lia|done].
    + destruct (Z.eqb_spec (inv_onchainId i) (inv_onchainId y)) as [He|_]; [|rewrite Z.add_0_r; by apply H2].
      destruct Hne. apply (fmap_unique inv_onchainId _ _ _ N2 Hy Hx). congruence.
  - intros y Hy Hs. apply Ho. apply Hback in Hy as [->|[Hy Hne]]; [cbn; by rewrite Hx2|by apply H3].
  - rewrite omap_app in *. cbn in *. eapply sublist_NoDup; [exact H4|]. apply sublist_app; [done|by apply sublist_cons].
  - intros b' p j [Hp|[[= -> ->]|Hp]%elem_of_cons]%elem_of_app Hj; [|done|];
      (destruct (H5 b' p j) as (y & Hy & Hs & Hcj); [set_solver|done|]);
      (destruct (decide (inv_id y = inv_id x)) as [He|Hne];
       [apply (fmap_unique inv_id _ _ _ N1 Hy Hx) in He as ->; exists (mark x); split; [done|]; split; [exact Hs|]; intros ->; exfalso; rewrite omap_app in H4; cbn in H4; apply NoDup_app in H4 as (_ & M2 & M3);
        destruct Hs as [Hs1 _]; apply NoDup_cons in M3 as [M3 _]
       |exists y; split; [apply Hother; [done|]; by intros ->|]; split; [done|]; intros Hpj; destruct (Hcj Hpj); split; [done|by apply Ho]]).
    + apply (M2 (inv_id i)); [|by left]. apply list_elem_of_omap. exists (b', Chained j). split; [done|]. cbn. congruence.
    + apply M3. apply list_elem_of_omap. exists (b', Chained j). split; [done|]. cbn. congruence.
Qed.

(** What the rest of the backend may do to the invoices: change rows without touching their identity
    or whether they are PENDING, and add PENDING ones. *)
Lemma fund_inv_elsewhere (w w' : W) ls (f : Invoice → Invoice) (new : list Invoice) :
  (∀ x, inv_id (f x) = inv_id x ∧ inv_onchainId (f x) = inv_onchainId x ∧
        (inv_status (f x) = PENDING ↔ inv_status x = PENDING) ∧ (inv_status x = REPAID → inv_status (f x) = REPAID)) →
  rows (tables w') = map f (rows (tables w)) ++ new →
  (∀ x, x ∈ new → inv_status x = PENDING ∧ fundings (inv_onchainId x) (tables w') = 0) →
  ids_unique (tables w') → (∀ n, fundings n (tables w') = fundings n (tables w)) → on_ledger w ⊆ on_ledger w' →
  fund_inv w ls → never_back w w' ∧ fund_inv w' ls.
Proof.
  intros Hf Hr Hnew Hids Hev Ho (H1 & H2 & H3 & H4 & H5).
  assert (∀ x, x ∈ rows (tables w) → f x ∈ rows (tables w')) as Hin.
  { intros x Hx. rewrite Hr. apply elem_of_app. left. by apply list_elem_of_fmap_2. }
  assert (∀ y, y ∈ rows (tables w') → (∃ x, x ∈ rows (tables w) ∧ y = f x) ∨ y ∈ new) as Hout.
  { intros y Hy. rewrite Hr in Hy. apply elem_of_app in Hy as [Hy|Hy]; [left|by right].
    apply list_elem_of_fmap in Hy as (x & -> & Hx). by exists x. }
  split.
  { intros x Hx Hs. exists (f x). destruct (Hf x) as (Hi & _ & Hp & Hrep). split; [by apply Hin|]. split; [done|]. split; [by rewrite Hp|done]. }
  split; [done|]. split; [|split; [|split; [done|]]].
  - intros y Hy. apply Hout in Hy as [(x & Hx & ->)|Hy]; [|destruct (Hnew y Hy); lia].
    destruct (Hf x) as (_ & -> & Hp & _). rewrite Hev, Hp. by apply H2.
  - intros y Hy Hs. apply Ho. apply Hout in Hy as [(x & Hx & ->)|Hy]; [|by destruct (Hnew y Hy)].
    destruct (Hf x) as (_ & -> & Hp & _). apply H3; [done|]. by rewrite <- Hp.
  - intros b p i Hp Hi. destruct (H5 b p i Hp Hi) as (x & Hx & [Hx1 Hx2] & Hc). destruct (Hf x) as (Hfi & Hfo & Hfp & _).
    exists (f x). split; [by apply Hin|]. split; [split; congruence|]. intros Hp'. destruct (Hc Hp'). split; [by apply Hfp|by apply Ho].
Qed.
End inv.

Section proofs.
Context {W : Type} `{!Prisma W} `{!Clock W} `{!Hrtime W} `{!PrismaLaws W} `{!ClockLaws W} `{!HrtimeLaws W}.
Variable h : PrismaService.handle.
Variable fallbackStrategy : option Fallback.
Variable soroban_fundInvoice : string → string → JsNumber → M exn W string.
Variable buyerId : Invoice → option string.
Variable columns_known : bool.
Variable on_ledger : W → gset string.

(** The contract funds an invoice that it has not funded, and refuses another one ([AlreadyFunded] in
    the pool's contract); a call that fails here may have been applied there. *)
Hypothesis chain_law : ∀ id wallet amount w,
  match soroban_fundInvoice id wallet amount w with
  | (Ret _, w') => tables w' = tables w ∧ id ∉ on_ledger w ∧ on_ledger w' = {[id]} ∪ on_ledger w
  | (Throw _, w') => tables w' = tables w ∧ on_ledger w ⊆ on_ledger w'
  end.

(** Statements of the database do not reach the ledger. *)
Hypothesis ledger_elsewhere_read : ∀ id w, on_ledger (find_invoice h id w).2 = on_ledger w.
Hypothesis ledger_elsewhere_write : ∀ userId wallet invoice amount discount hash w,
  on_ledger (PrismaService.via h PrismaService.m_transaction
    (transaction (fund_tx columns_known invoice userId wallet amount discount hash)) w).2 = on_ledger w.

#[local] Abbreviation safe_ := (safe (fund_inv on_ledger) never_back may_be_at).
#[local] Abbreviation any := (λ _ _, True).

Lemma safe_find (id : string) :
  safe_ (λ r p, match r with Ret (Some i) => p = Found i | _ => True end) tt (await (find_invoice h id)) Looking.
Proof.
  apply safe_await; [done|]. intros w ls1 ls2 HI. pose proof (ledger_elsewhere_read id w) as Hled. unfold wp.
  assert (wp (find_invoice h id) (λ r w', tables w' = tables w ∧ ∀ i, r = Ret (Some i) → i ∈ rows (tables w)) w) as Hw.
  { unfold find_invoice, PrismaService.via. case_bool_decide; [|by apply wp_throw].
    destruct (Int_of_number _); [|by apply wp_throw]. apply wp_find_unique; unfold commits, refuses.
    - intros r w' [Hw _] Hr _. split; [done|]. by intros i [= ->].
    - by intros w' [Hw _].
    - by intros e w' [Hw _]. }
  unfold wp in Hw. destruct (find_invoice h id w) as [r w']. cbn in Hled. destruct Hw as [Ht Hr].
  destruct (fund_inv_frame on_ledger w w' (ls1 ++ (tt, Looking) :: ls2)) as [HG HI']; [done|by rewrite Hled|done|]. split; [done|].
  destruct r as [[i|]|e]; [|by exists Looking..]. exists (Found i). split; [|done]. eapply fund_inv_stage; [done| |exact HI'].
  intros j [= <-]. exists i. rewrite Ht. split; [by apply Hr|done].
Qed.

Lemma safe_on_chain (i : Invoice) (wallet : string) (dto : FundInvoiceDto) :
  safe_ (λ r p, match r with Ret _ => p = Chained i | _ => True end) tt (on_chain_ soroban_fundInvoice i wallet dto) (Found i).
Proof.
  apply safe_try, safe_await_at; [by exists i|]. intros w ls1 ls2 HI. unfold wp.
  pose proof (chain_law (Z_to_string (inv_onchainId i)) wallet (dto_amount dto) w) as Hc.
  destruct (soroban_fundInvoice _ _ _ w) as [[hash|e] w'].
  - destruct Hc as (Ht & Hnew & Ho). destruct (fund_inv_chained on_ledger w w' ls1 tt i ls2) as [HG HI']; [done..|].
    split; [done|]. by exists (Chained i).
  - destruct Hc as (Ht & Ho). destruct (fund_inv_frame on_ledger w w' (ls1 ++ (tt, Found i) :: ls2)) as [HG HI']; [done..|].
    split; [done|]. exists (Found i). split; [done|]. cbn. by destruct (includes (message e) "revert").
Qed.

Lemma safe_record (i : Invoice) (userId : option string) (wallet : string) (amount discount : Z) (hash : string) :
  safe_ any tt (record_ h columns_known i userId wallet amount discount hash) (Chained i).
Proof.
  apply safe_await_at; [by exists i|]. intros w ls1 ls2 HI. unfold wp.
  pose proof (ledger_elsewhere_write userId wallet i amount discount hash w) as Hled.
  assert (wp (PrismaService.via h PrismaService.m_transaction (transaction (fund_tx columns_known i userId wallet amount discount hash)))
    (λ r w', tables w' = tables w ∨ funded i userId wallet amount discount hash (tables w) (tables w')) w) as Hw.
  { unfold PrismaService.via. case_bool_decide; [|apply wp_throw; by left]. apply wp_transaction.
    - intros e w' [Hw _]. by left.
    - intros w0 [H0 _]. apply wp_fund_tx; [apply _..| |].
      + intros x t w1 _ Hf _. rewrite H0 in Hf. split; [|intros e w' Hw _; by left]. intros w' [Hw _]. right. by rewrite Hw.
      + intros e w1 w' Hw _. by left. }
  unfold wp in Hw. destruct (PrismaService.via _ _ _ w) as [r w']. cbn in Hled. destruct Hw as [Ht|Hf].
  - destruct (fund_inv_frame on_ledger w w' (ls1 ++ (tt, Chained i) :: ls2)) as [HG HI']; [done|by rewrite Hled|done|].
    split; [done|]. by exists (Chained i).
  - destruct (fund_inv_recorded on_ledger w w' ls1 tt i ls2 userId wallet amount discount hash) as [HG HI']; [done..|by rewrite Hled|].
    split; [done|]. by exists Looking.
Qed.

#[local] Abbreviation request_ := (fundInvoice_ h fallbackStrategy soroban_fundInvoice buyerId columns_known).

Lemma safe_fundInvoice (userId : option string) (wallet : string) (dto : option FundInvoiceDto) :
  safe_ any tt (request_ userId wallet dto) Looking.
Proof.
  unfold fundInvoice_. destruct (blocked fallbackStrategy); [by destruct dto|]. destruct dto as [dto|]; [|done].
  apply (safe_bind _ _ _ _ tt (Stop (Ret dto))). cbn [safe]. apply safe_bind. eapply safe_mono; [apply safe_find|].
  intros [[i|]|e] p Hp; [|done..]. subst p. apply (safe_bind _ _ _ _ tt (Stop (check buyerId userId dto i))). cbn [safe].
  destruct (check buyerId userId dto i) as [amount|e]; [|done]. cbv zeta. apply safe_bind. eapply safe_mono; [apply safe_on_chain|].
  intros [hash|e] p Hp; [|done]. subst p. apply safe_bind. eapply safe_mono; [apply safe_record|]. by intros [[x t]|e] p _.
Qed.

(** *** The pool *)

Inductive entry := Request (userId : option string) (wallet : string) (dto : option FundInvoiceDto) | Settle (onchainId ledger : Z) | Elsewhere.

(** Besides the requests: a settlement commits, or the rest of the backend (which has no other writer of
    invoices) and of the network do something, the only effect of which on the invoices is that rows
    are added that are PENDING and have not been funded. *)
Inductive fund_enter : entry → W → list (unit * thread exn W FundResponseDto) → W → Prop :=
| request_arrives userId wallet dto w : fund_enter (Request userId wallet dto) w [(tt, request_ userId wallet dto)] w
| settled onchainId ledger hash w w' :
    SettlementService.settles onchainId ledger hash (tables w) (tables w') → on_ledger w' = on_ledger w →
    fund_enter (Settle onchainId ledger) w [] w'
| elsewhere_runs w w' new :
    rows (tables w') = rows (tables w) ++ new → ids_unique (tables w') →
    (∀ x, x ∈ new → inv_status x = PENDING ∧ fundings (inv_onchainId x) (tables w') = 0) →
    (∀ n, fundings n (tables w') = fundings n (tables w)) → on_ledger w ⊆ on_ledger w' →
    fund_enter Elsewhere w [] w'.

Lemma settles_fund_inv (onchainId ledger : Z) (hash : option string) (w w' : W) ls :
  SettlementService.settles onchainId ledger hash (tables w) (tables w') → on_ledger w' = on_ledger w →
  fund_inv on_ledger w ls → never_back w w' ∧ fund_inv on_ledger w' ls.
Proof.
  intros [_ (now & g1 & nanos & g2 & Hd)] Ho HI. pose proof HI as ([N1 N2] & _). unfold same_but_deliveries in Hd.
  set (f := λ x : Invoice, if SettlementService.settleable onchainId x then SettlementService.mark_repaid ledger now g1 x else x).
  assert (rows (R:=Invoice) (tables w') = map f (rows (tables w))) as Hr by (rewrite Hd; done).
  assert (∀ x, inv_id (f x) = inv_id x ∧ inv_onchainId (f x) = inv_onchainId x ∧
    (inv_status (f x) = PENDING ↔ inv_status x = PENDING) ∧ (inv_status x = REPAID → inv_status (f x) = REPAID)) as Hf.
  { intros x. unfold f. destruct (SettlementService.settleable onchainId x) eqn:E; [|done].
    apply SettlementService.settleable_true in E as [_ E]. cbn. rewrite E. done. }
  apply (fund_inv_elsewhere on_ledger w w' ls f []); [done|by rewrite app_nil_r| | | |by rewrite Ho|done].
  - intros x Hx. by apply elem_of_nil in Hx.
  - unfold ids_unique. rewrite Hr, <- !list_fmap_compose. split.
    + erewrite (list_fmap_ext _ inv_id); [done|]. intros ? x _. apply Hf.
    + erewrite (list_fmap_ext _ inv_onchainId); [done|]. intros ? x _. apply Hf.
  - intros n. unfold fundings.
    replace (rows (R:=InvoiceEventRow) (tables w')) with (rows (tables w) ++ [InvoiceEventService.new_event (SettlementService.settled_params onchainId hash) nanos g2])
      by (rewrite Hd; done).
    rewrite count_snoc. unfold funding_event at 2. cbn. by rewrite !andb_false_r, Z.add_0_r.
Qed.

Lemma funding_entries_ok :
  entries_ok fund_enter (fund_inv on_ledger) never_back may_be_at any any.
Proof.
  intros e ts w new w' ls Hm HI _ He. destruct He as [userId wallet dto w|onchainId ledger hash w w' Hs Ho|w w' added Hr Hu Hn Hev Ho].
  - split; [done|]. exists [(tt, Looking)]. split; [|constructor; [|constructor]; split; [done|apply safe_fundInvoice]].
    destruct HI as (H1 & H2 & H3 & H4 & H5). split; [done|]. split; [done|]. split; [done|]. split.
    + by rewrite omap_app, app_nil_r.
    + intros b p i [Hp|[= -> ->]%list_elem_of_singleton]%elem_of_app Hi; [by apply (H5 b p i)|done].
  - destruct (settles_fund_inv onchainId ledger hash w w' ls Hs Ho HI) as [HG HI']. split; [done|]. exists []. by rewrite app_nil_r.
  - destruct (fund_inv_elsewhere on_ledger w w' ls (λ x, x) added) as [HG HI']; [done|by rewrite map_id|done..|].
    split; [done|]. exists []. by rewrite app_nil_r.
Qed.

(** C7: any number of funding requests run on any number of instances, cut at their awaits and
    interleaved with each other, with settlements, with the rest of the backend and with instances
    that crash.  As long as the contract funds an invoice once: an invoice has at most one funding
    audit event, and none while it is PENDING; it leaves PENDING only when the contract has
    funded it; and no request that wakes up late takes an invoice back: one that has left PENDING
    does not return to it, and one that is REPAID stays REPAID. *)
Theorem funding_interleaved (w : W)
    (c c' : pool (E:=exn) (W:=W) (A:=FundResponseDto) (B:=unit)) :
  ids_unique (tables w) → audited (tables w) → backed on_ledger w →
  run (pool_step fund_enter) any ([], w) c → run (pool_step fund_enter) any c c' →
  (∀ x : Invoice, x ∈ rows (tables c'.2) →
     fundings (inv_onchainId x) (tables c'.2) <= 1 ∧
     (inv_status x = PENDING → fundings (inv_onchainId x) (tables c'.2) = 0) ∧
     (inv_status x ≠ PENDING → Z_to_string (inv_onchainId x) ∈ on_ledger c'.2)) ∧
  never_back c.2 c'.2.
Proof.
  intros Hu Ha Hb H01 H12.
  destruct (pool_sound _ _ _ _ _ _ _ _ funding_entries_ok (crashes_any _ _ (fund_inv_drop on_ledger)) H01) as [Hinv1 _].
  { apply pool_inv_empty. split; [done|]. split; [done|]. split; [done|]. split; [constructor|]. intros b p i Hp. by apply elem_of_nil in Hp. }
  destruct (pool_sound _ _ _ _ _ _ _ _ funding_entries_ok (crashes_any _ _ (fund_inv_drop on_ledger)) H12 Hinv1) as [(ls & HI & Hm) HG].
  split; [|exact HG]. destruct HI as (_ & H2 & H3 & _). intros x Hx. destruct (H2 x Hx). split; [done|]. split; [done|by apply H3].
Qed.
End proofs.
End FundingRequests.

(** ** Runs *)
Module FundingRequestExamples.
Import FundingRequests FinancingExamples.
#[local] Abbreviation run := Prelude.run.

(** The contract of the example keeps whether it has funded invoice 107 in the clock, which stands
    still otherwise. *)
#[local] Instance still_clock : Clock mem := {| clock := λ w, (m_now w, w) |}.
#[local] Instance still_clock_laws : ClockLaws mem.
Proof. by split. Qed.

Definition chain_once (id wallet : string) (amount : JsNumber) : M exn mem string := λ w,
  if String.eqb id "107" && (m_now w <? 10000) then (Ret "hash-107"%string, mkMem (m_db w) 10000 (m_next w) (m_faults w))
  else (Throw (JsError "HostError: #7"), w).

Definition ledger_ex (w : mem) : gset string := if m_now w <? 10000 then {["108"%string]} else {["107"; "108"]}%string.

Lemma chain_once_law (id wallet : string) (amount : JsNumber) (w : mem) :
  match chain_once id wallet amount w with
  | (Ret _, w') => tables w' = tables w ∧ id ∉ ledger_ex w ∧ ledger_ex w' = {[id]} ∪ ledger_ex w
  | (Throw _, w') => tables w' = tables w ∧ ledger_ex w ⊆ ledger_ex w'
  end.
Proof.
  unfold chain_once, ledger_ex. destruct (String.eqb_spec id "107") as [->|]; [|done].
  destruct (m_now w <? 10000) eqn:E; cbn; [|by rewrite E]. split; [done|]. split; [|done]. set_solver.
Qed.

Lemma now_find (id : string) (w : mem) : m_now (find_invoice PrismaService.full_surface id w).2 = m_now w.
Proof.
  unfold find_invoice, PrismaService.via. destruct (bool_decide _); [|done]. destruct (Int_of_number _); [|done].
  cbn. unfold mem_find_unique, mem_stmt. by destruct (m_faults w) as [|[] fs].
Qed.

#[local] Abbreviation pool_ := (pool (E:=exn) (W:=mem) (A:=FundResponseDto) (B:=unit)).
#[local] Abbreviation step_ chain := (pool_step (fund_enter PrismaService.full_surface None chain (λ _, Some "buyer"%string) true ledger_ex)).

Definition dto_ex : FundInvoiceDto := mkDto "7" (Finite 900 1) 150.

Definition arrive (chain : string → string → JsNumber → M exn mem string) (c : pool_) : pool_ :=
  (c.1 ++ [(tt, fundInvoice_ PrismaService.full_surface None chain (λ _, Some "buyer"%string) true
                  (Some "buyer"%string) "GINV" (Some dto_ex))], c.2).

Lemma fund_arrive_run chain (c : pool_) : run (step_ chain) (λ _ _, True) c (arrive chain c).
Proof.
  destruct c as [ts w]. eapply run_more; [apply run_none|done|]. apply (step_enter _ (Request (Some "buyer"%string) "GINV" (Some dto_ex))).
  apply request_arrives.
Qed.

(** Two requests for invoice 7 have both found it PENDING; the first is funded and recorded. *)
Definition found_ex (chain : string → string → JsNumber → M exn mem string) : pool_ :=
  advance 1 (advance 0 (arrive chain (arrive chain ([], world_ex)))).

Lemma found_run chain : run (step_ chain) (λ _ _, True) ([], world_ex) (found_ex chain).
Proof.
  eapply run_trans; [apply fund_arrive_run|]. eapply run_trans; [apply fund_arrive_run|].
  eapply run_trans; [by apply advance_run|by apply advance_run].
Qed.

Definition both_ex : pool_ := advance 1 (advance 0 (advance 0 (found_ex chain_once))).

(** How the stopped requests have ended, and the statuses of the invoices *)
Definition ends (c : pool_) : list (option (outcome exn FundResponseDto)) :=
  map (λ x, match x.2 with Stop r => Some r | _ => None end) c.1.
Definition statuses (w : mem) : list InvoiceStatus := map inv_status (rows (m_db w)).

Definition stands {A : Type} (m : M exn mem A) : Prop := ∀ w, m_now (m w).2 = m_now w.

Lemma stands_bind {A B : Type} (m : M exn mem A) (k : A → M exn mem B) : stands m → (∀ a, stands (k a)) → stands (m ≫= k).
Proof.
  intros Hm Hk w. unfold mbind, M_bind. specialize (Hm w). destruct (m w) as [[a|e] w']; cbn in *; [by rewrite Hk|done].
Qed.

Lemma stands_stmt {A : Type} (f : gen → db → outcome exn A * db) : stands (mem_stmt f).
Proof. intros w. unfold mem_stmt. destruct (m_faults w) as [|[] fs]; [by destruct (f _ _)|done|by destruct (f _ _)]. Qed.

Lemma stands_transaction {A : Type} (m : M exn mem A) : stands m → stands (mem_transaction m).
Proof. intros Hm w. unfold mem_transaction. specialize (Hm w). by destruct (m w) as [[a|e] w']. Qed.

Lemma now_record (userId : option string) (wallet : string) (i : Invoice) (amount discount : Z) (hash : string) (w : mem) :
  m_now (PrismaService.via PrismaService.full_surface PrismaService.m_transaction
    (transaction (fund_tx true i userId wallet amount discount hash)) w).2 = m_now w.
Proof.
  rewrite PrismaService.via_in by (apply (bool_decide_unpack _); vm_compute; exact I). revert w. apply stands_transaction, stands_bind; [done|]. intros now.
  apply stands_bind; [apply stands_stmt|]. intros x. apply stands_bind; [|done].
  unfold InvoiceEventService.appendInvoiceEvent. repeat (apply stands_bind; [done|intros ?]).
  apply stands_bind; [apply stands_stmt|done].
Qed.

Lemma world_ex_ok : ids_unique (tables world_ex) ∧ audited (tables world_ex) ∧ backed ledger_ex world_ex.
Proof.
  split; [split; apply (bool_decide_unpack _); vm_compute; exact I|]. split; [done|].
  intros x Hx. change (x ∈ [invoice_ex 7 PENDING; invoice_ex 8 FUNDED]) in Hx.
  repeat (apply elem_of_cons in Hx as [->|Hx]; [intros H; try (by destruct H); vm_compute; reflexivity|]). by apply elem_of_nil in Hx.
Qed.

Lemma funding_interleaved_witness :
  ends both_ex = [Some (Ret (mkResponse true "7" "hash-107" "Invoice funded successfully" 10000));
                  Some (Throw (ContractError InvalidState "HostError: #7"))] ∧
  statuses both_ex.2 = [FUNDED; FUNDED] ∧ fundings 107 (tables both_ex.2) = 1 ∧
  never_back (found_ex chain_once).2 both_ex.2.
Proof.
  split; [vm_compute; reflexivity|]. split; [vm_compute; reflexivity|]. split; [vm_compute; reflexivity|].
  refine (proj2 (funding_interleaved PrismaService.full_surface None chain_once (λ _, Some "buyer"%string) true ledger_ex
    chain_once_law _ _ world_ex (found_ex chain_once) both_ex _ _ _ _ _)); try apply world_ex_ok.
  - intros id w. unfold ledger_ex. by rewrite now_find.
  - intros userId wallet i amount discount hash w. unfold ledger_ex. by rewrite now_record.
  - apply found_run.
  - eapply run_trans; [by apply advance_run|]. eapply run_trans; [by apply advance_run|by apply advance_run].
Defined.

(** An instance that crashes between the contract call and the transaction leaves the invoice
    PENDING for ever: the contract refuses every further request. *)
Definition crashed_ex : pool_ := (drop 1 (advance 0 (found_ex chain_once)).1, (advance 0 (found_ex chain_once)).2).

Theorem crash_strands :
  run (step_ chain_once) (λ _ _, True) ([], world_ex) crashed_ex ∧
  "107"%string ∈ ledger_ex crashed_ex.2 ∧ statuses crashed_ex.2 = [PENDING; FUNDED] ∧
  ends (Nat.iter 2 (advance 1) (advance 0 (arrive chain_once crashed_ex))) =
    repeat (Some (Throw (ContractError InvalidState "HostError: #7"))) 2 ∧
  statuses (Nat.iter 2 (advance 1) (advance 0 (arrive chain_once crashed_ex))).2 = [PENDING; FUNDED].
Proof.
  split; [|split; [vm_compute; reflexivity|split; [vm_compute; reflexivity|split; vm_compute; reflexivity]]].
  eapply run_trans; [apply found_run|]. eapply run_more; [by apply (advance_run _ _ 0)|done|]. apply (step_crash _ []).
Qed.

(** If the contract accepts the second call, the update, which is by the identifier only, takes an invoice
    that was repaid meanwhile back to FUNDED. *)
Definition repaid_ex : pool_ :=
  let c := advance 0 (advance 0 (found_ex chain_ex)) in
  let d := tables c.2 in
  (c.1 ++ [], mkMem (set_rows (rows d ++ [InvoiceEventService.new_event (SettlementService.settled_params 107 None) 0 (mkGen "" 0 0)])
     (set_rows (map_if (SettlementService.settleable 107) (SettlementService.mark_repaid 5 6000 (mkGen "" 0 0)) (rows d)) d))
     (m_now c.2) (m_next c.2) []).

Definition taken_back_ex : pool_ := Nat.iter 2 (advance 1) repaid_ex.

Theorem late_request_takes_back :
  run (step_ chain_ex) (λ _ _, True) ([], world_ex) repaid_ex ∧ run (step_ chain_ex) (λ _ _, True) repaid_ex taken_back_ex ∧
  statuses repaid_ex.2 = [REPAID; FUNDED] ∧ statuses taken_back_ex.2 = [FUNDED; FUNDED] ∧
  fundings 107 (tables taken_back_ex.2) = 2.
Proof.
  split; [|split; [by apply (advances_run _ _ 2 1)|split; [vm_compute; reflexivity|split; vm_compute; reflexivity]]].
  eapply run_trans; [apply found_run|]. eapply run_trans; [apply (advances_run _ _ 2 0); done|].
  eapply run_more; [apply run_none|done|]. cbn. apply (step_enter _ (Settle 107 5)). apply (settled _ _ _ _ _ _ 107 5 None); [|done].
  split; [eexists; split; [by left|vm_compute; reflexivity]|].
  exists 6000, (mkGen "" 0 0), 0, (mkGen "" 0 0). apply same_but_deliveries_refl.
Qed.
End FundingRequestExamples.
