(* ===== verification/Monitoring.v ===== *)
(** * Monitoring alerts ([monitoring/alert-dispatcher.service.ts], [monitoring/types.ts])

    The dispatcher that posts alerts to a webhook and suppresses repetitions of an alert
    within a cooldown.  Its state is the map [sentAt]; posting is a parameter. *)
From S2P Require Import Prelude Js Schema Errors Prisma.
Open Scope Z_scope.

Inductive Severity := warning | critical.

(** The metrics are kept as the text that the payloads show. *)
Record AnomalyAlert := mkAlert {
  al_id : string;
  al_anomalyType : string;
  al_affected : string;
  al_transactionHash : string;
  al_currentMetric : string;
  al_threshold : string;
  al_ledger : Z;
  al_occurredAt : string;
  al_severity : Severity;
  al_summary : string }.

Inductive AlertWebhookKind := slack | pagerduty | generic.

Record AlertConfig := mkAlertConfig {
  alertWebhookUrl : option string;
  alertWebhookKind : AlertWebhookKind;
  alertCooldownMs : Z;
  PAGERDUTY_ROUTING_KEY : option string }.

(** What is posted, by the kind of the webhook. *)
Inductive Payload :=
| SlackPayload (text mrkdwn : string) (alert : AnomalyAlert)
| PagerdutyPayload (routing_key : option string) (dedup_key summary severity : string) (details : AnomalyAlert)
| GenericPayload (alert : AnomalyAlert).

(** [fetch(url, { method: 'POST', ... })]: the status of the response *)
Class AlertHttp (W : Type) := { post_alert : string → Payload → M exn W Z }.

(** The [sentAt] map of the dispatcher. *)
Notation Sent := (gmap string Z) (only parsing).

Module AlertDispatcherService.

Definition severity_name (s : Severity) : string := match s with warning => "warning" | critical => "critical" end.

Definition line (label value : string) : string := (str1 LF +:+ label +:+ ": " +:+ value)%string.

Definition formatPayload (config : AlertConfig) (alert : AnomalyAlert) : Payload :=
  match alertWebhookKind config with
  | slack =>
      SlackPayload ("InvoiceFi " +:+ severity_name (al_severity alert) +:+ " anomaly: " +:+ al_summary alert)%string
        ("*" +:+ al_anomalyType alert +:+ "*" +:+ line "Affected" (al_affected alert)
         +:+ line "Tx" (al_transactionHash alert) +:+ line "Metric" (al_currentMetric alert)
         +:+ line "Threshold" (al_threshold alert))%string alert
  | pagerduty =>
      PagerdutyPayload (PAGERDUTY_ROUTING_KEY config) (al_id alert) (al_summary alert) (severity_name (al_severity alert)) alert
  | generic => GenericPayload alert
  end.

(** Truthy and within the cooldown. *)
Definition suppressed (config : AlertConfig) (now : Z) (previous : option Z) : bool :=
  match previous with
  | Some t => negb (t =? 0) && (now - t <? alertCooldownMs config)
  | None => false
  end.

Section dispatch.
Context {W : Type} `{!Clock W} `{!AlertHttp W}.
Variable config : AlertConfig.

Definition dispatch (alert : AnomalyAlert) : M exn (Sent * W) bool := λ '(sentAt, w),
  let '(now, w) := clock w in
  if suppressed config now (sentAt !! al_id alert) then (Ret false, (sentAt, w))
  else
    let sentAt := <[al_id alert := now]> sentAt in
    let payload := formatPayload config alert in
    if negb (truthy_opt (alertWebhookUrl config)) then (Ret true, (sentAt, w))
    else
      on_world
        (status ← post_alert (default EmptyString (alertWebhookUrl config)) payload;
         if (200 <=? status) && (status <=? 299) then mret true
         else throw (JsError ("Alert webhook failed with " +:+ Z_to_string status)%string)) (sentAt, w).

(** ** Lemmas *)

(** Whatever the webhook answers, the dispatch is remembered: a repetition within the cooldown is
    not posted, even if the first post failed. *)
Lemma dispatch_remembers (alert : AnomalyAlert) (sentAt : Sent) (w : W) :
  let '(r, (sentAt', w')) := dispatch alert (sentAt, w) in
  (r = Ret false ∧ sentAt' = sentAt ∧ suppressed config (clock w).1 (sentAt !! al_id alert) = true ∧ w' = (clock w).2) ∨
  (suppressed config (clock w).1 (sentAt !! al_id alert) = false ∧ r ≠ Ret false ∧
   sentAt' = <[al_id alert := (clock w).1]> sentAt).
Proof.
  unfold dispatch. destruct (clock w) as [now w1]. cbn [fst snd]. destruct (suppressed _ _ _) eqn:E; [by left|].
  destruct (negb _); [by right|]. cbn. unfold mbind, M_bind.
  destruct (post_alert _ _ w1) as [[status|e] w2]; [|by right]. by destruct (_ && _); right.
Qed.

(** Two dispatches of an alert, the second before the cooldown has passed: it is suppressed. *)
Lemma dispatch_twice (alert : AnomalyAlert) (sentAt : Sent) (w w2 : W) :
  let first := dispatch alert (sentAt, w) in
  suppressed config (clock w).1 (sentAt !! al_id alert) = false → (clock w).1 ≠ 0 →
  (clock w2).1 - (clock w).1 < alertCooldownMs config →
  dispatch alert (first.2.1, w2) = (Ret false, (first.2.1, (clock w2).2)).
Proof.
  intros first Hs Hnz Hcool. pose proof (dispatch_remembers alert sentAt w) as H. fold first in H.
  destruct first as [r [sent1 w1]]. destruct H as [(_ & _ & H & _)|(_ & _ & Hsent)]; [congruence|]. cbn [fst snd].
  unfold dispatch. destruct (clock w2) as [now2 w3] eqn:E2. cbn [fst] in Hcool.
  rewrite Hsent, lookup_insert_eq. cbn [suppressed].
  rewrite (proj2 (Z.eqb_neq _ _) Hnz). cbn. by rewrite (proj2 (Z.ltb_lt _ _) Hcool).
Qed.
End dispatch.
End AlertDispatcherService.
