(* ===== verification/Horizon.v ===== *)
(** * Anomaly detection on the Horizon stream ([monitoring/anomaly-detector.service.ts],
    [horizon-monitor.service.ts], [monitoring.config.ts], [types.ts])

    The configuration, the sliding windows and rules of the detector, the translation of Horizon
    operations into monitoring events, and the handler of one ledger, which hands every alert to
    the dispatcher of Monitoring.v.  Numbers are doubles; Horizon and [Math.pow] are parameters. *)
From S2P Require Import Prelude Js Schema Errors Prisma Auth Double Monitoring.
From Stdlib Require Import SpecFloat.
Open Scope Z_scope.

(** ** [monitoring.config.ts] *)

Record MonitoringConfig := mkMonitoringConfig {
  enabled : bool;
  horizonUrl : string;
  contractIds : list string;
  pollFallbackMs : double;
  mc_alertWebhookUrl : option string;
  mc_alertWebhookKind : string;
  mc_alertCooldownMs : double;
  maxLedgerLatencyMs : double;
  largeFundingAmount : double;
  fundingVolumeWindowMs : double;
  fundingVolumeThreshold : double;
  fundingVelocityWindowMs : double;
  fundingVelocityCountThreshold : double;
  oracleDeviationBps : double;
  pauserRoleNames : list string;
  relativeVolumeSpikeEnabled : bool;
  relativeVolumeSpikeMultiple : double;
  unusualDiscountEnabled : bool;
  unusualDiscountStdDevMultiple : double }.

(** [ConfigService.get] *)
Notation Env := (string → option string) (only parsing).

Definition numberFrom (config : Env) (key : string) (fallback : Z) : double :=
  let value := match config key with Some s => Double.of_string s | None => Double.of_Z fallback end in
  if Double.isFinite value then value else Double.of_Z fallback.

Definition listFrom (value : option string) : list string :=
  List.filter truthy (map trim (split "," (default EmptyString value))).

(** [(config.get(key) ?? 'true') !== 'false'] *)
Definition not_false (config : Env) (key : string) : bool :=
  negb (String.eqb (default "true"%string (config key)) "false").

Definition loadMonitoringConfig (config : Env) : MonitoringConfig := {|
  enabled := not_false config "MONITORING_ENABLED";
  horizonUrl := default "https://horizon-testnet.stellar.org"%string (config "STELLAR_HORIZON_URL");
  contractIds := listFrom (match config "MONITORING_CONTRACT_IDS" with Some s => Some s | None => config "INVOICE_CONTRACT_ID" end);
  pollFallbackMs := numberFrom config "MONITORING_LEDGER_POLL_FALLBACK_MS" 5000;
  mc_alertWebhookUrl := config "ALERT_WEBHOOK_URL";
  mc_alertWebhookKind := default "generic"%string (config "ALERT_WEBHOOK_KIND");
  mc_alertCooldownMs := numberFrom config "ALERT_DEDUP_COOLDOWN_MS" (15 * 60000);
  maxLedgerLatencyMs := numberFrom config "MONITORING_MAX_LEDGER_LATENCY_MS" 10000;
  largeFundingAmount := numberFrom config "ANOMALY_LARGE_FUNDING_AMOUNT" 100000;
  fundingVolumeWindowMs := numberFrom config "ANOMALY_VOLUME_WINDOW_MS" (5 * 60000);
  fundingVolumeThreshold := numberFrom config "ANOMALY_VOLUME_THRESHOLD" 500000;
  fundingVelocityWindowMs := numberFrom config "ANOMALY_VELOCITY_WINDOW_MS" 60000;
  fundingVelocityCountThreshold := numberFrom config "ANOMALY_VELOCITY_COUNT_THRESHOLD" 25;
  oracleDeviationBps := numberFrom config "ANOMALY_ORACLE_DEVIATION_BPS" 500;
  pauserRoleNames := listFrom (Some (default "pauser,emergency_pauser"%string (config "ANOMALY_PAUSER_ROLE_NAMES")));
  relativeVolumeSpikeEnabled := not_false config "ANOMALY_RELATIVE_VOLUME_SPIKE_ENABLED";
  relativeVolumeSpikeMultiple := numberFrom config "ANOMALY_RELATIVE_VOLUME_SPIKE_MULTIPLE" 3;
  unusualDiscountEnabled := not_false config "ANOMALY_UNUSUAL_DISCOUNT_ENABLED";
  unusualDiscountStdDevMultiple := numberFrom config "ANOMALY_UNUSUAL_DISCOUNT_STD_DEV_MULTIPLE" 3 |}.

(** ** [types.ts] *)

(** [closedAt] is its [getTime()], of a valid date. *)
Record MonitoringEvent := mkEvent {
  ev_ledger : Z;
  ev_closedAt : Z;
  ev_contractId : string;
  ev_transactionHash : string;
  ev_type : string;
  ev_account : option string;
  ev_amount : option double;
  ev_asset : option string;
  ev_oraclePrice : option double;
  ev_referencePrice : option double;
  ev_role : option string;
  ev_oldValue : option string;
  ev_newValue : option string;
  ev_discountRate : option double }.

(** ** [anomaly-detector.service.ts] *)

(** [Math.pow] is implementation-approximated in the language. *)
Class JsMath := { Math_pow : double → double → double }.

Record FundingPoint := mkFundingPoint { fp_amount : double; fp_timestamp : Z }.
Record DiscountPoint := mkDiscountPoint { dp_rate : double; dp_timestamp : Z }.

Record Detector := mkDetector {
  fundingWindow : list FundingPoint;
  velocityWindow : list FundingPoint;
  longTermFundingWindow : list FundingPoint;
  discountWindow : list DiscountPoint }.

Definition new_detector : Detector := mkDetector [] [] [] [].

Module AnomalyDetectorService.

(** [while (window.length > 0 && window[0].timestamp < earliest) window.shift()] *)
Fixpoint shift_old {T : Type} (timestamp : T → Z) (earliest : double) (window : list T) : list T :=
  match window with
  | [] => []
  | p :: window' => if Double.ltb (Double.of_Z (timestamp p)) earliest then shift_old timestamp earliest window' else window
  end.

Definition pushAndTrim {T : Type} (timestamp : T → Z) (window : list T) (item : T) (ttlMs : double) : list T :=
  let earliest := Double.sub (Double.of_Z (timestamp item)) ttlMs in
  shift_old timestamp earliest (window ++ [item]).

(** [window.reduce((total, point) => total + f(point), 0)] *)
Definition total {T : Type} (f : T → double) (window : list T) : double :=
  fold_left (λ acc p, Double.add acc (f p)) window (Double.of_Z 0).

Definition alert (event : MonitoringEvent) (anomalyType currentMetric threshold : string) (severity : Severity) : AnomalyAlert :=
  let affected := default (ev_contractId event) (ev_account event) in
  {| al_id := (anomalyType +:+ ":" +:+ affected +:+ ":" +:+ ev_transactionHash event)%string;
     al_anomalyType := anomalyType;
     al_affected := affected;
     al_transactionHash := ev_transactionHash event;
     al_currentMetric := currentMetric;
     al_threshold := threshold;
     al_ledger := ev_ledger event;
     al_occurredAt := toISOString (ev_closedAt event);
     al_severity := severity;
     al_summary := (anomalyType +:+ " detected for " +:+ affected)%string |}.

Definition isPauserRole (config : MonitoringConfig) (role : option string) : bool :=
  match role with
  | Some role => truthy role && existsb (λ name, includes (toLowerCase role) (toLowerCase name)) (pauserRoleNames config)
  | None => false
  end.

Definition number_alert (event : MonitoringEvent) (anomalyType : string) (metric threshold : double) (severity : Severity) : AnomalyAlert :=
  alert event anomalyType (Double.to_string metric) (Double.to_string threshold) severity.

Section evaluate.
Context {JM : JsMath}.
Variable config : MonitoringConfig.

Definition sevenDaysMs : Z := 7 * 24 * 60 * 60 * 1000.
Definition thirtyDaysMs : Z := 30 * 24 * 60 * 60 * 1000.

(** The [unusual_discount] rule on the window before the event's rate is added *)
Definition discount_alerts (event : MonitoringEvent) (rate : double) (window : list DiscountPoint) : list AnomalyAlert :=
  if (length window <? 2)%nat then []
  else
    let size := Double.of_Z (Z.of_nat (length window)) in
    let mean := Double.div (total dp_rate window) size in
    let variance := Double.div (total (λ p, Math_pow (Double.sub (dp_rate p) mean) (Double.of_Z 2)) window) size in
    let stdDev := Double.sqrt variance in
    let deviation := Double.abs (Double.sub rate mean) in
    let maxDeviation := Double.mul stdDev (unusualDiscountStdDevMultiple config) in
    if Double.ltb maxDeviation deviation && Double.ltb (Double.of_Z 0) stdDev
    then [number_alert event "unusual_discount" rate (Double.add mean maxDeviation) warning]
    else if Double.ltb (Double.of_Z 0) deviation && Double.eqb stdDev (Double.of_Z 0)
    then [number_alert event "unusual_discount" rate mean warning]
    else [].

(** The rules of a funded invoice with an amount *)
Definition evaluate_funded (event : MonitoringEvent) (amount : double) (d : Detector) : list AnomalyAlert * Detector :=
  let eventTime := ev_closedAt event in
  let point := mkFundingPoint amount eventTime in
  let large := if Double.leb (largeFundingAmount config) amount
               then [number_alert event "large_invoice_funding" amount (largeFundingAmount config) critical] else [] in
  let funding := pushAndTrim fp_timestamp (fundingWindow d) point (fundingVolumeWindowMs config) in
  let volume := total fp_amount funding in
  let spike := if Double.leb (fundingVolumeThreshold config) volume
               then [number_alert event "funding_volume_spike" volume (fundingVolumeThreshold config) critical] else [] in
  let velocity := pushAndTrim fp_timestamp (velocityWindow d) point (fundingVelocityWindowMs config) in
  let count := Double.of_Z (Z.of_nat (length velocity)) in
  let fast := if Double.leb (fundingVelocityCountThreshold config) count
              then [number_alert event "funding_velocity_spike" count (fundingVelocityCountThreshold config) warning] else [] in
  let longTerm := pushAndTrim fp_timestamp (longTermFundingWindow d) point (Double.of_Z sevenDaysMs) in
  let relative :=
    if relativeVolumeSpikeEnabled config then
      let total7DayVolume := total fp_amount longTerm in
      let average5MinVolume := Double.div total7DayVolume (Double.of_Z 2016) in
      let threshold := Double.mul average5MinVolume (relativeVolumeSpikeMultiple config) in
      if Double.ltb (Double.of_Z 0) threshold && Double.leb threshold volume
      then [number_alert event "relative_volume_spike" volume threshold critical] else []
    else [] in
  let '(discount, window) :=
    match unusualDiscountEnabled config, ev_discountRate event with
    | true, Some rate =>
        (discount_alerts event rate (discountWindow d),
         pushAndTrim dp_timestamp (discountWindow d) (mkDiscountPoint rate eventTime) (Double.of_Z thirtyDaysMs))
    | _, _ => ([], discountWindow d)
    end in
  (large ++ spike ++ fast ++ relative ++ discount, mkDetector funding velocity longTerm window).

Definition oracle_alerts (event : MonitoringEvent) : list AnomalyAlert :=
  match String.eqb (ev_type event) "oracle_price_updated", ev_oraclePrice event, ev_referencePrice event with
  | true, Some oraclePrice, Some referencePrice =>
      if Double.ltb (Double.of_Z 0) referencePrice then
        let deviationBps := Double.mul (Double.div (Double.abs (Double.sub oraclePrice referencePrice)) referencePrice) (Double.of_Z 10000) in
        if Double.leb (oracleDeviationBps config) deviationBps
        then [number_alert event "oracle_price_deviation" (Double.round deviationBps) (oracleDeviationBps config) critical] else []
      else []
  | _, _, _ => []
  end.

Definition role_alerts (event : MonitoringEvent) : list AnomalyAlert :=
  if String.eqb (ev_type event) "role_changed" && isPauserRole config (ev_role event)
  then [alert event "pauser_role_changed" (default "changed"%string (ev_newValue event)) (join "," (pauserRoleNames config)) critical]
  else [].

Definition evaluate (event : MonitoringEvent) (d : Detector) : list AnomalyAlert * Detector :=
  let '(funded, d') :=
    match String.eqb (ev_type event) "invoice_funded", ev_amount event with
    | true, Some amount => evaluate_funded event amount d
    | _, _ => ([], d)
    end in
  (funded ++ oracle_alerts event ++ role_alerts event, d').

(** ** The windows *)

(** The times that a JavaScript [Date] can have *)
Definition date_range (t : Z) : Prop := 0 <= t <= 8640000000000000.

Definition earlier {T : Type} (timestamp : T → Z) (a b : T) : Prop := timestamp a <= timestamp b.

(** The elements of the last [ttl] milliseconds before [now] *)
Definition recent {T : Type} (timestamp : T → Z) (now ttl : Z) (l : list T) : list T :=
  List.filter (λ p, now - ttl <=? timestamp p) l.

Lemma shift_old_recent {T : Type} (timestamp : T → Z) (now ttl : Z) (l : list T) :
  StronglySorted (earlier timestamp) l → Forall (λ p, date_range (timestamp p)) l →
  Double.safe (now - ttl) →
  shift_old timestamp (Double.of_Z (now - ttl)) l = recent timestamp now ttl l.
Proof.
  intros Hs Hd Hsafe. unfold recent. induction Hs as [|p l Hs IH Hp]; [done|]. inversion_clear Hd as [|? ? Hdp Hdl].
  cbn [shift_old List.filter]. unfold date_range in Hdp. rewrite Double.ltb_integers by (done || (unfold Double.safe; lia)).
  destruct (Z.ltb_spec (timestamp p) (now - ttl)) as [H|H].
  - rewrite (proj2 (Z.leb_gt _ _)) by lia. by apply IH.
  - rewrite (proj2 (Z.leb_le _ _)) by lia. f_equal. symmetry.
    rewrite (List.filter_ext_in _ (λ _, true)), List.filter_true; [done|].
    intros q Hq. apply Z.leb_le. rewrite Forall_forall in Hp. specialize (Hp q). unfold earlier in Hp.
    rewrite list_elem_of_In in Hp. specialize (Hp Hq). lia.
Qed.

Lemma pushAndTrim_recent {T : Type} (timestamp : T → Z) (window : list T) (item : T) (ttl : Z) :
  StronglySorted (earlier timestamp) (window ++ [item]) → Forall (λ p, date_range (timestamp p)) (window ++ [item]) →
  date_range ttl →
  pushAndTrim timestamp window item (Double.of_Z ttl) = recent timestamp (timestamp item) ttl (window ++ [item]).
Proof.
  intros Hs Hd Httl. unfold pushAndTrim.
  assert (date_range (timestamp item)) by (rewrite Forall_forall in Hd; apply Hd; set_solver).
  unfold date_range in *. rewrite Double.sub_integers by (unfold Double.safe; lia).
  apply shift_old_recent; [done..|unfold Double.safe; lia].
Qed.

Lemma recent_recent {T : Type} (timestamp : T → Z) (now now' ttl : Z) (l k : list T) :
  now <= now' → recent timestamp now' ttl (recent timestamp now ttl l ++ k) = recent timestamp now' ttl (l ++ k).
Proof.
  intros H. unfold recent. rewrite !List.filter_app. f_equal. apply filter_filter_imp.
  intros p Hp. bool_to_prop. apply Z.leb_le. lia.
Qed.

Lemma recent_sublist {T : Type} (timestamp : T → Z) (now ttl : Z) (l : list T) : recent timestamp now ttl l `sublist_of` l.
Proof.
  unfold recent. induction l as [|p l IH]; cbn; [constructor|].
  destruct (_ <=? _); [by apply sublist_skip|by apply sublist_cons].
Qed.

(** Pushing the points of a history one after the other *)
Definition pushes {T : Type} (timestamp : T → Z) (ttl : double) (l : list T) : list T :=
  fold_left (λ window p, pushAndTrim timestamp window p ttl) l [].

Lemma sorted_sublist {T : Type} (R : relation T) (l k : list T) : l `sublist_of` k → StronglySorted R k → StronglySorted R l.
Proof.
  intros H. induction H as [|p l k H IH|p l k H IH]; intros Hs; [done|..]; inversion_clear Hs as [|? ? Hs' Hp].
  - constructor; [by apply IH|]. rewrite Forall_forall in Hp |- *. intros q Hq. apply Hp.
    by eapply elem_of_sublist.
  - by apply IH.
Qed.

Lemma pushes_recent {T : Type} (timestamp : T → Z) (ttl : Z) (l : list T) (p : T) :
  StronglySorted (earlier timestamp) (l ++ [p]) → Forall (λ q, date_range (timestamp q)) (l ++ [p]) → date_range ttl →
  pushes timestamp (Double.of_Z ttl) (l ++ [p]) = recent timestamp (timestamp p) ttl (l ++ [p]).
Proof.
  revert p. induction l as [|q l IH] using rev_ind; intros p Hs Hd Httl.
  - by apply (pushAndTrim_recent timestamp [] p).
  - assert (Hsub : l ++ [q] `sublist_of` (l ++ [q]) ++ [p]) by (apply sublist_inserts_r; reflexivity).
    unfold pushes in *. rewrite fold_left_app, IH; [cbn [fold_left]|by eapply sorted_sublist|by apply Forall_app in Hd as []|done].
    assert (Hsub' : recent timestamp (timestamp q) ttl (l ++ [q]) ++ [p] `sublist_of` (l ++ [q]) ++ [p]).
    { apply sublist_app; [apply recent_sublist|done]. }
    rewrite pushAndTrim_recent; [|by eapply sorted_sublist| |done].
    + apply recent_recent. apply StronglySorted_app in Hs as (Hlt & _ & _). apply (Hlt q p); set_solver.
    + rewrite Forall_forall in Hd |- *. intros x Hx. apply Hd. by eapply elem_of_sublist.
Qed.

(** ** The rules, on a whole history *)

Definition points (event : MonitoringEvent) : list FundingPoint :=
  match String.eqb (ev_type event) "invoice_funded", ev_amount event with
  | true, Some amount => [mkFundingPoint amount (ev_closedAt event)]
  | _, _ => []
  end.

(** The detector after a history *)
Definition run (past : list MonitoringEvent) : Detector :=
  fold_left (λ d event, (evaluate event d).2) past new_detector.

Lemma evaluate_windows (event : MonitoringEvent) (d : Detector) :
  let push ttl window := fold_left (λ w p, pushAndTrim fp_timestamp w p ttl) (points event) window in
  let d' := (evaluate event d).2 in
  fundingWindow d' = push (fundingVolumeWindowMs config) (fundingWindow d) ∧
  velocityWindow d' = push (fundingVelocityWindowMs config) (velocityWindow d) ∧
  longTermFundingWindow d' = push (Double.of_Z sevenDaysMs) (longTermFundingWindow d).
Proof.
  unfold evaluate, points. destruct (String.eqb _ "invoice_funded"); [|done].
  destruct (ev_amount event) as [amount|]; [|done]. unfold evaluate_funded.
  destruct (unusualDiscountEnabled config), (ev_discountRate event); done.
Qed.

Lemma run_windows (past : list MonitoringEvent) :
  let history := flat_map points past in
  fundingWindow (run past) = pushes fp_timestamp (fundingVolumeWindowMs config) history ∧
  velocityWindow (run past) = pushes fp_timestamp (fundingVelocityWindowMs config) history ∧
  longTermFundingWindow (run past) = pushes fp_timestamp (Double.of_Z sevenDaysMs) history.
Proof.
  induction past as [|event past (IH1 & IH2 & IH3)] using rev_ind; [done|].
  unfold run, pushes in *. rewrite !fold_left_app, flat_map_app, !fold_left_app. cbn [fold_left flat_map].
  rewrite app_nil_r. destruct (evaluate_windows event (fold_left (λ d event, (evaluate event d).2) past new_detector))
    as (-> & -> & ->). by rewrite IH1, IH2, IH3.
Qed.

Lemma points_range (events : list MonitoringEvent) :
  Forall (λ e, date_range (ev_closedAt e)) events → Forall (λ p, date_range (fp_timestamp p)) (flat_map points events).
Proof.
  intros H. rewrite Forall_forall in H; rewrite Forall_forall. intros p Hp. rewrite list_elem_of_In, in_flat_map in Hp.
  destruct Hp as (e & He & Hp). apply list_elem_of_In, H in He. unfold points in Hp.
  destruct (String.eqb _ _), (ev_amount e); try done. by destruct Hp as [<-|[]].
Qed.

Lemma points_sorted (events : list MonitoringEvent) :
  StronglySorted (earlier ev_closedAt) events → StronglySorted (earlier fp_timestamp) (flat_map points events).
Proof.
  intros H. induction H as [|e l Hs IH He]; [constructor|]. cbn [flat_map].
  assert (Hle : Forall (λ p, ev_closedAt e <= fp_timestamp p) (flat_map points l)).
  { rewrite Forall_forall in He. rewrite Forall_forall. intros p Hp. rewrite list_elem_of_In, in_flat_map in Hp.
    destruct Hp as (q & Hq & Hp). apply list_elem_of_In, He in Hq. unfold points in Hp.
    destruct (String.eqb _ _), (ev_amount q); try done. by destruct Hp as [<-|[]]. }
  unfold points at 1. destruct (String.eqb _ _), (ev_amount e); try done. by constructor.
Qed.

(** The last push of a history that ends with a funded invoice *)
Lemma last_push (past : list MonitoringEvent) (event : MonitoringEvent) (amount : double) (ttl : Z) :
  StronglySorted (earlier ev_closedAt) (past ++ [event]) →
  Forall (λ e, date_range (ev_closedAt e)) (past ++ [event]) → date_range ttl →
  ev_type event = "invoice_funded"%string → ev_amount event = Some amount →
  pushAndTrim fp_timestamp (pushes fp_timestamp (Double.of_Z ttl) (flat_map points past))
    (mkFundingPoint amount (ev_closedAt event)) (Double.of_Z ttl)
  = recent fp_timestamp (ev_closedAt event) ttl (flat_map points (past ++ [event])).
Proof.
  intros Hs Hd Httl Ht Ha.
  assert (Hpts : flat_map points (past ++ [event]) = flat_map points past ++ [mkFundingPoint amount (ev_closedAt event)]).
  { rewrite flat_map_app. cbn [flat_map]. unfold points at 2. by rewrite Ht, Ha. }
  pose proof (pushes_recent fp_timestamp ttl (flat_map points past) (mkFundingPoint amount (ev_closedAt event))) as H.
  rewrite <- Hpts in H. cbn [fp_timestamp] in H. rewrite <- H; [|by apply points_sorted|by apply points_range|done].
  unfold pushes. by rewrite Hpts, fold_left_app.
Qed.

(** An alert of the type, when the rule holds *)
Definition rule (anomalyType : string) (holds : bool) : list string := if holds then [anomalyType] else [].


(** ** The alerts of one event *)

Definition all_types : list string :=
  ["large_invoice_funding"; "funding_volume_spike"; "funding_velocity_spike"; "relative_volume_spike"; "unusual_discount";
   "oracle_price_deviation"; "pauser_role_changed"].

Lemma discount_types (event : MonitoringEvent) (rate : double) (window : list DiscountPoint) :
  map al_anomalyType (discount_alerts event rate window) `sublist_of` ["unusual_discount"%string].
Proof.
  unfold discount_alerts. destruct (_ <? _)%nat; [apply sublist_nil_l|]. cbv zeta.
  destruct (_ && _); [reflexivity|]. destruct (_ && _); [reflexivity|apply sublist_nil_l].
Qed.

(** A rule raises at most its own alert. *)
Lemma one_type (b : bool) (a : AnomalyAlert) (t : string) :
  al_anomalyType a = t → map al_anomalyType (if b then [a] else []) `sublist_of` [t].
Proof. intros <-. destruct b; [reflexivity|apply sublist_nil_l]. Qed.

Lemma funded_types (event : MonitoringEvent) (amount : double) (d : Detector) :
  map al_anomalyType (evaluate_funded event amount d).1 `sublist_of` take 5 all_types.
Proof.
  unfold evaluate_funded. cbv zeta. set (disc := match unusualDiscountEnabled config with true => _ | false => _ end).
  assert (Hd : map al_anomalyType disc.1 `sublist_of` ["unusual_discount"%string]).
  { unfold disc. destruct (unusualDiscountEnabled config), (ev_discountRate event); try apply sublist_nil_l. apply discount_types. }
  destruct disc as [discount window]. cbn [fst] in Hd |- *. rewrite !map_app.
  apply (sublist_app _ ["large_invoice_funding"%string]); [by apply one_type|].
  apply (sublist_app _ ["funding_volume_spike"%string]); [by apply one_type|].
  apply (sublist_app _ ["funding_velocity_spike"%string]); [by apply one_type|].
  apply (sublist_app _ ["relative_volume_spike"%string]); [|exact Hd].
  destruct (relativeVolumeSpikeEnabled config); [by apply one_type|apply sublist_nil_l].
Qed.

Lemma evaluate_types (event : MonitoringEvent) (d : Detector) :
  map al_anomalyType (evaluate event d).1 `sublist_of` all_types.
Proof.
  unfold evaluate. set (f := match String.eqb (ev_type event) "invoice_funded" with true => _ | false => _ end).
  assert (Hf : map al_anomalyType f.1 `sublist_of` take 5 all_types).
  { unfold f. destruct (String.eqb _ _); [|apply sublist_nil_l]. destruct (ev_amount event); [|apply sublist_nil_l].
    apply funded_types. }
  destruct f as [funded d']. cbn [fst] in Hf |- *. rewrite !map_app.
  apply (sublist_app _ (take 5 all_types)); [exact Hf|].
  apply (sublist_app _ ["oracle_price_deviation"%string]); [|by apply one_type].
  unfold oracle_alerts. destruct (String.eqb _ _); [|apply sublist_nil_l].
  destruct (ev_oraclePrice event), (ev_referencePrice event); try apply sublist_nil_l.
  destruct (Double.ltb _ _); [by apply one_type|apply sublist_nil_l].
Qed.

(** Every alert of an event is built by [alert] from it. *)
Definition own (event : MonitoringEvent) (a : AnomalyAlert) : Prop :=
  ∃ anomalyType metric threshold severity, a = alert event anomalyType metric threshold severity.

Lemma own_rule (b : bool) (event : MonitoringEvent) (anomalyType metric threshold : string) (severity : Severity) :
  Forall (own event) (if b then [alert event anomalyType metric threshold severity] else []).
Proof. destruct b; repeat constructor. by exists anomalyType, metric, threshold, severity. Qed.

Lemma discount_own (event : MonitoringEvent) (rate : double) (window : list DiscountPoint) :
  Forall (own event) (discount_alerts event rate window).
Proof.
  unfold discount_alerts. destruct (_ <? _)%nat; [constructor|]. cbv zeta.
  destruct (_ && _); [apply (own_rule true)|apply own_rule].
Qed.

Lemma funded_own (event : MonitoringEvent) (amount : double) (d : Detector) :
  Forall (own event) (evaluate_funded event amount d).1.
Proof.
  unfold evaluate_funded. cbv zeta. set (disc := match unusualDiscountEnabled config with true => _ | false => _ end).
  assert (Hd : Forall (own event) disc.1).
  { unfold disc. destruct (unusualDiscountEnabled config), (ev_discountRate event); try constructor. apply discount_own. }
  destruct disc as [discount window]. cbn [fst] in Hd |- *. rewrite !Forall_app.
  split_and!; try apply own_rule; [|exact Hd]. destruct (relativeVolumeSpikeEnabled config); [apply own_rule|constructor].
Qed.

Lemma evaluate_own (event : MonitoringEvent) (d : Detector) : Forall (own event) (evaluate event d).1.
Proof.
  unfold evaluate. set (f := match String.eqb (ev_type event) "invoice_funded" with true => _ | false => _ end).
  assert (Hf : Forall (own event) f.1).
  { unfold f. destruct (String.eqb _ _), (ev_amount event); try constructor. apply funded_own. }
  destruct f as [funded d']. cbn [fst] in Hf |- *. rewrite !Forall_app. split_and!; [exact Hf| |apply own_rule].
  unfold oracle_alerts. destruct (String.eqb _ _), (ev_oraclePrice event), (ev_referencePrice event); try constructor.
  destruct (Double.ltb _ _); [apply own_rule|constructor].
Qed.

(** The alerts that one event raises have different identifiers, so that the
    dispatcher never takes one of them for a repetition of another and suppresses it. *)
Theorem alerts_distinct (event : MonitoringEvent) (d : Detector) : NoDup (map al_id (evaluate event d).1).
Proof.
  pose proof (evaluate_own event d) as Hown. pose proof (evaluate_types event d) as Hsub.
  set (l := (evaluate event d).1) in *.
  assert (Hnd : NoDup (map al_anomalyType l)).
  { eapply sublist_NoDup; [|exact Hsub]. apply (bool_decide_unpack _). vm_compute. exact I. }
  set (suffix := (":" +:+ default (ev_contractId event) (ev_account event) +:+ ":" +:+ ev_transactionHash event)%string).
  assert (Hid : map al_id l = map (λ t, (t +:+ suffix)%string) (map al_anomalyType l)).
  { rewrite map_map. apply map_ext_in. intros a Ha. rewrite Forall_forall in Hown.
    destruct (Hown a) as (t & m & th & s & ->); [by apply list_elem_of_In|done]. }
  rewrite Hid. apply NoDup_fmap_2; [|done]. intros s t H. by apply string_app_inj_r in H.
Qed.
End evaluate.
End AnomalyDetectorService.

(** ** [horizon-monitor.service.ts] *)

(** An operation record of Horizon: its JSON fields. *)
Notation HorizonOperation := (list (string * JsValue)) (only parsing).

(** [server.operations().forLedger(n).limit(k).call()], and the ledger stream *)
Class HorizonServer (W : Type) := {
  operations_of_ledger : Z → nat → M exn W (list HorizonOperation);
  open_stream : W → W;
  close_stream : W → W }.

Module HorizonMonitorService.
Section monitor.
Context {TC : TokenCodec}.
Variable config : MonitoringConfig.

(** A text field, as the template strings and the alerts show it *)
Definition text (v : JsValue) : option string := if nullish v then None else Some (Principal.js_String v).

Definition matchContract (candidate : string) : string :=
  match List.find (includes candidate) (contractIds config) with Some id => id | None => candidate end.

Fixpoint extractNumber (operation : HorizonOperation) (keys : list string) : option double :=
  match keys with
  | [] => None
  | key :: keys' =>
      let value := Double.of_value (property operation key) in
      if Double.isFinite value && Double.ltb (Double.of_Z 0) value then Some value else extractNumber operation keys'
  end.

Definition account_of (operation : HorizonOperation) : JsValue :=
  coalesce (property operation "from") (coalesce (property operation "funder") (coalesce (property operation "account")
    (coalesce (property operation "trustee") (property operation "source_account")))).

Definition toMonitoringEvents (operation : HorizonOperation) (ledger closedAt : Z) : list MonitoringEvent :=
  let hash := Principal.js_String (coalesce (property operation "transaction_hash") (property operation "id")) in
  let account := account_of operation in
  let contractId := matchContract (Principal.js_String
    (coalesce (property operation "source_account") (coalesce account (JsString "stellar")))) in
  let memo := toLowerCase (JSON_stringify (JsObject operation)) in
  let event (type : string) (amount : option double) (asset : option string) (oraclePrice referencePrice : option double)
      (role : option string) : MonitoringEvent :=
    {| ev_ledger := ledger; ev_closedAt := closedAt; ev_contractId := contractId; ev_transactionHash := hash;
       ev_type := type; ev_account := text account; ev_amount := amount; ev_asset := asset; ev_oraclePrice := oraclePrice;
       ev_referencePrice := referencePrice; ev_role := role; ev_oldValue := None; ev_newValue := None;
       ev_discountRate := None |} in
  let funded :=
    match property operation "type" with
    | JsString type =>
        if String.eqb type "payment" || String.eqb type "create_claimable_balance" then
          let amount := Double.of_value (coalesce (property operation "amount") (JsNum (Finite 0 1))) in
          if Double.isFinite amount && Double.ltb (Double.of_Z 0) amount
          then [event "invoice_funded" (Some amount) (text (property operation "asset_code")) None None None] else []
        else []
    | _ => []
    end in
  let price :=
    if includes memo "oracle" && includes memo "price" then
      [event "oracle_price_updated" None None (extractNumber operation ["oracle_price"; "price"])
         (extractNumber operation ["reference_price"; "expected_price"; "twap"]) None]
    else [] in
  let role :=
    if includes memo "pauser" || includes memo "emergency_pauser" then
      [event "role_changed" None None None None
         (Some (if includes memo "emergency_pauser" then "emergency_pauser" else "pauser"))]
    else [] in
  funded ++ price ++ role.

Context {JM : JsMath} {W : Type} {CL : Clock W} {AH : AlertHttp W} {HS : HorizonServer W}.

(** The cooldown test [now - previous < cooldown] of integers only depends on the least integer
    that is not below the cooldown. *)
Definition ceiling (x : double) : Z :=
  match Double.to_ratio x with Some (n, d) => ceil_div n (Zpos d) | None => 0 end.

(** The dispatcher's part of the configuration *)
Definition alert_config (routing_key : option string) : AlertConfig := {|
  alertWebhookUrl := mc_alertWebhookUrl config;
  alertWebhookKind := if String.eqb (mc_alertWebhookKind config) "slack" then slack
                      else if String.eqb (mc_alertWebhookKind config) "pagerduty" then pagerduty else generic;
  alertCooldownMs := ceiling (mc_alertCooldownMs config);
  PAGERDUTY_ROUTING_KEY := routing_key |}.

Variable routing_key : option string.

(** The state of the detector, the [sentAt] map of the dispatcher, and the world *)
Notation St := (Detector * (Sent * W))%type.

Definition on_detector {A : Type} (f : Detector → A * Detector) : M exn St A := λ '(d, sw),
  let '(a, d') := f d in (Ret a, (d', sw)).

Definition process_event (event : MonitoringEvent) : M exn St unit :=
  alerts ← on_detector (AnomalyDetectorService.evaluate config event);
  _ ← for_of alerts tt (λ _ alert,
        _ ← on_world (AlertDispatcherService.dispatch (alert_config routing_key) alert);
        mret (inl tt : unit + unit));
  mret tt.

(** The latency of the ledger is only logged. *)
Definition processLedger (sequence closedAt : Z) : M exn St unit :=
  operations ← on_world (on_world (operations_of_ledger sequence 200));
  _ ← for_of operations tt (λ _ operation,
        _ ← for_of (toMonitoringEvents operation sequence closedAt) tt (λ _ event,
              process_event event ≫= λ _, mret (inl tt : unit + unit));
        mret (inl tt : unit + unit));
  mret tt.

(** [closeStream] is set when the stream is open. *)
Definition onModuleInit : M exn (bool * W) unit := λ '(closeStream, w),
  if negb (enabled config) then (Ret tt, (closeStream, w)) else (Ret tt, (true, open_stream w)).

Definition close : M exn (bool * W) unit := λ '(closeStream, w),
  (Ret tt, (closeStream, if closeStream then close_stream w else w)).

(** ** What reaches the detector *)

Definition positive (x : double) : Prop := Double.isFinite x = true ∧ Double.ltb (Double.of_Z 0) x = true.

Lemma extractNumber_positive (operation : HorizonOperation) (keys : list string) (x : double) :
  extractNumber operation keys = Some x → positive x.
Proof.
  induction keys as [|key keys IH]; cbn; [done|]. destruct (_ && _) eqn:E; [|done]. intros [= <-].
  by apply andb_true_iff in E.
Qed.

(** What an event of Horizon looks like: its type decides which fields it has, and its numbers are
    finite and positive. *)
Definition well_formed (e : MonitoringEvent) : Prop :=
  ev_discountRate e = None ∧ ev_newValue e = None ∧
  ((ev_type e = "invoice_funded"%string ∧ (∃ x, ev_amount e = Some x ∧ positive x) ∧
    ev_oraclePrice e = None ∧ ev_referencePrice e = None ∧ ev_role e = None) ∨
   (ev_type e = "oracle_price_updated"%string ∧ ev_amount e = None ∧ ev_role e = None ∧
    (∀ x, ev_oraclePrice e = Some x → positive x) ∧ (∀ x, ev_referencePrice e = Some x → positive x)) ∨
   (ev_type e = "role_changed"%string ∧ ev_amount e = None ∧
    (ev_role e = Some "pauser" ∨ ev_role e = Some "emergency_pauser")%string)).


(** The rule [unusual_discount] needs a rate that no event of Horizon has. *)
Lemma discount_never_raised (event : MonitoringEvent) (d : Detector) :
  ev_discountRate event = None →
  "unusual_discount"%string ∉ map al_anomalyType (AnomalyDetectorService.evaluate config event d).1.
Proof.
  intros Hd. unfold AnomalyDetectorService.evaluate.
  assert (Hf : ∀ amount, map al_anomalyType (AnomalyDetectorService.evaluate_funded config event amount d).1
    `sublist_of` take 4 AnomalyDetectorService.all_types).
  { intros amount. unfold AnomalyDetectorService.evaluate_funded. cbv zeta. rewrite Hd.
    destruct (unusualDiscountEnabled config); cbn [fst]; rewrite app_nil_r, !map_app;
      (apply (sublist_app _ ["large_invoice_funding"%string]); [by apply AnomalyDetectorService.one_type|];
       apply (sublist_app _ ["funding_volume_spike"%string]); [by apply AnomalyDetectorService.one_type|];
       apply (sublist_app _ ["funding_velocity_spike"%string]); [by apply AnomalyDetectorService.one_type|];
       destruct (relativeVolumeSpikeEnabled config); [by apply AnomalyDetectorService.one_type|apply sublist_nil_l]). }
  set (f := match String.eqb (ev_type event) "invoice_funded" with true => _ | false => _ end).
  assert (Hsub : map al_anomalyType f.1 `sublist_of` take 4 AnomalyDetectorService.all_types).
  { unfold f. destruct (String.eqb _ _), (ev_amount event); try apply sublist_nil_l. apply Hf. }
  destruct f as [funded d']. cbn [fst] in Hsub |- *. rewrite !map_app, !elem_of_app. intros [H|[H|H]].
  - eapply elem_of_sublist in H; [|exact Hsub]. revert H. apply (bool_decide_unpack _). vm_compute. exact I.
  - unfold AnomalyDetectorService.oracle_alerts in H.
    destruct (String.eqb _ _), (ev_oraclePrice event), (ev_referencePrice event); try by apply elem_of_nil in H.
    destruct (Double.ltb _ _); [|by apply elem_of_nil in H]. destruct (Double.leb _ _); [|by apply elem_of_nil in H].
    by apply list_elem_of_singleton in H.
  - unfold AnomalyDetectorService.role_alerts in H. destruct (_ && _); [|by apply elem_of_nil in H].
    by apply list_elem_of_singleton in H.
Qed.

(** The first alert that cannot be dispatched ends the handling of the ledger: a failure of
    [process_event] is the failure of the whole operation list. *)
Lemma process_stops (event : MonitoringEvent) (events : list MonitoringEvent) (s s' : St) (e : exn) :
  process_event event s = (Throw e, s') →
  for_of (event :: events) tt (λ _ event, process_event event ≫= λ _, mret (inl tt : unit + unit)) s = (Throw e, s').
Proof. intros H. cbn [for_of]. unfold mbind, M_bind. by rewrite H. Qed.
End monitor.
End HorizonMonitorService.

(** ** Concrete runs *)
Module HorizonExamples.
Import AnomalyDetectorService HorizonMonitorService.

#[local] Instance toy_math : JsMath := {| Math_pow := λ x _, Double.mul x x |}.

#[local] Instance toy_codec : TokenCodec := {|
  hmac_sha256 := λ k s, s; base64url_decode := λ s, s; base64url_encode := λ s, s; JSON_parse := λ _, Ret JsNull;
  JSON_stringify := λ _, EmptyString; decodeURIComponent := Ret; fraction_to_string := λ _ _, EmptyString |}.

(** Nothing is configured: the defaults. *)
Definition defaults : MonitoringConfig := loadMonitoringConfig (λ _, None).

Definition funding (t amount : Z) : MonitoringEvent :=
  {| ev_ledger := t; ev_closedAt := t; ev_contractId := "c"; ev_transactionHash := "tx"; ev_type := "invoice_funded";
     ev_account := None; ev_amount := Some (Double.of_Z amount); ev_asset := None; ev_oraclePrice := None;
     ev_referencePrice := None; ev_role := None; ev_oldValue := None; ev_newValue := None; ev_discountRate := None |}.


(** A webhook that answers 500 and a ledger with two payments *)
#[local] Instance toy_clock : Clock unit := {| clock := λ w, (1000, w) |}.
#[local] Instance toy_alerts : AlertHttp unit := {| post_alert := λ _ _, mret 500 |}.
Definition payment (amount : string) : list (string * JsValue) :=
  [("id", JsString "1"); ("type", JsString "payment"); ("amount", JsString amount)]%string.
#[local] Instance toy_horizon : HorizonServer unit := {|
  operations_of_ledger := λ _ _, mret [payment "200000"; payment "300000"];
  open_stream := λ w, w; close_stream := λ w, w |}.

(** The alert of the first payment cannot be posted: the second payment is never looked at, its
    amount is missing from the windows, and its alert from the dispatcher. *)
Example failed_alert_drops_ledger :
  let config := loadMonitoringConfig (λ key, if String.eqb key "ALERT_WEBHOOK_URL" then Some "http://hook"%string else None) in
  let '(r, (d, (sent, _))) := processLedger config None 7 5000 (new_detector, (∅, tt)) in
  r = Throw (JsError "Alert webhook failed with 500") ∧
  map (λ p, Double.to_string (fp_amount p)) (fundingWindow d) = ["200000"%string] ∧
  map_to_list sent = [("large_invoice_funding:stellar:1"%string, 1000)].
Proof. vm_compute. split_and!; reflexivity. Qed.
End HorizonExamples.
