(* ===== verification/Reminders.v ===== *)
(** * Invoice reminders ([invoice-reminder/], [invoice/invoice.service.ts],
    [email/email.service.ts])

    The scheduler that enqueues one reminder per due invoice and window, the processor of the
    queue with its forwarding of exhausted jobs, and the processor of the dead-letter queue.
    Bull, the mail transport and the formatting of dates are parameters; [queue_jobs] and
    [dlq_jobs] are the jobs that Bull retains, for the specifications. *)
From S2P Require Import Prelude Js Schema Errors Prisma PrismaService Auth Monitoring.
Open Scope Z_scope.

(** The value of a [dueDate] property: a [Date], or the text that it becomes in a queue. *)
Inductive DueDate := Due_undefined | Due_date (ms : Z) | Due_text (s : string).

(** [InvoiceReminderJobData]; [invoiceId] is the identifier as the row has it. *)
Record ReminderData := mkData {
  d_invoiceId : JsValue;
  d_userId : option string;
  d_userEmail : option string;
  d_userName : string;
  d_amount : string;
  d_dueDate : DueDate;
  d_tokenType : option string }.

Record ReminderJob := mkJob { job_id : string; job_data : ReminderData }.

(** A forwarded job: the data and [_failedReason]. *)
Record DlqJob := mkDlqJob { dlq_data : ReminderData; dlq_failedReason : string }.

(** [String(id)] of an identifier *)
Definition id_text (v : JsValue) : string :=
  match v with
  | JsString s => s
  | JsBigInt n => Z_to_string n
  | JsNum (Finite n 1) => Z_to_string n
  | _ => ""
  end.

Class ReminderQueue (W : Type) := {
  queue_jobs : W → list ReminderJob;
  dlq_jobs : W → list DlqJob;
  (** the ids that [getJobs(['waiting', 'active', 'delayed'])] yields *)
  getJobs : M exn W (list string);
  queue_add : ReminderJob → M exn W unit;
  dlq_add : DlqJob → M exn W unit }.

(** [add] of a job whose id is already there does nothing. *)
Definition enqueue (j : ReminderJob) (l : list ReminderJob) : list ReminderJob :=
  if bool_decide (job_id j ∈ map job_id l) then l else l ++ [j].

Class ReminderQueueLaws (W : Type) `{!ReminderQueue W} `{!Clock W} := {
  clock_queue : ∀ w, queue_jobs (clock w).2 = queue_jobs w;
  getJobs_law : ∀ w, match getJobs w with
                     | (Ret l, w') => queue_jobs w' = queue_jobs w ∧ ∀ id, id ∈ l → id ∈ map job_id (queue_jobs w)
                     | (Throw _, w') => queue_jobs w' = queue_jobs w
                     end;
  queue_add_law : ∀ j w, match queue_add j w with
                         | (Ret _, w') => queue_jobs w' = enqueue j (queue_jobs w)
                         | (Throw _, w') => queue_jobs w' = queue_jobs w
                         end;
  dlq_add_law : ∀ j w, match dlq_add j w with
                       | (Ret _, w') => dlq_jobs w' = dlq_jobs w ++ [j]
                       | (Throw _, w') => dlq_jobs w' = dlq_jobs w
                       end }.

(** ** [invoice.service.ts] *)
Module InvoiceService.
Section service.
Context {W : Type} `{!Prisma W} `{!Clock W}.
Variable h : PrismaService.handle.

(** [setHours] in a time zone without daylight saving. *)
Definition findInvoicesDueSoon (hours : Z) : M exn W (list Invoice) :=
  now ← date_now;
  let dueDate := now + hours * 3600000 in
  PrismaService.via h PrismaService.m_invoice
    (find_many (λ i, bool_decide (inv_status i = FUNDED) && (inv_createdAt i <=? dueDate)) inv_createdAt).

(** The client refuses an id that is not an integer. *)
Definition findById (id : string) : M exn W (option Invoice) :=
  PrismaService.via h PrismaService.m_invoice
    match Number_of_string id with
    | Finite n 1 => find_unique (λ i, inv_id i =? n)
    | _ => throw (PrismaValidationError "Invalid value for argument id")
    end.

Context `{!PrismaLaws W} `{!ClockLaws W}.

(** What is "due soon" is every funded invoice: rows are created in the past. *)
Lemma due_soon_is_every_funded (hours : Z) (w : W) :
  0 <= hours → (∀ i, i ∈ rows (tables w) → inv_createdAt i <= (clock w).1) →
  wp (findInvoicesDueSoon hours) (λ r _,
    match r with Ret l => l ≡ₚ List.filter (λ i, bool_decide (inv_status i = FUNDED)) (rows (tables w)) | Throw _ => True end) w.
Proof.
  intros Hh Hpast. unfold findInvoicesDueSoon. apply wp_bind.
  pose proof (clock_law w) as [Hc _]. unfold wp at 1, date_now. cbn [fst snd].
  unfold PrismaService.via. case_bool_decide; [|by apply wp_throw].
  apply wp_find_many; [|done]. intros l w' _ Hl _. rewrite Hc in Hl. etransitivity; [exact Hl|].
  erewrite List.filter_ext_in; [done|]. intros i Hi. apply list_elem_of_In, Hpast in Hi. rewrite (proj2 (Z.leb_le _ _)) by lia. by rewrite andb_true_r.
Qed.
End service.
End InvoiceService.

(** ** [invoice-reminder.scheduler.ts] *)
Module InvoiceReminderScheduler.

Definition REMINDER_WINDOW_MS : Z := 6 * 60 * 60 * 1000.

Definition reminderWindowSlot (now : Z) : string := Z_to_string (now / REMINDER_WINDOW_MS).

Definition reminderJobId (invoiceId slot : string) : string := ("reminder:" +:+ invoiceId +:+ ":" +:+ slot)%string.

Record User := mkUser { u_email : option string; u_name : option string }.

(** The properties of a row that the scheduler reads and that the schema does not have;
    [None] is [undefined]. *)
Record Extra := mkExtra {
  x_userId : option string;
  x_user : option User;
  x_amount : option string;
  x_dueDate : DueDate;
  x_tokenType : option string }.

Section scheduler.
Context {W : Type} `{!ReminderQueue W} `{!Clock W}.
(** [this.invoiceService.findInvoicesDueSoon] *)
Variable findInvoicesDueSoon : Z → M exn W (list Invoice).
Variable extra : Invoice → Extra.

(** The job of an invoice; reading [user.email] and [amount.toString()] throws on [undefined]. *)
Definition reminder_job (jobId : string) (i : Invoice) : outcome exn ReminderJob :=
  match x_user (extra i) with
  | None => Throw (TypeError "Cannot read properties of undefined (reading 'email')")
  | Some user =>
      match x_amount (extra i) with
      | None => Throw (TypeError "Cannot read properties of undefined (reading 'toString')")
      | Some amount =>
          Ret (mkJob jobId
                 (mkData (JsNum (Finite (inv_id i) 1)) (x_userId (extra i)) (u_email user)
                    (default "Farmer"%string (u_name user)) amount (x_dueDate (extra i)) (x_tokenType (extra i))))
      end
  end.

Definition jobId_of (slot : string) (i : Invoice) : string := reminderJobId (Z_to_string (inv_id i)) slot.

(** The body of the loop over the due invoices. *)
Definition schedule_one (slot : string) (inFlightIds : list string) (i : Invoice) : M exn W (unit + unit) :=
  let jobId := jobId_of slot i in
  if bool_decide (jobId ∈ inFlightIds) then mret (inl tt)
  else try_catch (job ← AccessGuard.of_outcome (reminder_job jobId i); _ ← queue_add job; mret (inl tt))
                 (λ _, mret (inl tt)).

Definition inFlightIds : M exn W (list string) := try_catch getJobs (λ _, mret []).

Definition scheduleInvoiceReminders : M exn W unit :=
  now ← date_now;
  let slot := reminderWindowSlot now in
  invoices ← try_catch (l ← findInvoicesDueSoon 72; mret (Some l)) (λ _, mret None);
  match invoices with
  | None => mret tt
  | Some invoices =>
      ids ← inFlightIds;
      _ ← for_of invoices tt (λ _ i, schedule_one slot ids i);
      mret tt
  end.

(** ** Specification *)

(** The queue after a run for the invoices [due]: [new] jobs at its end, under ids that were not
    there, each the job of a due invoice; when the queue takes every job, each due invoice
    that has a job is then queued. *)
Definition scheduled (slot : string) (due : list Invoice) (before after : list ReminderJob) : Prop :=
  ∃ new, after = before ++ new ∧ NoDup (map job_id new) ∧
    (∀ j, j ∈ new → job_id j ∉ map job_id before ∧ ∃ i, i ∈ due ∧ reminder_job (jobId_of slot i) i = Ret j).

Definition covered (slot : string) (due : list Invoice) (after : list ReminderJob) : Prop :=
  ∀ i j, i ∈ due → reminder_job (jobId_of slot i) i = Ret j → job_id j ∈ map job_id after.

Context `{!ReminderQueueLaws W}.
Hypothesis due_elsewhere : ∀ hours w, queue_jobs (findInvoicesDueSoon hours w).2 = queue_jobs w.

Lemma job_has_id (jobId : string) (i : Invoice) (j : ReminderJob) : reminder_job jobId i = Ret j → job_id j = jobId.
Proof. unfold reminder_job. repeat case_match; by intros [= <-]. Qed.

Lemma scheduled_refl (slot : string) (l : list ReminderJob) : scheduled slot [] l l.
Proof. exists []. rewrite app_nil_r. split; [done|]. split; [constructor|]. by intros j ?%elem_of_nil. Qed.

Lemma scheduled_step (slot : string) (due : list Invoice) (i : Invoice) (l k : list ReminderJob) :
  scheduled slot due l k → scheduled slot (due ++ [i]) l k.
Proof.
  intros (new & -> & Hnd & Hnew). exists new. split; [done|]. split; [done|]. intros j Hj.
  destruct (Hnew j Hj) as [? (i' & ? & ?)]. split; [done|]. exists i'. set_solver.
Qed.

Lemma scheduled_add (slot : string) (due : list Invoice) (i : Invoice) (j : ReminderJob) (l k : list ReminderJob) :
  reminder_job (jobId_of slot i) i = Ret j → scheduled slot due l k → scheduled slot (due ++ [i]) l (enqueue j k).
Proof.
  intros Hj H. unfold enqueue. case_bool_decide as Hin; [by apply scheduled_step|].
  destruct H as (new & -> & Hnd & Hnew). exists (new ++ [j]). rewrite <- app_assoc. split; [done|].
  rewrite map_app in Hin |- *. split.
  - apply NoDup_app. split; [done|]. split; [|apply NoDup_singleton]. set_solver.
  - intros j' [Hj'|Hj']%elem_of_app.
    + destruct (Hnew j' Hj') as [? (i' & ? & ?)]. split; [done|]. exists i'. set_solver.
    + apply list_elem_of_singleton in Hj' as ->. split; [set_solver|]. exists i. set_solver.
Qed.

Lemma enqueue_covers (j : ReminderJob) (l : list ReminderJob) : job_id j ∈ map job_id (enqueue j l).
Proof. unfold enqueue. case_bool_decide; [done|]. rewrite map_app. set_solver. Qed.

Lemma enqueue_keeps (j : ReminderJob) (l : list ReminderJob) (id : string) :
  id ∈ map job_id l → id ∈ map job_id (enqueue j l).
Proof. unfold enqueue. case_bool_decide; [done|]. rewrite map_app. set_solver. Qed.

(** One invoice: the queue is as it was, or its job was added; it never throws. *)
Lemma wp_schedule_one (slot : string) (ids : list string) (i : Invoice) (w : W) :
  wp (schedule_one slot ids i) (λ r w', r = Ret (inl tt) ∧
    ((queue_jobs w' = queue_jobs w ∧
      (jobId_of slot i ∈ ids ∨ (∃ e, reminder_job (jobId_of slot i) i = Throw e) ∨
       ∃ j e, (queue_add j w).1 = Throw e)) ∨
     ∃ j, reminder_job (jobId_of slot i) i = Ret j ∧ queue_jobs w' = enqueue j (queue_jobs w))) w.
Proof.
  unfold schedule_one. case_bool_decide as Hin; [apply wp_ret; eauto|]. apply wp_try, wp_bind.
  destruct (reminder_job _ i) as [j|e] eqn:Hj; cbn [AccessGuard.of_outcome].
  - apply wp_ret, wp_bind. pose proof (queue_add_law j w) as Hadd. unfold wp at 1.
    destruct (queue_add j w) as [[[]|e] w'] eqn:Eadd; cbn [fst snd].
    + apply wp_ret. eauto.
    + apply wp_ret. split; [done|]. left. split; [done|]. do 2 right. exists j, e. by rewrite Eadd.
  - apply wp_throw, wp_ret. split; [done|]. left. split; [done|]. right. left. by exists e.
Qed.

Lemma wp_inFlightIds (w : W) :
  wp inFlightIds (λ r w', queue_jobs w' = queue_jobs w ∧ ∃ l, r = Ret l ∧ ∀ id, id ∈ l → id ∈ map job_id (queue_jobs w)) w.
Proof.
  apply wp_try. pose proof (getJobs_law w) as H. unfold wp at 1. destruct (getJobs w) as [[l|e] w']; cbn [fst snd].
  - destruct H. eauto.
  - apply wp_ret. split; [done|]. exists []. split; [done|]. by intros id ?%elem_of_nil.
Qed.

Lemma wp_schedule_all (slot : string) (ids : list string) (due : list Invoice) (w : W) :
  (∀ id, id ∈ ids → id ∈ map job_id (queue_jobs w)) →
  wp (for_of due tt (λ _ i, schedule_one slot ids i)) (λ r w', r = Ret (inl tt) ∧
    scheduled slot due (queue_jobs w) (queue_jobs w') ∧
    ((∀ j w, (queue_add j w).1 = Ret tt) → covered slot due (queue_jobs w'))) w.
Proof.
  intros Hids.
  apply (wp_for_of (λ done _ w', scheduled slot done (queue_jobs w) (queue_jobs w') ∧
    ((∀ j w, (queue_add j w).1 = Ret tt) → covered slot done (queue_jobs w')))).
  - intros done i todo [] w1 Hdue [Hs Hcov]. eapply wp_mono; [apply wp_schedule_one|].
    intros r w2 [-> [[Hq Hwhy]|(j & Hj & Hq)]]; rewrite Hq.
    + split; [by apply scheduled_step|]. intros Hok i' j [Hi|Hi]%elem_of_app Hj; [by eapply Hcov|].
      apply list_elem_of_singleton in Hi as ->. rewrite (job_has_id _ _ _ Hj).
      destruct Hwhy as [Hin|[[e He]|(j' & e & He)]]; [|congruence|by rewrite Hok in He].
      destruct Hs as (new & -> & _). rewrite map_app. apply elem_of_app. left. auto.
    + split; [by apply scheduled_add|]. intros Hok i' j' [Hi|Hi]%elem_of_app Hj'.
      * apply enqueue_keeps. by eapply Hcov.
      * apply list_elem_of_singleton in Hi as ->. assert (j' = j) as -> by congruence. apply enqueue_covers.
  - intros [] w1 H. done.
  - split; [apply scheduled_refl|]. by intros _ i j ?%elem_of_nil.
Qed.

(** What a run does with the invoices that the service finds. *)
Definition run_result (r : outcome exn unit) (w w' : W) : Prop :=
  r = Ret tt ∧
  match findInvoicesDueSoon 72 (clock w).2 with
  | (Throw _, _) => queue_jobs w' = queue_jobs w
  | (Ret due, _) =>
      let slot := reminderWindowSlot (clock w).1 in
      scheduled slot due (queue_jobs w) (queue_jobs w') ∧
      ((∀ j w, (queue_add j w).1 = Ret tt) → covered slot due (queue_jobs w'))
  end.

Lemma schedule_spec (w : W) : wp scheduleInvoiceReminders (λ r w', run_result r w w') w.
Proof.
  unfold scheduleInvoiceReminders, run_result. apply wp_bind. unfold wp at 1, date_now. cbn [fst snd].
  pose proof (clock_queue w) as Hc. set (w0 := (clock w).2) in *. apply wp_bind, wp_try, wp_bind.
  pose proof (due_elsewhere 72 w0) as Hdue. unfold wp at 1.
  destruct (findInvoicesDueSoon 72 w0) as [[due|e] w1]; cbn [fst snd] in Hdue |- *.
  2: { apply wp_ret, wp_ret. split; [done|congruence]. }
  apply wp_ret, wp_bind. eapply wp_mono; [apply wp_inFlightIds|]. intros r w2 [H2 (ids & -> & Hids)].
  apply wp_bind. eapply wp_mono; [apply (wp_schedule_all _ ids)|].
  { intros id Hid. rewrite H2. auto. }
  intros r w3 (-> & Hs & Hcov). apply wp_ret. by rewrite H2, Hdue, Hc in Hs.
Qed.

Lemma scheduled_covered (slot : string) (due : list Invoice) (l k : list ReminderJob) :
  covered slot due l → scheduled slot due l k → k = l.
Proof.
  intros Hall ([|j new] & -> & _ & Hnew); [by rewrite app_nil_r|].
  destruct (Hnew j) as [Hno (i & Hi & Hj)]; [set_solver|]. destruct Hno. by eapply Hall.
Qed.

(** C28: scheduling is idempotent within a window: a run never throws; it only appends, under ids
    that the queue does not have yet and that name the invoice and the six-hour window, the
    jobs of due invoices; when the queue takes every job, each due invoice with a job is
    queued afterwards; and a run in a window in which they all are adds nothing. *)
Theorem schedule_idempotent (w : W) :
  wp scheduleInvoiceReminders (λ r w', run_result r w w' ∧
    match findInvoicesDueSoon 72 (clock w).2 with
    | (Ret due, _) => covered (reminderWindowSlot (clock w).1) due (queue_jobs w) → queue_jobs w' = queue_jobs w
    | (Throw _, _) => queue_jobs w' = queue_jobs w
    end) w.
Proof.
  eapply wp_mono; [apply schedule_spec|]. intros r w' Hrun. split; [done|]. destruct Hrun as [_ Hrun].
  destruct (findInvoicesDueSoon _ _) as [[due|e] w1]; [|done]. intros Hall. destruct Hrun as [Hs _].
  by eapply scheduled_covered.
Qed.

(** With the schema of the repository, whose rows have no user, nothing is ever enqueued. *)
Lemma nothing_scheduled (w : W) :
  (∀ i, x_user (extra i) = None) → wp scheduleInvoiceReminders (λ _ w', queue_jobs w' = queue_jobs w) w.
Proof.
  intros Hx. eapply wp_mono; [apply schedule_spec|]. intros r w' [_ Hrun].
  destruct (findInvoicesDueSoon _ _) as [[due|e] w1]; [|done]. destruct Hrun as [Hs _].
  eapply scheduled_covered; [|exact Hs]. intros i j _ Hj. unfold reminder_job in Hj. by rewrite Hx in Hj.
Qed.
End scheduler.
End InvoiceReminderScheduler.

(** ** [email.service.ts] *)
Module EmailService.
Section email.
Context {W : Type}.
(** [toLocaleDateString('en-US', ...)] of a date, and [transporter.sendMail({ to, subject, html })] *)
Variable toLocaleDateString : Z → string.
Variable sendMail : option string → string → M exn W string.

(** A queue keeps a date as text, which has no [toLocaleDateString]. *)
Definition formattedDate (d : DueDate) : outcome exn string :=
  match d with
  | Due_date ms => Ret (toLocaleDateString ms)
  | Due_text _ => Throw (TypeError "dueDate.toLocaleDateString is not a function")
  | Due_undefined => Throw (TypeError "Cannot read properties of undefined (reading 'toLocaleDateString')")
  end.

Definition sendInvoiceReminder (data : ReminderData) : M exn W string :=
  date ← AccessGuard.of_outcome (formattedDate (d_dueDate data));
  sendMail (d_userEmail data) ("Invoice Payment Reminder - Due on " +:+ date)%string.
End email.
End EmailService.

(** ** [invoice-reminder.processor.ts] *)
Module InvoiceReminderProcessor.

(** [resolveMaxAttempts] *)
Definition resolveMaxAttempts (INVOICE_REMINDER_MAX_ATTEMPTS : option string) : Z :=
  match parseInt (default EmptyString INVOICE_REMINDER_MAX_ATTEMPTS) with
  | Some parsed => if 0 <? parsed then parsed else 3
  | None => 3
  end.

(** What [JSON.parse(JSON.stringify(data))] makes of the job data. *)
Definition through_queue (data : ReminderData) : ReminderData :=
  mkData (d_invoiceId data) (d_userId data) (d_userEmail data) (d_userName data) (d_amount data)
    (match d_dueDate data with Due_date ms => Due_text (toISOString ms) | d => d end) (d_tokenType data).

Section handler.
Context {W : Type}.
Variable toLocaleDateString : Z → string.
Variable sendMail : option string → string → M exn W string.
(** [this.prisma.notification], which the injected handle may lack: creating a notification. *)
Variable notification_create : option (ReminderData → M exn W unit).

Definition create_notification (data : ReminderData) : M exn W unit :=
  match notification_create with
  | Some create => create data
  | None => throw (TypeError "Cannot read properties of undefined (reading 'create')")
  end.

(** The result is the [invoiceId] that is returned. *)
Definition handleReminder (data : ReminderData) : M exn W JsValue :=
  _ ← EmailService.sendInvoiceReminder toLocaleDateString sendMail data;
  _ ← create_notification data;
  mret (d_invoiceId data).

(** No reminder that went through the queue is sent: the e-mail service needs a [Date]. *)
Lemma reminder_never_sent (data : ReminderData) (w : W) :
  ∃ e, handleReminder (through_queue data) w = (Throw e, w).
Proof.
  destruct data as [id user email name amount due token].
  unfold handleReminder, EmailService.sendInvoiceReminder, through_queue. cbn. unfold mbind, M_bind.
  destruct due; by eexists.
Qed.

End handler.

Section failures.
Context {W : Type} `{!ReminderQueue W}.
Variable maxAttempts : Z.

Definition onFailed (data : ReminderData) (attemptsMade : Z) (error : exn) : M exn W unit :=
  if maxAttempts <=? attemptsMade
  then try_catch (dlq_add (mkDlqJob data (message error))) (λ _, mret tt)
  else mret tt.

(** The [failed] events of a job that Bull runs [attempts] times: after the attempt [n] has thrown
    [error n], with [attemptsMade = n]. *)
Definition failed_events (data : ReminderData) (error : Z → exn) (attempts : Z) : M exn W (unit + unit) :=
  for_of (seqZ 1 attempts) tt (λ _ n, _ ← onFailed data n (error n); mret (inl tt)).

(** *** Lemmas *)
Context `{!Clock W} `{!ReminderQueueLaws W}.

Lemma wp_onFailed (data : ReminderData) (n : Z) (error : exn) (w : W) :
  (∀ j w, (dlq_add j w).1 = Ret tt) →
  wp (onFailed data n error) (λ r w', r = Ret tt ∧ dlq_jobs w' = dlq_jobs w ++
    (if maxAttempts <=? n then [mkDlqJob data (message error)] else [])) w.
Proof.
  intros Hup. unfold onFailed. destruct (maxAttempts <=? n); [|apply wp_ret; by rewrite app_nil_r].
  apply wp_try. pose proof (dlq_add_law (mkDlqJob data (message error)) w) as H. pose proof (Hup (mkDlqJob data (message error)) w) as Hr.
  unfold wp at 1. destruct (dlq_add _ w) as [r w']. cbn in Hr |- *. subst r. done.
Qed.

(** The jobs that the events of the attempts [ns] forward. *)
Definition forwarded (data : ReminderData) (error : Z → exn) (ns : list Z) : list DlqJob :=
  concat (map (λ n, if maxAttempts <=? n then [mkDlqJob data (message (error n))] else []) ns).

Lemma forwarded_app (data : ReminderData) (error : Z → exn) (l k : list Z) :
  forwarded data error (l ++ k) = forwarded data error l ++ forwarded data error k.
Proof. unfold forwarded. by rewrite map_app, concat_app. Qed.

Lemma forwarded_before (data : ReminderData) (error : Z → exn) (ns : list Z) :
  (∀ n, n ∈ ns → n < maxAttempts) → forwarded data error ns = [].
Proof.
  unfold forwarded. induction ns as [|n ns IH]; intros Hns; [done|]. cbn.
  rewrite (proj2 (Z.leb_gt _ _)) by (apply Hns; set_solver). apply IH. set_solver.
Qed.

Lemma forwarded_after (data : ReminderData) (error : Z → exn) (ns : list Z) :
  (∀ n, n ∈ ns → maxAttempts <= n) → forwarded data error ns = map (λ n, mkDlqJob data (message (error n))) ns.
Proof.
  unfold forwarded. induction ns as [|n ns IH]; intros Hns; [done|]. cbn.
  rewrite (proj2 (Z.leb_le _ _)) by (apply Hns; set_solver). cbn. f_equal. apply IH. set_solver.
Qed.

Lemma forwarded_events (data : ReminderData) (error : Z → exn) (attempts : Z) :
  1 <= maxAttempts →
  forwarded data error (seqZ 1 attempts)
  = map (λ n, mkDlqJob data (message (error n))) (seqZ maxAttempts (attempts - maxAttempts + 1)).
Proof.
  intros Hmax. destruct (Z.lt_ge_cases attempts maxAttempts) as [Hlt|Hge].
  - rewrite (seqZ_nil maxAttempts) by lia. apply forwarded_before. intros n Hn%elem_of_seqZ. lia.
  - replace attempts with ((maxAttempts - 1) + (attempts - maxAttempts + 1)) at 1 by lia.
    rewrite seqZ_app by lia. rewrite forwarded_app, forwarded_before, forwarded_after.
    + cbn. do 2 f_equal. lia.
    + intros n Hn%elem_of_seqZ. lia.
    + intros n Hn%elem_of_seqZ. lia.
Qed.

(** A job that fails all its attempts is forwarded to the dead-letter queue once per failed
    attempt from [maxAttempts] on: exactly once, with the reason of the last attempt, when the
    queue's number of attempts is the configured one; never, so that the failure is lost, when
    the queue makes fewer attempts; and several times when it makes more. *)
Theorem dlq_forwards (data : ReminderData) (error : Z → exn) (attempts : Z) (w : W)
    (Hmax : 1 <= maxAttempts) (Hup : ∀ j w, (dlq_add j w).1 = Ret tt) :
  wp (failed_events data error attempts) (λ r w', r = Ret (inl tt) ∧
    dlq_jobs w' = dlq_jobs w ++
      map (λ n, mkDlqJob data (message (error n))) (seqZ maxAttempts (attempts - maxAttempts + 1)) ∧
    (attempts = maxAttempts → dlq_jobs w' = dlq_jobs w ++ [mkDlqJob data (message (error maxAttempts))]) ∧
    (attempts < maxAttempts → dlq_jobs w' = dlq_jobs w)) w.
Proof.
  rewrite <- forwarded_events by done. unfold failed_events.
  apply (wp_for_of (λ done _ w', dlq_jobs w' = dlq_jobs w ++ forwarded data error done)).
  - intros done n todo [] w1 _ Hw1. apply wp_bind. eapply wp_mono; [by apply wp_onFailed|].
    intros r w2 [-> Hw2]. apply wp_ret. rewrite Hw2, Hw1, forwarded_app, <- app_assoc. do 2 f_equal.
    unfold forwarded. cbn. by rewrite app_nil_r.
  - intros [] w1 Hw1. split; [done|]. split; [done|]. rewrite Hw1, forwarded_events by done. split.
    + intros ->. replace (maxAttempts - maxAttempts + 1) with 1 by lia. by rewrite (seqZ_cons maxAttempts 1) by lia.
    + intros Hlt. rewrite seqZ_nil by lia. cbn. by rewrite app_nil_r.
  - by rewrite app_nil_r.
Qed.
End failures.
End InvoiceReminderProcessor.

(** ** [invoice-reminder-dlq.processor.ts] *)
Module InvoiceReminderDlqProcessor.
Section dlq.
Context {W : Type} `{!Prisma W} `{!Clock W} `{!AlertHttp W}.
Variable h : PrismaService.handle.
Variable config : AlertConfig.

Definition or_unknown (failedReason : option string) : string :=
  default "Unknown error after max retries"%string failedReason.

Definition failure_row (data : ReminderData) (errorMessage jobId : string) (attemptCount : Z) (g : gen) : InvoiceReminderFailure :=
  mkInvoiceReminderFailure (g_id g) (id_text (d_invoiceId data)) errorMessage attemptCount (Some jobId) (g_now g).

(** Step 1; the client rejects an [invoiceId] that is not a string. *)
Definition persist (data : ReminderData) (errorMessage jobId : string) (attemptCount : Z) : M exn W unit :=
  _ ← PrismaService.via h PrismaService.m_invoiceReminderFailure
    (match d_invoiceId data with
     | JsString _ => create (failure_row data errorMessage jobId attemptCount)
     | _ => throw (PrismaValidationError "Invalid value for argument invoiceId")
     end);
  mret tt.

Definition failure_alert (data : ReminderData) (errorMessage jobId : string) (attemptCount now : Z) : AnomalyAlert :=
  {| al_id := ("invoice-reminder-dlq-" +:+ jobId)%string;
     al_anomalyType := "invoice_reminder_failure";
     al_affected := default (id_text (d_invoiceId data)) (d_userEmail data);
     al_transactionHash := ("job:" +:+ jobId)%string;
     al_currentMetric := Z_to_string attemptCount;
     al_threshold := Z_to_string attemptCount;
     al_ledger := 0;
     al_occurredAt := toISOString now;
     al_severity := warning;
     al_summary := ("Invoice reminder for " +:+ id_text (d_invoiceId data) +:+ " failed after "
                    +:+ Z_to_string attemptCount +:+ " attempt(s): " +:+ errorMessage)%string |}.

(** Step 2 *)
Definition send_alert (data : ReminderData) (attemptCount : Z) (errorMessage jobId : string) : M exn (Sent * W) unit :=
  try_catch
    (now ← on_world date_now;
     _ ← AlertDispatcherService.dispatch config (failure_alert data errorMessage jobId attemptCount now);
     mret tt)
    (λ _, mret tt).

(** [attemptsMade] and [failedReason] are those of the job in the dead-letter queue. *)
Definition handleDlq (data : ReminderData) (attemptsMade : Z) (failedReason : option string) (jobId : string)
    : M exn (Sent * W) unit :=
  let errorMessage := or_unknown failedReason in
  _ ← try_catch (on_world (persist data errorMessage jobId attemptsMade)) (λ _, mret tt);
  send_alert data attemptsMade errorMessage jobId.

Context `{!PrismaLaws W} `{!ClockLaws W}.
(** Posting an alert does not touch the database. *)
Hypothesis post_elsewhere : ∀ url p w, tables (post_alert url p w).2 = tables w.

Lemma dispatch_keeps_tables (alert : AnomalyAlert) (sentAt : Sent) (w : W) :
  tables (AlertDispatcherService.dispatch config alert (sentAt, w)).2.2 = tables w.
Proof.
  unfold AlertDispatcherService.dispatch. pose proof (clock_law w) as [Hc _]. destruct (clock w) as [now w1]. cbn in Hc.
  destruct (AlertDispatcherService.suppressed _ _ _); [done|]. destruct (negb _); [done|]. cbn. unfold mbind, M_bind.
  match goal with |- context [post_alert ?u ?p w1] => pose proof (post_elsewhere u p w1) as Hp; destruct (post_alert u p w1) as [[s|e] w2] end;
    cbn in Hp |- *; [destruct (_ && _); cbn|]; congruence.
Qed.

(** What the handler leaves behind: at most one failure row, and the state of the dispatcher after
    the alert. *)
Definition dlq_done (data : ReminderData) (attemptsMade : Z) (errorMessage jobId : string) (sentAt : Sent) (w : W)
    (r : outcome exn unit) (s : Sent * W) : Prop :=
  r = Ret tt ∧
  (tables s.2 = tables w ∨
   ∃ g, tables s.2 = set_rows (rows (tables w) ++ [failure_row data errorMessage jobId attemptsMade g]) (tables w)) ∧
  ∃ now w1 w2, clock w1 = (now, w2) ∧
    s = (AlertDispatcherService.dispatch config (failure_alert data errorMessage jobId attemptsMade now) (sentAt, w2)).2.

Lemma wp_send_alert (data : ReminderData) (attemptsMade : Z) (errorMessage jobId : string) (sentAt : Sent) (w w1 : W) :
  (tables w1 = tables w ∨
   ∃ g, tables w1 = set_rows (rows (tables w) ++ [failure_row data errorMessage jobId attemptsMade g]) (tables w)) →
  wp (send_alert data attemptsMade errorMessage jobId) (λ r s, dlq_done data attemptsMade errorMessage jobId sentAt w r s)
    (sentAt, w1).
Proof.
  intros Hw1. apply wp_try, wp_bind, wp_on_world. unfold wp at 1, date_now. pose proof (clock_law w1) as [Hc _].
  destruct (clock w1) as [now w2] eqn:Ec. cbn [fst snd] in Hc |- *. apply wp_bind. unfold wp at 1.
  set (alert := failure_alert _ _ _ _ now). pose proof (dispatch_keeps_tables alert sentAt w2) as Hd.
  destruct (AlertDispatcherService.dispatch config alert (sentAt, w2)) as [r s] eqn:Ed. cbn [fst snd] in Hd |- *.
  rewrite <- Hd in Hc. rewrite <- Hc in Hw1. subst alert.
  destruct r; apply wp_ret; (split; [done|]; split; [done|]; exists now, w1, w2; by rewrite Ed).
Qed.

(** The dead-letter handler never fails, and its two steps do not depend on each other: it writes at
    most one failure row, with the attempts and the reason of the dead-letter job, and whether
    or not that worked it sends the alert of the job through the dispatcher, which remembers
    it. *)
Theorem handleDlq_independent (data : ReminderData) (attemptsMade : Z) (failedReason : option string) (jobId : string)
    (sentAt : Sent) (w : W) :
  wp (handleDlq data attemptsMade failedReason jobId)
    (λ r s, dlq_done data attemptsMade (or_unknown failedReason) jobId sentAt w r s) (sentAt, w).
Proof.
  unfold handleDlq. cbv zeta. apply wp_bind, wp_try, wp_on_world. unfold persist. apply wp_bind. unfold PrismaService.via.
  case_bool_decide; [|apply wp_throw, wp_ret, wp_send_alert; by left].
  destruct (d_invoiceId data) eqn:Hid; try (apply wp_throw, wp_ret, wp_send_alert; by left).
  apply wp_create.
  - intros g w1 [Hw1 _] _ _. apply wp_ret, wp_send_alert. right. by exists g.
  - intros e w1 [Hw1 _]. apply wp_ret, wp_send_alert. by left.
Qed.
End dlq.
End InvoiceReminderDlqProcessor.

(** ** Examples *)
Module ReminderExamples.
Import InvoiceReminderScheduler InvoiceReminderProcessor InvoiceReminderDlqProcessor.

(** A queue that takes every job; the clock stands at the given time. *)
Record World := mkWorld { w_now : Z; w_jobs : list ReminderJob; w_dlq : list DlqJob }.

#[local] Instance world_clock : Clock World := {| clock := λ w, (w_now w, w) |}.

#[local] Instance world_queue : ReminderQueue World := {|
  queue_jobs := w_jobs; dlq_jobs := w_dlq;
  getJobs := λ w, (Ret (map job_id (w_jobs w)), w);
  queue_add := λ j w, (Ret tt, mkWorld (w_now w) (enqueue j (w_jobs w)) (w_dlq w));
  dlq_add := λ j w, (Ret tt, mkWorld (w_now w) (w_jobs w) (w_dlq w ++ [j])) |}.

#[local] Instance world_queue_laws : ReminderQueueLaws World.
Proof. by split. Qed.

Definition invoice_ex (n : Z) : Invoice :=
  mkInvoice n (n + 100) FUNDED 1000 "GF" None None None None None None None None 0 0.

Definition extra_ex (i : Invoice) : Extra :=
  mkExtra (Some "u1"%string) (if inv_id i =? 3 then None else Some (mkUser (Some "a@b.c"%string) None))
    (Some "1000"%string) (Due_date 0) None.

Definition due_ex (hours : Z) : M exn World (list Invoice) := mret [invoice_ex 1; invoice_ex 2; invoice_ex 3].

Definition run_ex (w : World) : outcome exn unit * World := scheduleInvoiceReminders due_ex extra_ex w.

Definition before_ex : World := mkWorld 50000000 [] [].

(** The second run in the window adds nothing, a run in the next window adds new jobs. *)
Lemma schedule_idempotent_witness :
  map job_id (w_jobs (run_ex before_ex).2) = ["reminder:1:2"; "reminder:2:2"]%string ∧
  w_jobs (run_ex (run_ex before_ex).2).2 = w_jobs (run_ex before_ex).2 ∧
  length (w_jobs (run_ex (mkWorld 70000000 (w_jobs (run_ex before_ex).2) [])).2) = 4%nat.
Proof.
  split; [vm_compute; reflexivity|]. split; [|vm_compute; reflexivity].
  refine (proj2 (schedule_idempotent due_ex extra_ex (λ _ _, eq_refl) (run_ex before_ex).2) _).
  intros i j Hi Hj. cbn in Hi. repeat (apply elem_of_cons in Hi as [->|Hi]; [|]); [| | |by apply elem_of_nil in Hi].
  - vm_compute in Hj. injection Hj as <-. apply (bool_decide_unpack _). vm_compute. exact I.
  - vm_compute in Hj. injection Hj as <-. apply (bool_decide_unpack _). vm_compute. exact I.
  - vm_compute in Hj. discriminate Hj.
Defined.

Definition data_ex (invoiceId : JsValue) : ReminderData :=
  mkData invoiceId None (Some "a@b.c"%string) "Farmer" "1000" (Due_date 0) None.

Definition error_ex (n : Z) : exn := JsError ("attempt " +:+ Z_to_string n)%string.

Lemma dlq_forwards_witness :
  dlq_jobs (failed_events 3 (data_ex (JsString "7")) error_ex 3 before_ex).2
    = [mkDlqJob (data_ex (JsString "7")) "attempt 3"] ∧
  dlq_jobs (failed_events 5 (data_ex (JsString "7")) error_ex 3 before_ex).2 = [] ∧
  map dlq_failedReason (dlq_jobs (failed_events 2 (data_ex (JsString "7")) error_ex 3 before_ex).2)
    = ["attempt 2"; "attempt 3"]%string.
Proof.
  split; [|split; [|vm_compute; reflexivity]].
  - destruct (dlq_forwards 3 (data_ex (JsString "7")) error_ex 3 before_ex) as (_ & _ & H & _); [lia|done|exact (H eq_refl)].
  - destruct (dlq_forwards 5 (data_ex (JsString "7")) error_ex 3 before_ex) as (_ & _ & _ & H); [lia|done|exact (H eq_refl)].
Defined.

#[local] Instance no_alert_http : AlertHttp mem := {| post_alert := λ _ _, throw (JsError "ECONNREFUSED") |}.

Definition alerts_ex : AlertConfig := mkAlertConfig (Some "https://alerts"%string) generic 900000 None.

(** The row is written although the alert cannot be posted; a numeric invoice id is rejected, and
    its alert is sent all the same. *)
Lemma handleDlq_independent_witness :
  let w := mkMem empty_db 5000 1 [] in
  let run id := handleDlq PrismaService.full_surface alerts_ex (data_ex id) 1 None "j1" (∅, w) in
  (run (JsString "7")).1 = Ret tt ∧
  map rf_errorMessage (rows (tables (run (JsString "7")).2.2)) = ["Unknown error after max retries"]%string ∧
  dlq_done alerts_ex (data_ex (JsNum (Finite 7 1))) 1 "Unknown error after max retries" "j1" ∅ w
    (run (JsNum (Finite 7 1))).1 (run (JsNum (Finite 7 1))).2 ∧
  tables (run (JsNum (Finite 7 1))).2.2 = tables w ∧
  (run (JsNum (Finite 7 1))).2.1 !! "invoice-reminder-dlq-j1"%string = Some 5001.
Proof.
  intros w run. split; [vm_compute; reflexivity|]. split; [vm_compute; reflexivity|].
  split; [|split; vm_compute; reflexivity].
  assert (∀ url p (w0 : mem), tables (post_alert url p w0).2 = tables w0) as Hpost by done.
  apply (handleDlq_independent PrismaService.full_surface alerts_ex Hpost (data_ex (JsNum (Finite 7 1))) 1 None "j1" ∅ w).
Defined.
End ReminderExamples.
