(* ===== verification/Startup.v ===== *)
(** * What services do when the modules start ([email/email.service.ts],
    [compliance/export-signing.service.ts], [common/redis.service.ts],
    [invoice-reminder/invoice-reminder.module.ts])

    The mail transport that is built from Vault's secrets, the signing key of the exports, the life
    cycle of the Redis client, and the two queues of the reminders with the number of attempts
    that each is registered with. *)
From S2P Require Import Prelude Js Schema Errors Prisma PrismaService Interfaces Auth Vault Compliance Monitoring Reminders.
Open Scope Z_scope.

(** ** [email.service.ts]: [onModuleInit] *)
Module EmailTransport.
Import Principal.

(** The argument of [nodemailer.createTransport]; [NaN] is [None]. *)
Record TransportOptions := mkTransportOptions {
  host : JsValue; port : option Z; secure : bool; user : JsValue; pass : JsValue }.

Definition onModuleInit {TC : TokenCodec} (st : VaultState) : outcome exn TransportOptions :=
  match VaultService.smtp st with
  | Throw e => Throw e
  | Ret smtp =>
      match get smtp "host", get smtp "port", get smtp "secure", get smtp "user", get smtp "password" with
      | Ret host, Ret port, Ret secure, Ret user, Ret pass =>
          Ret (mkTransportOptions host (parseInt (js_String port))
                 match secure with JsString s => String.eqb s "true" | _ => false end user pass)
      | Throw e, _, _, _, _ | _, Throw e, _, _, _ | _, _, Throw e, _, _ | _, _, _, Throw e, _ | _, _, _, _, Throw e => Throw e
      end
  end.

(** Vault's secrets are read in [onApplicationBootstrap], after every [onModuleInit]: the module
    that holds this service cannot start. *)
Lemma transport_before_secrets {TC : TokenCodec} (st : VaultState) : secrets st = None → ∃ e, onModuleInit st = Throw e.
Proof. intros H. unfold onModuleInit, VaultService.smtp, VaultService.accessor, VaultService.requireSecrets. rewrite H. by eexists. Qed.
End EmailTransport.

(** ** [export-signing.service.ts] *)
Module ExportSigningService.
Import Signing.
Section signing.
Context {CR : Crypto} {ED : Ed25519}.

(** [random] is what [Keypair.random()] returns; the service is its key pair. *)
Definition onModuleInit (COMPLIANCE_SIGNING_SECRET : option string) (random : Keypair) : outcome exn Keypair :=
  match loadSigningKey COMPLIANCE_SIGNING_SECRET random with Ret loaded => Ret (keypair loaded) | Throw e => Throw e end.

(** [None] until [onModuleInit] *)
Definition signerPublicKey (this : option Keypair) : outcome exn string :=
  match this with
  | Some k => Ret (Keypair_publicKey k)
  | None => Throw (TypeError "Cannot read properties of undefined (reading 'publicKey')")
  end.

Definition sign (this : option Keypair) (content : string) : outcome exn IntegrityProof :=
  match this with
  | Some k => Ret (signContent k content)
  | None => Throw (TypeError "Cannot read properties of undefined (reading 'sign')")
  end.

(** With a configured secret the service signs with the same key after every restart, and what one
    process has signed the next one's public key verifies. *)
Theorem signatures_survive_restart `{!Ed25519Laws} (secret content : string) (random random' : Keypair) (k k' : Keypair) :
  truthy (trim secret) = true →
  onModuleInit (Some secret) random = Ret k → onModuleInit (Some secret) random' = Ret k' →
  ∃ key proof, signerPublicKey (Some k') = Ret key ∧ sign (Some k) content = Ret proof ∧
    verifyContent key content (sha256 proof) (signature proof) = true.
Proof.
  unfold onModuleInit, loadSigningKey. cbn [fmap option_fmap option_map truthy_opt default]. intros ->.
  cbn. destruct (Keypair_fromSecret _) as [key|e]; [|done]. intros [= <-] [= <-]. exists (Keypair_publicKey key), (signContent key content).
  split; [done|]. split; [done|]. exact (verify_signContent key content).
Qed.
End signing.
End ExportSigningService.

(** ** [redis.service.ts]: the connection *)
Module RedisConnection.

(** The events that the client emits; [disconnect] is not one of them. *)
Inductive event := connect | ready | end_ | error | reconnecting | disconnect.

Definition emitted (e : event) : bool := match e with disconnect => false | _ => true end.

(** [hasClient] is whether [this.client] is set. *)
Record RedisService := mkRedisService { hasClient : bool; isConnected : bool }.

Definition constructed : RedisService := mkRedisService false false.

Definition redisUrl (REDIS_URL : option string) : string :=
  if truthy_opt REDIS_URL then default EmptyString REDIS_URL else "redis://localhost:6379".

Definition on_event (s : RedisService) (e : event) : RedisService :=
  match e with
  | connect => mkRedisService (hasClient s) true
  | disconnect => mkRedisService (hasClient s) false
  | ready | end_ | error | reconnecting => s
  end.

(** [createClient], the handlers, and [connect()], which emits [events] *)
Definition onModuleInit (events : list event) (s : RedisService) : RedisService :=
  fold_left on_event events (mkRedisService true (isConnected s)).

(** The warning of [getClient], which returns the client all the same *)
Definition getClient_warns (s : RedisService) : bool := negb (isConnected s).

Definition quits (s : RedisService) : bool := hasClient s.

(** Once connected the service says that it is connected for good, however the connection ends. *)
Lemma connected_for_good (s : RedisService) (events : list event) :
  isConnected s = true → forallb emitted events = true → isConnected (fold_left on_event events s) = true.
Proof.
  revert s. induction events as [|e events IH]; intros s Hs He; [done|]. cbn in He |- *. apply andb_true_iff in He as [He Hes].
  apply IH; [by destruct e|done].
Qed.
End RedisConnection.

(** ** [invoice-reminder.module.ts]: the queues *)
Module InvoiceReminderModule.
Import InvoiceReminderProcessor.

Inductive Backoff := exponential (delay : Z).

(** [defaultJobOptions] *)
Record JobOptions := mkJobOptions { attempts : Z; backoff : option Backoff; removeOnComplete : Z + bool; removeOnFail : Z }.

Definition invoice_reminder : JobOptions := mkJobOptions 3 (Some (exponential 5000)) (inl 10) 50.
Definition invoice_reminder_dlq : JobOptions := mkJobOptions 1 None (inr true) 50.

Section life.
Context {W : Type} `{!ReminderQueue W}.
Variable toLocaleDateString : Z → string.
Variable sendMail : option string → string → M exn W string.
Variable notification_create : option (ReminderData → M exn W unit).
Variable INVOICE_REMINDER_MAX_ATTEMPTS : option string.

(** The life of a job in a queue with these options, whose documented behaviour is to run the
    handler until it succeeds or the attempts are used up, and to emit [failed] after each
    failure. *)
Definition job_life (options : JobOptions) (data : ReminderData) : M exn W (unit + JsValue) :=
  for_of (seqZ 1 (attempts options)) tt (λ _ n w,
    match handleReminder toLocaleDateString sendMail notification_create data w with
    | (Ret result, w') => (Ret (inr result), w')
    | (Throw error, w') =>
        (_ ← onFailed (resolveMaxAttempts INVOICE_REMINDER_MAX_ATTEMPTS) data n error; mret (inl tt)) w'
    end).

Definition queue_error (data : ReminderData) : exn :=
  match d_dueDate data with
  | Due_undefined => TypeError "Cannot read properties of undefined (reading 'toLocaleDateString')"
  | _ => TypeError "dueDate.toLocaleDateString is not a function"
  end.

Lemma handleReminder_fails (data : ReminderData) (w : W) :
  handleReminder toLocaleDateString sendMail notification_create (through_queue data) w = (Throw (queue_error data), w).
Proof. destruct data as [id user email name amount due token]. by destruct due. Qed.

Lemma for_of_step {A S R : Type} (n : A) (ns : list A) (s : S) (body : S → A → M exn W (S + R)) (w : W) :
  for_of (n :: ns) s body w = match body s n w with
                              | (Ret (inl s'), w') => for_of ns s' body w'
                              | (Ret (inr x), w') => (Ret (inr x), w')
                              | (Throw e, w') => (Throw e, w')
                              end.
Proof. cbn [for_of]. unfold mbind, M_bind. by destruct (body s n w) as [[[s'|x]|e] w']. Qed.

(** The life of a job that went through the queue is a series of [failed] events. *)
Lemma job_life_fails (options : JobOptions) (data : ReminderData) (w : W) :
  job_life options (through_queue data) w =
  match failed_events (resolveMaxAttempts INVOICE_REMINDER_MAX_ATTEMPTS) (through_queue data) (λ _, queue_error data) (attempts options) w with
  | (Ret _, w') => (Ret (inl tt), w')
  | (Throw e, w') => (Throw e, w')
  end.
Proof.
  unfold job_life, failed_events. generalize (seqZ 1 (attempts options)) as ns. intros ns. revert w.
  induction ns as [|n ns IH]; intros w; [done|]. rewrite !for_of_step, handleReminder_fails. cbv beta iota.
  unfold mbind, M_bind. by destruct (onFailed _ _ n _ w) as [[u|e] w']; [apply IH|].
Qed.

Context `{!Clock W} `{!ReminderQueueLaws W}.

(** What becomes of a reminder: the primary queue has three attempts whatever the environment says,
    every attempt fails on the date that the queue turned into text, and the job is forwarded to
    the dead-letter queue once for every attempt from the configured maximum on: exactly once with
    the default, not at all when four or more attempts are configured, and several times when one
    or two are. *)
Theorem reminder_ends_in_dlq (data : ReminderData) (w : W) :
  (∀ j w, (dlq_add j w).1 = Ret tt) →
  let max := resolveMaxAttempts INVOICE_REMINDER_MAX_ATTEMPTS in
  wp (job_life invoice_reminder (through_queue data)) (λ r w', r = Ret (inl tt) ∧
    dlq_jobs w' = dlq_jobs w ++ replicate (Z.to_nat (4 - max)) (mkDlqJob (through_queue data) (message (queue_error data)))) w.
Proof.
  intros Hup max. assert (1 <= max) as Hmax.
  { unfold max, resolveMaxAttempts. destruct (parseInt _) as [n|]; [|lia]. destruct (Z.ltb_spec 0 n); lia. }
  pose proof (dlq_forwards max (through_queue data) (λ _, queue_error data) 3 w Hmax Hup) as Hf.
  unfold wp in *. rewrite job_life_fails. fold max. cbn [attempts invoice_reminder].
  destruct (failed_events _ _ _ _ w) as [r w']. cbn in Hf. destruct Hf as (-> & Hf & _). cbn. split; [done|]. rewrite Hf. f_equal.
  replace (3 - max + 1) with (4 - max) by lia. unfold seqZ. rewrite map_map. generalize (Z.to_nat (4 - max)) as k. generalize 0%nat as i.
  intros i k. revert i. induction k as [|k IH]; intros i; [done|]. cbn. f_equal. apply IH.
Qed.
End life.
End InvoiceReminderModule.
