(* ===== verification/Endpoints.v ===== *)
(** * The HTTP boundary ([common/contract-error.filter.ts], [common/unauthorized.filter.ts] and
    the controllers)

    What the endpoints call, and how what they throw becomes a response: the two exception
    filters, the guarded backfill, and the controllers whose service lacks the method they
    call.  The framework's own rendering of the other exceptions is a parameter.  The last part
    composes the filters with the session guard of the web client. *)
From S2P Require Import Prelude Js Schema Errors Prisma Retry PrismaService Interfaces Auth Session WalletSession Invoices SettlementEvents Settlement SettlementSync.
Open Scope Z_scope.

(** [res.status(status).json(body)] *)
Record HttpResponse := mkHttpResponse { http_status : Z; http_body : JsValue }.

Definition number (n : Z) : JsValue := JsNum (Finite n 1).

(** ** [contract-error.filter.ts] *)
Module ContractErrorFilter.

(** The text of the enum [ContractErrorCode] *)
Definition code_text (c : ContractErrorCode) : string :=
  match c with
  | InsufficientFunds => "InsufficientFunds"
  | InvoiceExpired => "InvoiceExpired"
  | DuplicateFunding => "DuplicateFunding"
  | Unauthorized => "Unauthorized"
  | InvalidState => "InvalidState"
  | WalletSessionExpired => "WalletSessionExpired"
  end.

Definition STATUS_MAP (c : ContractErrorCode) : Z :=
  match c with
  | InsufficientFunds => 422
  | InvoiceExpired => 410
  | DuplicateFunding => 409
  | Unauthorized => 403
  | InvalidState => 409
  | WalletSessionExpired => 401
  end.

Definition catch (code : ContractErrorCode) (msg : string) : HttpResponse :=
  mkHttpResponse (STATUS_MAP code)
    (JsObject [("statusCode"%string, number (STATUS_MAP code)); ("error"%string, JsString (code_text code)); ("message"%string, JsString msg)]).

Lemma code_text_inj (c d : ContractErrorCode) : code_text c = code_text d → c = d.
Proof. by destruct c, d. Qed.

(** The map is total: no code falls back to the status 500, and every one is a client error. *)
Lemma STATUS_MAP_range (c : ContractErrorCode) : 400 <= STATUS_MAP c < 500.
Proof. destruct c; cbn; lia. Qed.
End ContractErrorFilter.

(** ** [unauthorized.filter.ts] *)
Module UnauthorizedExceptionFilter.

(** [response], what [exception.getResponse()] gives: a text, or an object with a message *)
Definition message_of (response : JsValue) : JsValue :=
  match response with
  | JsObject fields => if existsb (λ f, String.eqb f.1 "message") fields then property fields "message" else response
  | _ => response
  end.

Definition catch (response : JsValue) : HttpResponse :=
  mkHttpResponse 401
    (JsObject [("statusCode"%string, number 401); ("error"%string, JsString "WALLET_SESSION_EXPIRED");
               ("message"%string, coalesce (message_of response) (JsString "Wallet session has expired or is invalid"))]).
End UnauthorizedExceptionFilter.

(** ** Rendering what a handler throws *)
Section rendering.

(** The framework: the response object of an exception with a message, and its own filter. *)
Class ExceptionLayer := {
  getResponse : Z → string → JsValue;
  base_filter : exn → HttpResponse }.

Context {EL : ExceptionLayer}.

(** [contract_filter]: the controller has [@UseFilters(ContractErrorFilter)]; the other filter
    is global ([main.ts]). *)
Definition render (contract_filter : bool) (e : exn) : HttpResponse :=
  match e with
  | ContractError code msg => if contract_filter then ContractErrorFilter.catch code msg else base_filter e
  | HttpException 401 msg => UnauthorizedExceptionFilter.catch (getResponse 401 msg)
  | _ => base_filter e
  end.

(** The answer of an endpoint whose result is written with the status [created]. *)
Definition respond {A W : Type} (contract_filter : bool) (created : Z) (to_json : A → JsValue) (handler : M exn W A) : W → HttpResponse * W :=
  λ w, match handler w with
       | (Ret a, w') => (mkHttpResponse created (to_json a), w')
       | (Throw e, w') => (render contract_filter e, w')
       end.
End rendering.

(** ** Controllers *)

(** [this.service.m(...)]: a method that the class of the service does not define is
    [undefined] at run time. *)
Definition call {W A : Type} (methods : list string) (m : string) (op : M exn W A) : M exn W A :=
  if existsb (String.eqb m) methods then op else throw (TypeError (m +:+ " is not a function")%string).

(** [settlement.controller.ts] and [invoice/invoice.controller.ts]; [op] is what a method of
    the name would do. *)
Definition SettlementService_methods : list string := ["settleInvoice"; "settleInvoiceWithTx"].
Definition InvoiceService_methods : list string := ["findInvoicesDueSoon"; "findById"].

Definition SettlementController_settle {W A : Type} (op : M exn W A) : M exn W A := call SettlementService_methods "settle" op.
Definition InvoiceController_create {W A : Type} (op : M exn W A) : M exn W A := call InvoiceService_methods "create" op.
Definition InvoiceController_findAll {W A : Type} (op : M exn W A) : M exn W A := call InvoiceService_methods "findAll" op.
Definition InvoiceController_findOne {W A : Type} (op : M exn W A) : M exn W A := call InvoiceService_methods "findOne" op.

(** [compliance/compliance.scheduler.ts]: every night at midnight; an error is logged. *)
Definition ComplianceService_methods : list string :=
  ["exportTransactionsInline"; "enqueueTransactionsExport"; "exportInvestorReportInline"; "enqueueInvestorReportExport";
   "getJob"; "downloadJob"; "processJob"; "buildTransactionsExport"; "buildInvestorExport"; "loadAuthorizedJob"].

Definition runRetentionCleanup {W : Type} (op : M exn W unit) : M exn W unit :=
  try_catch (call ComplianceService_methods "cleanupExpiredRecords" op) (λ _, mret tt).

Module InvoicesController.
Section controller.
Context {W : Type} `{!Prisma W} (h : PrismaService.handle).

Definition findAll : M exn W (list InvoicesService.InvoiceDto) := InvoicesService.findAll h.

Definition findOne (onchainId : string) : M exn W InvoicesService.InvoiceDto :=
  invoice ← InvoicesService.findOne h onchainId;
  match invoice with
  | None => throw (NotFoundException ("Invoice " +:+ onchainId +:+ " not found")%string)
  | Some i => mret i
  end.

Definition events (id : string) : M exn W (list InvoiceEventService.InvoiceEventDto) := InvoicesService.events h id.
Definition farmerDashboard (address : string) : M exn W (list InvoicesService.InvoiceDto) := InvoicesService.byFarmer h address.
Definition investorDashboard (address : string) : M exn W (list InvoicesService.InvoiceDto) := InvoicesService.byInvestor h address.
End controller.
End InvoicesController.

(** [settlement-sync-admin.controller.ts] and [settlement/dto/backfill.dto.ts]: the validators
    of the DTO ([valid]) are not applied, since no validation pipe is installed. *)
Module SettlementSyncAdminController.

Record BackfillDto := mkBackfillDto { fromLedger : Z; toLedger : Z }.

(** [@IsInt() @Min(1) @Max(2_147_483_647)] and [ToLedgerGteFromLedger] *)
Definition ToLedgerGteFromLedger (dto : BackfillDto) : bool := fromLedger dto <=? toLedger dto.

Definition valid (dto : BackfillDto) : bool :=
  (1 <=? fromLedger dto) && ((1 <=? toLedger dto) && (toLedger dto <=? 2147483647)) && ToLedgerGteFromLedger dto.

Section controller.
Context {W A : Type} (backfill : Z → Z → M exn W A).

Definition endpoint (payload : JsValue) (dto : BackfillDto) : M exn W A :=
  access ← AccessGuard.of_outcome (admin_access payload);
  if (access : bool) then backfill (fromLedger dto) (toLedger dto)
  else throw (ForbiddenException "Forbidden resource").

(** The endpoint runs for a token whose role is exactly "admin", and for no other; a token that
    the strategy refuses, or that has another role, changes nothing. *)
Lemma endpoint_guarded (payload : JsValue) (dto : BackfillDto) (w : W) :
  match JwtStrategy.validate payload with
  | Ret u =>
      (JwtStrategy.role u = JsString "admin" → endpoint payload dto w = backfill (fromLedger dto) (toLedger dto) w) ∧
      (JwtStrategy.role u ≠ JsString "admin" → endpoint payload dto w = (Throw (ForbiddenException "Forbidden resource"), w))
  | Throw e => endpoint payload dto w = (Throw e, w)
  end.
Proof.
  unfold endpoint, admin_access, mbind, M_bind. destruct (JwtStrategy.validate payload) as [u|e]; [|done].
  cbn. split; [by intros ->|]. intros Hne.
  destruct (JwtStrategy.role u) as [| | |s| | | |]; cbn; try done.
  destruct (String.eqb_spec s "admin") as [->|]; done.
Qed.
End controller.
End SettlementSyncAdminController.

(** ** From the filters to the browser *)
Section composition.
Context {EL : ExceptionLayer} {N : Type} {BR : Browser N} {TC : TokenCodec}.

(** [res.json] as the browser reads it *)
Definition as_response (r : HttpResponse) : Response :=
  mkResponse (http_status r) ((200 <=? http_status r) && (http_status r <=? 299)) (Some "application/json; charset=utf-8"%string) (Ret (http_body r)).

Definition is_unauthorized (e : exn) : bool := match e with HttpException 401 _ => true | _ => false end.

(** The framework's own error bodies name the error in words of their own. *)
Definition foreign_bodies : Prop :=
  ∀ e, Principal.get (http_body (base_filter e)) "error" ≠ Ret (JsString "WALLET_SESSION_EXPIRED").

Lemma guarded_fetch_as_response (r : HttpResponse) (url : string) (options : RequestInit) (p : Page) (n n' : N) :
  fetch url options n = (Ret (as_response r), n') →
  WalletSessionGuard.guarded_fetch url options (p, n) =
    (Ret (as_response r), (if (http_status r =? 401)
        && match WalletSessionGuard.session_expired (http_body r) with Ret b => b | Throw _ => false end
      then WalletSessionGuard.sign_out p else p, n')).
Proof.
  intros H. unfold WalletSessionGuard.guarded_fetch, mbind, M_bind, on_world. rewrite H.
  change (status (as_response r)) with (http_status r).
  change (match content_type (as_response r) with Some t => includes t "application/json" | None => false end) with true.
  rewrite andb_true_r.
  destruct (http_status r =? 401); [|done]. unfold try_catch. cbn [json as_response AccessGuard.of_outcome andb].
  unfold mret at 1, M_ret. destruct (WalletSessionGuard.session_expired (http_body r)) as [[]|]; done.
Qed.

Lemma session_expired_other (body : JsValue) :
  Principal.get body "error" ≠ Ret (JsString "WALLET_SESSION_EXPIRED") →
  match WalletSessionGuard.session_expired body with Ret b => b | Throw _ => false end = false.
Proof.
  unfold WalletSessionGuard.session_expired. destruct (Principal.get body "error") as [v|]; [|done].
  destruct v; try done. intros H. destruct (String.eqb_spec s "WALLET_SESSION_EXPIRED"); [by subst|done].
Qed.

End composition.

(** ** Concrete endpoints *)
Module EndpointExamples.
#[local] Existing Instance TokenExamples.toy_codec.

#[local] Instance layer_ex : ExceptionLayer := {|
  getResponse := λ st msg, JsObject [("statusCode"%string, number st); ("message"%string, JsString msg); ("error"%string, JsString "Unauthorized")];
  base_filter := λ e, mkHttpResponse (match e with HttpException st _ => st | _ => 500 end)
    (JsObject [("statusCode"%string, number 500); ("message"%string, JsString (message e))]) |}.

(** A browser whose server throws [e]. *)
Definition browser_of (e : exn) : Browser unit := {|
  fetch := λ _ _, mret (as_response (render true e));
  token_cookie := mret None; FreighterApi := None; lobstrVault := None; xBullSDK := None |}.


(** The settlement endpoint and those of the authenticated invoice controller answer 500,
    whatever the service could do. *)
Example missing_methods {W A : Type} (op : M exn W A) (to_json : A → JsValue) (w : W) :
  http_status (respond true 201 to_json (SettlementController_settle op) w).1 = 500 ∧
  http_status (respond false 201 to_json (InvoiceController_create op) w).1 = 500 ∧
  http_status (respond false 200 to_json (InvoiceController_findAll op) w).1 = 500 ∧
  http_status (respond false 200 to_json (InvoiceController_findOne op) w).1 = 500.
Proof. done. Qed.

(** The nightly cleanup never cleans anything up, and reports nothing to its caller. *)
Example retention_never_runs {W : Type} (op : M exn W unit) (w : W) : runRetentionCleanup op w = (Ret tt, w).
Proof. reflexivity. Qed.

(** A request that the validators of the DTO would refuse reaches the service. *)
Example unvalidated_backfill :
  SettlementSyncAdminController.valid (SettlementSyncAdminController.mkBackfillDto 50 10) = false ∧
  SettlementSyncAdminController.endpoint (λ a b, mret (a, b)) (SessionExamples.payload_ex "admin")
    (SettlementSyncAdminController.mkBackfillDto 50 10) tt = (Ret (50, 10), tt).
Proof. done. Qed.
End EndpointExamples.
