(* ===== verification/OfflineQueue.v ===== *)
(** * The offline queue of the web client ([frontend/hooks/useOfflineQueue.ts])

    Mutations made while offline are kept in IndexedDB and replayed in order when the network
    is back.  IndexedDB, the replaying of one mutation and the callbacks of the caller are
    parameters; [replays] is the sequence of replays that were attempted, for the
    specifications. *)
From S2P Require Import Prelude Js Schema Errors Prisma.
Open Scope Z_scope.

Inductive QueueItemStatus := queued | replaying | succeeded | failed | conflict.
#[export] Instance QueueItemStatus_eq : EqDecision QueueItemStatus.
Proof. solve_decision. Defined.

(** Timestamps are kept as milliseconds, the payload as its serialized text. *)
Record QueuedMutation := mkMutation {
  qm_id : string;
  qm_label : string;
  qm_payload : string;
  qm_createdAt : Z;
  qm_status : QueueItemStatus;
  qm_attempts : Z;
  qm_lastAttemptAt : option Z;
  qm_lastError : option string }.

(** The object store [mutations] (its key path is [id]) and the server behind [onReplay]. *)
Class OfflineWorld (W : Type) := {
  store : W → gmap string QueuedMutation;
  replays : W → list QueuedMutation;
  store_add : QueuedMutation → M exn W unit;
  store_put : QueuedMutation → M exn W unit;
  store_get : string → M exn W (option QueuedMutation);
  store_getAll : M exn W (list QueuedMutation);
  store_delete : string → M exn W unit;
  onReplay : QueuedMutation → M exn W unit }.

(** A failed request leaves the store as it was; only [onReplay] replays. *)
Definition request {W A : Type} `{!OfflineWorld W} (m : M exn W A) (w : W)
    (P : A → gmap string QueuedMutation → Prop) : Prop :=
  let '(r, w') := m w in
  replays w' = replays w ∧ match r with Ret a => P a (store w') | Throw _ => store w' = store w end.

Class OfflineWorldLaws (W : Type) `{!OfflineWorld W} `{!Clock W} := {
  store_add_law : ∀ item w, request (store_add item) w (λ _ s, store w !! qm_id item = None ∧ s = <[qm_id item := item]> (store w));
  store_put_law : ∀ item w, request (store_put item) w (λ _ s, s = <[qm_id item := item]> (store w));
  store_get_law : ∀ id w, request (store_get id) w (λ r s, r = store w !! id ∧ s = store w);
  store_getAll_law : ∀ w, request store_getAll w (λ l s, l ≡ₚ (map_to_list (store w)).*2 ∧ s = store w);
  store_delete_law : ∀ id w, request (store_delete id) w (λ _ s, s = delete id (store w));
  clock_offline : ∀ w, store (clock w).2 = store w ∧ replays (clock w).2 = replays w;
  onReplay_law : ∀ item w, store (onReplay item w).2 = store w ∧ replays (onReplay item w).2 = replays w ++ [item] }.

Module OfflineQueue.

(** ** The public helpers *)
Section helpers.
Context {W : Type} `{!OfflineWorld W} `{!Clock W}.

(** [random] is the text that [Math.random()] contributes to the id. *)
Definition enqueueMutation (random label payload : string) : M exn W QueuedMutation :=
  idAt ← date_now;
  createdAt ← date_now;
  let item := mkMutation (Z_to_string idAt +:+ "-" +:+ random)%string label payload createdAt queued 0 None None in
  _ ← store_add item;
  mret item.

Definition created_le (a b : QueuedMutation) : Prop := qm_createdAt a <= qm_createdAt b.

#[export] Instance created_le_dec : RelDecision created_le.
Proof. intros a b. unfold created_le. apply _. Defined.

Definition getAllQueuedItems : M exn W (list QueuedMutation) :=
  items ← store_getAll;
  mret (merge_sort created_le items).

(** [{ ...item, status }] *)
Definition with_status (item : QueuedMutation) (status : QueueItemStatus) : QueuedMutation :=
  mkMutation (qm_id item) (qm_label item) (qm_payload item) (qm_createdAt item) status (qm_attempts item)
    (qm_lastAttemptAt item) (qm_lastError item).

(** [extra item] is [{ ...item, ...extra }]. *)
Definition setQueueItemStatus (id : string) (status : QueueItemStatus) (extra : QueuedMutation → QueuedMutation) : M exn W unit :=
  item ← store_get id;
  match item with
  | None => mret tt
  | Some item => store_put (with_status (extra item) status)
  end.
End helpers.

(** ** The hook *)
Section hook.
Context {W : Type} `{!OfflineWorld W} `{!Clock W}.
Variable maxAttempts : Z.
Variable onReplaySuccess : QueuedMutation → M exn W unit.
Variable onReplayError : QueuedMutation → exn → M exn W unit.
Variable onConflict : QueuedMutation → JsValue → M exn W unit.
Variable JSON_parse : string → option JsValue.

Definition pending (item : QueuedMutation) : bool :=
  bool_decide (qm_status item = queued) || bool_decide (qm_status item = failed).

(** [item] with one more attempt, at [now]. *)
Definition as_replaying (item : QueuedMutation) (now : Z) : QueuedMutation :=
  mkMutation (qm_id item) (qm_label item) (qm_payload item) (qm_createdAt item) replaying (qm_attempts item + 1)
    (Some now) (qm_lastError item).

Definition as_failed (item : QueuedMutation) (status : QueueItemStatus) (error : string) : QueuedMutation :=
  mkMutation (qm_id item) (qm_label item) (qm_payload item) (qm_createdAt item) status (qm_attempts item)
    (qm_lastAttemptAt item) (Some error).

Definition is_conflict (error : string) : bool := startsWith error "CONFLICT:".

Definition serverData (error : string) : JsValue :=
  let serverJson := slice_from 9 error in default (JsString serverJson) (JSON_parse serverJson).

(** What the handler of a failed replay stores. *)
Definition after_error (item : QueuedMutation) (error : string) : QueuedMutation :=
  if is_conflict error then as_failed item conflict error
  else as_failed item (if maxAttempts <=? qm_attempts item then failed else queued) error.

Definition replay_error (item : QueuedMutation) (err : exn) : M exn W unit :=
  _ ← store_put (after_error item (message err));
  if is_conflict (message err) then onConflict (after_error item (message err)) (serverData (message err))
  else onReplayError (after_error item (message err)) err.

(** The body of the loop. *)
Definition replay_item (item : QueuedMutation) : M exn W unit :=
  if maxAttempts <=? qm_attempts item then mret tt
  else
    now ← date_now;
    let item := as_replaying item now in
    _ ← store_put item;
    try_catch (_ ← onReplay item; _ ← store_delete (qm_id item); onReplaySuccess item) (replay_error item).

Definition replay_all : M exn W unit :=
  items ← getAllQueuedItems;
  _ ← for_of (List.filter pending items) tt (λ _ item, _ ← replay_item item; mret (@inl unit unit tt));
  mret tt.

(** The boolean is [replayingRef.current]; [finally] resets it whatever happens. *)
Definition replayQueue : M exn (bool * W) unit := λ '(busy, w),
  if busy then (Ret tt, (busy, w))
  else let '(r, w') := replay_all w in (r, (false, w')).

Inductive Resolution := local | server | merge.

Definition resolved (item : QueuedMutation) (resolution : Resolution) (mergedPayload : option string) : QueuedMutation :=
  mkMutation (qm_id item) (qm_label item)
    (match resolution, mergedPayload with merge, Some p => p | _, _ => qm_payload item end)
    (qm_createdAt item) queued 0 (qm_lastAttemptAt item) None.

Definition resolveConflict (itemId : string) (resolution : Resolution) (mergedPayload : option string) : M exn W unit :=
  match resolution with
  | server => store_delete itemId
  | _ =>
      item ← store_get itemId;
      match item with
      | None => mret tt
      | Some item => store_put (resolved item resolution mergedPayload)
      end
  end.

(** ** Specification *)

Definition eligible (item : QueuedMutation) : bool := pending item && negb (maxAttempts <=? qm_attempts item).

(** What a replay may make of an item: it may not get to it, be cut short in the middle of it, hand
    it to the server and delete it, or store why the server refused it. *)
Inductive replayed (item : QueuedMutation) : option QueuedMutation → Prop :=
| untouched : replayed item (Some item)
| interrupted now : replayed item (Some (as_replaying item now))
| taken now w : (onReplay (as_replaying item now) w).1 = Ret tt → replayed item None
| refused now error : replayed item (Some (after_error (as_replaying item now) error)).

Definition settled (item : QueuedMutation) (after : option QueuedMutation) : Prop :=
  if eligible item then replayed item after else after = Some item.

(** The store is keyed by the ids. *)
Definition keyed (s : gmap string QueuedMutation) : Prop := ∀ id item, s !! id = Some item → qm_id item = id.

Context `{!OfflineWorldLaws W}.

(** The callbacks do not use the queue. *)
Definition aside {A : Type} (m : M exn W A) : Prop :=
  ∀ w, store (m w).2 = store w ∧ replays (m w).2 = replays w.

Hypothesis success_aside : ∀ item, aside (onReplaySuccess item).
Hypothesis error_aside : ∀ item e, aside (onReplayError item e).
Hypothesis conflict_aside : ∀ item v, aside (onConflict item v).

Lemma wp_store_request {A : Type} (m : M exn W A) (P : A → gmap string QueuedMutation → Prop)
    (Φ : outcome exn A → W → Prop) (w : W) :
  request m w P → (∀ a w', replays w' = replays w → P a (store w') → Φ (Ret a) w') →
  (∀ e w', replays w' = replays w → store w' = store w → Φ (Throw e) w') → wp m Φ w.
Proof. unfold request, wp. intros Hm H1 H2. destruct (m w) as [[a|e] w'], Hm; cbn; auto. Qed.

Lemma wp_aside {A : Type} (m : M exn W A) (Φ : outcome exn A → W → Prop) (w : W) :
  aside m → (∀ r w', store w' = store w → replays w' = replays w → Φ r w') → wp m Φ w.
Proof. intros Hm H. destruct (Hm w). by apply H. Qed.

(** A step on one item: the others are as they were, and it is replayed at most once. *)
Definition stepped (item : QueuedMutation) (w w' : W) (count : nat) : Prop :=
  (∀ id, id ≠ qm_id item → store w' !! id = store w !! id) ∧ settled item (store w' !! qm_id item) ∧
  ∃ rl, replays w' = replays w ++ rl ∧ map qm_id rl = repeat (qm_id item) count.

Lemma stepped_intro (item : QueuedMutation) (w w' : W) (after : option QueuedMutation) (rl : list QueuedMutation) :
  eligible item = true → replayed item after → (∀ r, r ∈ rl → qm_id r = qm_id item) →
  store w' = match after with Some a => <[qm_id item := a]> (store w) | None => delete (qm_id item) (store w) end →
  replays w' = replays w ++ rl → stepped item w w' (length rl).
Proof.
  intros He Hr Hrl Hs Hl. split; [|split].
  - intros id Hid. rewrite Hs. destruct after; [by rewrite lookup_insert_ne|by rewrite lookup_delete_ne].
  - unfold settled. rewrite He, Hs. destruct after; [by rewrite lookup_insert_eq|by rewrite lookup_delete_eq].
  - exists rl. split; [done|]. clear Hl. induction rl as [|r rl IH]; [done|]. cbn. rewrite Hrl by set_solver. f_equal.
    apply IH. set_solver.
Qed.

Lemma after_error_id (item : QueuedMutation) (error : string) : qm_id (after_error item error) = qm_id item.
Proof. unfold after_error. by destruct (is_conflict error). Qed.

(** The handler of a failed replay, after the item was replayed. *)
Lemma wp_replay_error (item : QueuedMutation) (now : Z) (err : exn) (w w1 : W) (after : option QueuedMutation)
    (rl : list QueuedMutation) :
  eligible item = true → replayed item after → (∀ r, r ∈ rl → qm_id r = qm_id item) →
  store w1 = match after with Some a => <[qm_id item := a]> (store w) | None => delete (qm_id item) (store w) end →
  replays w1 = replays w ++ rl →
  wp (replay_error (as_replaying item now) err) (λ _ w', stepped item w w' (length rl)) w1.
Proof.
  intros He Hr Hrl Hs Hl. unfold replay_error. apply wp_bind.
  eapply wp_store_request; [apply store_put_law| |].
  - intros [] w2 H2 Hs2. rewrite after_error_id in Hs2. cbn [qm_id as_replaying] in Hs2.
    assert (stepped item w w2 (length rl)) as Hstep.
    { apply (stepped_intro _ _ _ (Some (after_error (as_replaying item now) (message err)))); [done|constructor|done| |congruence].
      rewrite Hs2, Hs. by destruct after; [rewrite insert_insert_eq|rewrite insert_delete_eq]. }
    destruct (is_conflict _); (eapply wp_aside; [auto|]); intros r w3 Hs3 Hl3;
      unfold stepped in *; rewrite Hs3, Hl3; exact Hstep.
  - intros e w2 Hl2 Hs2. eapply stepped_intro; [done|exact Hr|done|congruence|congruence].
Qed.

Lemma wp_replay_item (item : QueuedMutation) (w : W) :
  store w !! qm_id item = Some item → pending item = true →
  wp (replay_item item) (λ r w', ∃ count, stepped item w w' count ∧
    match r with Ret _ => count = if eligible item then 1%nat else 0%nat | Throw _ => (count ≤ (if eligible item then 1 else 0))%nat end) w.
Proof.
  intros Hin Hp. unfold replay_item. destruct (maxAttempts <=? qm_attempts item) eqn:Hmax.
  { apply wp_ret. exists 0%nat. assert (eligible item = false) as He by (unfold eligible; by rewrite Hp, Hmax).
    rewrite He. split; [|done]. split; [done|]. unfold settled. rewrite He. split; [done|].
    exists []. by rewrite app_nil_r. }
  assert (eligible item = true) as He by (unfold eligible; by rewrite Hp, Hmax). rewrite He.
  apply wp_bind. destruct (clock_offline w) as [Hcs Hcl]. unfold wp at 1, date_now. cbn [fst snd]. cbv zeta.
  set (now := (clock w).1). set (w0 := (clock w).2) in *. apply wp_bind.
  eapply wp_store_request; [apply store_put_law| |].
  2: { intros e w1 Hl1 Hs1. exists 0%nat. split; [|lia]. apply (stepped_intro _ _ _ (Some item) []); [done|constructor|set_solver| |].
       - rewrite Hs1, Hcs. by rewrite insert_id.
       - rewrite app_nil_r. congruence. }
  intros [] w1 Hl1 Hs1. cbn [qm_id as_replaying] in Hs1. rewrite Hcs in Hs1. rewrite Hcl in Hl1.
  apply wp_try, wp_bind. destruct (onReplay_law (as_replaying item now) w1) as [Hs2 Hl2]. unfold wp at 1.
  assert (∀ r, r ∈ [as_replaying item now] → qm_id r = qm_id item) as Hid.
  { intros r Hr. by apply list_elem_of_singleton in Hr as ->. }
  destruct (onReplay _ w1) as [[[]|err] w2] eqn:Er; cbn [fst snd] in Hs2, Hl2 |- *.
  2: { eapply wp_mono; [apply (wp_replay_error item now err w w2 (Some (as_replaying item now)) [as_replaying item now]);
         [done|constructor|done|congruence|congruence]|].
       intros r w3 H3. exists 1%nat. split; [exact H3|by destruct r]. }
  apply wp_bind. eapply wp_store_request; [apply store_delete_law| |].
  - intros [] w3 Hl3 Hs3. cbn [qm_id as_replaying] in Hs3.
    assert (replayed item None) as Ht by (apply (taken item now w1); by rewrite Er).
    assert (store w3 = delete (qm_id item) (store w)) as Hs4 by (rewrite Hs3, Hs2, Hs1; apply delete_insert_eq).
    eapply wp_aside; [apply success_aside|]. intros [[]|err] w5 Hs5 Hl5.
    + exists 1%nat. split; [|done]. apply (stepped_intro item w w5 None [as_replaying item now]); [done|done|done|congruence|congruence].
    + eapply wp_mono; [apply (wp_replay_error item now err w w5 None [as_replaying item now]); [done|done|done|congruence|congruence]|].
      intros r w6 H6. exists 1%nat. split; [exact H6|by destruct r].
  - intros err w3 Hl3 Hs3.
    eapply wp_mono; [apply (wp_replay_error item now err w w3 (Some (as_replaying item now)) [as_replaying item now]);
      [done|constructor|done|congruence|congruence]|].
    intros r w4 H4. exists 1%nat. split; [exact H4|by destruct r].
Qed.

(** A replay of the queue: what becomes of each stored item, and the replays that were made. *)
Definition replay_result (r : outcome exn unit) (w w' : W) : Prop :=
  (∀ id, match store w !! id with
         | Some item => settled item (store w' !! id)
         | None => store w' !! id = None
         end) ∧
  ∃ items rl, items ≡ₚ (map_to_list (store w)).*2 ∧ Sorted created_le items ∧ replays w' = replays w ++ rl ∧
    match r with
    | Ret _ => map qm_id rl = map qm_id (List.filter eligible items)
    | Throw _ => map qm_id rl `prefix_of` map qm_id (List.filter eligible items)
    end.

(** The state of the loop after the items [done]. *)
Definition replay_inv (w : W) (done : list QueuedMutation) (w' : W) : Prop :=
  (∀ id, id ∉ map qm_id done → store w' !! id = store w !! id) ∧
  (∀ item, item ∈ done → settled item (store w' !! qm_id item)) ∧
  ∃ rl, replays w' = replays w ++ rl ∧ map qm_id rl = map qm_id (List.filter eligible done).

Lemma replay_inv_step (w w1 w2 : W) (done : list QueuedMutation) (item : QueuedMutation) (count : nat) :
  qm_id item ∉ map qm_id done → replay_inv w done w1 → stepped item w1 w2 count →
  (∀ id, id ∉ map qm_id (done ++ [item]) → store w2 !! id = store w !! id) ∧
  (∀ i, i ∈ done ++ [item] → settled i (store w2 !! qm_id i)) ∧
  ∃ rl, replays w2 = replays w ++ rl ∧
    map qm_id rl = map qm_id (List.filter eligible done) ++ repeat (qm_id item) count.
Proof.
  intros Hnew (H1 & H2 & rl & H3 & H4) (S1 & S2 & rl' & S3 & S4). split; [|split].
  - intros id Hid. rewrite map_app in Hid. rewrite S1, H1; set_solver.
  - intros i [Hi|Hi]%elem_of_app; [|by apply list_elem_of_singleton in Hi as ->].
    rewrite S1; [auto|]. intros Heq. apply Hnew. rewrite <- Heq. by apply list_elem_of_fmap_2.
  - exists (rl ++ rl'). rewrite S3, H3, <- app_assoc, map_app, H4, S4. done.
Qed.

Lemma pending_of_stored (w : W) (items : list QueuedMutation) :
  keyed (store w) → items ≡ₚ (map_to_list (store w)).*2 →
  NoDup (map qm_id items) ∧ (∀ item, item ∈ items ↔ store w !! qm_id item = Some item).
Proof.
  intros Hkey Hitems. split.
  - assert (map qm_id items ≡ₚ (map_to_list (store w)).*1) as ->; [|apply NoDup_fst_map_to_list].
    rewrite (Permutation_map qm_id Hitems). rewrite <- list_fmap_compose.
    apply Permutation_refl', list_fmap_ext. intros k [id item] Hk. cbn.
    apply list_elem_of_lookup_2, elem_of_map_to_list in Hk. by apply Hkey.
  - intros item. rewrite Hitems, list_elem_of_fmap. split.
    + intros ([id i] & -> & Hi). apply elem_of_map_to_list in Hi. cbn. by rewrite (Hkey _ _ Hi).
    + intros Hi. exists (qm_id item, item). split; [done|]. by apply elem_of_map_to_list.
Qed.

Lemma eligible_pending (items : list QueuedMutation) :
  List.filter eligible (List.filter pending items) = List.filter eligible items.
Proof.
  induction items as [|item items IH]; [done|]. cbn. destruct (eligible item) eqn:He.
  - assert (pending item = true) as -> by (unfold eligible in He; by apply andb_true_iff in He as [? _]).
    cbn. by rewrite He, IH.
  - destruct (pending item); cbn; [by rewrite He|done].
Qed.

(** The items that the loop has not got to are as they were. *)
Lemma result_of_inv (w w' : W) (items done : list QueuedMutation) :
  keyed (store w) → items ≡ₚ (map_to_list (store w)).*2 →
  (∀ id, id ∉ map qm_id done → store w' !! id = store w !! id) →
  (∀ item, item ∈ done → settled item (store w' !! qm_id item)) →
  (∀ item, item ∈ done → item ∈ items) →
  ∀ id, match store w !! id with
        | Some item => settled item (store w' !! id)
        | None => store w' !! id = None
        end.
Proof.
  intros Hkey Hitems H1 H2 Hsub id. destruct (pending_of_stored w items Hkey Hitems) as [_ Hin].
  destruct (decide (id ∈ map qm_id done)) as [Hid|Hid].
  - apply list_elem_of_fmap in Hid as (item & -> & Hi). pose proof (proj1 (Hin item) (Hsub item Hi)) as ->. auto.
  - rewrite H1 by done. destruct (store w !! id) as [item|]; [|done]. unfold settled. destruct (eligible item); [constructor|done].
Qed.

Lemma replay_all_spec (w : W) :
  keyed (store w) → wp (replay_all) (λ r w', replay_result r w w') w.
Proof.
  intros Hkey. unfold replay_all, getAllQueuedItems. apply wp_bind, wp_bind. eapply wp_store_request; [apply store_getAll_law| |].
  2: { intros e w1 Hl Hs. split; [intros id; rewrite Hs; destruct (store w !! id) as [item|]; [|done];
         unfold settled; destruct (eligible item); [constructor|done]|].
       exists (merge_sort created_le (map_to_list (store w)).*2), []. split; [by rewrite merge_sort_Permutation|].
       split; [apply Sorted_merge_sort, _|]. split; [by rewrite app_nil_r|]. apply prefix_nil. }
  intros l w1 Hl1 [Hperm Hs1]. apply wp_ret. set (items := merge_sort created_le l).
  assert (items ≡ₚ (map_to_list (store w)).*2) as Hitems by (unfold items; by rewrite merge_sort_Permutation).
  assert (Sorted created_le items) as Hsorted by apply (Sorted_merge_sort _ _).
  destruct (pending_of_stored w items Hkey Hitems) as [Hnd Hin]. clearbody items. clear l Hperm.
  apply wp_bind.
  apply (wp_for_of (λ done _ w', replay_inv w done w')).
  - intros done item todo [] w2 Hdone Hinv. apply wp_bind.
    assert (∀ i, i ∈ done ++ item :: todo → i ∈ items ∧ pending i = true) as Hall.
    { intros i Hi. rewrite <- Hdone in Hi. apply list_elem_of_In, List.filter_In in Hi as [Hi ?].
      split; [by apply list_elem_of_In|done]. }
    assert (NoDup (map qm_id (done ++ item :: todo))) as Hnd'.
    { rewrite <- Hdone. clear - Hnd. induction items as [|i items IH]; [constructor|]. cbn in Hnd |- *.
      apply NoDup_cons in Hnd as [Hi Hnd]. destruct (pending i); [|auto]. cbn. apply NoDup_cons. split; [|auto].
      intros Hc. apply Hi. apply list_elem_of_fmap in Hc as (j & -> & Hj).
      apply list_elem_of_In, List.filter_In in Hj as [Hj _]. apply list_elem_of_fmap_2. by apply list_elem_of_In. }
    assert (qm_id item ∉ map qm_id done) as Hnew.
    { rewrite map_app in Hnd'. apply NoDup_app in Hnd' as (_ & Hd & _). intros Hc. apply (Hd _ Hc). cbn. set_solver. }
    destruct (Hall item) as [Hi Hp]; [set_solver|].
    assert (store w2 !! qm_id item = Some item) as Hst.
    { destruct Hinv as (H1 & _). rewrite H1 by done. by apply Hin. }
    eapply wp_mono; [by apply wp_replay_item|]. intros r w3 (count & Hstep & Hcount).
    destruct (replay_inv_step w w2 w3 done item count Hnew Hinv Hstep) as (H1 & H2 & rl & H3 & H4).
    destruct r as [[]|e].
    + apply wp_ret. split; [done|]. split; [done|]. exists rl. split; [done|].
      rewrite H4, List.filter_app, map_app, Hcount. f_equal. cbn. by destruct (eligible item).
    + split.
      * apply (result_of_inv w w3 items (done ++ [item])); auto. intros i Hd. apply Hall. set_solver.
      * exists items, rl. split; [done|]. split; [done|]. split; [done|]. rewrite H4, <- (eligible_pending items), Hdone.
        rewrite List.filter_app, map_app. apply prefix_app. cbn. destruct (eligible item).
        -- destruct count as [|[|]]; [apply prefix_nil| |lia]. cbn. apply prefix_cons, prefix_nil.
        -- assert (count = 0%nat) as -> by lia. apply prefix_nil.
  - intros [] w2 (H1 & H2 & rl & H3 & H4). apply wp_ret. split.
    + apply (result_of_inv w w2 items (List.filter pending items)); auto.
      intros i Hi. apply list_elem_of_In, List.filter_In in Hi as [Hi _]. by apply list_elem_of_In.
    + exists items, rl. split; [done|]. split; [done|]. split; [done|]. by rewrite H4, eligible_pending.
  - split; [intros id _; by rewrite Hs1|]. split; [by intros i ?%elem_of_nil|]. exists []. by rewrite app_nil_r.
Qed.

Definition bounded (s : gmap string QueuedMutation) : Prop :=
  ∀ id item, s !! id = Some item → qm_attempts item <= maxAttempts.

Lemma settled_attempts (item after : QueuedMutation) :
  settled item (Some after) → qm_id after = qm_id item ∧ (qm_attempts item <= maxAttempts → qm_attempts after <= maxAttempts).
Proof.
  unfold settled. destruct (eligible item) eqn:He; [|by intros [= ->]]. unfold eligible in He.
  apply andb_true_iff in He as [_ He]. apply negb_true_iff, Z.leb_gt in He.
  intros H. inversion H; subst; cbn; [done|split; [done|lia]|]. split; [by rewrite after_error_id|].
  unfold after_error. destruct (is_conflict _); cbn; lia.
Qed.

Lemma result_keeps (r : outcome exn unit) (w w' : W) :
  replay_result r w w' → keyed (store w) → keyed (store w') ∧ (bounded (store w) → bounded (store w')).
Proof.
  intros [H _] Hkey.
  assert (∀ id after, store w' !! id = Some after → ∃ item, store w !! id = Some item ∧ settled item (Some after)) as Hfrom.
  { intros id after Ha. specialize (H id). destruct (store w !! id) as [item|]; [|congruence]. exists item. by rewrite <- Ha. }
  split.
  - intros id after Ha. destruct (Hfrom id after Ha) as (item & Hi & Hs). destruct (settled_attempts _ _ Hs) as [-> _]. auto.
  - intros Hb id after Ha. destruct (Hfrom id after Ha) as (item & Hi & Hs). apply (settled_attempts _ _ Hs). eauto.
Qed.


(** An item that was being replayed when the page was closed stays so: no later replay takes it. *)
Lemma interrupted_is_stranded (w : W) (id : string) (item : QueuedMutation) :
  keyed (store w) → store w !! id = Some item → qm_status item = replaying →
  wp replay_all (λ _ w', store w' !! id = Some item) w.
Proof.
  intros Hkey Hi Hs. eapply wp_mono; [by apply replay_all_spec|]. intros r w' [H _]. specialize (H id). rewrite Hi in H.
  unfold settled, eligible, pending in H. by rewrite Hs in H.
Qed.
End hook.
End OfflineQueue.

(** ** Examples *)
Module OfflineExamples.
Import OfflineQueue.

(** The server takes every mutation except those labelled "bad"; the log is what it was sent. *)
Record World := mkWorld { w_store : gmap string QueuedMutation; w_replays : list QueuedMutation; w_now : Z }.

#[local] Instance world_clock : Clock World := {| clock := λ w, (w_now w, w) |}.

Definition set_store (s : gmap string QueuedMutation) (w : World) : World := mkWorld s (w_replays w) (w_now w).

#[local] Instance world_offline : OfflineWorld World := {|
  store := w_store; replays := w_replays;
  store_add := λ item w, match w_store w !! qm_id item with
                         | Some _ => (Throw (JsError "ConstraintError"), w)
                         | None => (Ret tt, set_store (<[qm_id item := item]> (w_store w)) w)
                         end;
  store_put := λ item w, (Ret tt, set_store (<[qm_id item := item]> (w_store w)) w);
  store_get := λ id w, (Ret (w_store w !! id), w);
  store_getAll := λ w, (Ret (map_to_list (w_store w)).*2, w);
  store_delete := λ id w, (Ret tt, set_store (delete id (w_store w)) w);
  onReplay := λ item w, (if String.eqb (qm_label item) "bad" then Throw (JsError "HTTP 500") else Ret tt,
                         mkWorld (w_store w) (w_replays w ++ [item]) (w_now w)) |}.

#[local] Instance world_offline_laws : OfflineWorldLaws World.
Proof.
  split; intros; unfold request; cbn; try done. by destruct (w_store w !! qm_id item) eqn:E.
Qed.

Definition item_ex (id label : string) (createdAt : Z) (status : QueueItemStatus) (attempts : Z) : QueuedMutation :=
  mkMutation id label "{}" createdAt status attempts None None.

Definition items_ex : list QueuedMutation :=
  [item_ex "a" "fund" 20 queued 0; item_ex "b" "bad" 10 queued 2; item_ex "c" "settle" 5 replaying 1].

Definition world_ex : World := mkWorld (list_to_map ((λ i, (qm_id i, i)) <$> items_ex)) [] 1000.

Definition quiet {A : Type} (_ : A) : M exn World unit := mret tt.

Definition run_ex : outcome exn unit * (bool * World) :=
  replayQueue 3 quiet (λ _ _, mret tt) (λ _ _, mret tt) (λ _, None) (false, world_ex).

Lemma keyed_ex : keyed (store world_ex).
Proof.
  intros id item Hi. unfold store, world_offline, world_ex, w_store in Hi.
  apply elem_of_list_to_map_2 in Hi.
  apply list_elem_of_fmap in Hi as (i & [= -> ->] & _). done.
Qed.


(** A callback that throws after a successful replay puts the item back: it is replayed again. *)
Lemma throwing_callback_repeats :
  let run := replayQueue 3 (λ _, throw (JsError "render")) (λ _ _, mret tt) (λ _ _, mret tt) (λ _, None) in
  map qm_label (replays (run (run (false, world_ex)).2).2.2) = ["bad"; "fund"; "fund"]%string.
Proof. vm_compute. reflexivity. Qed.
End OfflineExamples.
