(* ===== verification/IndexedDb.v ===== *)
(** * The store of the offline queue ([src/frontend/hooks/useOfflineQueue.ts], the helpers on
    IndexedDB)

    IndexedDB is a parameter: databases with a version and object stores, connections to them,
    and requests.  The helpers of the hook, which open a connection for every request, make of it
    the store that OfflineQueue.v is written against. *)
From S2P Require Import Prelude Js Schema Errors Prisma OfflineQueue.
Open Scope Z_scope.

Abbreviation object_store := (gmap string QueuedMutation).

Record Database := mkDatabase { db_version : Z; object_stores : gmap string object_store }.

(** [indexedDB.open] with the handler of [upgradeneeded], the requests of a transaction on one
    object store (the key path is [id]), and [close] *)
Class IndexedDb (W : Type) := {
  databases : W → gmap string Database;
  connections : W → Z;
  idb_open : string → Z → (gmap string object_store → gmap string object_store) → M exn W string;
  idb_add : QueuedMutation → string → string → M exn W unit;
  idb_put : QueuedMutation → string → string → M exn W unit;
  idb_get : string → string → string → M exn W (option QueuedMutation);
  idb_getAll : string → string → M exn W (list QueuedMutation);
  idb_delete : string → string → string → M exn W unit;
  idb_close : string → M exn W unit }.

(** The server behind [onReplay] *)
Class Replayer (W : Type) := { replayed : W → list QueuedMutation; replay : QueuedMutation → M exn W unit }.

(** The database after [open]: created, upgraded, or as it was; a higher version is refused. *)
Definition opened (version : Z) (upgrade : gmap string object_store → gmap string object_store) (old : option Database) : option Database :=
  match old with
  | None => Some (mkDatabase version (upgrade ∅))
  | Some d =>
      if db_version d <? version then Some (mkDatabase version (upgrade (object_stores d)))
      else if db_version d =? version then Some d else None
  end.

(** A request on an object store: [f] is what it does to the store, and what it answers. *)
Definition on_store {W A : Type} `{!IndexedDb W} `{!Replayer W} (m : M exn W A) (db name : string) (w : W)
    (P : object_store → A → object_store → Prop) : Prop :=
  let '(r, w') := m w in
  replayed w' = replayed w ∧ connections w' = connections w ∧
  match r with
  | Ret a => ∃ d s s', databases w !! db = Some d ∧ object_stores d !! name = Some s ∧ P s a s' ∧
      databases w' = <[db := mkDatabase (db_version d) (<[name := s']> (object_stores d))]> (databases w)
  | Throw _ => databases w' = databases w
  end.

(** A request that succeeds is committed; one that fails, or that names a store the database does
    not have, changes nothing. *)
Class IndexedDbLaws (W : Type) `{!IndexedDb W} `{!Replayer W} `{!Clock W} := {
  idb_open_law : ∀ name version upgrade w,
    let '(r, w') := idb_open name version upgrade w in
    replayed w' = replayed w ∧
    match r with
    | Ret db => db = name ∧ connections w' = connections w + 1 ∧
        ∃ d, opened version upgrade (databases w !! name) = Some d ∧ databases w' = <[name := d]> (databases w)
    | Throw _ => connections w' = connections w ∧ databases w' = databases w
    end;
  idb_add_law : ∀ item db name w, on_store (idb_add item db name) db name w
    (λ s _ s', s !! qm_id item = None ∧ s' = <[qm_id item := item]> s);
  idb_put_law : ∀ item db name w, on_store (idb_put item db name) db name w (λ s _ s', s' = <[qm_id item := item]> s);
  idb_get_law : ∀ id db name w, on_store (idb_get id db name) db name w (λ s r s', r = s !! id ∧ s' = s);
  idb_getAll_law : ∀ db name w, on_store (idb_getAll db name) db name w (λ s l s', l ≡ₚ (map_to_list s).*2 ∧ s' = s);
  idb_delete_law : ∀ id db name w, on_store (idb_delete id db name) db name w (λ s _ s', s' = delete id s);
  idb_close_law : ∀ db w, ∃ w', idb_close db w = (Ret tt, w') ∧ databases w' = databases w ∧ replayed w' = replayed w ∧
    connections w' = connections w - 1;
  clock_idb : ∀ w, databases (clock w).2 = databases w ∧ replayed (clock w).2 = replayed w;
  replay_law : ∀ item w, databases (replay item w).2 = databases w ∧ replayed (replay item w).2 = replayed w ++ [item] }.

Module QueueStore.

Definition DB_NAME : string := "invoicefi-offline-queue".
Definition DB_VERSION : Z := 1.
Definition STORE_NAME : string := "mutations".

Section helpers.
Context {W : Type} `{!IndexedDb W} `{!Replayer W}.

(** [onupgradeneeded] *)
Definition upgrade (stores : gmap string object_store) : gmap string object_store :=
  match stores !! STORE_NAME with Some _ => stores | None => <[STORE_NAME := ∅]> stores end.

Definition openDB : M exn W string := idb_open DB_NAME DB_VERSION upgrade.

Definition dbTransaction {A : Type} (db : string) (fn : string → string → M exn W A) : M exn W A := fn db STORE_NAME.

(** [const db = await openDB(); const r = await dbTransaction(db, ..., fn); db.close(); return r] *)
Definition with_db {A : Type} (fn : string → string → M exn W A) : M exn W A :=
  db ← openDB;
  r ← dbTransaction db fn;
  _ ← idb_close db;
  mret r.

Definition updateQueueItem (item : QueuedMutation) : M exn W unit := with_db (idb_put item).

Definition removeQueueItem (id : string) : M exn W unit := with_db (idb_delete id).

#[export] Instance offline_world : OfflineWorld W := {
  store w := default ∅ (databases w !! DB_NAME ≫= λ d, object_stores d !! STORE_NAME);
  replays := replayed;
  store_add := λ item, with_db (idb_add item);
  store_put := updateQueueItem;
  store_get := λ id, with_db (idb_get id);
  store_getAll := with_db idb_getAll;
  store_delete := removeQueueItem;
  onReplay := replay }.
End helpers.

Section proofs.
Context {W : Type} `{!IndexedDb W} `{!Replayer W} `{!Clock W} `{!IndexedDbLaws W}.

(** Opening the database, which may create it, does not change what is stored. *)
Lemma opened_store (old : option Database) (d : Database) :
  opened DB_VERSION upgrade old = Some d →
  default ∅ (object_stores d !! STORE_NAME) = default ∅ (old ≫= λ d, object_stores d !! STORE_NAME).
Proof.
  assert (∀ stores : gmap string object_store, default ∅ (upgrade stores !! STORE_NAME) = default ∅ (stores !! STORE_NAME)) as Hup.
  { intros stores. unfold upgrade. destruct (stores !! STORE_NAME) as [s|] eqn:E; [by rewrite E|]. by rewrite lookup_insert_eq. }
  unfold opened. destruct old as [d0|]; [|intros [= <-]; exact (Hup ∅)].
  destruct (_ <? _); [intros [= <-]; exact (Hup (object_stores d0))|]. by destruct (_ =? _); [intros [= <-]|].
Qed.

(** A helper is the request that it makes; a connection stays open when the request fails. *)
Lemma with_db_request {A : Type} (fn : string → string → M exn W A) (w : W) (P : object_store → A → object_store → Prop) :
  (∀ db name w, on_store (fn db name) db name w P) →
  request (with_db fn) w (λ a s', P (store w) a s') ∧
  match (with_db fn w).1 with Ret _ => connections (with_db fn w).2 = connections w | Throw _ => connections w <= connections (with_db fn w).2 <= connections w + 1 end.
Proof.
  intros Hfn. unfold request, with_db, openDB, dbTransaction, mbind, M_bind. cbn [store replays offline_world].
  pose proof (idb_open_law DB_NAME DB_VERSION upgrade w) as Ho. destruct (idb_open _ _ _ w) as [[db|e] w1].
  2: { destruct Ho as (H1 & H2 & H3). cbn. rewrite H1, H2, H3. repeat split; lia. }
  destruct Ho as (H1 & -> & H2 & d & Hd & H3). apply opened_store in Hd.
  pose proof (Hfn DB_NAME STORE_NAME w1) as Hf. unfold on_store in Hf. destruct (fn DB_NAME STORE_NAME w1) as [[a|e] w2].
  2: { destruct Hf as (F1 & F2 & F3). cbn. rewrite F1, F2, F3, H1, H2, H3, lookup_insert_eq. cbn. rewrite Hd. repeat split; lia. }
  destruct Hf as (F1 & F2 & d1 & s & s' & Hd1 & Hs & HP & F3). rewrite H3, lookup_insert_eq in Hd1. injection Hd1 as <-.
  destruct (idb_close_law DB_NAME w2) as (w3 & Hc & C1 & C2 & C3). rewrite Hc. cbn. rewrite C1, C2, C3, F1, F2, F3, H1, H2.
  rewrite lookup_insert_eq. cbn. rewrite lookup_insert_eq. cbn. rewrite Hs in Hd. cbn in Hd. rewrite <- Hd.
  repeat split; [done|lia].
Qed.

End proofs.
End QueueStore.

(** ** A browser *)
Module IndexedDbExamples.
Import QueueStore OfflineQueue.

Record Browser := mkBrowser { b_now : Z; b_databases : gmap string Database; b_connections : Z; b_replayed : list QueuedMutation }.

Definition with_databases (dbs : gmap string Database) (b : Browser) : Browser :=
  mkBrowser (b_now b) dbs (b_connections b) (b_replayed b).

(** A request [f] on an object store that exists *)
Definition in_store {A : Type} (f : object_store → option (A * object_store)) (db name : string) : M exn Browser A := λ b,
  match b_databases b !! db ≫= λ d, object_stores d !! name ≫= λ s, f s ≫= λ r, Some (d, r) with
  | Some (d, (a, s')) => (Ret a, with_databases (<[db := mkDatabase (db_version d) (<[name := s']> (object_stores d))]> (b_databases b)) b)
  | None => (Throw (JsError "NotFoundError"), b)
  end.

#[local] Instance browser_idb : IndexedDb Browser := {
  databases := b_databases; connections := b_connections;
  idb_open := λ name version upgrade b,
    match opened version upgrade (b_databases b !! name) with
    | Some d => (Ret name, mkBrowser (b_now b) (<[name := d]> (b_databases b)) (b_connections b + 1) (b_replayed b))
    | None => (Throw (JsError "VersionError"), b)
    end;
  idb_add := λ item, in_store (λ s, match s !! qm_id item with None => Some (tt, <[qm_id item := item]> s) | Some _ => None end);
  idb_put := λ item, in_store (λ s, Some (tt, <[qm_id item := item]> s));
  idb_get := λ id, in_store (λ s, Some (s !! id, s));
  idb_getAll := in_store (λ s, Some ((map_to_list s).*2, s));
  idb_delete := λ id, in_store (λ s, Some (tt, delete id s));
  idb_close := λ _ b, (Ret tt, mkBrowser (b_now b) (b_databases b) (b_connections b - 1) (b_replayed b)) }.

#[local] Instance browser_replayer : Replayer Browser := {
  replayed := b_replayed;
  replay := λ item b, (Ret tt, mkBrowser (b_now b) (b_databases b) (b_connections b) (b_replayed b ++ [item])) }.

#[local] Instance browser_clock : Clock Browser := {|
  clock := λ b, (b_now b, mkBrowser (b_now b + 1) (b_databases b) (b_connections b) (b_replayed b)) |}.

Lemma in_store_on {A : Type} (f : object_store → option (A * object_store)) db name w (P : object_store → A → object_store → Prop) :
  (∀ s a s', f s = Some (a, s') → P s a s') → on_store (in_store f db name) db name w P.
Proof.
  intros HP. unfold on_store, in_store. cbn. destruct (b_databases w !! db) as [d|] eqn:Hd; cbn; [|done].
  destruct (object_stores d !! name) as [s|] eqn:Hs; cbn; [|done]. destruct (f s) as [[a s']|] eqn:Hf; cbn; [|done].
  split; [done|]. split; [done|]. exists d, s, s'. repeat split; auto.
Qed.

#[local] Instance browser_laws : IndexedDbLaws Browser.
Proof.
  split; try (intros; apply in_store_on; intros s a s' Hs; repeat case_match; by simplify_eq).
  - intros name version up w. cbn. destruct (opened version up (b_databases w !! name)) as [d|] eqn:E; cbn; [|done].
    split; [done|]. split; [done|]. split; [done|]. by exists d.
  - intros db w. eexists. by repeat split.
  - done.
  - done.
Qed.

Definition empty_ex : Browser := mkBrowser 1000 ∅ 0 [].
Definition queued_ex : Browser := (enqueueMutation "r" "fund invoice" "{}" (enqueueMutation "q" "list invoice" "{}" empty_ex).2).2.


(** A request that fails, here the addition of an id that is taken, leaves a connection open. *)
Lemma connection_leaked :
  let item := mkMutation "1" "fund" "{}" 0 queued 0 None None in
  let b := (store_add item empty_ex).2 in
  (store_add item b).1 = Throw (JsError "NotFoundError") ∧ b_connections b = 0 ∧ b_connections (store_add item b).2 = 1.
Proof. vm_compute. by repeat split. Qed.
End IndexedDbExamples.
