(* ===== verification/Connectivity.v ===== *)
(** * Optimistic updates over a network that comes and goes ([src/frontend/hooks/useNetworkStatus.ts],
    [useOptimisticUpdate.ts], [useInvoiceActions.ts])

    The network status with its delayed "offline", the optimistic mutation with its queue,
    replay and conflicts, and the list of the user's actions.  The callbacks that the queue
    calls are asynchronous functions that it does not wait for: the part of one after its first
    await is a detached task, which may run at any later moment. *)
From S2P Require Import Prelude Js Schema Errors Prisma OfflineQueue.
Open Scope Z_scope.

(** ** [useNetworkStatus.ts] *)
Module NetworkStatus.

Definition OFFLINE_THRESHOLD_MS : Z := 3000.

(** [pending] are the timers that have not fired; [timeoutId] is the last one that was set. *)
Record Net := mkNet {
  isOnline : bool;
  wasOnline : bool;
  lastChecked : Z;
  pending : list nat;
  timeoutId : option nat;
  listeners : list nat }.

Definition initial (navigator_onLine : bool) (now : Z) : Net := mkNet navigator_onLine navigator_onLine now [] None [].

(** The new state and the listeners that are called *)
Definition handleOnline (now : Z) (n : Net) : Net * list nat :=
  (mkNet true true now (pending n) (timeoutId n) (listeners n), if wasOnline n then [] else listeners n).

(** A fresh timer of [OFFLINE_THRESHOLD_MS] *)
Definition handleOffline (id : nat) (n : Net) : Net :=
  mkNet (isOnline n) (wasOnline n) (lastChecked n) (pending n ++ [id]) (Some id) (listeners n).

(** The timer [id] fires. *)
Definition timeout (id : nat) (now : Z) (n : Net) : Net :=
  mkNet false false now (List.filter (λ t, negb (t =? id)%nat) (pending n)) (timeoutId n) (listeners n).

(** The cleanup of the effect *)
Definition cleanup (n : Net) : Net :=
  match timeoutId n with
  | Some id => mkNet (isOnline n) (wasOnline n) (lastChecked n) (List.filter (λ t, negb (t =? id)%nat) (pending n)) (timeoutId n) (listeners n)
  | None => n
  end.

Definition onReconnect (cb : nat) (n : Net) : Net :=
  mkNet (isOnline n) (wasOnline n) (lastChecked n) (pending n) (timeoutId n)
    (if existsb (Nat.eqb cb) (listeners n) then listeners n else listeners n ++ [cb]).

Definition unsubscribe (cb : nat) (n : Net) : Net :=
  mkNet (isOnline n) (wasOnline n) (lastChecked n) (pending n) (timeoutId n)
    (List.filter (λ t, negb (t =? cb)%nat) (listeners n)).

Inductive Event := went_online (now : Z) | went_offline (id : nat) | fired (id : nat) (now : Z) | subscribed (cb : nat) | unsubscribed (cb : nat).

Inductive step : Event → Net → Net → Prop :=
| step_online now n : step (went_online now) n (handleOnline now n).1
| step_offline id n : id ∉ pending n → step (went_offline id) n (handleOffline id n)
| step_fired id now n : id ∈ pending n → step (fired id now) n (timeout id now n)
| step_subscribed cb n : step (subscribed cb) n (onReconnect cb n)
| step_unsubscribed cb n : step (unsubscribed cb) n (unsubscribe cb n).

(** The reference and the displayed status agree, so that the listeners are called exactly when
    the status that is displayed goes from offline to online. *)
Lemma was_is_online (b : bool) (now : Z) (n : Net) :
  run step (λ _ _, True) (initial b now) n → wasOnline n = isOnline n.
Proof.
  intros H. refine (run_invariant step (λ _ _, True) (λ n, wasOnline n = isOnline n) _ _ _ H _); [|done].
  intros e n1 n2 Hi _ Hs. by destruct Hs.
Qed.

(** A status that is displayed as offline was set by a timer after the last "online" event. *)
Lemma online_shows (now : Z) (n : Net) : isOnline (handleOnline now n).1 = true.
Proof. done. Qed.

(** A connection that comes back within the threshold does not stop the timer: it fires, and the
    status stays offline although the network is up and no timer is left. *)
Example stuck_offline :
  let n := timeout 1 3000 (handleOnline 1000 (handleOffline 1 (initial true 0))).1 in
  isOnline n = false ∧ pending n = [] ∧ run step (λ _ _, True) (initial true 0) n.
Proof.
  split; [done|]. split; [done|].
  eapply run_more with (e := fired 1 3000); [|done|apply step_fired; set_solver].
  eapply run_more with (e := went_online 1000); [|done|apply step_online].
  eapply run_more with (e := went_offline 1); [apply run_none|done|apply step_offline; set_solver].
Qed.
End NetworkStatus.

(** ** [useOptimisticUpdate.ts] *)
Module OptimisticUpdate.

Inductive OptimisticState := idle | pending | confirmed | error | conflict | queued | replaying.

#[export] Instance OptimisticState_eq : EqDecision OptimisticState.
Proof. solve_decision. Defined.

(** [conflictData]; the payload of the queue is kept as its text. *)
Record Conflict := mkConflict { c_local : JsValue; c_server : JsValue; c_queueItemId : option string }.

Record Hook := mkHook {
  state : OptimisticState;
  optimisticData : option JsValue;
  error_ : option exn;
  conflictData : option Conflict;
  isReplaying : bool;
  queuedItems : list QueuedMutation }.

Definition initial : Hook := mkHook idle None None None false [].

Definition set_state (s : OptimisticState) (h : Hook) : Hook :=
  mkHook s (optimisticData h) (error_ h) (conflictData h) (isReplaying h) (queuedItems h).
Definition set_data (d : option JsValue) (h : Hook) : Hook :=
  mkHook (state h) d (error_ h) (conflictData h) (isReplaying h) (queuedItems h).
Definition set_error (e : option exn) (h : Hook) : Hook :=
  mkHook (state h) (optimisticData h) e (conflictData h) (isReplaying h) (queuedItems h).
Definition set_conflict (c : option Conflict) (h : Hook) : Hook :=
  mkHook (state h) (optimisticData h) (error_ h) c (isReplaying h) (queuedItems h).
Definition set_replaying (b : bool) (h : Hook) : Hook :=
  mkHook (state h) (optimisticData h) (error_ h) (conflictData h) b (queuedItems h).
Definition set_items (l : list QueuedMutation) (h : Hook) : Hook :=
  mkHook (state h) (optimisticData h) (error_ h) (conflictData h) (isReplaying h) l.

Section hook.
(** The configuration: whether [onQueuedReplay] is given, and what the callbacks [onSuccess] and
    [onError] do when they are called; [deserialize] reads the payload of a queued item. *)
Variable onQueuedReplay : bool.
Variable onSuccess : JsValue → outcome exn unit.
Variable onError : exn → JsValue → outcome exn unit.
Variable deserialize : string → JsValue.

(** *** The callbacks given to the queue *)

(** What is left of a callback after its first await *)
Inductive Task := replay_success (item : QueuedMutation) | replay_error (item : QueuedMutation) (err : exn)
  | replay_conflict (item : QueuedMutation) (server : JsValue).

(** The task continues with the items that [getAllQueuedItems] gave. *)
Definition continue_ (t : Task) (items : list QueuedMutation) (h : Hook) : Hook :=
  let h := set_items items h in
  match t with
  | replay_success _ => h
  | replay_error item err =>
      match onError err (deserialize (qm_payload item)) with
      | Throw _ => h
      | Ret _ => set_error (Some err) (set_state error h)
      end
  | replay_conflict item server =>
      set_conflict (Some (mkConflict (deserialize (qm_payload item)) server (Some (qm_id item)))) (set_state conflict h)
  end.

(** *** A replay, and what follows it *)
Inductive Replay := on_reconnect | on_resolve.

Definition start_replay (h : Hook) : Hook := set_state replaying (set_replaying true h).

Definition end_replay (k : Replay) (h : Hook) : Hook :=
  let h := set_replaying false h in
  match k with
  | on_reconnect => if bool_decide (state h = replaying) then set_state idle h else h
  | on_resolve => set_state idle h
  end.

(** *** [mutate] *)

(** Offline, with a replay configured: the mutation is stored, and not made. *)
Definition queues (isOnline : bool) : bool := negb isOnline && onQueuedReplay.

(** The mutation is queued; [queued_item] is what [enqueueMutation] stored. *)
Definition mutate_queued (previousData : JsValue) (queued_item : QueuedMutation) (h : Hook) : Hook :=
  set_items (queuedItems h ++ [queued_item]) (set_state queued (set_data (Some previousData) h)).

Definition mutate_start (previousData : JsValue) (h : Hook) : Hook :=
  set_conflict None (set_error None (set_data (Some previousData) (set_state pending h))).

Inductive MutateResult := success (data : JsValue) | failure (err : exn) | rejected (err : exn).

Definition mutate_failed (previousData : JsValue) (err : exn) (h : Hook) : Hook * MutateResult :=
  let h := set_state error h in
  match onError err previousData with
  | Throw e => (h, rejected e)
  | Ret _ => (set_error (Some err) h, failure err)
  end.

(** [mutationFn] has settled with [answer]; [onSuccess] is called inside the [try]. *)
Definition mutate_end (previousData : JsValue) (answer : outcome exn JsValue) (h : Hook) : Hook * MutateResult :=
  match answer with
  | Throw err => mutate_failed previousData err h
  | Ret serverData =>
      let h := set_data None (set_state confirmed h) in
      match onSuccess serverData with
      | Ret _ => (h, success serverData)
      | Throw err => mutate_failed previousData err h
      end
  end.

(** *** [resolveConflict] *)

(** The conflict came from a queued item. *)
Definition from_queue (c : Conflict) : bool := truthy_opt (c_queueItemId c) && onQueuedReplay.

(** After the queue has taken the resolution: the state, and whether a replay starts. *)
Definition resolve_queued (resolution : OfflineQueue.Resolution) (h : Hook) : Hook * bool :=
  let h := set_conflict None h in
  match resolution with
  | OfflineQueue.server => (set_state idle h, false)
  | _ => (start_replay h, true)
  end.

Definition finalData (c : Conflict) (resolution : OfflineQueue.Resolution) (mergedData : JsValue) : JsValue :=
  match resolution with
  | OfflineQueue.local => c_local c
  | OfflineQueue.server => c_server c
  | OfflineQueue.merge => js_or mergedData (c_local c)
  end.

Definition resolve_inline (c : Conflict) (resolution : OfflineQueue.Resolution) (mergedData : JsValue) (h : Hook) : Hook * outcome exn unit :=
  (set_conflict None (set_state confirmed h), onSuccess (finalData c resolution mergedData)).

Definition reset (h : Hook) : Hook := set_conflict None (set_error None (set_data None (set_state idle h))).

(** *** The machine

    [runs]: the replays that have not ended; [tasks]: the callbacks that have not continued;
    [emitted]: every callback that the queue has called; [awaiting]: the mutations whose answer is
    awaited. *)
Record Config := mkConfig { hook : Hook; runs : list Replay; tasks : list Task; emitted : list Task; awaiting : list JsValue }.

Inductive Event :=
| Mutate (isOnline : bool) (previousData : JsValue) | Queued (isOnline : bool) (previousData : JsValue) (item : QueuedMutation)
| Answer (i : nat) (answer : outcome exn JsValue)
| Reconnect | Emit (t : Task) | Continue (i : nat) (items : list QueuedMutation) | End (i : nat)
| Resolve (resolution : OfflineQueue.Resolution) (mergedData : JsValue) | Reset.

Inductive step : Event → Config → Config → Prop :=
| step_mutate isOnline prev h rs ts em aw : queues isOnline = false →
    step (Mutate isOnline prev) (mkConfig h rs ts em aw) (mkConfig (mutate_start prev h) rs ts em (aw ++ [prev]))
| step_queued isOnline prev item h rs ts em aw : queues isOnline = true →
    step (Queued isOnline prev item) (mkConfig h rs ts em aw) (mkConfig (mutate_queued prev item h) rs ts em aw)
| step_answer i answer prev h rs ts em aw : aw !! i = Some prev →
    step (Answer i answer) (mkConfig h rs ts em aw) (mkConfig (mutate_end prev answer h).1 rs ts em (delete i aw))
| step_reconnect h rs ts em aw : onQueuedReplay = true →
    step Reconnect (mkConfig h rs ts em aw) (mkConfig (start_replay h) (rs ++ [on_reconnect]) ts em aw)
| step_emit t h rs ts em aw : rs ≠ [] → step (Emit t) (mkConfig h rs ts em aw) (mkConfig h rs (ts ++ [t]) (em ++ [t]) aw)
| step_continue i t items h rs ts em aw : ts !! i = Some t →
    step (Continue i items) (mkConfig h rs ts em aw) (mkConfig (continue_ t items h) rs (delete i ts) em aw)
| step_end i k h rs ts em aw : rs !! i = Some k →
    step (End i) (mkConfig h rs ts em aw) (mkConfig (end_replay k h) (delete i rs) ts em aw)
| step_resolve_queued c resolution mergedData h rs ts em aw : conflictData h = Some c → from_queue c = true →
    step (Resolve resolution mergedData) (mkConfig h rs ts em aw)
      (mkConfig (resolve_queued resolution h).1 (if (resolve_queued resolution h).2 then rs ++ [on_resolve] else rs) ts em aw)
| step_resolve_inline c resolution mergedData h rs ts em aw : conflictData h = Some c → from_queue c = false →
    step (Resolve resolution mergedData) (mkConfig h rs ts em aw) (mkConfig (resolve_inline c resolution mergedData h).1 rs ts em aw)
| step_reset h rs ts em aw : step Reset (mkConfig h rs ts em aw) (mkConfig (reset h) rs ts em aw).

Definition start : Config := mkConfig initial [] [] [] [].

(** *** The display follows the replays *)

Definition shows_runs (c : Config) : Prop :=
  (state (hook c) = replaying ∨ isReplaying (hook c) = true) → runs c ≠ [].

Lemma delete_none {A : Type} (i : nat) (l : list A) (a : A) : l !! i = Some a → delete i l = [] → l = [a].
Proof. intros Hi Hd. apply (f_equal length) in Hd. apply lookup_lt_Some in Hi as Hl. rewrite length_delete in Hd by eauto.
  destruct l as [|b [|? ?]]; cbn in *; [lia| |lia]. destruct i; cbn in *; [by simplify_eq|done]. Qed.

Lemma continue_state (t : Task) (items : list QueuedMutation) (h : Hook) :
  isReplaying (continue_ t items h) = isReplaying h ∧ (state (continue_ t items h) = replaying → state h = replaying).
Proof. destruct t; cbn; [done| |done]. by destruct (onError _ _). Qed.

Lemma mutate_end_state (prev : JsValue) (answer : outcome exn JsValue) (h : Hook) :
  isReplaying (mutate_end prev answer h).1 = isReplaying h ∧ state (mutate_end prev answer h).1 ≠ replaying.
Proof.
  unfold mutate_end, mutate_failed. destruct answer as [v|e]; [destruct (onSuccess v)|];
    cbn; try done; by destruct (onError _ _).
Qed.

(** However replays, callbacks, mutations and resolutions interleave, the
    hook shows that it is replaying only while a replay is under way: when the last one has
    ended, neither the state nor the flag says so any more. *)
Theorem display_follows_replays (c : Config) (H : run step (λ _ _, True) start c) :
  runs c = [] → state (hook c) ≠ replaying ∧ isReplaying (hook c) = false.
Proof.
  assert (shows_runs c) as Hc.
  { refine (run_invariant step (λ _ _, True) shows_runs _ _ _ H _); [|by intros [|]].
    intros e c1 c2 HI _ Hs. unfold shows_runs in *.
    destruct Hs as [isOnline prev h rs ts em aw|isOnline prev item h rs ts em aw|i answer prev h rs ts em aw|h rs ts em aw|t h rs ts em aw
      |i t items h rs ts em aw|i k h rs ts em aw|cf res m h rs ts em aw|cf res m h rs ts em aw|h rs ts em aw];
      cbn [hook runs] in *.
    - intros [|]; [done|]. apply HI. by right.
    - intros [|]; [done|]. apply HI. by right.
    - destruct (mutate_end_state prev answer h) as [-> Hne]. intros [|]; [done|]. apply HI. by right.
    - by destruct rs.
    - done.
    - destruct (continue_state t items h) as [-> Hst]. intros [?%Hst|?]; apply HI; auto.
    - destruct k; cbn; [case_bool_decide|]; cbn; intros [|]; done.
    - destruct res; cbn; try (by destruct rs). intros [|]; [done|]. apply HI. by right.
    - intros [|]; [done|]. apply HI. by right.
    - intros [|]; [done|]. apply HI. by right. }
  intros Hr. split.
  - intros E. by apply Hc; [left|].
  - destruct (isReplaying (hook c)) eqn:E; [|done]. exfalso. by apply Hc; [right|].
Qed.

(** *** The verdict of a replay *)

Definition failing (t : Task) : bool := match t with replay_success _ => false | _ => true end.

(** Only the replay and its callbacks go on. *)
Definition undisturbed (e : Event) (c : Config) : Prop :=
  match e with Emit _ | Continue _ _ | End _ => True | _ => False end.

(** The configuration after the network has come back. *)
Definition reconnected (h : Hook) (aw : list JsValue) : Config := mkConfig (start_replay h) [on_reconnect] [] [] aw.

Definition failed_state (h : Hook) : Prop := state h = error ∨ state h = conflict.

Definition verdict_inv (c : Config) : Prop :=
  (runs c = [on_reconnect] ∧ state (hook c) = replaying ∨ runs c = [] ∧ state (hook c) = idle
   ∨ (runs c = [on_reconnect] ∨ runs c = []) ∧ failed_state (hook c)) ∧
  (existsb failing (tasks c) = true → existsb failing (emitted c) = true) ∧
  (existsb failing (emitted c) = true → existsb failing (tasks c) = false → failed_state (hook c)) ∧
  (failed_state (hook c) → existsb failing (emitted c) = true).

Lemma existsb_delete (i : nat) (l : list Task) (t : Task) :
  l !! i = Some t → existsb failing l = failing t || existsb failing (delete i l).
Proof.
  revert i. induction l as [|a l IH]; intros i H; [done|]. destruct i as [|i]; cbn in *; [by simplify_eq|].
  rewrite (IH i H). by rewrite !orb_assoc, (orb_comm (failing a)).
Qed.

Hypothesis Hquiet : ∀ e v, onError e v = Ret tt.

Lemma continue_failing (t : Task) (items : list QueuedMutation) (h : Hook) :
  if failing t then failed_state (continue_ t items h) else state (continue_ t items h) = state h.
Proof. destruct t; cbn; [done| |by right]. rewrite Hquiet. by left. Qed.

Lemma step_verdict (e : Event) (c1 c2 : Config) : verdict_inv c1 → undisturbed e c1 → step e c1 c2 → verdict_inv c2.
Proof.
  intros (H1 & H2 & H3 & H4) Hu Hs. destruct Hs as [| | | |t h rs ts em aw Hrs|i t items h rs ts em aw Ht|i k h rs ts em aw Hk| | |];
    try done; cbn [hook runs tasks emitted] in *; unfold verdict_inv; cbn [hook runs tasks emitted].
  - rewrite !existsb_app. cbn. rewrite !orb_false_r. split; [done|]. destruct (failing t) eqn:Ef; rewrite ?orb_true_r, ?orb_false_r.
    + split; [done|]. split; [done|]. by intros _.
    + split; [done|]. split; [done|done].
  - pose proof (continue_failing t items h) as Hc. rewrite (existsb_delete i ts t Ht) in H2, H3. destruct (failing t) eqn:Ef.
    + cbn in H2. split; [|split; [by intros _; apply H2|split; [done|by intros _; apply H2]]].
      right; right. split; [|done]. destruct H1 as [[? _]|[[? _]|[[?|?] _]]]; auto.
    + unfold failed_state in *. rewrite !Hc in *. cbn in *. split; [done|]. split; [done|]. split; [done|done].
  - destruct H1 as [[-> Hst]|[[-> _]|[[-> | ->] Hst]]]; try done; apply list_lookup_singleton_Some in Hk as [-> <-]; cbn [delete end_replay].
    + change (state (set_replaying false h)) with (state h). rewrite Hst, bool_decide_true by done.
      assert (¬ failed_state h) as Hnf by (intros [E|E]; by rewrite E in Hst).
      split; [right; left; done|]. split; [done|].
      split; [intros He Hte; by destruct (Hnf (H3 He Hte))|by intros [|]].
    + change (state (set_replaying false h)) with (state h).
      rewrite bool_decide_false by (intros E; unfold failed_state in Hst; rewrite E in Hst; by destruct Hst). split; [right; right; by auto|done].
Qed.

End hook.

(** ** The queue's callbacks: [onReplaySuccess], [onReplayError], [onConflict]

    Called without being awaited, each leaves a task behind and returns. *)
Section queue.
Context {N : Type} `{!OfflineWorld N} `{!Clock N}.

#[local] Instance spawning_clock : Clock (list Task * N) := {| clock := λ '(ts, n), ((clock n).1, (ts, (clock n).2)) |}.

#[local] Instance spawning_world : OfflineWorld (list Task * N) := {|
  store := λ w, store w.2; replays := λ w, replays w.2;
  store_add := λ item, on_world (store_add item); store_put := λ item, on_world (store_put item);
  store_get := λ id, on_world (store_get id); store_getAll := on_world store_getAll;
  store_delete := λ id, on_world (store_delete id); onReplay := λ item, on_world (onReplay item) |}.

Definition spawn (t : Task) : M exn (list Task * N) unit := λ '(ts, n), (Ret tt, (ts ++ [t], n)).

Variable JSON_parse : string → option JsValue.

(** [maxAttempts] is not passed by the hook: its default is 3. *)
Definition replayQueue : M exn (bool * (list Task * N)) unit :=
  OfflineQueue.replayQueue 3 (λ item, spawn (replay_success item)) (λ item err, spawn (replay_error item err))
    (λ item server, spawn (replay_conflict item server)) JSON_parse.

Definition replay_item : QueuedMutation → M exn (list Task * N) unit :=
  OfflineQueue.replay_item 3 (λ item, spawn (replay_success item)) (λ item err, spawn (replay_error item err))
    (λ item server, spawn (replay_conflict item server)) JSON_parse.

(** One item calls at most one callback, with that item. *)
Definition task_item (t : Task) : QueuedMutation :=
  match t with replay_success item | replay_error item _ | replay_conflict item _ => item end.

Lemma replay_item_spawns (item : QueuedMutation) (ts : list Task) (n : N) :
  wp (replay_item item) (λ _ '(ts', _), ts' = ts ∨ ∃ t, ts' = ts ++ [t] ∧ qm_id (task_item t) = qm_id item) (ts, n).
Proof.
  unfold replay_item, OfflineQueue.replay_item. destruct (3 <=? qm_attempts item); [by left|].
  apply wp_bind. unfold wp at 1, date_now. cbn [clock spawning_clock fst snd].
  apply wp_bind. cbn [store_put spawning_world]. apply wp_on_world, run_wp. intros [[]|e] n1 _; [|by left].
  assert (∀ err m, wp (OfflineQueue.replay_error 3 (λ item err, spawn (replay_error item err))
      (λ item server, spawn (replay_conflict item server)) JSON_parse (OfflineQueue.as_replaying item (clock n).1) err)
      (λ _ '(ts', _), ts' = ts ∨ ∃ t, ts' = ts ++ [t] ∧ qm_id (task_item t) = qm_id item) (ts, m)) as Herr.
  { intros err m. unfold OfflineQueue.replay_error. apply wp_bind. cbn [store_put spawning_world].
    apply wp_on_world, run_wp. intros [[]|e] m1 _; [|by left].
    destruct (OfflineQueue.is_conflict (message err)); unfold wp; cbn; right; eexists; (split; [done|]); cbn;
      by rewrite OfflineQueue.after_error_id. }
  apply wp_try, wp_bind. cbn [onReplay spawning_world]. apply wp_on_world, run_wp. intros [[]|e] n2 _; [|apply Herr].
  apply wp_bind. cbn [store_delete spawning_world]. apply wp_on_world, run_wp. intros [[]|e] n3 _; [|apply Herr].
  unfold wp. cbn. right. by eexists.
Qed.

(** The callbacks do not use the queue, which is what the queue's own theorem asks of them. *)
Lemma spawn_aside (t : Task) : OfflineQueue.aside (W := list Task * N) (spawn t).
Proof. by intros [ts n]. Qed.
End queue.
End OptimisticUpdate.

(** ** [useInvoiceActions.ts] *)
Module InvoiceActions.

Inductive ActionType := fund | repay | cancel.
Inductive ActionStatus := pending | confirmed.

#[export] Instance ActionStatus_eq : EqDecision ActionStatus.
Proof. solve_decision. Defined.

Definition ActionType_name (t : ActionType) : string := match t with fund => "fund" | repay => "repay" | cancel => "cancel" end.

Record InvoiceAction := mkAction { a_id : string; a_type : ActionType; a_status : ActionStatus; a_timestamp : Z }.

(** The [Map], in insertion order *)
Definition Actions := list (string * InvoiceAction).

(** [map.set(key, value)] keeps the place of a key that is there. *)
Fixpoint map_set (key : string) (value : InvoiceAction) (m : Actions) : Actions :=
  match m with
  | [] => [(key, value)]
  | (k, v) :: m' => if String.eqb k key then (key, value) :: m' else (k, v) :: map_set key value m'
  end.

(** [now] and [now'] are the two readings of the clock. *)
Definition recordAction (invoiceId : string) (type : ActionType) (now now' : Z) (m : Actions) : string * Actions :=
  let actionId := (ActionType_name type +:+ "-" +:+ invoiceId +:+ "-" +:+ Z_to_string now)%string in
  (actionId, map_set actionId (mkAction actionId type pending now') m).

(** The stored object is changed in place. *)
Definition confirmAction (actionId : string) (m : Actions) : Actions :=
  map (λ '(k, a), if String.eqb k actionId then (k, mkAction (a_id a) (a_type a) confirmed (a_timestamp a)) else (k, a)) m.

Definition removeAction (actionId : string) (m : Actions) : Actions :=
  List.filter (λ '(k, _), negb (String.eqb k actionId)) m.

Definition getPendingActions (m : Actions) : list InvoiceAction :=
  List.filter (λ a, bool_decide (a_status a = pending)) (map snd m).

(** The keys are the ids of the actions, without repetition. *)
Definition keyed (m : Actions) : Prop := NoDup (map fst m) ∧ Forall (λ e, a_id e.2 = e.1) m.

Lemma map_set_keys (key : string) (value : InvoiceAction) (m : Actions) (k : string) :
  k ∈ map fst (map_set key value m) ↔ k = key ∨ k ∈ map fst m.
Proof.
  induction m as [|[k' v] m IH]; cbn; [set_solver|]. destruct (String.eqb_spec k' key) as [->|Hne]; cbn; set_solver.
Qed.

Lemma recordAction_keyed (invoiceId : string) (type : ActionType) (now now' : Z) (m : Actions) :
  keyed m → keyed (recordAction invoiceId type now now' m).2.
Proof.
  unfold recordAction. set (key := (_ +:+ _)%string). intros [Hn Hf]. cbn [snd]. unfold keyed.
  induction m as [|[k v] m IH]; cbn; [repeat constructor; set_solver|].
  cbn in Hn. inversion Hn as [|? ? Hk Hn']; subst. inversion Hf as [|? ? He Hf']; subst. destruct (IH Hn' Hf') as [IH1 IH2].
  destruct (String.eqb_spec k key) as [->|Hne]; cbn; (split; [constructor|constructor]); try done.
  rewrite map_set_keys. set_solver.
Qed.

(** What is confirmed is no longer pending, and nothing else changes. *)
Lemma confirmed_not_pending (actionId : string) (m : Actions) (a : InvoiceAction) :
  keyed m → a ∈ getPendingActions (confirmAction actionId m) ↔ a ∈ getPendingActions m ∧ a_id a ≠ actionId.
Proof.
  intros [_ Hf]. unfold getPendingActions, confirmAction. induction m as [|[k v] m IH]; [set_solver|].
  inversion Hf as [|? ? He Hf']; subst. cbn in He. specialize (IH Hf'). cbn.
  destruct (String.eqb_spec k actionId) as [->|Hne]; cbn.
  - destruct (bool_decide (a_status v = pending)) eqn:Ev; cbn; rewrite IH; [|done].
    rewrite elem_of_cons. split; [tauto|]. intros [[->|?] ?]; [congruence|done].
  - destruct (bool_decide (a_status v = pending)) eqn:Ev; cbn; [|done]. rewrite !elem_of_cons, IH. split; [|tauto].
    intros [->|?]; [|tauto]. split; [by left|congruence].
Qed.

(** Two actions of one kind on one invoice within a millisecond are one. *)
Example same_millisecond :
  let m := (recordAction "7" fund 1000 1000 (recordAction "7" fund 1000 1000 []).2).2 in length (getPendingActions m) = 1%nat.
Proof. reflexivity. Qed.
End InvoiceActions.

(** ** Concrete histories *)
Module ConnectivityExamples.
Import OptimisticUpdate.

Definition item_ex (id : string) : QueuedMutation := OfflineExamples.item_ex id "fund" 0 OfflineQueue.queued 1.

Definition quiet (_ : exn) (_ : JsValue) : outcome exn unit := Ret tt.
Definition fine (_ : JsValue) : outcome exn unit := Ret tt.
Definition as_text (s : string) : JsValue := JsString s.

Definition failed_ex : Task := replay_error (item_ex "a") (JsError "HTTP 500").

(** A replay whose only item fails; the callback continues after the replay has ended. *)
Definition after_ex : Config :=
  mkConfig (continue_ quiet as_text failed_ex [item_ex "a"] (end_replay on_reconnect (start_replay initial)))
    [] [] [failed_ex] [].


Definition reconnecting_ex : Config := mkConfig (end_replay on_reconnect (start_replay initial)) [] [] [] [].

Lemma display_follows_replays_witness :
  run (step true fine quiet as_text) (λ _ _, True) start reconnecting_ex ∧
  state (hook reconnecting_ex) ≠ replaying ∧ isReplaying (hook reconnecting_ex) = false.
Proof.
  assert (run (step true fine quiet as_text) (λ _ _, True) start reconnecting_ex) as H.
  { apply (run_more _ _ (End 0) _ (mkConfig (start_replay initial) [on_reconnect] [] [] [])); [|exact I|].
    2: { exact (step_end true fine quiet as_text 0 on_reconnect _ [on_reconnect] [] [] [] eq_refl). }
    apply (run_more _ _ Reconnect _ start); [apply run_none|exact I|].
    exact (step_reconnect true fine quiet as_text initial [] [] [] [] eq_refl). }
  split; [exact H|]. apply (display_follows_replays true fine quiet as_text reconnecting_ex H eq_refl).
Defined.

(** After the resolution of a conflict the end of the replay sets "idle" whatever the item did:
    the second conflict is stored but the hook does not show it. *)
Example second_conflict_hidden :
  let h1 := (resolve_queued OfflineQueue.local (set_state conflict initial)).1 in
  let h2 := end_replay on_resolve (continue_ quiet as_text (replay_conflict (item_ex "a") JsNull) [] h1) in
  state h2 = idle ∧ c_queueItemId <$> conflictData h2 = Some (Some "a"%string).
Proof. done. Qed.

(** A success callback that throws turns a mutation that the server has made into a failure. *)
Example success_reported_as_failure :
  mutate_end (λ _, Throw (JsError "render")) quiet JsNull (Ret (JsString "saved")) initial =
    (set_error (Some (JsError "render")) (set_state error (set_data None (set_state confirmed initial))), failure (JsError "render")).
Proof. reflexivity. Qed.

(** A replay of the stored queue of the offline example: one item is refused for the last time,
    one is taken, and the tasks are left in that order. *)
Example replay_ex :
  let '(r, (busy, (ts, w))) := replayQueue (N := OfflineExamples.World) (OfflineWorld0 := OfflineExamples.world_offline)
      (Clock0 := OfflineExamples.world_clock) (λ _, None) (false, ([], OfflineExamples.world_ex)) in
  r = Ret tt ∧ busy = false ∧ map failing ts = [true; false] ∧ map (λ t, qm_id (task_item t)) ts = ["b"; "a"]%string.
Proof. vm_compute. repeat split. Qed.
End ConnectivityExamples.
