(* ===== verification/Simulation.v ===== *)
(** * Simulating a transaction before it is signed ([src/frontend/hooks/useTransactionSimulation.ts],
    [lib/soroban.ts], [components/TransactionSimulationPreview.tsx])

    The JSON-RPC call and the reading of its answer, the plain-language errors, the details that
    are shown, the preparation of a request from the signer's account, and the preview with its
    Sign button.  [fetch], the Stellar SDK and JSON are parameters; numbers are doubles. *)
From S2P Require Import Prelude Js Schema Errors Prisma Auth Double.
From Stdlib Require Import SpecFloat.
Open Scope Z_scope.

(** ** The platform *)

(** A response of [fetch]: its status, [ok], and its body as JSON, if it is JSON *)
Record FetchResponse := mkFetchResponse { fr_status : Z; fr_ok : bool; fr_json : outcome exn JsValue }.

(** [fetch] of a URL: a GET, or a POST of a JSON-RPC request for a transaction *)
Class Fetch (W : Type) := {
  fetch_get : string → M exn W FetchResponse;
  fetch_simulate : string → string → M exn W FetchResponse }.

Record TransactionSimulationRequest := mkSimulationRequest {
  transactionXdr : string;
  sr_functionName : string;
  sr_contractId : string;
  sr_signerAddress : string;
  sr_xlmBalance : option double;
  sr_rpcUrl : option string }.

Record SimulationDetails := mkSimulationDetails {
  estimatedFeeStroops : double;
  estimatedFeeXlm : double;
  xlmBalanceImpactXlm : double;
  xlmBalanceAfter : option double;
  insufficientBalance : bool;
  sd_contractId : string;
  sd_functionName : string;
  sd_signerAddress : string }.

(** [SimulateTransactionResponse]: [ok] with the fee, or not with the error *)
Inductive SimulateTransactionResponse := SimOk (minResourceFee : double) | SimFailed (error : string).

Inductive SimulationStatus := idle | simulating | sim_success | sim_error.

#[export] Instance SimulationStatus_eq : EqDecision SimulationStatus.
Proof. solve_decision. Defined.

(** ** [useTransactionSimulation.ts] *)
Module TransactionSimulation.
Section rpc.
Context {TC : TokenCodec}.

Definition STROOPS_PER_XLM : Z := 10000000.
Definition BASE_FEE_STROOPS : Z := 100.

(** [publicEnv(key) || fallback] *)
Definition DEFAULT_SOROBAN_RPC_URL (publicEnv : string → option string) : string :=
  let v := publicEnv "NEXT_PUBLIC_SOROBAN_RPC_URL" in
  if truthy_opt v then default EmptyString v else "http://localhost:8001".

Definition stroopsToXlm (stroops : double) : double := Double.div stroops (Double.of_Z STROOPS_PER_XLM).

(** [payload?.error?.data?.error], and so on: reading through [null] and [undefined] *)
Definition chain (v : JsValue) (keys : list string) : JsValue := fold_left Principal.get_field keys v.

(** What the answer to the request says *)
Definition read_response (r : FetchResponse) : SimulateTransactionResponse :=
  match fr_json r with
  | Throw _ => SimFailed "INVALID_RPC_RESPONSE"
  | Ret payload =>
      if negb (fr_ok r) then
        SimFailed (Principal.js_String
          (coalesce (chain payload ["error"; "data"; "error"])
             (coalesce (chain payload ["error"; "message"])
                (JsString ("The Stellar RPC responded with HTTP " +:+ Z_to_string (fr_status r) +:+ ".")%string))))
      else
        let result := chain payload ["result"]%string in
        if negb (js_truthy result) then SimFailed "The Stellar RPC returned an empty simulation result."
        else
          let err := Principal.get_field result "error" in
          if js_truthy err then SimFailed (Principal.js_String err)
          else
            let minResourceFee := Double.of_value (coalesce (Principal.get_field result "minResourceFee") (JsNum (Finite 0 1))) in
            if negb (Double.isFinite minResourceFee) || Double.ltb minResourceFee (Double.of_Z 0)
            then SimFailed "The Stellar RPC returned an invalid fee estimate."
            else SimOk minResourceFee
  end.

Definition simulateTransactionRpc {W : Type} {FE : Fetch W} (publicEnv : string → option string)
    (request : TransactionSimulationRequest) : M exn W SimulateTransactionResponse :=
  if negb (truthy (transactionXdr request)) then mret (SimFailed "EMPTY_TRANSACTION_XDR")
  else
    let url := if truthy_opt (sr_rpcUrl request) then default EmptyString (sr_rpcUrl request) else DEFAULT_SOROBAN_RPC_URL publicEnv in
    try_catch (response ← fetch_simulate url (transactionXdr request); mret (read_response response))
      (λ _, mret (SimFailed "NETWORK_ERROR")).

(** ** Messages: a pattern is a list of texts one of which must occur, whatever the case if [i]. *)
Record Pattern := mkPattern { pat_texts : list string; pat_i : bool }.

Definition pattern_test (p : Pattern) (raw : string) : bool :=
  if pat_i p then existsb (λ t, includes (toLowerCase raw) (toLowerCase t)) (pat_texts p)
  else existsb (includes raw) (pat_texts p).

Definition PREFLIGHT_ERROR_MESSAGES : list (Pattern * string) := [
  (mkPattern ["NETWORK_ERROR"] false, "Could not reach the Stellar network. Check your connection and try again.");
  (mkPattern ["INVALID_RPC_RESPONSE"] true, "The Stellar network returned an unexpected response. Please try again.");
  (mkPattern ["EMPTY_TRANSACTION_XDR"] false,
   "A transaction could not be prepared. Connect your wallet and verify the Stellar network before signing.");
  (mkPattern ["insufficient balance"; "insufficient"] true, "Your account has insufficient balance to pay for this transaction.");
  (mkPattern ["InvalidAccountSeq"] true, "Your account sequence number is out of date. Refresh your wallet and try again.");
  (mkPattern ["CONTRACT_ERROR"; "ContractError"; "does not have authorization"; "unauthorized"] true,
   "The contract rejected this transaction. You may not be authorized, or the invoice may be in an invalid state.");
  (mkPattern ["AlreadyFunded"; "DuplicateFunding"; "already been funded"] true, "This invoice has already been funded.");
  (mkPattern ["InvalidTransition"] true, "This invoice is not in a state that allows this action.");
  (mkPattern ["InvoiceNotFound"; "NotFound"; "not found"] true,
   "The invoice or contract referenced by this transaction could not be found.");
  (mkPattern ["Unreachable"] true, "The contract could not be reached. Verify the contract address and network.")]%string.

Definition humanizePreflightError (raw : string) : string :=
  match List.find (λ p, pattern_test p.1 raw) PREFLIGHT_ERROR_MESSAGES with
  | Some (_, message) => message
  | None =>
      let trimmed := trim raw in
      if truthy trimmed then ("The simulation failed: " +:+ trimmed)%string else "The transaction could not be simulated."
  end.

Definition buildSimulationDetails (request : TransactionSimulationRequest) (minResourceFee : double) : SimulationDetails :=
  let fee := Double.add minResourceFee (Double.of_Z BASE_FEE_STROOPS) in
  let feeXlm := stroopsToXlm fee in
  let after := (λ b, Double.sub b feeXlm) <$> sr_xlmBalance request in
  {| estimatedFeeStroops := fee;
     estimatedFeeXlm := feeXlm;
     xlmBalanceImpactXlm := feeXlm;
     xlmBalanceAfter := after;
     insufficientBalance := match after with Some x => Double.ltb x (Double.of_Z 0) | None => false end;
     sd_contractId := sr_contractId request;
     sd_functionName := sr_functionName request;
     sd_signerAddress := sr_signerAddress request |}.

(** ** The state of the hook *)

Record Hook := mkHook { status : SimulationStatus; details : option SimulationDetails; preflightError : option string }.

Definition reset : Hook := mkHook idle None None.

(** [simulate], up to and after its [await] *)
Definition simulate_start : Hook := mkHook simulating None None.

Definition simulate_end (request : TransactionSimulationRequest) (response : SimulateTransactionResponse) (h : Hook) : Hook :=
  match response with
  | SimFailed err => mkHook sim_error (details h) (Some (humanizePreflightError err))
  | SimOk fee => mkHook sim_success (Some (buildSimulationDetails request fee)) (preflightError h)
  end.

Definition simulate {W : Type} {FE : Fetch W} (publicEnv : string → option string)
    (request : TransactionSimulationRequest) : M exn (Hook * W) bool := λ '(_, w),
  match simulateTransactionRpc publicEnv request w with
  | (Ret response, w') =>
      (Ret (match response with SimOk _ => true | SimFailed _ => false end), (simulate_end request response simulate_start, w'))
  | (Throw e, w') => (Throw e, (simulate_start, w'))
  end.

(** ** Properties *)

Lemma humanize_truthy (raw : string) : truthy (humanizePreflightError raw) = true.
Proof.
  unfold humanizePreflightError. destruct (List.find _ _) as [[p m]|] eqn:E.
  - apply find_some in E as [Hin _]. unfold PREFLIGHT_ERROR_MESSAGES in Hin.
    cbn [In] in Hin. repeat (destruct Hin as [[= <- <-]|Hin]; [done|]). done.
  - by destruct (truthy (trim raw)).
Qed.


(** A fee is only reported when it is a finite number that is not negative. *)
Lemma read_response_fee (r : FetchResponse) (fee : double) :
  read_response r = SimOk fee → fr_ok r = true ∧ Double.isFinite fee = true ∧ Double.ltb fee (Double.of_Z 0) = false.
Proof.
  unfold read_response. destruct (fr_json r); [|done]. destruct (fr_ok r); [|done]. cbn [negb].
  destruct (js_truthy (chain _ _)); [|done]. cbn [negb]. destruct (js_truthy _); [done|].
  destruct (_ || _) eqn:E; [done|]. intros [= <-]. apply orb_false_iff in E as [E1 E2]. by apply negb_false_iff in E1.
Qed.
End rpc.
End TransactionSimulation.

(** ** [lib/soroban.ts] *)

Record AccountSummary := mkAccountSummary { sequence : JsValue; xlmBalance : double }.

(** The Stellar SDK: arguments of a call, and the base64 XDR of a transaction with one call; both
    reject malformed input. *)
Class StellarSdk := {
  ScVal : Type;
  sdk_scValAddress : string → outcome exn ScVal;
  sdk_scValU64 : double → outcome exn ScVal;
  (** an [i128] from its high and low halves *)
  sdk_scValI128 : Z → double → outcome exn ScVal;
  (** source account, its sequence, fee, passphrase, time bound in seconds, contract, function, arguments *)
  sdk_invocation_xdr : string → JsValue → string → string → Z → string → string → list ScVal → outcome exn string }.

Module SorobanClient.
Section client.
Context {W : Type} {TC : TokenCodec} {FE : Fetch W} {SDK : StellarSdk}.
(** [process.env], and [Networks.TESTNET] *)
Variable env : string → option string.

Definition env_or (key fallback : string) : string :=
  if truthy_opt (env key) then default EmptyString (env key) else fallback.

Definition NETWORK_PASSPHRASE : string := env_or "STELLAR_NETWORK_PASSPHRASE" "Test SDF Network ; September 2015".
Definition HORIZON_URL : string := env_or "NEXT_PUBLIC_HORIZON_URL" "http://localhost:8000".

Definition lift {A : Type} (o : outcome exn A) : M exn W A := λ w, (o, w).

(** [(data.balances ?? []).find(b => b.asset_type === 'native')]; entries of the wrong shape throw. *)
Fixpoint find_native (l : list JsValue) : outcome exn (option JsValue) :=
  match l with
  | [] => Ret None
  | b :: l' =>
      match Principal.get b "asset_type" with
      | Throw e => Throw e
      | Ret (JsString t) => if String.eqb t "native" then Ret (Some b) else find_native l'
      | Ret _ => find_native l'
      end
  end.

Definition balances_of (data : JsValue) : outcome exn (list JsValue) :=
  match Principal.get data "balances" with
  | Throw e => Throw e
  | Ret (JsUndefined | JsNull) => Ret []
  | Ret (JsArray l) => Ret l
  | Ret _ => Throw (TypeError "(intermediate value).find is not a function")
  end.

Definition fetchAccountSummary (address : string) (horizonUrl : option string) : M exn W AccountSummary :=
  response ← fetch_get (default HORIZON_URL horizonUrl +:+ "/accounts/" +:+ address)%string;
  if negb (fr_ok response) then
    throw (JsError ("Could not load account " +:+ address +:+ " from Horizon. Check your wallet and network.")%string)
  else
    data ← lift (fr_json response);
    balances ← lift (balances_of data);
    native ← lift (find_native balances);
    mret (mkAccountSummary (Principal.get_field data "sequence")
      (match native with Some b => Double.of_value (Principal.get_field b "balance") | None => Double.of_Z 0 end)).

Definition scValAddress (address : string) : outcome exn ScVal := sdk_scValAddress address.
Definition scValU64 (value : double) : outcome exn ScVal := sdk_scValU64 value.
Definition scValI128 (value : double) : outcome exn ScVal := sdk_scValI128 0 value.

Definition buildContractInvocationXdr (contractId functionName : string) (args : list ScVal) (sourceAddress : string)
    (sourceAccountSeq : JsValue) (networkPassphrase feeStroops : option string) : outcome exn string :=
  sdk_invocation_xdr sourceAddress sourceAccountSeq (default "100"%string feeStroops)
    (default NETWORK_PASSPHRASE networkPassphrase) 30 contractId functionName args.

Definition buildSimulationRequest (contractId functionName : string) (args : list ScVal) (signerAddress : string)
    (networkPassphrase horizonUrl rpcUrl : option string) : M exn W TransactionSimulationRequest :=
  if negb (truthy contractId) then
    throw (JsError "No contract configured. Add NEXT_PUBLIC_INVOICE_CONTRACT_ID to deploy the invoice contract.")
  else if negb (truthy signerAddress) then throw (JsError "No wallet connected. Connect your Freighter wallet first.")
  else
    summary ← fetchAccountSummary signerAddress horizonUrl;
    xdr ← lift (buildContractInvocationXdr contractId functionName args signerAddress (sequence summary) networkPassphrase None);
    mret (mkSimulationRequest xdr functionName contractId signerAddress (Some (xlmBalance summary)) rpcUrl).
End client.
End SorobanClient.

(** ** [components/TransactionSimulationPreview.tsx] *)
Module Preview.
Import TransactionSimulation.

Definition shortAddress (address : string) : string :=
  if (str_length address <=? 13)%nat then address
  else (slice_to 6 address +:+ "…" +:+ slice_from (str_length address - 4) address)%string.

Definition formatXlm (value : double) : string := (Double.toFixed 7 value +:+ " XLM")%string.

(** What the open dialog shows *)
Record Dialog := mkDialog {
  isBusy : bool;
  rows : list (string * string);
  warning : bool;
  alert : option string;
  canSign : bool }.

Definition can_sign (h : Hook) : bool :=
  match status h, details h with sim_success, Some _ => true | _, _ => false end.

Definition detail_rows (d : SimulationDetails) : list (string * string) :=
  [("Estimated fee", formatXlm (estimatedFeeXlm d));
   ("Signer", shortAddress (sd_signerAddress d));
   ("Contract ID", shortAddress (sd_contractId d));
   ("Function", sd_functionName d);
   ("XLM balance impact", "−" +:+ formatXlm (xlmBalanceImpactXlm d) +:+
      match xlmBalanceAfter d with Some x => " (balance after: " +:+ Double.toFixed 2 x +:+ " XLM)" | None => "" end)]%string.

Definition render (open : bool) (h : Hook) : option Dialog :=
  if negb open then None
  else Some {|
    isBusy := match status h with simulating => true | _ => false end;
    rows := if can_sign h then match details h with Some d => detail_rows d | None => [] end else [];
    warning := match details h with Some d => insufficientBalance d | None => false end;
    alert := match status h, preflightError h with
             | sim_error, Some e => if truthy e then Some e else None
             | _, _ => None end;
    canSign := can_sign h |}.

(** The key handler: [focusable] elements of the dialog, the focused one if it is one of them *)
Inductive KeyResult := Cancelled | FocusMoved (index : nat) | Prevented | BrowserDefault.

Definition handleKeyDown (key : string) (shiftKey : bool) (focusable : nat) (active : option nat) : KeyResult :=
  if String.eqb key "Escape" then Cancelled
  else if negb (String.eqb key "Tab") then BrowserDefault
  else if (focusable =? 0)%nat then Prevented
  else if shiftKey && bool_decide (active = Some 0%nat) then FocusMoved (focusable - 1)
  else if negb shiftKey && bool_decide (active = Some (focusable - 1)%nat) then FocusMoved 0
  else BrowserDefault.
End Preview.

(** ** The hook and the preview together *)
Section decides.
Context {TC : TokenCodec} {W : Type} {FE : Fetch W}.
Import TransactionSimulation Preview.

(** A simulation always ends, from whatever state and with whatever network: either it
    returns true, and then the RPC has answered the request with a finite fee, the open preview
    offers to sign and shows no error; or it returns false, and then the preview does not offer to
    sign and shows a message. *)
Theorem simulate_decides (publicEnv : string → option string) (request : TransactionSimulationRequest) (h h' : Hook) (w w' : W)
    (r : outcome exn bool) :
  simulate publicEnv request (h, w) = (r, (h', w')) →
  ∃ b view, r = Ret b ∧ render true h' = Some view ∧ isBusy view = false ∧ canSign view = b ∧
    bool_decide (is_Some (alert view)) = negb b ∧
    (b = true → ∃ url response fee, fetch_simulate url (transactionXdr request) w = (Ret response, w') ∧
       read_response response = SimOk fee ∧ Double.isFinite fee = true ∧ details h' = Some (buildSimulationDetails request fee)).
Proof.
  unfold simulate, simulateTransactionRpc, try_catch, mbind, M_bind. intros H.
  assert (Hfail : ∀ err w1, (r, (h', w')) = (Ret false, (simulate_end request (SimFailed err) simulate_start, w1)) →
    ∃ b view, r = Ret b ∧ render true h' = Some view ∧ isBusy view = false ∧ canSign view = b ∧
      bool_decide (is_Some (alert view)) = negb b ∧
      (b = true → ∃ url response fee, fetch_simulate url (transactionXdr request) w = (Ret response, w') ∧
         read_response response = SimOk fee ∧ Double.isFinite fee = true ∧ details h' = Some (buildSimulationDetails request fee))).
  { intros err w1 [= -> -> ->]. do 2 eexists. split; [done|]. split; [reflexivity|]. cbn. rewrite humanize_truthy.
    by split_and!. }
  destruct (negb (truthy _)); [by eapply Hfail; rewrite <- H|].
  destruct (fetch_simulate _ _ w) as [[response|e] w1] eqn:Hf; [|by eapply Hfail; rewrite <- H].
  cbn -[read_response] in H. destruct (read_response response) as [fee|err] eqn:Hr; [|by eapply Hfail; rewrite <- H].
  injection H as <- <- <-. do 2 eexists. split; [done|]. split; [reflexivity|]. cbn.
  split_and!; [done..|]. intros _. apply read_response_fee in Hr as Hfin. destruct Hfin as (_ & Hfin & _).
  by exists (if truthy_opt (sr_rpcUrl request) then default EmptyString (sr_rpcUrl request) else DEFAULT_SOROBAN_RPC_URL publicEnv), response, fee.
Qed.
End decides.

(** The Tab key never leaves the dialog from its first or last element. *)
Lemma tab_trapped (shift : bool) (n i : nat) :
  (0 < n)%nat → i = (if shift then 0 else n - 1)%nat →
  ∃ j, Preview.handleKeyDown "Tab" shift n (Some i) = Preview.FocusMoved j ∧ (j < n)%nat.
Proof.
  intros Hn ->. unfold Preview.handleKeyDown. cbn. rewrite (proj2 (Nat.eqb_neq n 0)) by lia.
  destruct shift; cbn; rewrite bool_decide_true by done; eexists; (split; [reflexivity|lia]).
Qed.

(** From the dialog itself, which is focused when it opens, Shift+Tab is left to the browser. *)
Example shift_tab_from_dialog : Preview.handleKeyDown "Tab" true 2 None = Preview.BrowserDefault.
Proof. reflexivity. Qed.

(** ** Concrete runs *)
Module SimulationExamples.
Import TransactionSimulation.

#[local] Instance toy_codec : TokenCodec := {|
  hmac_sha256 := λ k s, s; base64url_decode := λ s, s; base64url_encode := λ s, s; JSON_parse := λ _, Ret JsNull;
  JSON_stringify := λ _, EmptyString; decodeURIComponent := Ret; fraction_to_string := λ _ _, EmptyString |}.

(** An RPC whose answer is a fee of 1234 stroops *)
#[local] Instance toy_fetch : Fetch unit := {|
  fetch_get := λ _, throw (TypeError "fetch failed");
  fetch_simulate := λ _ _, mret (mkFetchResponse 200 true
    (Ret (JsObject [("result", JsObject [("minResourceFee", JsString "1234")])])))%string |}.

Definition request_ex : TransactionSimulationRequest :=
  mkSimulationRequest "AAAA" "fund_invoice" "CDEFGHIJKLMNOPQRST" "GABC" (Some (Double.of_Z 5)) None.


Lemma simulate_decides_witness :
  let run := simulate (W:=unit) (λ _, None) request_ex (reset, tt) in
  ∃ view, run.1 = Ret true ∧ Preview.render true run.2.1 = Some view ∧ Preview.canSign view = true ∧
    Preview.rows view = [("Estimated fee", "0.0001334 XLM"); ("Signer", "GABC"); ("Contract ID", "CDEFGH…QRST");
      ("Function", "fund_invoice"); ("XLM balance impact", "−0.0001334 XLM (balance after: 5.00 XLM)")]%string.
Proof.
  intros run. destruct run as [r [h' []]] eqn:E. unfold run in E. clear run.
  destruct (simulate_decides (W:=unit) (λ _, None) request_ex reset h' tt tt r E) as (b & view & Hr & Hv & _ & Hs & _).
  vm_compute in E. injection E as <- <-. injection Hr as <-. exists view. cbn [fst snd].
  split; [reflexivity|]. split; [exact Hv|]. split; [exact Hs|].
  injection Hv as <-. vm_compute. reflexivity.
Defined.
End SimulationExamples.
