(* ===== verification/Wizard.v ===== *)
(** * The invoice wizard ([src/frontend/src/components/InvoiceWizard.tsx])

    The form and its schema, the steps, and the life of a transaction from "Confirm" through its
    simulation to the signature of the wallet, as a state machine whose events are the user's
    actions and the completions of the awaited calls.  Zod's e-mail pattern, the Stellar SDK, the
    network and Freighter are parameters. *)
From S2P Require Import Prelude Js Schema Errors Prisma Auth Double Simulation.
From Stdlib Require Import SpecFloat.
Open Scope Z_scope.

(** ** The form *)

Inductive Unit := kg | lbs | bags.
Inductive Currency := USD | XLM | EUR.

Definition Unit_name (u : Unit) : string := match u with kg => "kg" | lbs => "lbs" | bags => "bags" end.
Definition Currency_name (c : Currency) : string := match c with USD => "USD" | XLM => "XLM" | EUR => "EUR" end.

Record InvoiceForm := mkForm {
  cropName : string;
  cropDescription : string;
  quantity : double;
  unit_ : Unit;
  unitPrice : double;
  currency : Currency;
  buyerName : string;
  buyerEmail : string }.

(** [z.string().email()] *)
Class EmailSchema := { is_email : string → bool }.

(** [invoiceSchema]; [z.number()] refuses [NaN], and so do the comparisons. *)
Definition invoiceSchema {ES : EmailSchema} (v : InvoiceForm) : bool :=
  (2 <=? str_length (cropName v))%nat && (10 <=? str_length (cropDescription v))%nat &&
  Double.leb (Double.of_Z 1) (quantity v) && Double.leb (quantity v) (Double.of_Z 10000) &&
  Double.leb (Double.of_string "0.01") (unitPrice v) &&
  (2 <=? str_length (buyerName v))%nat && is_email (buyerEmail v).

Definition defaultValues : InvoiceForm := mkForm "" "" (Double.of_Z 1) kg (Double.of_string "0.01") USD "" "".

Inductive StepKey := s_details | s_valuation | s_review | s_submitted.

#[export] Instance StepKey_eq : EqDecision StepKey.
Proof. solve_decision. Defined.

Definition stepLabels (s : StepKey) : string :=
  match s with s_details => "Crop Details" | s_valuation => "Valuation" | s_review => "Review & Confirm" | s_submitted => "Submitted" end.

(** [stepOrder.indexOf(step)] *)
Definition stepIndex (s : StepKey) : Z :=
  match s with s_details => 0 | s_valuation => 1 | s_review => 2 | s_submitted => 3 end.

(** [progress], in thirds of a percent *)
Definition progress (s : StepKey) : Z * positive :=
  ((stepIndex s + (if bool_decide (s = s_submitted) then 1 else 0)) * 100, 3%positive).

(** The lines of the review *)
Definition summaryItems (v : InvoiceForm) : list (string * string) :=
  [("Crop", cropName v);
   ("Description", cropDescription v);
   ("Quantity", Double.to_string (quantity v) +:+ " " +:+ Unit_name (unit_ v));
   ("Unit price", Double.toFixed 2 (unitPrice v) +:+ " " +:+ Currency_name (currency v));
   ("Buyer", buyerName v +:+ " · " +:+ buyerEmail v);
   ("Total", Double.toFixed 2 (Double.mul (quantity v) (unitPrice v)) +:+ " " +:+ Currency_name (currency v))]%string.

(** ** Preparing the transaction *)
Module Prepare.
Section prepare.
Context {W : Type} {TC : TokenCodec} {FE : Fetch W} {SDK : StellarSdk}.
(** [process.env], and [sessionStorage.getItem('walletAddress')] *)
Variable env : string → option string.
Variable walletAddress : option string.

Definition getSignerAddress : string := default EmptyString walletAddress.

Definition getConfiguredContractId : string := SorobanClient.env_or env "NEXT_PUBLIC_INVOICE_CONTRACT_ID" EmptyString.

Definition faceValue (v : InvoiceForm) : double := Double.round (Double.mul (quantity v) (unitPrice v)).

Definition prepare (v : InvoiceForm) : M exn W TransactionSimulationRequest :=
  a ← SorobanClient.lift (SorobanClient.scValAddress getSignerAddress);
  i ← SorobanClient.lift (SorobanClient.scValU64 (Double.of_Z 1));
  f ← SorobanClient.lift (SorobanClient.scValI128 (faceValue v));
  b ← SorobanClient.lift (SorobanClient.scValAddress getSignerAddress);
  SorobanClient.buildSimulationRequest env getConfiguredContractId "fund_invoice" [a; i; f; b] getSignerAddress None None None.

(** The request that is simulated when none could be prepared *)
Definition unavailable : TransactionSimulationRequest :=
  let or (s : string) := if truthy s then s else "unavailable"%string in
  mkSimulationRequest EmptyString "fund_invoice" (or getConfiguredContractId) (or getSignerAddress) None None.
End prepare.
End Prepare.

(** ** The component *)

Record Wizard := mkWizard {
  currentStep : StepKey;
  hasSubmitted : bool;
  errorMessage : string;
  previewOpen : bool;
  pendingXdr : option string;
  simulation : TransactionSimulation.Hook;
  form : InvoiceForm }.

Definition initial : Wizard := mkWizard s_details false "" false None TransactionSimulation.reset defaultValues.

(** A call that is being awaited *)
Inductive Task :=
| Preparing
| Simulating (request : TransactionSimulationRequest)
| Signing (xdr : string).

Module InvoiceWizard.
Import TransactionSimulation.
Section wizard.
Context {TC : TokenCodec} {ES : EmailSchema}.

Definition set_step (step : StepKey) (w : Wizard) : Wizard :=
  mkWizard step (hasSubmitted w) (errorMessage w) (previewOpen w) (pendingXdr w) (simulation w) (form w).

Definition set_error (msg : string) (w : Wizard) : Wizard :=
  mkWizard (currentStep w) (hasSubmitted w) msg (previewOpen w) (pendingXdr w) (simulation w) (form w).

Definition set_preview (open : bool) (w : Wizard) : Wizard :=
  mkWizard (currentStep w) (hasSubmitted w) (errorMessage w) open (pendingXdr w) (simulation w) (form w).

Definition set_transaction (xdr : option string) (h : Hook) (w : Wizard) : Wizard :=
  mkWizard (currentStep w) (hasSubmitted w) (errorMessage w) (previewOpen w) xdr h (form w).

Definition set_form (v : InvoiceForm) (w : Wizard) : Wizard :=
  mkWizard (currentStep w) (hasSubmitted w) (errorMessage w) (previewOpen w) (pendingXdr w) (simulation w) v.

(** [goToStep(step)]: only the step [valuation] has fields to validate, all of them; [errors] are the
    messages that the form has for its fields. *)
Definition goToStep (step : StepKey) (errors : list string) (w : Wizard) : Wizard :=
  match step with
  | s_valuation =>
      if invoiceSchema (form w) then set_error "" (set_step step w)
      else set_error ("Validation errors: " +:+ join ". " errors)%string w
  | _ => set_error "" (set_step step w)
  end.

(** [onFinalConfirm], up to the first [await]: [handleSubmit] calls it for a valid form only. *)
Definition onFinalConfirm (w : Wizard) : Wizard * list Task :=
  if invoiceSchema (form w) then (set_preview true (set_error "" w), [Preparing]) else (w, []).

(** ... when the request is prepared, and when it cannot be: a simulation is started. *)
Definition prepared (request : TransactionSimulationRequest) (w : Wizard) : Wizard * list Task :=
  (set_transaction (Some (transactionXdr request)) simulate_start w, [Simulating request]).

Definition not_prepared (env : string → option string) (walletAddress : option string) (w : Wizard) : Wizard * list Task :=
  (set_transaction None simulate_start w, [Simulating (Prepare.unavailable env walletAddress)]).

(** ... when the simulation has its answer *)
Definition simulated (request : TransactionSimulationRequest) (response : SimulateTransactionResponse) (w : Wizard) : Wizard :=
  set_transaction (pendingXdr w) (simulate_end request response (simulation w)) w.

(** The [finally] of [handleSignTransaction] *)
Definition finish_signing (w : Wizard) : Wizard := set_transaction None reset w.

Definition mark_submitted (w : Wizard) : Wizard :=
  mkWizard s_submitted true (errorMessage w) (previewOpen w) (pendingXdr w) (simulation w) (form w).

(** [handleSignTransaction]: with a wallet and a transaction its signature is awaited. *)
Definition handleSignTransaction (freighter : bool) (w : Wizard) : Wizard * list Task :=
  let w := set_preview false w in
  if freighter && truthy_opt (pendingXdr w) then (w, [Signing (default EmptyString (pendingXdr w))])
  else (finish_signing (mark_submitted w), []).

Definition signed_ (w : Wizard) : Wizard := finish_signing (mark_submitted w).

Definition not_signed (w : Wizard) : Wizard :=
  finish_signing (set_error "Signing was cancelled or failed. No transaction was submitted." w).

Definition handleCancelPreview (w : Wizard) : Wizard := set_transaction None reset (set_preview false w).

(** ** Events and runs *)

Inductive Event :=
| Edit (v : InvoiceForm)
| GoTo (step : StepKey) (errors : list string)
| Back
| Confirm
| Prepared (i : nat) (request : TransactionSimulationRequest)
| NotPrepared (i : nat) (env : string → option string) (walletAddress : option string)
| Simulated (i : nat) (response : SimulateTransactionResponse)
| Cancel
| Sign
| Signed (i : nat)
| NotSigned (i : nat).

(** The component, the awaited calls, and what has happened outside: the transactions that the wallet
    signed, those whose simulation succeeded, and the forms that were confirmed. *)
Record Config := mkConfig {
  wizard : Wizard;
  tasks : list Task;
  signed : list string;
  simulated_ok : list string;
  confirmed : list InvoiceForm }.

Definition start : Config := mkConfig initial [] [] [] [].

(** The fields that are on the screen at a step *)
Definition editable (step : StepKey) (v v' : InvoiceForm) : Prop :=
  match step with
  | s_details => v' = mkForm (cropName v') (cropDescription v') (quantity v) (unit_ v) (unitPrice v) (currency v) (buyerName v) (buyerEmail v)
  | s_valuation => cropName v' = cropName v ∧ cropDescription v' = cropDescription v
  | _ => False
  end.

(** The answer that a simulation can have: without a transaction the RPC is not asked. *)
Definition possible (request : TransactionSimulationRequest) (response : SimulateTransactionResponse) : Prop :=
  truthy (transactionXdr request) = false → response = SimFailed "EMPTY_TRANSACTION_XDR".

Variable freighter : bool.

Definition remove_task (i : nat) (l : list Task) : list Task := delete i l.

(** One event.  Everything but the preview is covered by it while it is open; the Sign button is
    enabled as [Preview.can_sign] says. *)
Inductive step : Event → Config → Config → Prop :=
| step_edit v w ts sg ok cf :
    previewOpen w = false → editable (currentStep w) (form w) v →
    step (Edit v) (mkConfig w ts sg ok cf) (mkConfig (set_form v w) ts sg ok cf)
| step_goto k errors w ts sg ok cf :
    previewOpen w = false → k ≠ s_submitted →
    step (GoTo k errors) (mkConfig w ts sg ok cf) (mkConfig (goToStep k errors w) ts sg ok cf)
| step_back k w ts sg ok cf :
    previewOpen w = false → (currentStep w = s_valuation ∧ k = s_details ∨ currentStep w = s_review ∧ k = s_valuation) →
    step Back (mkConfig w ts sg ok cf) (mkConfig (set_step k w) ts sg ok cf)
| step_confirm w ts sg ok cf :
    previewOpen w = false → currentStep w = s_review →
    step Confirm (mkConfig w ts sg ok cf)
      (mkConfig (onFinalConfirm w).1 (ts ++ (onFinalConfirm w).2) sg ok (if invoiceSchema (form w) then form w :: cf else cf))
| step_prepared i request w ts sg ok cf :
    ts !! i = Some Preparing →
    step (Prepared i request) (mkConfig w ts sg ok cf)
      (mkConfig (prepared request w).1 (remove_task i ts ++ (prepared request w).2) sg ok cf)
| step_not_prepared i env wa w ts sg ok cf :
    ts !! i = Some Preparing →
    step (NotPrepared i env wa) (mkConfig w ts sg ok cf)
      (mkConfig (not_prepared env wa w).1 (remove_task i ts ++ (not_prepared env wa w).2) sg ok cf)
| step_simulated i request response w ts sg ok cf :
    ts !! i = Some (Simulating request) → possible request response →
    step (Simulated i response) (mkConfig w ts sg ok cf)
      (mkConfig (simulated request response w) (remove_task i ts) sg
         (match response with SimOk _ => transactionXdr request :: ok | SimFailed _ => ok end) cf)
| step_cancel w ts sg ok cf :
    previewOpen w = true →
    step Cancel (mkConfig w ts sg ok cf) (mkConfig (handleCancelPreview w) ts sg ok cf)
| step_sign w ts sg ok cf :
    previewOpen w = true → Preview.can_sign (simulation w) = true →
    step Sign (mkConfig w ts sg ok cf)
      (mkConfig (handleSignTransaction freighter w).1 (ts ++ (handleSignTransaction freighter w).2) sg ok cf)
| step_signed i xdr w ts sg ok cf :
    ts !! i = Some (Signing xdr) →
    step (Signed i) (mkConfig w ts sg ok cf) (mkConfig (signed_ w) (remove_task i ts) (xdr :: sg) ok cf)
| step_not_signed i xdr w ts sg ok cf :
    ts !! i = Some (Signing xdr) →
    step (NotSigned i) (mkConfig w ts sg ok cf) (mkConfig (not_signed w) (remove_task i ts) sg ok cf).

(** ** Invariants *)

(** The step "Valuation" is only entered when every field is valid, the
    buyer's included, which can only be edited on that step: a user who never uses the progress
    bar to jump to the review stays on the first step, and submits nothing. *)
Theorem continue_is_a_dead_end (c : Config) :
  run step (λ e _, ∀ errors, e ≠ GoTo s_review errors) start c →
  currentStep (wizard c) = s_details ∧ hasSubmitted (wizard c) = false.
Proof.
  intros Hrun.
  cut (currentStep (wizard c) = s_details ∧ hasSubmitted (wizard c) = false ∧ buyerName (form (wizard c)) = ""%string ∧
       previewOpen (wizard c) = false ∧ tasks c = []); [tauto|].
  refine (run_invariant step _ (λ c, currentStep (wizard c) = s_details ∧ hasSubmitted (wizard c) = false ∧
    buyerName (form (wizard c)) = ""%string ∧ previewOpen (wizard c) = false ∧ tasks c = []) _ _ _ Hrun _); [|done].
  clear c Hrun. intros e c1 c2 (Hstep & Hsub & Hbuyer & Hprev & Hts) Ha Hs.
  destruct Hs; cbn [wizard tasks] in *; subst; try (by rewrite lookup_nil in *); try congruence.
  - rewrite Hstep in *. cbn [editable] in *. split_and!; try done. cbn. match goal with H : v = _ |- _ => rewrite H end. done.
  - unfold goToStep. destruct k; [done| |by destruct (Ha errors)|done].
    assert (invoiceSchema (form w) = false) as ->; [|done].
    unfold invoiceSchema. rewrite Hbuyer. cbn [str_length to_list length Nat.leb]. by rewrite !andb_false_r.
  - destruct H0 as [[? ->]|[? ->]]; congruence.
Qed.

Lemma elem_of_remove_task (t : Task) (i : nat) (ts : list Task) : t ∈ remove_task i ts → t ∈ ts.
Proof. unfold remove_task. intros H. eapply elem_of_sublist; [exact H|]. apply sublist_delete. Qed.

(** What holds in every run *)
Definition backed (c : Config) : Prop :=
  Forall (λ v, invoiceSchema v = true) (confirmed c) ∧
  (Preview.can_sign (simulation (wizard c)) = true → simulated_ok c ≠ []) ∧
  (hasSubmitted (wizard c) = true → simulated_ok c ≠ [] ∧ confirmed c ≠ []) ∧
  (tasks c ≠ [] ∨ previewOpen (wizard c) = true → confirmed c ≠ []) ∧
  (∀ x, Signing x ∈ tasks c → simulated_ok c ≠ []).

Lemma can_sign_failed (request : TransactionSimulationRequest) (err : string) (h : Hook) :
  Preview.can_sign (simulate_end request (SimFailed err) h) = false.
Proof. done. Qed.

Lemma step_backed (e : Event) (c1 c2 : Config) : backed c1 → step e c1 c2 → backed c2.
Proof.
  intros (Hcf & Hcan & Hsub & Hts & Hsg) Hs. unfold backed.
  destruct Hs; cbn [wizard tasks signed simulated_ok confirmed] in *.
  - by split_and!.
  - unfold goToStep. destruct k; try (by split_and!). destruct (invoiceSchema _); by split_and!.
  - by split_and!.
  - unfold onFinalConfirm. destruct (invoiceSchema (form w)) eqn:Hv; cbn [fst snd]; [|rewrite app_nil_r; by split_and!].
    split_and!; [by constructor|done|naive_solver|done|].
    intros x [Hx|Hx]%elem_of_app; [by eapply Hsg|]. by apply list_elem_of_singleton in Hx.
  - assert (cf ≠ []) by (apply Hts; left; by destruct ts). cbn. split_and!; try done.
    intros x [Hx%elem_of_remove_task|Hx]%elem_of_app; [by eapply Hsg|]. by apply list_elem_of_singleton in Hx.
  - assert (cf ≠ []) by (apply Hts; left; by destruct ts). cbn. split_and!; try done.
    intros x [Hx%elem_of_remove_task|Hx]%elem_of_app; [by eapply Hsg|]. by apply list_elem_of_singleton in Hx.
  - assert (cf ≠ []) by (apply Hts; left; by destruct ts). destruct response; cbn; split_and!; try done.
    intros x Hx%elem_of_remove_task. by eapply Hsg.
  - cbn. split_and!; try done. intros _. apply Hts. by right.
  - specialize (Hcan H0). assert (cf ≠ []) by (apply Hts; by right). unfold handleSignTransaction.
    destruct (_ && _); cbn; rewrite ?app_nil_r; by split_and!.
  - assert (cf ≠ []) by (apply Hts; left; by destruct ts).
    assert (ok ≠ []) by (apply (Hsg xdr); by eapply list_elem_of_lookup_2). cbn. by split_and!.
  - assert (cf ≠ []) by (apply Hts; left; by destruct ts). cbn. split_and!; try done.
    intros x Hx%elem_of_remove_task. by eapply Hsg.
Qed.

(** C12: however the user's actions and the answers of the network
    interleave, the wizard only says "submitted" after a valid form was confirmed and a simulation
    of some transaction succeeded. *)
Theorem submitted_after_simulation (c : Config) :
  run step (λ _ _, True) start c → hasSubmitted (wizard c) = true →
  simulated_ok c ≠ [] ∧ ∃ v, v ∈ confirmed c ∧ invoiceSchema v = true.
Proof.
  intros Hrun Hsub. assert (Hb : backed c).
  { refine (run_invariant step _ backed _ _ _ Hrun _); [intros e c1 c2 ? _ ?; by eapply step_backed|].
    unfold backed, start; cbn. split; [constructor|]. split; [done|]. split; [done|]. split; [by intros [?|?]|]. intros x Hx. by apply elem_of_nil in Hx. }
  destruct Hb as (Hcf & _ & Hok & _). destruct (Hok Hsub) as [Hne Hcne]. split; [done|].
  destruct (confirmed c) as [|v l]; [done|]. exists v. split; [by left|]. by inversion Hcf.
Qed.

(** Nothing is confirmed or cancelled while an answer is awaited. *)
Definition calm (e : Event) (c : Config) : Prop := (e = Confirm ∨ e = Cancel) → tasks c = [].

(** The phases of a calm run *)
Inductive phase : Config → Prop :=
| ph_rest w sg ok cf : Preview.can_sign (simulation w) = false → phase (mkConfig w [] sg ok cf)
| ph_preparing w sg ok cf :
    Preview.can_sign (simulation w) = false → previewOpen w = true → phase (mkConfig w [Preparing] sg ok cf)
| ph_simulating w request sg ok cf :
    Preview.can_sign (simulation w) = false → previewOpen w = true →
    (truthy (transactionXdr request) = true → pendingXdr w = Some (transactionXdr request)) →
    phase (mkConfig w [Simulating request] sg ok cf)
| ph_ready w x sg ok cf :
    previewOpen w = true → pendingXdr w = Some x → truthy x = true → x ∈ ok → phase (mkConfig w [] sg ok cf)
| ph_signing w x sg ok cf : previewOpen w = false → x ∈ ok → phase (mkConfig w [Signing x] sg ok cf).

Definition in_order (c : Config) : Prop :=
  phase c ∧ (∀ x, x ∈ signed c → x ∈ simulated_ok c) ∧
  (freighter = true → hasSubmitted (wizard c) = true → signed c ≠ []).

Lemma lookup_single {A : Type} (i : nat) (t t' : A) : [t] !! i = Some t' → i = 0%nat ∧ t' = t.
Proof. destruct i as [|i]; [by intros [= <-]|done]. Qed.

(** The invariants of the rest of the configuration, which a step may leave alone *)
Lemma in_order_same (w w' : Wizard) (ts ts' : list Task) (sg ok ok' : list string) (cf cf' : list InvoiceForm) :
  in_order (mkConfig w ts sg ok cf) → phase (mkConfig w' ts' sg ok' cf') → (∀ x, x ∈ ok → x ∈ ok') →
  hasSubmitted w' = hasSubmitted w → in_order (mkConfig w' ts' sg ok' cf').
Proof. intros (_ & Hsg & Hs) Hph Hok Hsub. unfold in_order in *. cbn in *. rewrite Hsub. split_and!; auto. Qed.

(** A step that changes neither the transaction nor the awaited calls keeps the phase. *)
Lemma phase_same (w w' : Wizard) (ts : list Task) (sg ok : list string) (cf : list InvoiceForm) :
  simulation w' = simulation w → previewOpen w' = previewOpen w → pendingXdr w' = pendingXdr w →
  phase (mkConfig w ts sg ok cf) → phase (mkConfig w' ts sg ok cf).
Proof.
  intros H1 H2 H3 Hph. inversion Hph; subst; [apply ph_rest|apply ph_preparing|apply ph_simulating|eapply ph_ready|apply ph_signing];
    rewrite ?H1, ?H2, ?H3; done.
Qed.

Lemma goToStep_transaction (k : StepKey) (errors : list string) (w : Wizard) :
  let w' := goToStep k errors w in
  simulation w' = simulation w ∧ previewOpen w' = previewOpen w ∧ pendingXdr w' = pendingXdr w ∧ hasSubmitted w' = hasSubmitted w.
Proof. unfold goToStep. destruct k; try done. by destruct (invoiceSchema _). Qed.

Lemma step_in_order (e : Event) (c1 c2 : Config) : in_order c1 → calm e c1 → step e c1 c2 → in_order c2.
Proof.
  intros Hin Hcalm Hs. pose proof Hin as (Hph & Hsg & Hsub). unfold calm in Hcalm.
  destruct Hs; cbn [wizard tasks signed simulated_ok confirmed] in *.
  - eapply in_order_same; [exact Hin|by apply (phase_same w)|done|done].
  - destruct (goToStep_transaction k errors w) as (? & ? & ? & ?).
    eapply in_order_same; [exact Hin|by apply (phase_same w)|done|done].
  - eapply in_order_same; [exact Hin|by apply (phase_same w)|done|done].
  - rewrite Hcalm in * by auto. inversion Hph; subst; [|congruence].
    unfold onFinalConfirm. destruct (invoiceSchema (form w)); cbn [fst snd app];
      (eapply in_order_same; [exact Hin|by constructor|done|done]).
  - inversion Hph; subst; try (by rewrite lookup_nil in H); apply lookup_single in H as [-> [=]].
    eapply in_order_same; [exact Hin|by constructor|done|done].
  - inversion Hph; subst; try (by rewrite lookup_nil in H); apply lookup_single in H as [-> [=]].
    eapply in_order_same; [exact Hin|by constructor|done|done].
  - inversion Hph; subst; try (by rewrite lookup_nil in H); apply lookup_single in H as [-> [=]]; subst.
    destruct response as [fee|err]; cbn [remove_task delete list_delete].
    + eapply in_order_same; [exact Hin| |by intros x ?; apply list_elem_of_further|done].
      match goal with H : possible ?r _ |- _ => destruct (truthy (transactionXdr r)) eqn:Ht; [|by specialize (H Ht)] end.
      eapply ph_ready; [done|by cbn; auto|done|by left].
    + eapply in_order_same; [exact Hin|by apply ph_rest|done|done].
  - rewrite Hcalm in * by auto. eapply in_order_same; [exact Hin|by apply ph_rest|done|done].
  - inversion Hph; subst; try congruence. unfold handleSignTransaction, set_preview. cbn [pendingXdr].
    match goal with H : pendingXdr w = Some _, H' : truthy _ = true |- _ => rewrite H; cbn [truthy_opt default]; rewrite H' end.
    rewrite andb_true_r. destruct freighter eqn:Ef; cbn [fst snd app].
    + eapply in_order_same; [exact Hin|by apply ph_signing|done|done].
    + split; [by apply ph_rest|]. cbn. split; [done|]. congruence.
  - inversion Hph; subst; try (by rewrite lookup_nil in H); apply lookup_single in H as [-> [=]]; subst.
    split; [by apply ph_rest|]. cbn. split; [|done]. intros y [->|Hy]%elem_of_cons; auto.
  - inversion Hph; subst; try (by rewrite lookup_nil in H); apply lookup_single in H as [-> [=]].
    eapply in_order_same; [exact Hin|by apply ph_rest|done|done].
Qed.

(** C11: as long as the user neither confirms nor cancels while an answer is awaited, every
    transaction that the wallet signs is one whose own simulation has succeeded, and with a wallet
    installed the wizard says "submitted" only after a transaction was signed. *)
Theorem calm_signing_safe (c : Config) :
  run step calm start c →
  (∀ x, x ∈ signed c → x ∈ simulated_ok c) ∧ (freighter = true → hasSubmitted (wizard c) = true → signed c ≠ []).
Proof.
  intros Hrun. assert (in_order c) as (_ & H1 & H2); [|done].
  refine (run_invariant step _ in_order _ _ _ Hrun _); [intros e c1 c2 ? ? ?; by eapply step_in_order|].
  split; [by apply ph_rest|]. cbn. split; [|done]. intros x Hx. by apply elem_of_nil in Hx.
Qed.
End wizard.
End InvoiceWizard.

(** ** Concrete runs *)
Module WizardExamples.
Import InvoiceWizard TransactionSimulation.

#[local] Instance toy_codec : TokenCodec := {|
  hmac_sha256 := λ k s, s; base64url_decode := λ s, s; base64url_encode := λ s, s; JSON_parse := λ _, Ret JsNull;
  JSON_stringify := λ _, EmptyString; decodeURIComponent := Ret; fraction_to_string := λ _ _, EmptyString |}.

#[local] Instance toy_email : EmailSchema := {| is_email := λ s, includes s "@" |}.

Definition with_crop : InvoiceForm :=
  mkForm "Maize" "Yellow maize, grade A" (Double.of_Z 1) kg (Double.of_string "0.01") USD "" "".
Definition full : InvoiceForm :=
  mkForm "Maize" "Yellow maize, grade A" (Double.of_Z 3) bags (Double.of_string "25.5") USD "Bob" "bob@example.org".

Definition request_of (xdr : string) : TransactionSimulationRequest := mkSimulationRequest xdr "fund_invoice" "C" "G" None None.

Ltac happens e :=
  eapply (run_first _ _ e); [solve [exact I | intros [? | ?]; reflexivity || discriminate]
    | first [eapply step_edit | eapply step_goto | eapply step_back | eapply step_confirm | eapply step_prepared
            | eapply step_simulated | eapply step_cancel | eapply step_sign | eapply step_signed];
      try solve [reflexivity | discriminate | vm_compute; reflexivity | vm_compute; split; reflexivity
                | vm_compute; auto | intros ?; discriminate]
    | ].

(** Filling in the form by way of the progress bar, up to the review *)
Ltac fill_in :=
  happens (Edit with_crop); happens (GoTo s_review []); happens Back; happens (Edit full); happens (GoTo s_review []).

(** Up to the signature, one thing after the other *)
Ltac submit :=
  fill_in; happens Confirm; happens (Prepared 0 (request_of "XDR1")); happens (Simulated 0 (SimOk (Double.of_Z 100)));
  happens Sign; happens (Signed 0); apply run_none.

Lemma calm_signing_safe_witness :
  ∃ c, run (step true) calm start c ∧ hasSubmitted (wizard c) = true ∧
    (∀ x, x ∈ signed c → x ∈ simulated_ok c) ∧ signed c ≠ [].
Proof.
  assert (∃ c, run (step true) calm start c ∧ hasSubmitted (wizard c) = true) as (c & Hrun & Hsub).
  { eexists. split; [submit|vm_compute; reflexivity]. }
  exists c. split; [exact Hrun|]. split; [exact Hsub|]. destruct (calm_signing_safe true c Hrun) as [H1 H2].
  split; [exact H1|]. exact (H2 eq_refl Hsub).
Defined.

Lemma submitted_after_simulation_witness :
  ∃ c, run (step false) (λ _ _, True) start c ∧ hasSubmitted (wizard c) = true ∧
    simulated_ok c ≠ [] ∧ ∃ v, v ∈ confirmed c ∧ invoiceSchema v = true.
Proof.
  assert (∃ c, run (step false) (λ _ _, True) start c ∧ hasSubmitted (wizard c) = true) as (c & Hrun & Hsub).
  { eexists. split; [|].
    { fill_in. happens Confirm. happens (Prepared 0 (request_of "XDR1")). happens (Simulated 0 (SimOk (Double.of_Z 100))).
      happens Sign. apply run_none. }
    vm_compute; reflexivity. }
  exists c. split; [exact Hrun|]. split; [exact Hsub|]. exact (submitted_after_simulation false c Hrun Hsub).
Defined.

(** The first step filled in, the user presses "Continue to valuation". *)
Lemma continue_is_a_dead_end_witness :
  ∃ c, run (step true) (λ e _, ∀ errors, e ≠ GoTo s_review errors) start c ∧
    errorMessage (wizard c) = "Validation errors: Buyer name is required"%string ∧
    currentStep (wizard c) = s_details ∧ hasSubmitted (wizard c) = false.
Proof.
  assert (∃ c, run (step true) (λ e _, ∀ errors, e ≠ GoTo s_review errors) start c ∧
    errorMessage (wizard c) = "Validation errors: Buyer name is required"%string) as (c & Hrun & He).
  { eexists. split.
    { eapply (run_first _ _ (Edit with_crop)); [done|apply step_edit; reflexivity|].
      eapply (run_first _ _ (GoTo s_valuation ["Buyer name is required"%string])); [done|by apply step_goto|]. apply run_none. }
    vm_compute; reflexivity. }
  exists c. split; [exact Hrun|]. split; [exact He|]. exact (continue_is_a_dead_end true c Hrun).
Defined.

(** The progress bar of a submitted invoice is at 133 percent. *)
Example progress_overflows : progress s_submitted = (400, 3%positive).
Proof. reflexivity. Qed.

(** Cancelling while the simulation is awaited leaves its late answer in the state; at the next
    confirmation the Sign button is enabled at once, and signing marks the invoice submitted
    without any transaction. *)
Example stale_simulation_submits :
  ∃ c, run (step true) (λ _ _, True) start c ∧ hasSubmitted (wizard c) = true ∧ signed c = [].
Proof.
  eexists. split.
  { fill_in. happens Confirm. happens (Prepared 0 (request_of "XDR1")). happens Cancel.
    happens (Simulated 0 (SimOk (Double.of_Z 100))). happens Confirm. happens Sign. apply run_none. }
  split; vm_compute; reflexivity.
Qed.

(** ... or a transaction is signed on the simulation of another one. *)
Example unsimulated_transaction_signed :
  ∃ c, run (step true) (λ _ _, True) start c ∧ signed c = ["XDR2"%string] ∧ simulated_ok c = ["XDR1"%string].
Proof.
  eexists. split.
  { fill_in. happens Confirm. happens (Prepared 0 (request_of "XDR1")). happens Cancel. happens Confirm.
    happens (Prepared 1 (request_of "XDR2")). happens (Simulated 0 (SimOk (Double.of_Z 100))). happens Sign.
    happens (Signed 1). apply run_none. }
  split; vm_compute; reflexivity.
Qed.
End WizardExamples.
