(* ===== verification/Portfolio.v ===== *)
(** * The investor's portfolio table ([src/frontend/components/InvestorPortfolioTable.tsx])

    Filtering, sorting and paging of the invoices, the events of the table as a state machine,
    and what is rendered.  Amounts are doubles; the reading of dates and the formatting of
    currencies and dates for a locale are parameters. *)
From S2P Require Import Prelude Js Double.
From Stdlib Require Import SpecFloat.
Open Scope Z_scope.

(** ** [Array.prototype.sort]

    Stable; [le a b] is [compare(a, b) <= 0], where [NaN] counts as 0.  With a comparison that is
    a total preorder on the elements the result is determined; this is one way to reach it. *)
Section sort.
Context {A : Type} (le : A → A → bool).

Fixpoint insert (x : A) (l : list A) : list A :=
  match l with
  | [] => [x]
  | y :: l' => if le x y then x :: l else y :: insert x l'
  end.

Definition sort (l : list A) : list A := foldr insert [] l.

Definition equiv (x y : A) : bool := le x y && le y x.

(** A total preorder on the elements of a list *)
Definition preorder_on (l : list A) : Prop :=
  (∀ x y, x ∈ l → y ∈ l → le x y = true ∨ le y x = true) ∧
  (∀ x y z, x ∈ l → y ∈ l → z ∈ l → le x y = true → le y z = true → le x z = true).

Definition ordered (l : list A) : Prop := StronglySorted (λ a b, le a b = true) l.

Lemma insert_perm (x : A) (l : list A) : insert x l ≡ₚ x :: l.
Proof.
  induction l as [|y l IH]; cbn; [done|]. destruct (le x y); [done|]. rewrite IH. apply Permutation_swap.
Qed.

Lemma sort_perm (l : list A) : sort l ≡ₚ l.
Proof. induction l as [|x l IH]; cbn; [done|]. by rewrite insert_perm, IH. Qed.

Lemma preorder_on_sub (l k : list A) : preorder_on l → (∀ x, x ∈ k → x ∈ l) → preorder_on k.
Proof. intros [Ht Htr] Hs. split; eauto. Qed.

Lemma insert_ordered (x : A) (l : list A) : preorder_on (x :: l) → ordered l → ordered (insert x l).
Proof.
  intros Hp Hl. induction Hl as [|y l Hl IH Hy]; cbn; [repeat constructor|].
  destruct (le x y) eqn:E.
  - constructor; [by constructor|]. constructor; [done|]. rewrite Forall_forall in *. intros z Hz.
    apply (proj2 Hp x y z); [set_solver|set_solver|set_solver|done|by apply Hy].
  - assert (le y x = true) as Hyx by (destruct (proj1 Hp x y) as [?|?]; [set_solver|set_solver|congruence|done]).
    constructor; [apply IH; eapply preorder_on_sub; [exact Hp|set_solver]|].
    rewrite Forall_forall in *. intros z Hz. rewrite insert_perm in Hz. apply elem_of_cons in Hz as [->|Hz]; [done|by apply Hy].
Qed.

Lemma sort_ordered (l : list A) : preorder_on l → ordered (sort l).
Proof.
  induction l as [|x l IH]; intros Hp; cbn; [constructor|].
  apply insert_ordered; [|apply IH; eapply preorder_on_sub; [exact Hp|set_solver]].
  eapply preorder_on_sub; [exact Hp|]. intros z Hz. rewrite elem_of_cons, sort_perm in Hz. set_solver.
Qed.

(** Elements that compare equal keep their order. *)
Lemma insert_stable (x z : A) (l : list A) :
  preorder_on (z :: x :: l) → ordered l → List.filter (equiv z) (insert x l) = List.filter (equiv z) (x :: l).
Proof.
  intros Hp Hl. induction Hl as [|y l Hl IH Hy]; [done|]. cbn [insert]. destruct (le x y) eqn:E; [done|].
  cbn [List.filter] in *. rewrite IH by (eapply preorder_on_sub; [exact Hp|set_solver]).
  destruct (equiv z x) eqn:Ex; [|done]. destruct (equiv z y) eqn:Ey; [|done]. exfalso.
  unfold equiv in *. bool_to_prop. assert (le x y = true); [|congruence]. apply (proj2 Hp x z y); [set_solver|set_solver|set_solver|done|done].
Qed.

Lemma sort_stable (z : A) (l : list A) :
  preorder_on (z :: l) → List.filter (equiv z) (sort l) = List.filter (equiv z) l.
Proof.
  induction l as [|x l IH]; intros Hp; cbn [sort foldr]; [done|]. change (foldr insert [] l) with (sort l).
  rewrite insert_stable.
  - cbn. rewrite IH by (eapply preorder_on_sub; [exact Hp|set_solver]). done.
  - eapply preorder_on_sub; [exact Hp|]. intros y Hy. rewrite !elem_of_cons, sort_perm in Hy. set_solver.
  - apply sort_ordered. eapply preorder_on_sub; [exact Hp|set_solver].
Qed.
End sort.

(** ** The data *)
Module InvestorPortfolioTable.

Inductive InvoiceStatus := FUNDED | REPAID | DEFAULTED.
Inductive TokenType := XLM | USDC.

#[export] Instance InvoiceStatus_eq : EqDecision InvoiceStatus.
Proof. solve_decision. Defined.
#[export] Instance TokenType_eq : EqDecision TokenType.
Proof. solve_decision. Defined.

Definition InvoiceStatus_name (s : InvoiceStatus) : string :=
  match s with FUNDED => "FUNDED" | REPAID => "REPAID" | DEFAULTED => "DEFAULTED" end.
Definition TokenType_name (t : TokenType) : string := match t with XLM => "XLM" | USDC => "USDC" end.

Record Invoice := mkInvoice {
  id : string;
  farmer : string;
  cropType : string;
  fundedAmount : double;
  discountRate : double;
  expectedReturn : double;
  dueDate : string;
  status : InvoiceStatus;
  tokenType : TokenType }.

(** A filter: one of the values, or [ALL] *)
Definition STATUS_OPTIONS : list (option InvoiceStatus) := [None; Some FUNDED; Some REPAID; Some DEFAULTED].
Definition TOKEN_OPTIONS : list (option TokenType) := [None; Some XLM; Some USDC].
Definition PAGE_SIZE : Z := 10.

Inductive SortKey := k_fundedAmount | k_discountRate | k_expectedReturn | k_dueDate.
Inductive SortDirection := asc | desc.

#[export] Instance SortKey_eq : EqDecision SortKey.
Proof. solve_decision. Defined.
#[export] Instance SortDirection_eq : EqDecision SortDirection.
Proof. solve_decision. Defined.

Definition sort_keys : list SortKey := [k_fundedAmount; k_discountRate; k_expectedReturn; k_dueDate].

Definition SORT_LABELS (k : SortKey) : string :=
  match k with
  | k_fundedAmount => "Funded Amount"
  | k_discountRate => "Discount Rate"
  | k_expectedReturn => "Expected Return"
  | k_dueDate => "Due Date"
  end.

Inductive AriaSort := ascending | descending | aria_none.

Definition getAriaSortValue (columnKey activeSortKey : SortKey) (direction : SortDirection) : AriaSort :=
  if bool_decide (columnKey ≠ activeSortKey) then aria_none
  else match direction with asc => ascending | desc => descending end.

(** The platform: [new Date(s).getTime()] and the formats of [en-US] *)
Class Locale := {
  getTime : string → double;
  formatCurrency : double → string;
  formatDate : string → string }.

Section table.
Context {LC : Locale}.

Definition formatPercent (value : double) : string := (Double.toFixed 2 value +:+ "%")%string.

Definition sort_value (k : SortKey) (i : Invoice) : double :=
  match k with
  | k_fundedAmount => fundedAmount i
  | k_discountRate => discountRate i
  | k_expectedReturn => expectedReturn i
  | k_dueDate => getTime (dueDate i)
  end.

Definition sortFunctions (k : SortKey) (a b : Invoice) : double := Double.sub (sort_value k a) (sort_value k b).

(** The comparison passed to [sort]: [result] or [-result]; [not_after a b] when it is not
    positive. *)
Definition compare (k : SortKey) (d : SortDirection) (a b : Invoice) : double :=
  match d with asc => sortFunctions k a b | desc => SFopp (sortFunctions k a b) end.

Definition not_after (k : SortKey) (d : SortDirection) (a b : Invoice) : bool := negb (Double.ltb (Double.of_Z 0) (compare k d a b)).

(** ** The state *)
Record Table := mkTable {
  invoices : list Invoice;
  statusFilter : option InvoiceStatus;
  tokenFilter : option TokenType;
  sortKey : SortKey;
  sortDirection : SortDirection;
  page : Z;
  sortAnnounce : string;
  announceCounter : Z;
  frames : list string }.

Definition initial (props : list Invoice) : Table := mkTable props None None k_dueDate asc 1 EmptyString 0 [].

Definition matches (s : Table) (i : Invoice) : bool :=
  match statusFilter s with None => true | Some f => bool_decide (status i = f) end
  && match tokenFilter s with None => true | Some f => bool_decide (tokenType i = f) end.

Definition filteredInvoices (s : Table) : list Invoice := List.filter (matches s) (invoices s).

Definition sortedInvoices (s : Table) : list Invoice := sort (not_after (sortKey s) (sortDirection s)) (filteredInvoices s).

Definition pageCount (s : Table) : Z := Z.max 1 (ceil_div (Z.of_nat (length (sortedInvoices s))) PAGE_SIZE).

(** [l.slice(a, b)] for [0 <= a] *)
Definition slice {A : Type} (a b : Z) (l : list A) : list A := take (Z.to_nat b - Z.to_nat a) (drop (Z.to_nat a) l).

Definition rows_of_page (s : Table) (p : Z) : list Invoice := slice ((p - 1) * PAGE_SIZE) (p * PAGE_SIZE) (sortedInvoices s).

Definition pageInvoices (s : Table) : list Invoice := rows_of_page s (page s).

(** ** Events *)
Definition set_page (p : Z) (s : Table) : Table :=
  mkTable (invoices s) (statusFilter s) (tokenFilter s) (sortKey s) (sortDirection s) p (sortAnnounce s) (announceCounter s) (frames s).
Definition set_filters (f : option InvoiceStatus) (t : option TokenType) (s : Table) : Table :=
  mkTable (invoices s) f t (sortKey s) (sortDirection s) 1 (sortAnnounce s) (announceCounter s) (frames s).
Definition set_sort (k : SortKey) (d : SortDirection) (s : Table) : Table :=
  mkTable (invoices s) (statusFilter s) (tokenFilter s) k d (page s) (sortAnnounce s) (announceCounter s) (frames s).

(** [requestAnimationFrame] puts the message off. *)
Definition announce (message : string) (s : Table) : Table :=
  mkTable (invoices s) (statusFilter s) (tokenFilter s) (sortKey s) (sortDirection s) (page s) EmptyString
    (announceCounter s + 1) (frames s ++ [message]).

Definition direction_text (d : SortDirection) : string := match d with asc => "ascending" | desc => "descending" end.

Definition sort_message (k : SortKey) (d : SortDirection) : string :=
  ("Sorted by " +:+ SORT_LABELS k +:+ " in " +:+ direction_text d +:+ " order")%string.

Definition handleSort (key : SortKey) (s : Table) : Table :=
  if bool_decide (sortKey s = key) then
    let newDirection := match sortDirection s with asc => desc | desc => asc end in
    announce (sort_message key newDirection) (set_sort key newDirection s)
  else announce (sort_message key asc) (set_sort key asc s).

(** Whether the default action is prevented, and the new state *)
Definition handleSortKeypress (key : SortKey) (event_key : string) (s : Table) : bool * Table :=
  if String.eqb event_key "Enter" || String.eqb event_key " " then (true, handleSort key s) else (false, s).

(** The effect that runs after every render *)
Definition snap (s : Table) : Table := if pageCount s <? page s then set_page (pageCount s) s else s.

Inductive Event :=
| FilterStatus (f : option InvoiceStatus) | FilterToken (t : option TokenType)
| Click (key : SortKey) | Key (key : SortKey) (event_key : string)
| Previous | Next | Frame | Props (l : list Invoice).

Definition handle (e : Event) (s : Table) : Table :=
  match e with
  | FilterStatus f => set_filters f (tokenFilter s) s
  | FilterToken t => set_filters (statusFilter s) t s
  | Click key => handleSort key s
  | Key key event_key => (handleSortKeypress key event_key s).2
  | Previous => set_page (page s - 1) s
  | Next => set_page (page s + 1) s
  | Frame => match frames s with
             | [] => s
             | m :: ms => mkTable (invoices s) (statusFilter s) (tokenFilter s) (sortKey s) (sortDirection s) (page s) m (announceCounter s) ms
             end
  | Props l => mkTable l (statusFilter s) (tokenFilter s) (sortKey s) (sortDirection s) (page s) (sortAnnounce s) (announceCounter s) (frames s)
  end.

(** The buttons are disabled on the first and on the last page; without invoices only the
    properties can change. *)
Definition prev_disabled (s : Table) : bool := page s =? 1.
Definition next_disabled (s : Table) : bool := page s =? pageCount s.
Definition empty_state (s : Table) : bool := match invoices s with [] => true | _ => false end.

Definition enabled (e : Event) (s : Table) : bool :=
  match e with
  | Frame | Props _ => true
  | Previous => negb (empty_state s) && negb (prev_disabled s)
  | Next => negb (empty_state s) && negb (next_disabled s)
  | _ => negb (empty_state s)
  end.

Inductive step : Event → Table → Table → Prop :=
| step_event e s : enabled e s = true → step e s (snap (handle e s)).

Definition reachable (s : Table) : Prop := ∃ props, run step (λ _ _, True) (initial props) s.

(** ** Rendering *)
Inductive SortIcon := up | down | both.

Record Header := mkHeader { h_key : SortKey; h_aria_sort : AriaSort; h_aria_label : string; h_icon : SortIcon }.

Definition header (s : Table) (k : SortKey) : Header :=
  mkHeader k (getAriaSortValue k (sortKey s) (sortDirection s))
    (SORT_LABELS k +:+ ", sortable. " +:+
       (if bool_decide (sortKey s = k) then "Currently sorted " +:+ direction_text (sortDirection s) else "Not sorted"))%string
    (if bool_decide (sortKey s = k) then match sortDirection s with asc => up | desc => down end else both).

Record Row := mkRow { r_index : Z; r_cells : list string; r_class : string }.

Definition row (s : Table) (rowIndex : nat) (i : Invoice) : Row :=
  mkRow ((page s - 1) * PAGE_SIZE + Z.of_nat rowIndex + 2)
    [id i; farmer i; cropType i; formatCurrency (fundedAmount i); formatPercent (discountRate i);
     formatCurrency (expectedReturn i); formatDate (dueDate i); InvoiceStatus_name (status i)]
    ("status-pill status-" +:+ toLowerCase (InvoiceStatus_name (status i)))%string.

Record View := mkView {
  v_summary : string; v_rowcount : Z; v_headers : list Header; v_rows : list Row; v_pages : string;
  v_prev_disabled : bool; v_next_disabled : bool; v_announcement : string }.

(** [None]: the message that there are no invoices *)
Definition render (s : Table) : option View :=
  if empty_state s then None
  else
    let n := Z.of_nat (length (sortedInvoices s)) in
    Some (mkView ("Showing " +:+ Z_to_string n +:+ " invoice" +:+ (if (n =? 1)%Z then "" else "s"))%string n
            (map (header s) sort_keys) (imap (row s) (pageInvoices s))
            ("Page " +:+ Z_to_string (page s) +:+ " of " +:+ Z_to_string (pageCount s))%string
            (prev_disabled s) (next_disabled s) (sortAnnounce s)).

(** ** Lemmas *)

(** Exactly one column is announced as sorted. *)
Lemma aria_one_active (s : Table) :
  List.filter (λ k, bool_decide (k = sortKey s)) sort_keys = [sortKey s] ∧
  ∀ k, getAriaSortValue k (sortKey s) (sortDirection s) = aria_none ↔ k ≠ sortKey s.
Proof.
  split; [by destruct (sortKey s)|]. intros k. unfold getAriaSortValue. case_bool_decide; [done|].
  by destruct (sortDirection s).
Qed.

Lemma pageCount_bounds (s : Table) :
  1 <= pageCount s ∧ Z.of_nat (length (sortedInvoices s)) <= pageCount s * PAGE_SIZE ∧
  (Z.of_nat (length (sortedInvoices s)) <> 0 → (pageCount s - 1) * PAGE_SIZE < Z.of_nat (length (sortedInvoices s))).
Proof.
  unfold pageCount, ceil_div, PAGE_SIZE. pose proof (Z.div_mod (- Z.of_nat (length (sortedInvoices s))) 10 ltac:(lia)).
  pose proof (Z.mod_pos_bound (- Z.of_nat (length (sortedInvoices s))) 10 ltac:(lia)). lia.
Qed.

Lemma snap_rows (s : Table) : sortedInvoices (snap s) = sortedInvoices s.
Proof. unfold snap. by destruct (_ <? _). Qed.

Definition in_bounds (s : Table) : Prop := 1 <= page s <= pageCount s.

Lemma snap_in_bounds (s : Table) : 1 <= page s → in_bounds (snap s).
Proof.
  intros H. pose proof (pageCount_bounds s) as [H1 _]. unfold in_bounds.
  assert (pageCount (snap s) = pageCount s) as -> by (unfold pageCount; by rewrite snap_rows).
  unfold snap. destruct (pageCount s <? page s) eqn:E; bool_to_prop; cbn; lia.
Qed.

Lemma step_in_bounds (e : Event) (s s' : Table) : in_bounds s → step e s s' → in_bounds s'.
Proof.
  intros [Hlo Hhi] Hs. destruct Hs as [e s He]. apply snap_in_bounds.
  destruct e as [f|t|key|key ek| | | |l]; cbn [handle set_page set_filters page]; try lia.
  - unfold handleSort. by case_bool_decide.
  - unfold handleSortKeypress, handleSort. destruct (_ || _); [|done]. by case_bool_decide.
  - cbn in He. unfold prev_disabled in He. bool_to_prop. lia.
  - by destruct (frames s).
Qed.

(** Whatever the user does and however the invoices change, the page that is shown
    exists, and it has rows as soon as an invoice matches the filters. *)
Theorem page_in_bounds (s : Table) (H : reachable s) :
  1 <= page s <= pageCount s ∧ (filteredInvoices s ≠ [] → pageInvoices s ≠ []).
Proof.
  destruct H as [props H].
  assert (in_bounds s) as Hb.
  { refine (run_invariant step (λ _ _, True) in_bounds _ _ (λ e s1 s2 Hi _, step_in_bounds e s1 s2 Hi) H _).
    pose proof (pageCount_bounds (initial props)) as [? _]. by split. }
  split; [exact Hb|]. intros Hne Hnil.
  assert (length (sortedInvoices s) ≠ 0%nat) as Hlen.
  { unfold sortedInvoices. rewrite sort_perm. by destruct (filteredInvoices s). }
  pose proof (pageCount_bounds s) as (_ & _ & H3). unfold in_bounds, PAGE_SIZE in *. specialize (H3 ltac:(lia)).
  apply (f_equal length) in Hnil. unfold pageInvoices, rows_of_page, slice, PAGE_SIZE in Hnil.
  rewrite length_take, length_drop in Hnil. cbn in Hnil. lia.
Qed.

(** The pages in order are the sorted list. *)
Lemma pages_concat {A : Type} (l : list A) (n : nat) :
  concat (map (λ p, slice ((p - 1) * PAGE_SIZE) (p * PAGE_SIZE) l) (seqZ 1 (Z.of_nat n))) = take (n * 10) l.
Proof.
  induction n as [|n IH]; [done|]. rewrite seqZ_S, map_app, concat_app, IH. cbn [map concat]. rewrite app_nil_r.
  unfold slice, PAGE_SIZE. replace (Z.to_nat ((1 + Z.of_nat n - 1) * 10)) with (n * 10)%nat by lia.
  replace (Z.to_nat ((1 + Z.of_nat n) * 10) - n * 10)%nat with 10%nat by lia. rewrite take_take_drop. f_equal. lia.
Qed.

Lemma ltb_opp (x : double) : Double.ltb (Double.of_Z 0) (SFopp x) = Double.ltb x (Double.of_Z 0).
Proof. change (Double.of_Z 0) with (S754_zero false). unfold Double.ltb, SFltb. by destruct x as [[]|[]| |[] m e]. Qed.

(** A key that is a whole number (an amount in whole units, or a date in milliseconds) *)
Definition integral (k : SortKey) (val : Invoice → Z) (i : Invoice) : Prop :=
  sort_value k i = Double.of_Z (val i) ∧ Z.abs (val i) < 2 ^ 52.

Definition in_direction (d : SortDirection) (x y : Z) : Prop := match d with asc => x <= y | desc => y <= x end.

Lemma not_after_integers (k : SortKey) (d : SortDirection) (val : Invoice → Z) (x y : Invoice) :
  integral k val x → integral k val y → not_after k d x y = true ↔ in_direction d (val x) (val y).
Proof.
  intros [Hx ?] [Hy ?]. unfold not_after, compare, sortFunctions, in_direction. rewrite Hx, Hy.
  assert (∀ z, Z.abs z < 2 ^ 53 → Double.safe z) as Hsafe by done.
  rewrite Double.sub_integers by (apply Hsafe; lia). destruct d.
  - rewrite Double.ltb_integers by (apply Hsafe; lia). rewrite <- Z.leb_antisym, Z.leb_le. lia.
  - rewrite ltb_opp, Double.ltb_integers by (apply Hsafe; lia). rewrite <- Z.leb_antisym, Z.leb_le. lia.
Qed.

(** Such keys can be compared. *)
Lemma integral_keys (k : SortKey) (d : SortDirection) (l : list Invoice) (val : Invoice → Z) :
  (∀ i, i ∈ l → integral k val i) → preorder_on (not_after k d) l.
Proof.
  intros Hval. split.
  - intros x y Hx Hy. rewrite !(not_after_integers k d val) by auto. unfold in_direction. destruct d; lia.
  - intros x y z Hx Hy Hz. rewrite !(not_after_integers k d val) by auto. unfold in_direction. destruct d; lia.
Qed.

Lemma strongly_sorted_mono {A : Type} (R S : A → A → Prop) (l : list A) :
  (∀ x y, x ∈ l → y ∈ l → R x y → S x y) → StronglySorted R l → StronglySorted S l.
Proof.
  intros H Hl. induction Hl as [|x l Hl IH Hx]; constructor; [apply IH; set_solver|].
  rewrite Forall_forall in *. intros y Hy. apply H; [set_solver|set_solver|by apply Hx].
Qed.

(** The pages of the table, one after the other, are the invoices that match the filters,
    each once, at most ten to a page, sorted by the selected column in the selected direction
    (on keys that are whole numbers: by their values), invoices with equal keys staying in the
    order in which they were given, also when the direction is reversed; provided the keys can
    be compared. *)
Theorem table_rows (s : Table) (Hkeys : preorder_on (not_after (sortKey s) (sortDirection s)) (invoices s)) :
  let rows := concat (map (rows_of_page s) (seqZ 1 (pageCount s))) in
  rows ≡ₚ List.filter (matches s) (invoices s) ∧
  ordered (not_after (sortKey s) (sortDirection s)) rows ∧
  (∀ val, (∀ i, i ∈ invoices s → integral (sortKey s) val i) →
     StronglySorted (λ a b, in_direction (sortDirection s) (val a) (val b)) rows) ∧
  (∀ i, i ∈ filteredInvoices s → List.filter (equiv (not_after (sortKey s) (sortDirection s)) i) rows =
     List.filter (equiv (not_after (sortKey s) (sortDirection s)) i) (filteredInvoices s)) ∧
  ∀ p, (length (rows_of_page s p) <= 10)%nat.
Proof.
  pose proof (pageCount_bounds s) as (H1 & H2 & _). unfold PAGE_SIZE in H2.
  assert (concat (map (rows_of_page s) (seqZ 1 (pageCount s))) = sortedInvoices s) as ->.
  { rewrite <- (Z2Nat.id (pageCount s)) by lia. unfold rows_of_page. rewrite pages_concat. apply take_ge. lia. }
  assert (∀ x, x ∈ filteredInvoices s → x ∈ invoices s) as Hsub by (intros x Hx; by apply elem_of_filter_b in Hx as [? ?]).
  pose proof (preorder_on_sub _ _ _ Hkeys Hsub) as Hf. cbn zeta. unfold sortedInvoices.
  split; [apply sort_perm|]. split; [by apply sort_ordered|]. split; [|split].
  - intros val Hval. eapply strongly_sorted_mono; [|by apply sort_ordered].
    intros x y Hx Hy. rewrite sort_perm in Hx, Hy. apply not_after_integers; auto.
  - intros i Hi. apply sort_stable. eapply preorder_on_sub; [exact Hf|]. intros x Hx. apply elem_of_cons in Hx as [->|?]; done.
  - intros p. unfold rows_of_page, slice, PAGE_SIZE. rewrite length_take. lia.
Qed.

(** ** Announcements *)

(** Nothing has been sorted and nothing announced, or what is or will be announced last is the
    order of the table. *)
Definition announces (s : Table) : Prop :=
  (announceCounter s = 0 ∧ frames s = [] ∧ sortAnnounce s = EmptyString) ∨
  (0 < announceCounter s ∧ List.last (frames s) (sortAnnounce s) = sort_message (sortKey s) (sortDirection s)).

Lemma last_default_snoc {A : Type} (l : list A) (a d : A) : List.last (l ++ [a]) d = a.
Proof. induction l as [|b l IH]; [done|]. cbn. by destruct (l ++ [a]) eqn:E; [by destruct l|]. Qed.

Lemma last_default {A : Type} (a : A) (l : list A) (d d' : A) : List.last (a :: l) d = List.last (a :: l) d'.
Proof. revert a. induction l as [|b l IH]; intros a; [done|]. exact (IH b). Qed.

Lemma handleSort_announces (key : SortKey) (s : Table) : announces s → announces (handleSort key s).
Proof.
  intros H. right. assert (0 <= announceCounter s) by (destruct H as [[? _]|[? _]]; lia).
  unfold handleSort. case_bool_decide; cbn; (split; [lia|apply last_default_snoc]).
Qed.

Lemma snap_announces (s : Table) : announces (snap s) ↔ announces s.
Proof. unfold snap. by destruct (_ <? _). Qed.

(** When no frame is awaited, the live region says how the table is sorted, or nothing if the
    user has not sorted it yet. *)
Lemma announcement_current (s : Table) :
  reachable s → frames s = [] →
  sortAnnounce s = EmptyString ∨ sortAnnounce s = sort_message (sortKey s) (sortDirection s).
Proof.
  intros [props H] Hf. assert (announces s) as Ha.
  { refine (run_invariant step (λ _ _, True) announces _ _ _ H _); [|by left].
    intros e s1 s2 Hi _ Hs. destruct Hs as [e s1 He]. apply snap_announces.
    destruct e as [f|t|key|key ek| | | |l]; cbn [handle]; try exact Hi.
    - by apply handleSort_announces.
    - unfold handleSortKeypress. destruct (_ || _); [by apply handleSort_announces|done].
    - destruct Hi as [(H1 & H2 & H3)|[H1 H2]]; destruct (frames s1) as [|m ms] eqn:E; try done.
      + left. by rewrite E.
      + right. by rewrite E.
      + right. cbn in *. split; [done|]. destruct ms as [|m' ms]; [done|]. rewrite <- H2. apply last_default. }
  destruct Ha as [(_ & _ & ?)|[_ Hl]]; [by left|]. right. by rewrite Hf in Hl.
Qed.

End table.
End InvestorPortfolioTable.

(** ** A concrete portfolio *)
Module PortfolioExamples.
Import InvestorPortfolioTable.

#[local] Instance locale_ex : Locale := {|
  getTime := λ s, if String.eqb s "2026-01-02" then Double.of_Z 1767312000000 else Double.of_Z 1767225600000;
  formatCurrency := λ x, ("$" +:+ Double.to_string x)%string;
  formatDate := λ s, s |}.

Definition invoice_ex (id : string) (amount : Z) (dueDate : string) (t : TokenType) : Invoice :=
  mkInvoice id "Ana" "Maize" (Double.of_Z amount) (Double.of_string "4.5") (Double.of_Z (amount + 10)) dueDate FUNDED t.

Definition invoices_ex : list Invoice :=
  [invoice_ex "a" 300 "2026-01-02" XLM; invoice_ex "b" 100 "2026-01-01" USDC; invoice_ex "c" 300 "2026-01-01" XLM;
   invoice_ex "d" 200 "2026-01-02" XLM].

Definition table_ex : Table := handle (Click k_fundedAmount) (handle (Click k_fundedAmount) (initial invoices_ex)).

Definition amount_ex (i : Invoice) : Z :=
  if String.eqb (id i) "b" then 100 else if String.eqb (id i) "d" then 200 else 300.

Lemma keys_ex : preorder_on (not_after (sortKey table_ex) (sortDirection table_ex)) (invoices table_ex).
Proof.
  apply integral_keys with (val := amount_ex). intros i H. unfold integral.
  change (i ∈ invoices_ex) in H. unfold invoices_ex in H. rewrite !elem_of_cons in H.
  destruct H as [->|[->|[->|[->|[]%elem_of_nil]]]]; (split; [reflexivity|done]).
Qed.

(** Descending by amount: "a" and "c" have equal amounts and keep their order. *)
Lemma table_rows_witness :
  map id (concat (map (rows_of_page table_ex) (seqZ 1 (pageCount table_ex)))) = ["a"; "c"; "d"; "b"]%string ∧
  concat (map (rows_of_page table_ex) (seqZ 1 (pageCount table_ex))) ≡ₚ List.filter (matches table_ex) (invoices table_ex).
Proof. split; [vm_compute; reflexivity|]. apply (table_rows table_ex keys_ex). Defined.

Definition twelve : list Invoice := replicate 12 (invoice_ex "x" 5 "2026-01-01" USDC).

(** On the second page of twelve rows; then the invoices shrink to three. *)
Definition second_page : Table := snap (handle Next (initial twelve)).
Definition shrunk : Table := snap (handle (Props (take 3 twelve)) second_page).

Lemma page_in_bounds_witness :
  page second_page = 2 ∧ length (pageInvoices second_page) = 2%nat ∧ page shrunk = 1 ∧
  1 <= page shrunk <= pageCount shrunk.
Proof.
  split; [vm_compute; reflexivity|]. split; [vm_compute; reflexivity|]. split; [vm_compute; reflexivity|].
  assert (reachable shrunk) as H.
  { exists twelve. apply (run_more _ _ (Props (take 3 twelve)) _ second_page); [|exact I|apply step_event; reflexivity].
    apply (run_more _ _ Next _ (initial twelve)); [apply run_none|exact I|apply step_event; vm_compute; reflexivity]. }
  exact (proj1 (page_in_bounds shrunk H)).
Defined.

(** The last of twelve rows has the index 13 of a table that says it has 12 rows: the count
    leaves out the header row, which the indices count. *)
Example rowindex_exceeds_rowcount :
  match render second_page with
  | Some v => r_index <$> last (v_rows v) = Some 13 ∧ v_rowcount v = 12 ∧ v_pages v = "Page 2 of 2"%string
  | None => False
  end.
Proof. vm_compute. repeat split. Qed.

(** Dates that cannot be read compare as equal to every date, which is no order. *)
Example invalid_dates :
  let nan := {| getTime := λ s, if String.eqb s "soon" then S754_nan else if String.eqb s "1" then Double.of_Z 1 else Double.of_Z 2;
                formatCurrency := Double.to_string; formatDate := λ s, s |} in
  let le a b := not_after (LC := nan) k_dueDate asc (invoice_ex "i" 1 a XLM) (invoice_ex "j" 1 b XLM) in
  le "2" "soon" = true ∧ le "soon" "1" = true ∧ le "2" "1" = false.
Proof. vm_compute. repeat split. Qed.
End PortfolioExamples.
