(* ===== verification/Live.v ===== *)
(** * Live updates and cached pages ([notifications/notifications.gateway.ts],
    [notification/notification.service.ts], [pool/pool.service.ts]; web client:
    [hooks/useInvoiceNotifications.ts], [app/dashboard/farmer/page.tsx],
    [components/OfflineIndicator.tsx], [app/dashboard/investor/pool/page.tsx], [public/sw.js])

    Lifecycle events from the gateway over the sockets to the rows of the farmer's dashboard,
    the indicator of the connection, the pool's figures, and the service worker between the
    pages and the network.  The sockets' transport and [fetch] are the environment. *)
From S2P Require Import Prelude Js Schema Errors Prisma Auth Double.
From Stdlib Require Import SpecFloat.
Open Scope Z_scope.

Inductive InvoiceEventType := created | submitted | funded | repaid | defaulted.

#[export] Instance InvoiceEventType_eq : EqDecision InvoiceEventType.
Proof. solve_decision. Defined.

Definition event_text (e : InvoiceEventType) : string :=
  match e with created => "created" | submitted => "submitted" | funded => "funded" | repaid => "repaid" | defaulted => "defaulted" end.

Record InvoiceEvent := mkEvent { invoiceId : Z; event : InvoiceEventType; actor : option string; timestamp : string }.

(** ** The client's hook and the farmer's dashboard *)
Module FarmerDashboard.

Record Invoice := mkInvoice { id : Z; status : string; amount : Z }.

Definition initial_invoices : list Invoice := [mkInvoice 1 "created" 5000; mkInvoice 2 "submitted" 12000].

(** The page: the hook's events, newest first, and its connection; the events that the effect has
    seen (a change of the array runs it), and the rows. *)
Record Page := mkPage { events : list InvoiceEvent; connected : bool; seen : nat; invoices : list Invoice }.

Definition initial : Page := mkPage [] true 0 initial_invoices.

(** [useInvoiceNotifications]: the handlers of the socket *)
Definition on_connect (p : Page) : Page := mkPage (events p) true (seen p) (invoices p).
Definition on_disconnect (p : Page) : Page := mkPage (events p) false (seen p) (invoices p).
Definition on_invoice_event (e : InvoiceEvent) (p : Page) : Page := mkPage (e :: events p) (connected p) (seen p) (invoices p).

Definition update_row (latestEvent : InvoiceEvent) (invoice : Invoice) : Invoice :=
  if id invoice =? invoiceId latestEvent then mkInvoice (id invoice) (event_text (event latestEvent)) (amount invoice) else invoice.

(** The page renders, and its effect runs if the events have changed. *)
Definition rendered (p : Page) : Page :=
  if (seen p =? length (events p))%nat then p
  else match events p with
       | [] => p
       | latestEvent :: _ => mkPage (events p) (connected p) (length (events p)) (map (update_row latestEvent) (invoices p))
       end.

Inductive Event := Connect | Disconnect | Receive (e : InvoiceEvent) | Render.

Inductive step : Event → Page → Page → Prop :=
| step_connect p : step Connect p (on_connect p)
| step_disconnect p : step Disconnect p (on_disconnect p)
| step_receive e p : connected p = true → step (Receive e) p (on_invoice_event e p)
| step_render p : step Render p (rendered p).

(** The status that the events received so far give an invoice *)
Definition latest_status (evs : list InvoiceEvent) (i : Invoice) : string :=
  match List.find (λ e, id i =? invoiceId e) evs with Some e => event_text (event e) | None => status i end.

Definition follows (evs : list InvoiceEvent) (i : Invoice) : Invoice := mkInvoice (id i) (latest_status evs i) (amount i).

(** Each event finds the page rendered. *)
Definition one_at_a_time (e : Event) (p : Page) : Prop :=
  match e with Receive _ => seen p = length (events p) | _ => True end.

Definition follows_inv (p : Page) : Prop :=
  (seen p = length (events p) ∧ invoices p = map (follows (events p)) initial_invoices) ∨
  (∃ e evs, events p = e :: evs ∧ seen p = length evs ∧ invoices p = map (follows evs) initial_invoices).

Lemma update_follows (e : InvoiceEvent) (evs : list InvoiceEvent) (i : Invoice) :
  update_row e (follows evs i) = follows (e :: evs) i.
Proof.
  unfold update_row, follows, latest_status. cbn. by destruct (id i =? invoiceId e).
Qed.

(** As long as the page is rendered between any two events, once it is rendered every
    row shows the event that was received last for its invoice, whatever was received for the
    others, and its first status if there was none. *)
Theorem rows_follow_events (p : Page) (H : run step one_at_a_time initial p) :
  invoices (rendered p) = map (follows (events p)) initial_invoices.
Proof.
  assert (follows_inv p) as HI.
  { refine (run_invariant step one_at_a_time follows_inv _ _ _ H _); [|by left].
    intros e p1 p2 HI Ha Hs. destruct Hs as [p1|p1|e p1 Hc|p1]; try exact HI.
    - cbn in Ha. right. destruct HI as [[Hs Hi]|(e0 & evs & He & Hs & Hi)]; [by exists e, (events p1)|].
      rewrite He in Ha. cbn in Ha. lia.
    - left. unfold rendered. destruct HI as [[Hs Hi]|(e0 & evs & He & Hs & Hi)].
      + by rewrite Hs, Nat.eqb_refl.
      + rewrite He, Hs. cbn [length]. rewrite (proj2 (Nat.eqb_neq _ _)) by lia. cbn [events seen invoices]. split; [done|].
        rewrite Hi, map_map. apply map_ext. intros i. apply update_follows. }
  unfold rendered. destruct HI as [[Hs Hi]|(e0 & evs & He & Hs & Hi)].
  - by rewrite Hs, Nat.eqb_refl.
  - rewrite He, Hs. cbn [length]. rewrite (proj2 (Nat.eqb_neq _ _)) by lia. cbn [invoices].
    rewrite Hi, map_map. apply map_ext. intros i. apply update_follows.
Qed.
End FarmerDashboard.

(** ** [notifications.gateway.ts] *)
Module NotificationsGateway.
Import FarmerDashboard.

(** The clients' pages, by the id of their socket *)
Notation Clients := (gmap nat Page).

(** [server.emit]: the connected clients receive the event; it is not kept for the others. *)
Definition emitInvoiceEvent (e : InvoiceEvent) (clients : Clients) : Clients :=
  (λ p, if connected p then on_invoice_event e p else p) <$> clients.

(** [publish_invoice_event]: from any socket *)
Definition handlePublish (from : nat) (e : InvoiceEvent) (clients : Clients) : Clients := emitInvoiceEvent e clients.

(** What one client publishes every connected client receives, the publisher included, as if the
    server had emitted it. *)
Lemma publish_is_emit (from : nat) (e : InvoiceEvent) (clients : Clients) (c : nat) (p : Page) :
  clients !! c = Some p → connected p = true →
  handlePublish from e clients !! c = Some (on_invoice_event e p).
Proof. intros Hc Hp. unfold handlePublish, emitInvoiceEvent. rewrite lookup_fmap, Hc. cbn. by rewrite Hp. Qed.
End NotificationsGateway.

(** ** [OfflineIndicator.tsx] *)
Module OfflineIndicator.

(** [timer]: a timer of 3 seconds is pending. *)
Record Indicator := mkIndicator { isConnected : bool; showBanner : bool; timer : bool }.

Definition BANNER_MS : Z := 3000.

(** The effect on [isConnected], after its cleanup has cleared the timer *)
Definition effect (isConnected : bool) (showBanner : bool) : Indicator :=
  if negb isConnected then mkIndicator isConnected true false else mkIndicator isConnected showBanner true.

Definition mounted (isConnected : bool) : Indicator := effect isConnected false.

Definition connection (b : bool) (i : Indicator) : Indicator :=
  if Bool.eqb b (isConnected i) then i else effect b (showBanner i).

Definition timeout (i : Indicator) : Indicator := if timer i then mkIndicator (isConnected i) false false else i.

Inductive Event := Connection (b : bool) | Timeout.

Inductive step : Event → Indicator → Indicator → Prop :=
| step_connection b i : step (Connection b) i (connection b i)
| step_timeout i : step Timeout i (timeout i).

(** The banner is shown as long as the connection is down; after that, until the timer fires. *)
Lemma banner_while_disconnected (b : bool) (i : Indicator) :
  run step (λ _ _, True) (mounted b) i →
  (isConnected i = false → showBanner i = true) ∧ (showBanner i = true → isConnected i = true → timer i = true).
Proof.
  intros H.
  assert ((isConnected i = false → showBanner i = true ∧ timer i = false) ∧
    (showBanner i = true → isConnected i = true → timer i = true)) as [H1 H2].
  { refine (run_invariant step (λ _ _, True) (λ i, (isConnected i = false → showBanner i = true ∧ timer i = false) ∧
      (showBanner i = true → isConnected i = true → timer i = true)) _ _ _ H _); [|by destruct b].
    intros e i1 i2 [I1 I2] _ Hs. destruct Hs as [c i1|i1].
    - unfold connection. destruct (Bool.eqb c (isConnected i1)); [done|]. by destruct c.
    - unfold timeout. destruct i1 as [[] [] []]; cbn in *; naive_solver. }
  split; [|done]. intros Hc. by apply H1.
Qed.
End OfflineIndicator.

(** ** [notification.service.ts]

    [table] is [this.prisma.notification], which [PrismaService] does not expose ([None]). *)
Module NotificationService.

Record Notification := mkNotification {
  n_id : string; n_userId : string; n_type : string; n_title : string; n_message : string;
  n_metadata : option string; n_read : bool; n_createdAt : Z }.

Record Data := mkData { d_userId : string; d_type : string; d_title : string; d_message : string; d_metadata : option string }.

Record NotificationTable (W : Type) := mkTable {
  create_row : Data → M exn W Notification;
  find_rows : (Notification → bool) → (Notification → Z) → M exn W (list Notification);
  update_row : string → (Notification → Notification) → M exn W Notification }.
Arguments create_row {W} _.
Arguments find_rows {W} _.
Arguments update_row {W} _.

Section service.
Context {W : Type} (table : option (NotificationTable W)).

Definition with_table {A : Type} (m : string) (op : NotificationTable W → M exn W A) : M exn W A :=
  match table with
  | Some t => op t
  | None => throw (TypeError ("Cannot read properties of undefined (reading '" +:+ m +:+ "')")%string)
  end.

Definition create (data : Data) : M exn W Notification := with_table "create" (λ t, create_row t data).

(** Newest first *)
Definition findByUserId (userId : string) : M exn W (list Notification) :=
  with_table "findMany" (λ t, find_rows t (λ n, String.eqb (n_userId n) userId) (λ n, - n_createdAt n)).

Definition markAsRead (id : string) : M exn W Notification :=
  with_table "update" (λ t, update_row t id (λ n, mkNotification (n_id n) (n_userId n) (n_type n) (n_title n) (n_message n) (n_metadata n) true (n_createdAt n))).
End service.

(** With the class [PrismaService] every operation is a TypeError. *)
Lemma never_notified {W : Type} (data : Data) (id : string) (w : W) :
  (∃ m, create None data w = (Throw (TypeError m), w)) ∧ (∃ m, findByUserId None id w = (Throw (TypeError m), w)) ∧
  (∃ m, markAsRead None id w = (Throw (TypeError m), w)).
Proof. split; [|split]; by eexists. Qed.
End NotificationService.

(** ** [pool.service.ts] and the investor's pool page *)
Module Pool.

Record PoolStats := mkStats {
  totalDeposited : double; totalFunded : double; utilizationPercentage : double; averageApy : double; activeInvoicesCount : double }.

Definition getPoolStats : PoolStats :=
  let totalDeposited := Double.of_Z 500000 in
  let totalFunded := Double.of_Z 350000 in
  mkStats totalDeposited totalFunded (Double.mul (Double.div totalFunded totalDeposited) (Double.of_Z 100))
    (Double.of_string "12.5") (Double.of_Z 42).

Example utilization_is_70 : Double.to_string (utilizationPercentage getPoolStats) = "70"%string.
Proof. vm_compute. reflexivity. Qed.

Record Dashboard := mkDashboard { stats : option JsValue; loading : bool; error : option JsValue }.

Definition initial : Dashboard := mkDashboard None true None.

Section fetch.
(** The response of [GET /pool/stats]: [ok], and the body as JSON *)
Context {N : Type} (fetch_stats : M exn N (bool * outcome exn JsValue)).

Definition start (d : Dashboard) : Dashboard := mkDashboard (stats d) true None.

Definition fetchStats : M exn (Dashboard * N) unit := λ '(d, n),
  let d := start d in
  let '(r, n') := (response ← fetch_stats;
                   if negb (fst response) then throw (JsError "Failed to fetch pool stats")
                   else AccessGuard.of_outcome (snd response)) n in
  let d := match r with
           | Ret data => mkDashboard (Some data) (loading d) (error d)
           | Throw err => mkDashboard (stats d) (loading d)
               (Some (JsString (let m := message err in if truthy m then m else "Unknown error")))
           end in
  (Ret tt, (mkDashboard (stats d) false (error d), n')).

(** A fetch never throws and always ends the loading; it shows the figures that came, or keeps
    the old ones and shows an error. *)
Lemma fetchStats_total (d : Dashboard) (n : N) :
  wp fetchStats (λ r '(d', _), r = Ret tt ∧ loading d' = false ∧
    (error d' = None ∧ stats d' ≠ None ∨ error d' ≠ None ∧ stats d' = stats d)) (d, n).
Proof.
  unfold wp, fetchStats. unfold mbind, M_bind. destruct (fetch_stats n) as [[[[] j]|e] n']; cbn; [destruct j|..]; cbn; auto 6.
Qed.
End fetch.

(** [Math.min(stats.utilizationPercentage, 100)] *)
Definition bar_width (utilization : double) : double :=
  if Double.ltb utilization (Double.of_Z 100) then utilization else if Double.leb (Double.of_Z 100) utilization then Double.of_Z 100 else S754_nan.
End Pool.

(** ** [ConflictResolution.tsx] *)
Module ConflictResolution.

Inductive Resolution := local | server | merge.

Record View := mkView { v_title : string; v_description : string; v_banner : bool; v_editor : bool; v_note : string; v_buttons : list (Resolution * string * bool) }.

(** A button: the resolution it calls [onResolve] with, its text, and whether it is enabled. *)
Definition render (title description : option string) (isReplayConflict mergeEditor : bool) : View :=
  let defaultTitle := if isReplayConflict then "Offline Change Conflict"%string else "Data Conflict Detected"%string in
  let defaultDescription :=
    if isReplayConflict
    then "A change you made while offline conflicts with an update made on the server. Choose how to resolve this before your offline change can be applied."%string
    else "Your local changes conflict with the latest server data. Choose how to resolve this."%string in
  mkView (default defaultTitle title) (default defaultDescription description) isReplayConflict mergeEditor
    (if isReplayConflict
     then "No data has been lost. Your offline change is still queued and will only be discarded if you choose 'Use Latest Data'."%string
     else "Note: This conflict was detected after reconnecting. No data has been lost, and you can review both versions above."%string)
    [(local, if isReplayConflict then "Apply Offline Change"%string else "Keep My Changes"%string, true);
     (server, "Use Latest Data"%string, true);
     (merge, "Merge Changes"%string, mergeEditor)].
End ConflictResolution.

(** ** [public/sw.js] and [useServiceWorker.ts] *)
Module ServiceWorker.

Record Request := mkRequest { method : string; url : string }.
Record Response := mkResponse { status : Z; is_error : bool; text : string }.

Definition CACHE_NAME : string := "invoicefi-v1".
Definition STATIC_ASSETS : list string := ["/"; "/dashboard/investor/pool"].

(** The caches of the origin, by name and by URL *)
Notation Caches := (gmap string (gmap string Response)).

Section worker.
Context {N : Type} (fetch : Request → M exn N Response).

Definition put (url : string) (r : Response) (c : Caches) : Caches := <[CACHE_NAME := <[url := r]> (default ∅ (c !! CACHE_NAME))]> c.

(** [caches.match]: in whichever cache has it; the worker only ever fills one. *)
Definition match_ (url : string) (c : Caches) : option Response := c !! CACHE_NAME ≫= λ m, m !! url.

(** [cache.addAll]: all the responses are fetched first, and must be successful. *)
Fixpoint add_all (urls : list string) : M exn N (list (string * Response)) :=
  match urls with
  | [] => mret []
  | u :: urls' =>
      r ← fetch (mkRequest "GET" u);
      if (200 <=? status r) && (status r <=? 299) then l ← add_all urls'; mret ((u, r) :: l)
      else throw (TypeError "Request failed")
  end.

Definition install : M exn (Caches * N) unit := λ '(c, n),
  let c := <[CACHE_NAME := default ∅ (c !! CACHE_NAME)]> c in
  match add_all STATIC_ASSETS n with
  | (Ret l, n') => (Ret tt, (fold_left (λ c '(u, r), put u r c) l c, n'))
  | (Throw _, n') => (Ret tt, (c, n'))
  end.

Definition activate (c : Caches) : Caches := filter (λ e, e.1 = CACHE_NAME) c.

Definition offline : Response := mkResponse 503 false "Offline - no cached response available".

Definition storable (r : Response) : bool := (status r =? 200) && negb (is_error r).

(** [None]: the worker does not respond, and the browser goes to the network. *)
Definition handle_fetch (request : Request) : option (M exn (Caches * N) Response) :=
  if negb (String.eqb (method request) "GET") || negb (startsWith (url request) "http") then None
  else if includes (url request) "/api/" then
    Some (λ '(c, n),
      match fetch request n with
      | (Ret r, n') => (Ret r, (if storable r then put (url request) r c else c, n'))
      | (Throw _, n') => (Ret (default offline (match_ (url request) c)), (c, n'))
      end)
  else
    Some (λ '(c, n),
      match match_ (url request) c with
      | Some r => (Ret r, (c, n))
      | None => on_world (fetch request) (c, n)
      end).

(** A request for the API: the worker is asked, the method is GET. *)
Definition api_request (request : Request) : Prop :=
  method request = "GET"%string ∧ startsWith (url request) "http" = true ∧ includes (url request) "/api/" = true.

Lemma match_put (u : string) (r : Response) (c : Caches) : match_ u (put u r c) = Some r.
Proof. unfold match_, put. by rewrite lookup_insert_eq; cbn; rewrite lookup_insert_eq. Qed.

Lemma match_put_ne (u v : string) (r : Response) (c : Caches) : v ≠ u → match_ v (put u r c) = match_ v c.
Proof.
  intros Hne. unfold match_, put. rewrite lookup_insert_eq. cbn. rewrite lookup_insert_ne by done.
  destruct (c !! CACHE_NAME); [done|]. cbn. apply lookup_empty.
Qed.

(** A GET of the API is always answered: with what the network answers, or, when it fails, with
    the response that is cached for the URL, however old, or with a 503.  A response with the
    status 200 becomes the cached one of its URL (whoever asked, and whoever asks next); no other
    entry changes. *)
Theorem api_answer (request : Request) (c : Caches) (n : N) (Hr : api_request request) :
  ∃ answer r c', handle_fetch request = Some answer ∧ answer (c, n) = (Ret r, (c', (fetch request n).2)) ∧
    match (fetch request n).1 with
    | Ret r0 => r = r0 ∧ match_ (url request) c' = (if storable r0 then Some r0 else match_ (url request) c)
    | Throw _ => r = default offline (match_ (url request) c) ∧ c' = c
    end ∧
    ∀ v, v ≠ url request → match_ v c' = match_ v c.
Proof.
  destruct Hr as (Hm & Hu & Ha). unfold handle_fetch. rewrite Hm, Hu, Ha. cbn [String.eqb negb orb].
  change (String.eqb "GET" "GET") with true. cbn [negb orb]. eexists. destruct (fetch request n) as [[r|e] n'] eqn:E.
  - exists r, (if storable r then put (url request) r c else c). split; [done|]. split; [cbn beta iota; by rewrite E|].
    cbn [fst]. destruct (storable r); [|done]. split; [split; [done|apply match_put]|]. intros v Hv. by apply match_put_ne.
  - eexists _, c. split; [done|]. split; [cbn beta iota; by rewrite E|]. done.
Qed.

(** A page is never fetched again once it is cached: what was there at the installation is shown. *)
Lemma cached_page_is_final (request : Request) (c : Caches) (n : N) (r : Response) :
  method request = "GET"%string → startsWith (url request) "http" = true → includes (url request) "/api/" = false →
  match_ (url request) c = Some r →
  ∃ answer, handle_fetch request = Some answer ∧ answer (c, n) = (Ret r, (c, n)).
Proof.
  intros Hm Hu Ha Hc. unfold handle_fetch. rewrite Hm, Hu, Ha. change (String.eqb "GET" "GET") with true. cbn.
  eexists. split; [done|]. cbn. by rewrite Hc.
Qed.
End worker.

(** *** The hook *)
Record Status := mkStatus { isRegistered : bool; updateAvailable : bool; interval : bool }.

(** [register] and each [registration.update()]: whether it threw, and whether a worker waits *)
Definition registered (ok : bool) (s : Status) : Status := if ok then mkStatus true (updateAvailable s) true else s.
Definition checkForUpdates (ok waiting : bool) (s : Status) : Status :=
  if ok && waiting then mkStatus (isRegistered s) true (interval s) else s.
(** [statechange] of a new worker *)
Definition statechange (installed controlled : bool) (s : Status) : Status :=
  if installed && controlled then mkStatus (isRegistered s) true (interval s) else s.
(** The cleanup that [registerSW] returns is not what the effect returns: unmounting clears
    nothing. *)
Definition unmounted (s : Status) : Status := s.
End ServiceWorker.

(** ** Concrete runs *)
Module LiveExamples.
Import FarmerDashboard.

Definition event_ex (invoiceId : Z) (e : InvoiceEventType) : InvoiceEvent := mkEvent invoiceId e None "2026-01-01T00:00:00.000Z".

Lemma rows_follow_events_witness :
  let p := rendered (on_invoice_event (event_ex 2 funded) (rendered (on_invoice_event (event_ex 1 funded) initial))) in
  map status (invoices (rendered p)) = ["funded"; "funded"]%string ∧
  invoices (rendered p) = map (follows (events p)) initial_invoices.
Proof.
  cbn zeta. split; [reflexivity|]. apply rows_follow_events.
  eapply run_more with (e := Render); [|exact I|apply step_render].
  eapply run_more with (e := Receive (event_ex 2 funded)); [| |apply step_receive]; [|reflexivity|reflexivity].
  eapply run_more with (e := Render); [|exact I|apply step_render].
  eapply run_more with (e := Receive (event_ex 1 funded)); [apply run_none| |apply step_receive]; reflexivity.
Defined.

(** Two events that arrive between two renders: only the newer one reaches the rows. *)
Example batched_event_lost :
  map status (invoices (rendered (on_invoice_event (event_ex 2 funded) (on_invoice_event (event_ex 1 funded) initial)))) =
    ["created"; "funded"]%string.
Proof. reflexivity. Qed.

(** An event that is sent while a client is disconnected is not sent again. *)
Example missed_while_disconnected :
  let clients := NotificationsGateway.emitInvoiceEvent (event_ex 1 funded) {[7%nat := on_disconnect initial]} in
  (λ p, invoices (rendered (on_connect p))) <$> clients !! 7%nat = Some initial_invoices.
Proof. reflexivity. Qed.

(** A server that answers with the name of the user of the moment. *)
Definition fetch_ex (r : ServiceWorker.Request) : M exn (option string) ServiceWorker.Response := λ u,
  match u with Some name => (Ret (ServiceWorker.mkResponse 200 false name), u) | None => (Throw (TypeError "Failed to fetch"), u) end.

Definition request_ex : ServiceWorker.Request := ServiceWorker.mkRequest "GET" "https://app/api/me".

(** What one user was answered is served, offline, to whoever asks next. *)
Lemma api_answer_witness :
  let c := ServiceWorker.put "https://app/api/me" (ServiceWorker.mkResponse 200 false "ana") ∅ in
  ∃ answer, ServiceWorker.handle_fetch fetch_ex request_ex = Some answer ∧
    (answer (∅, Some "ana"%string)).2.1 = c ∧ answer (c, None) = (Ret (ServiceWorker.mkResponse 200 false "ana"), (c, None)).
Proof.
  cbn zeta. destruct (ServiceWorker.api_answer fetch_ex request_ex
    (ServiceWorker.put "https://app/api/me" (ServiceWorker.mkResponse 200 false "ana") ∅) None
    (conj eq_refl (conj eq_refl eq_refl))) as (answer & r & c' & Ha & _).
  exists answer. split; [exact Ha|]. injection Ha as <-. split; reflexivity.
Defined.
End LiveExamples.
