(* ===== verification/Finance.v ===== *)
(** * Financial calculations ([common/financial-calculations.ts])

    Discounts, fees, pool utilization and repayments on IEEE doubles; [Math.pow], which the
    language does not determine, is a parameter. *)
From S2P Require Import Prelude Js Schema Errors Auth Double.
From Stdlib Require Import SpecFloat.
Open Scope Z_scope.

Module FinancialCalculations.

Definition dbl := Double.of_Z.

(** [x < 0], [x > n] and [x === 0] *)
Definition negative (x : double) : bool := Double.ltb x (dbl 0).
Definition above (x : double) (n : Z) : bool := Double.ltb (dbl n) x.
Definition is_zero (x : double) : bool := Double.eqb x (dbl 0).

(** [Math.round(x * 100) / 100] *)
Definition cents (x : double) : double := Double.div (Double.round (Double.mul x (dbl 100))) (dbl 100).

(** An amount and a rate in basis points *)
Definition invalid (amount rate : double) : bool := negative amount || negative rate || above rate 10000.

Definition calculateDiscount (faceValue discountRate : double) : outcome exn double :=
  if invalid faceValue discountRate
  then Throw (JsError "Invalid input: faceValue must be >= 0, discountRate must be 0-10000 bps")
  else Ret (cents (Double.div (Double.mul faceValue discountRate) (dbl 10000))).

Definition calculateAdvanceAmount (faceValue discountRate : double) : outcome exn double :=
  if invalid faceValue discountRate then Throw (JsError "Invalid input")
  else match calculateDiscount faceValue discountRate with
       | Throw e => Throw e
       | Ret discount => Ret (Double.sub faceValue discount)
       end.

Definition calculateFeeAmount (amount feeRate : double) : outcome exn double :=
  if invalid amount feeRate then Throw (JsError "Invalid input")
  else Ret (cents (Double.div (Double.mul amount feeRate) (dbl 10000))).

Definition calculatePoolUtilization (totalFunded totalDeposited : double) : outcome exn double :=
  if is_zero totalDeposited then Ret (dbl 0)
  else if negative totalFunded || negative totalDeposited || Double.ltb totalDeposited totalFunded
  then Throw (JsError "Invalid input: funded must be <= deposited and both >= 0")
  else Ret (Double.div (Double.round (Double.mul (Double.div totalFunded totalDeposited) (dbl 10000))) (dbl 100)).

Section repayment.
Variable Math_pow : double → double → double.

Definition calculateRepaymentScheduleAmount (principalRemaining numberOfPayments interestRate : double) : outcome exn double :=
  if Double.leb numberOfPayments (dbl 0) || negative principalRemaining || negative interestRate
  then Throw (JsError "Invalid input")
  else if is_zero numberOfPayments then Ret (dbl 0)
  else if is_zero interestRate then Ret (Double.div principalRemaining numberOfPayments)
  else
    let monthlyRate := Double.div (Double.div interestRate (dbl 100)) (dbl 12) in
    let growth := Math_pow (Double.add (dbl 1) monthlyRate) numberOfPayments in
    let numerator := Double.mul (Double.mul principalRemaining monthlyRate) growth in
    let denominator := Double.sub growth (dbl 1) in
    Ret (cents (Double.div numerator denominator)).

Definition calculateTotalRepaymentAmount (principalRemaining numberOfPayments interestRate : double) : outcome exn double :=
  match calculateRepaymentScheduleAmount principalRemaining numberOfPayments interestRate with
  | Throw e => Throw e
  | Ret paymentAmount => Ret (cents (Double.mul paymentAmount numberOfPayments))
  end.

(** The guard already refuses what the test for no payments would let through: it never returns. *)
Lemma no_payments_refused (principal payments rate : double) :
  is_zero payments = true → calculateRepaymentScheduleAmount principal payments rate = Throw (JsError "Invalid input").
Proof.
  intros H. unfold calculateRepaymentScheduleAmount.
  assert (Double.leb payments (dbl 0) = true) as ->; [|done].
  unfold is_zero, Double.eqb, SFeqb in H. unfold Double.leb, SFleb. destruct (SFcompare _ _) as [[]|]; done.
Qed.
End repayment.

(** ** Facts *)

(** On whole numbers the calculations refuse exactly the amounts below zero and the rates outside
    0 to 10000 basis points. *)
Lemma invalid_integers (amount rate : Z) :
  Double.safe amount → Double.safe rate →
  invalid (dbl amount) (dbl rate) = negb ((0 <=? amount) && (0 <=? rate) && (rate <=? 10000)).
Proof.
  intros Ha Hr. unfold invalid, negative, above, dbl.
  rewrite !Double.ltb_integers by done. rewrite !Z.leb_antisym.
  by destruct (amount <? 0), (rate <? 0), (10000 <? rate).
Qed.

Lemma mul_zero_integer (n : Z) : 0 <= n → Double.safe n → Double.mul (dbl n) (dbl 0) = dbl 0.
Proof.
  intros Hn Hs. destruct n as [|n|n]; [done| |lia].
  destruct (Double.of_Z_finite n Hs) as (m & Hm & _). unfold dbl, Double.mul. by rewrite Hm.
Qed.

(** Without a discount the advance is the whole face value. *)
Lemma no_discount (n : Z) : 0 <= n → Double.safe n → calculateAdvanceAmount (dbl n) (dbl 0) = Ret (dbl n).
Proof.
  intros Hn Hs. unfold calculateAdvanceAmount, calculateDiscount. rewrite invalid_integers by done.
  rewrite (proj2 (Z.leb_le 0 n)) by done. cbn [negb andb Z.leb Z.compare].
  rewrite mul_zero_integer by done.
  change (cents (Double.div (dbl 0) (dbl 10000))) with (dbl 0). unfold dbl.
  rewrite Double.sub_integers by (done || unfold Double.safe in *; lia). by rewrite Z.sub_0_r.
Qed.

(** A value that is not a number passes every guard. *)
Example nan_accepted : calculateDiscount S754_nan (dbl 500) = Ret S754_nan.
Proof. vm_compute. reflexivity. Qed.

(** The rounding to cents goes through a double product: 1.005 is rounded down. *)
Example cents_of_1005 : Double.to_string (cents (Double.of_string "1.005")) = "1"%string.
Proof. vm_compute. reflexivity. Qed.

(** A discount on a face value with cents leaves an advance that is not a number of cents. *)
Example advance_not_in_cents :
  match calculateAdvanceAmount (Double.of_string "100.1") (dbl 1) with
  | Ret x => Double.to_string x = "100.08999999999999"%string
  | Throw _ => False
  end.
Proof. vm_compute. reflexivity. Qed.
End FinancialCalculations.
